(** * CoinWhistle: alert engine, dispatcher and price history

    A shallow embedding of the parts of the monitoring bot that decide
    when an alert fires, how often it is repeated and when it stops:
    [models.py] (enumerations, [Alert], [PriceHistory]), [config.py]
    (big-order thresholds, night mode, user registry), [alert_engine.py]
    (cooldown table), [notifier.py] (pending and confirmed registries,
    repeat loop) and [telegram_bot.py] (mute).  It also covers the path
    of the market data to the alerts: [binance_client.py] (handlers of
    the ticker streams, statistics of the order book), [models.py]
    (market data, volume ratio, price range), [alert_engine.py] (levels,
    evaluation of tickers, order books and spreads), and the expiry of
    mutes and the switch of the daytime mode.

    Conventions of the embedding.
    - A Python [datetime] is an integer number of microseconds ([Z]); a
      [timedelta] is a difference of two such numbers.
    - A Python [float] is a rational number ([Q]): rounding, infinities
      and NaN are not modelled.  Division raises [ZeroDivisionError] on a
      zero divisor, as in Python.
    - A Python [str] is a [string] of 8-bit characters; [upper], [strip]
      and the [%H:%M] parser follow Python on ASCII text.
    - A Python [dict] whose iteration order is observed is an insertion
      ordered association list ([odict]); the others are [gmap]s.
    - [Alert] objects live in a store indexed by object identity, so that
      the registries alias them the way the Python objects are aliased.
    - Every method takes the clock reading [now] as an argument; a call
      that reads the clock several times is given one reading, except
      for a candidate firing, whose check and write are given one each.
    - A call runs to its end before another starts: the tasks interleave
      only where the Python code awaits.
    - The [chat_id] of a user and the order of the registry of users are
      read only when the notice of an ended mute is refused; the pass
      that sends it takes them as arguments. *)

From Stdlib Require Import ZArith QArith Qminmax Lqa Ascii String List Sorted Lia Bool.
From stdpp Require Import base decidable option list countable gmap strings.

Local Open Scope string_scope.
Local Open Scope Z_scope.

(* ===================================================================== *)
(** ** Python built-ins used by the sources                               *)
(* ===================================================================== *)

(** Result of a computation that may raise. *)
Inductive pyres (A : Type) : Type :=
| Ok (a : A)
| ZeroDivisionError.
Arguments Ok {A} a.
Arguments ZeroDivisionError {A}.

(** [x / y] on floats. *)
Definition py_truediv (x y : Q) : pyres Q :=
  if Qeq_bool y 0 then ZeroDivisionError else Ok (x / y)%Q.

(** [max(a, b)]: the first argument is kept unless the second is greater. *)
Definition py_max (a b : Q) : Q :=
  if Qle_bool b a then a else b.

(** [timedelta(seconds=n)] in microseconds. *)
Definition timedelta_seconds (n : Z) : Z := n * 1000000.

(** [timedelta(minutes=n)] in microseconds. *)
Definition timedelta_minutes (n : Z) : Z := n * 60 * 1000000.

(** [c.upper()] for one ASCII character. *)
Definition upper_ascii (c : ascii) : ascii :=
  let n := nat_of_ascii c in
  if (97 <=? n)%nat && (n <=? 122)%nat then ascii_of_nat (n - 32) else c.

(** [s.upper()]. *)
Fixpoint upper (s : string) : string :=
  match s with
  | EmptyString => EmptyString
  | String c r => String (upper_ascii c) (upper r)
  end.

(** Characters removed by [str.strip()] (ASCII white space). *)
Definition is_space (c : ascii) : bool :=
  let n := nat_of_ascii c in
  ((9 <=? n)%nat && (n <=? 13)%nat) || ((28 <=? n)%nat && (n <=? 32)%nat).

Fixpoint lstrip (s : string) : string :=
  match s with
  | EmptyString => EmptyString
  | String c r => if is_space c then lstrip r else s
  end.

(** Drops trailing white space: a character is kept when it is not a
    space or when something non-blank follows it. *)
Fixpoint rstrip (s : string) : string :=
  match s with
  | EmptyString => EmptyString
  | String c r =>
      match rstrip r with
      | EmptyString => if is_space c then EmptyString else String c EmptyString
      | r' => String c r'
      end
  end.

(** [s.strip()]. *)
Definition strip (s : string) : string := rstrip (lstrip s).

(** [s.startswith(p)]. *)
Definition startswith (s p : string) : bool := String.prefix p s.

(** [p in s] for strings: [p] occurs in [s]. *)
Fixpoint contains (s p : string) : bool :=
  String.prefix p s ||
  match s with
  | EmptyString => false
  | String _ r => contains r p
  end.

(** [s.endswith(p)]. *)
Fixpoint endswith (s p : string) : bool :=
  String.eqb s p ||
  match s with
  | EmptyString => false
  | String _ r => endswith r p
  end.

(** [s.replace('USDT', '')]: every occurrence, scanning left to right. *)
Fixpoint replace_USDT (s : string) : string :=
  match s with
  | EmptyString => EmptyString
  | String a t1 =>
      match t1 with
      | String b (String c (String d r)) =>
          if Ascii.eqb a "U" && Ascii.eqb b "S" && Ascii.eqb c "D" && Ascii.eqb d "T"
          then replace_USDT r
          else String a (replace_USDT t1)
      | _ => String a (replace_USDT t1)
      end
  end.

(** A Python [dict] with string keys, in insertion order. *)
Definition odict (V : Type) : Type := list (string * V).

Fixpoint od_get {V} (k : string) (d : odict V) : option V :=
  match d with
  | [] => None
  | (k', v) :: r => if String.eqb k k' then Some v else od_get k r
  end.

(** [d[k] = v]: an existing key keeps its position, a new one goes last. *)
Fixpoint od_set {V} (k : string) (v : V) (d : odict V) : odict V :=
  match d with
  | [] => [(k, v)]
  | (k', v') :: r =>
      if String.eqb k k' then (k, v) :: r else (k', v') :: od_set k v r
  end.

(** [d.pop(k, None)]. *)
Fixpoint od_pop {V} (k : string) (d : odict V) : odict V :=
  match d with
  | [] => []
  | (k', v') :: r =>
      if String.eqb k k' then od_pop k r else (k', v') :: od_pop k r
  end.

(** [list(d.keys())]. *)
Definition od_keys {V} (d : odict V) : list string := map fst d.

(* ===================================================================== *)
(** ** models.py                                                          *)
(* ===================================================================== *)

Inductive MarketType := SPOT | FUTURES.

Inductive AlertType :=
| PRICE_PUMP | PRICE_DUMP | SPREAD_HIGH | SPREAD_LOW | VOLUME_SPIKE
| FUNDING_HIGH | FUNDING_LOW | BIG_BID_ORDER | BIG_ASK_ORDER.

Inductive AlertLevel := INFO | WARNING | CRITICAL | EXTREME.

(** [AlertLevel.priority]. *)
Definition priority (l : AlertLevel) : Z :=
  match l with
  | INFO => 1
  | WARNING => 2
  | CRITICAL => 3
  | EXTREME => 4
  end.

Inductive AlertStatus := PENDING | SENT | CONFIRMED.

#[global] Instance AlertType_eq_dec : EqDecision AlertType.
Proof. solve_decision. Defined.

#[global] Instance AlertLevel_eq_dec : EqDecision AlertLevel.
Proof. solve_decision. Defined.

#[global] Instance AlertStatus_eq_dec : EqDecision AlertStatus.
Proof. solve_decision. Defined.

Definition AlertType_to_nat (t : AlertType) : nat :=
  match t with
  | PRICE_PUMP => 0 | PRICE_DUMP => 1 | SPREAD_HIGH => 2 | SPREAD_LOW => 3
  | VOLUME_SPIKE => 4 | FUNDING_HIGH => 5 | FUNDING_LOW => 6
  | BIG_BID_ORDER => 7 | BIG_ASK_ORDER => 8
  end%nat.

Definition AlertType_of_nat (n : nat) : option AlertType :=
  match n with
  | 0 => Some PRICE_PUMP | 1 => Some PRICE_DUMP | 2 => Some SPREAD_HIGH
  | 3 => Some SPREAD_LOW | 4 => Some VOLUME_SPIKE | 5 => Some FUNDING_HIGH
  | 6 => Some FUNDING_LOW | 7 => Some BIG_BID_ORDER | 8 => Some BIG_ASK_ORDER
  | _ => None
  end%nat.

#[global] Program Instance AlertType_countable : Countable AlertType :=
  inj_countable AlertType_to_nat AlertType_of_nat _.
Next Obligation. by intros []. Qed.

(** The fields of [Alert] that the dispatcher reads or writes. *)
Record Alert := mkAlert {
  alert_id : string;
  alert_type : AlertType;
  level : AlertLevel;
  symbol : string;
  target_user_id : string;
  status : AlertStatus;
  sent_count : Z;
  last_sent : option Z;
  confirmed_at : option Z;
}.

(* ===================================================================== *)
(** ** alert_engine.py: the cooldown table                                *)
(* ===================================================================== *)

(** [AlertEngine.cooldowns] is
    [{user_id: {symbol: {alert_type: (last_time, last_level)}}}]. *)
Record AlertEngine := mkEngine {
  cooldowns : gmap string (gmap string (gmap AlertType (Z * AlertLevel)));
  escalation_count : Z;
}.

(** The cell of one (user, symbol, alert type), when it exists. *)
Definition cooldown_cell (e : AlertEngine) (user_id sym : string)
    (ty : AlertType) : option (Z * AlertLevel) :=
  by_symbol ← cooldowns e !! user_id;
  by_type ← by_symbol !! sym;
  by_type !! ty.

(** [AlertEngine._check_cooldown_and_escalation]; [now] is the clock
    reading inside the call.  Returns [(should_send, is_escalation)]. *)
Definition _check_cooldown_and_escalation (now : Z) (e : AlertEngine)
    (user_id sym : string) (ty : AlertType) (current_level : AlertLevel)
    (cooldown_seconds : Z) : (bool * bool) * AlertEngine :=
  match cooldowns e !! user_id with
  | None => ((true, false), e)
  | Some by_symbol =>
      match by_symbol !! sym with
      | None => ((true, false), e)
      | Some by_type =>
          match by_type !! ty with
          | None => ((true, false), e)
          | Some (last_time, last_level) =>
              let in_cooldown :=
                bool_decide (now - last_time < timedelta_seconds cooldown_seconds) in
              if negb in_cooldown then ((true, false), e)
              else if bool_decide (priority current_level > priority last_level)
              then ((true, true),
                    {| cooldowns := cooldowns e;
                       escalation_count := escalation_count e + 1 |})
              else ((false, false), e)
          end
      end
  end.

(** [AlertEngine._set_cooldown]; the nested dictionaries are
    [defaultdict]s, so missing levels are created. *)
Definition _set_cooldown (now : Z) (e : AlertEngine) (user_id sym : string)
    (ty : AlertType) (lvl : AlertLevel) : AlertEngine :=
  let by_symbol := default ∅ (cooldowns e !! user_id) in
  let by_type := default ∅ (by_symbol !! sym) in
  {| cooldowns :=
       <[user_id := <[sym := <[ty := (now, lvl)]> by_type]> by_symbol]> (cooldowns e);
     escalation_count := escalation_count e |}.

(** A candidate firing, as every evaluation path of the engine handles
    it: check, and when the check admits it, record the fire.  The two
    clock readings are those of the check and of [_set_cooldown]. *)
Record Candidate := mkCandidate {
  c_user : string;
  c_symbol : string;
  c_type : AlertType;
  c_level : AlertLevel;
  c_cooldown_seconds : Z;
  c_check_time : Z;
  c_set_time : Z;
}.

Definition candidate_firing (e : AlertEngine) (c : Candidate)
    : (bool * bool) * AlertEngine :=
  let '((should_send, is_escalation), e1) :=
    _check_cooldown_and_escalation (c_check_time c) e (c_user c) (c_symbol c)
      (c_type c) (c_level c) (c_cooldown_seconds c) in
  if should_send
  then ((should_send, is_escalation),
        _set_cooldown (c_set_time c) e1 (c_user c) (c_symbol c) (c_type c) (c_level c))
  else ((should_send, is_escalation), e1).

(** The engine after a sequence of candidate firings. *)
Definition run_candidates (e : AlertEngine) (cs : list Candidate) : AlertEngine :=
  fold_left (fun e c => snd (candidate_firing e c)) cs e.

(** The candidates of [cs] that address the cell [(u, sym, ty)] are all
    evaluated while that cell exists and its cooldown has not expired. *)
Fixpoint inside_cooldown (e : AlertEngine) (u sym : string) (ty : AlertType)
    (cs : list Candidate) : Prop :=
  match cs with
  | [] => True
  | c :: r =>
      ((c_user c = u ∧ c_symbol c = sym ∧ c_type c = ty) →
       ∃ t0 l0, cooldown_cell e u sym ty = Some (t0, l0) ∧
                c_check_time c - t0 < timedelta_seconds (c_cooldown_seconds c))
      ∧ inside_cooldown (snd (candidate_firing e c)) u sym ty r
  end.

(** [AlertEngine.clear_cooldowns]; an empty string is false in Python, so
    an empty [user_id] or [symbol] counts as not given. *)
Definition clear_cooldowns (e : AlertEngine) (user_id sym : string) : AlertEngine :=
  let cd := cooldowns e in
  let cd' :=
    if negb (String.eqb user_id "") && negb (String.eqb sym "") then
      match cd !! user_id with
      | Some by_symbol => <[user_id := delete sym by_symbol]> cd
      | None => cd
      end
    else if negb (String.eqb user_id "") then
      match cd !! user_id with
      | Some _ => <[user_id := ∅]> cd
      | None => cd
      end
    else if negb (String.eqb sym "") then
      delete sym <$> cd
    else ∅ in
  {| cooldowns := cd'; escalation_count := escalation_count e |}.

(* ===================================================================== *)
(** ** config.py                                                          *)
(* ===================================================================== *)

Inductive AlertMode := SINGLE | REPEAT.

Inductive NotifyChannel := TELEGRAM | EMAIL | ALL.

#[global] Instance AlertMode_eq_dec : EqDecision AlertMode.
Proof. solve_decision. Defined.

#[global] Instance NotifyChannel_eq_dec : EqDecision NotifyChannel.
Proof. solve_decision. Defined.

(** [x < y] on floats. *)
Definition float_lt (x y : Q) : bool := negb (Qle_bool y x).

(** [BigOrderThreshold]: per-tier absolute floors and ratios (percent of
    the 24h quote turnover). *)
Record BigOrderThreshold := mkBigOrder {
  min_order_small_cap : Q;
  min_order_mid_cap : Q;
  min_order_large_cap : Q;
  min_order_mega_cap : Q;
  ratio_small_cap : Q;
  ratio_mid_cap : Q;
  ratio_large_cap : Q;
  ratio_mega_cap : Q;
  max_price_deviation : Q;
}.

(** The dataclass defaults, [BigOrderThreshold()]. *)
Definition default_big_order : BigOrderThreshold :=
  {| min_order_small_cap := 500000;
     min_order_mid_cap := 2000000;
     min_order_large_cap := 5000000;
     min_order_mega_cap := 10000000;
     ratio_small_cap := 20;
     ratio_mid_cap := 10;
     ratio_large_cap := 5;
     ratio_mega_cap := 2;
     max_price_deviation := 5 |}%Q.

(** [PRESET_CONFIGS[AlertProfile.CONSERVATIVE]["big_order"]]. *)
Definition conservative_big_order : BigOrderThreshold :=
  {| min_order_small_cap := 1000000;
     min_order_mid_cap := 5000000;
     min_order_large_cap := 10000000;
     min_order_mega_cap := 20000000;
     ratio_small_cap := 20;
     ratio_mid_cap := 10;
     ratio_large_cap := 5;
     ratio_mega_cap := 2;
     max_price_deviation := 5 |}%Q.

(** [PRESET_CONFIGS[AlertProfile.MODERATE]["big_order"]]. *)
Definition moderate_big_order : BigOrderThreshold :=
  {| min_order_small_cap := 500000;
     min_order_mid_cap := 2000000;
     min_order_large_cap := 5000000;
     min_order_mega_cap := 10000000;
     ratio_small_cap := 20;
     ratio_mid_cap := 10;
     ratio_large_cap := 5;
     ratio_mega_cap := 2;
     max_price_deviation := 5 |}%Q.

(** [PRESET_CONFIGS[AlertProfile.AGGRESSIVE]["big_order"]]. *)
Definition aggressive_big_order : BigOrderThreshold :=
  {| min_order_small_cap := 300000;
     min_order_mid_cap := 1000000;
     min_order_large_cap := 3000000;
     min_order_mega_cap := 5000000;
     ratio_small_cap := 20;
     ratio_mid_cap := 10;
     ratio_large_cap := 5;
     ratio_mega_cap := 2;
     max_price_deviation := 5 |}%Q.

(** [BigOrderThreshold.get_threshold]: (absolute floor, ratio). *)
Definition get_threshold (self : BigOrderThreshold) (volume_24h : Q) : Q * Q :=
  if float_lt volume_24h 10000000 then
    (min_order_small_cap self, ratio_small_cap self)
  else if float_lt volume_24h 100000000 then
    (min_order_mid_cap self, ratio_mid_cap self)
  else if float_lt volume_24h 1000000000 then
    (min_order_large_cap self, ratio_large_cap self)
  else
    (min_order_mega_cap self, ratio_mega_cap self).

(** [BigOrderThreshold.is_big_order]. *)
Definition is_big_order (self : BigOrderThreshold) (order_value volume_24h : Q) : bool :=
  if Qle_bool volume_24h 0 then
    Qle_bool (min_order_small_cap self) order_value
  else
    let '(abs_threshold, ratio_threshold) := get_threshold self volume_24h in
    let ratio_value := (volume_24h * ratio_threshold / 100)%Q in
    let threshold := py_max abs_threshold ratio_value in
    Qle_bool threshold order_value.

Record RepeatAlertConfig := mkRepeat {
  repeat_enabled : bool;
  interval_seconds : Z;
  max_repeats : Z;
  require_confirm : bool;
}.

Record NightModeConfig := mkNight {
  night_enabled : bool;
  auto_switch : bool;
  night_start : string;
  night_end : string;
  night_interval_seconds : Z;
  night_max_repeats : Z;
  night_add_email : bool;
}.

Record EmailConfig := mkEmail {
  email_enabled : bool;
  to_addresses : list string;
}.

Record AlertModeConfig := mkAlertMode {
  mode : AlertMode;
  repeat : RepeatAlertConfig;
  night : NightModeConfig;
}.

Record UserConfig := mkUser {
  user_id : string;
  is_active : bool;
  timezone_offset : Z;
  big_order : BigOrderThreshold;
  alert_mode : AlertModeConfig;
  email : EmailConfig;
  notify_channels : list NotifyChannel;
  cooldown_seconds : Z;
  watch_mode : string;
  whitelist : list string;
  blacklist : list string;
}.

(** The dataclass defaults. *)
Definition default_repeat : RepeatAlertConfig :=
  {| repeat_enabled := false; interval_seconds := 10; max_repeats := 30;
     require_confirm := true |}.

Definition default_night : NightModeConfig :=
  {| night_enabled := true; auto_switch := true;
     night_start := "23:00"; night_end := "07:00";
     night_interval_seconds := 15; night_max_repeats := 20;
     night_add_email := true |}.

Definition default_alert_mode : AlertModeConfig :=
  {| mode := SINGLE; repeat := default_repeat; night := default_night |}.

Definition default_user (uid : string) : UserConfig :=
  {| user_id := uid; is_active := true; timezone_offset := 8;
     big_order := default_big_order; alert_mode := default_alert_mode;
     email := {| email_enabled := false; to_addresses := [] |};
     notify_channels := [TELEGRAM]; cooldown_seconds := 300;
     watch_mode := "all"; whitelist := []; blacklist := [] |}.

(** Membership of the base asset of [sym] among the base assets of a
    list: the [for ... in ...: if symbol_base == ..._base] loops. *)
Definition base_in (sym : string) (l : list string) : bool :=
  existsb (fun other => String.eqb (replace_USDT sym) (replace_USDT other)) l.

(** [UserConfig.should_monitor]. *)
Definition should_monitor (self : UserConfig) (sym : string) : bool :=
  let sym := upper sym in
  if bool_decide (sym ∈ blacklist self) then false
  else if base_in sym (blacklist self) then false
  else if String.eqb (watch_mode self) "whitelist" then
    if bool_decide (sym ∈ whitelist self) then true
    else if base_in sym (whitelist self) then true
    else false
  else true.

(** Microseconds in a day and in an hour. *)
Definition day_us : Z := 86400 * 1000000.
Definition hour_us : Z := 3600 * 1000000.

(** [UserConfig.get_local_time().time()]: the time of day, in
    microseconds after local midnight, at the UTC instant [now]
    ([timezone] accepts offsets strictly between -24 and 24 hours; the
    bot sets offsets from -12 to 14). *)
Definition local_time_of_day (self : UserConfig) (now : Z) : Z :=
  (now + timezone_offset self * hour_us) `mod` day_us.

Definition digit_val (c : ascii) : option Z :=
  let n := nat_of_ascii c in
  if (48 <=? n)%nat && (n <=? 57)%nat then Some (Z.of_nat n - 48) else None.

(** The minute field of [%H:%M] followed by the end of the text:
    [[0-5]\d|\d] and nothing after it. *)
Definition parse_minute (s : string) : option Z :=
  match s with
  | String a EmptyString => digit_val a
  | String a (String b EmptyString) =>
      match digit_val a, digit_val b with
      | Some x, Some y => if x <=? 5 then Some (10 * x + y) else None
      | _, _ => None
      end
  | _ => None
  end.

(** [datetime.strptime(s, "%H:%M").time()] as microseconds after
    midnight; [None] when Python raises [ValueError].  The hour field is
    [2[0-3]|[0-1]\d|\d]. *)
Definition strptime_HM (s : string) : option Z :=
  match s with
  | String a (String b r) =>
      match digit_val a, digit_val b with
      | Some x, Some y =>
          if ((x =? 2) && (y <=? 3)) || (x <=? 1) then
            match r with
            | String c r' =>
                if Ascii.eqb c ":" then
                  m ← parse_minute r';
                  Some (((10 * x + y) * 3600 + m * 60) * 1000000)
                else None
            | EmptyString => None
            end
          else None
      | Some x, None =>
          if Ascii.eqb b ":" then
            m ← parse_minute r;
            Some ((x * 3600 + m * 60) * 1000000)
          else None
      | None, _ => None
      end
  | _ => None
  end.

(** [UserConfig.is_night_time] at the instant [now]. *)
Definition is_night_time (self : UserConfig) (now : Z) : bool :=
  if negb (night_enabled (night (alert_mode self))) then false
  else
    let now_t := local_time_of_day self now in
    match strptime_HM (night_start (night (alert_mode self))),
          strptime_HM (night_end (night (alert_mode self))) with
    | Some start, Some end_ =>
        if start <=? end_
        then (start <=? now_t) && (now_t <=? end_)
        else (start <=? now_t) || (now_t <=? end_)
    | _, _ => false
    end.

(** [UserConfig.get_effective_mode]. *)
Definition get_effective_mode (self : UserConfig) (now : Z) : AlertMode :=
  let night_config := night (alert_mode self) in
  if night_enabled night_config && auto_switch night_config && is_night_time self now
  then REPEAT
  else mode (alert_mode self).

(** [UserConfig.get_repeat_config]; the returned dictionary as a
    [RepeatAlertConfig]. *)
Definition get_repeat_config (self : UserConfig) (now : Z) : RepeatAlertConfig :=
  if is_night_time self now && night_enabled (night (alert_mode self)) then
    {| repeat_enabled := true;
       interval_seconds := night_interval_seconds (night (alert_mode self));
       max_repeats := night_max_repeats (night (alert_mode self));
       require_confirm := true |}
  else
    let r := repeat (alert_mode self) in
    {| repeat_enabled :=
         repeat_enabled r || bool_decide (mode (alert_mode self) = REPEAT);
       interval_seconds := interval_seconds r;
       max_repeats := max_repeats r;
       require_confirm := require_confirm r |}.

(** [UserConfig.get_notify_channels]. *)
Definition get_notify_channels (self : UserConfig) (now : Z) : list NotifyChannel :=
  let channels := notify_channels self in
  let night_config := night (alert_mode self) in
  if night_enabled night_config && night_add_email night_config
     && is_night_time self now && email_enabled (email self)
     && negb (bool_decide (EMAIL ∈ channels))
  then channels ++ [EMAIL]
  else channels.

(** Field updates of a [UserConfig] object. *)
Definition set_is_active (b : bool) (u : UserConfig) : UserConfig :=
  {| user_id := user_id u; is_active := b; timezone_offset := timezone_offset u;
     big_order := big_order u; alert_mode := alert_mode u; email := email u;
     notify_channels := notify_channels u; cooldown_seconds := cooldown_seconds u;
     watch_mode := watch_mode u; whitelist := whitelist u; blacklist := blacklist u |}.

Definition set_blacklist (l : list string) (u : UserConfig) : UserConfig :=
  {| user_id := user_id u; is_active := is_active u; timezone_offset := timezone_offset u;
     big_order := big_order u; alert_mode := alert_mode u; email := email u;
     notify_channels := notify_channels u; cooldown_seconds := cooldown_seconds u;
     watch_mode := watch_mode u; whitelist := whitelist u; blacklist := l |}.

(** [UserManager.users]: the registry of [UserConfig] objects.  An entry
    is created once per user id and never replaced, so an object is
    identified with its key. *)
Abbreviation UserManager := (gmap string UserConfig).

(** [UserManager.update_user(user_id, is_active=b)]. *)
Definition update_user_is_active (users : UserManager) (uid : string) (b : bool)
    : UserManager :=
  match users !! uid with
  | Some u => <[uid := set_is_active b u]> users
  | None => users
  end.

(** One iteration of the loop of [add_to_blacklist]. *)
Definition blacklist_add_one (bl : list string) (sym : string) : list string :=
  let sym := strip (upper sym) in
  if negb (String.eqb sym "") && negb (bool_decide (sym ∈ bl))
  then bl ++ [sym] else bl.

(** [UserManager.add_to_blacklist]. *)
Definition add_to_blacklist (users : UserManager) (uid : string)
    (symbols : list string) : UserManager :=
  match users !! uid with
  | Some u => <[uid := set_blacklist (fold_left blacklist_add_one symbols (blacklist u)) u]> users
  | None => users
  end.

(** [list.remove(x)]: the first occurrence. *)
Fixpoint list_remove (x : string) (l : list string) : list string :=
  match l with
  | [] => []
  | y :: r => if String.eqb x y then r else y :: list_remove x r
  end.

(** [UserManager.remove_from_blacklist]. *)
Definition remove_from_blacklist (users : UserManager) (uid : string)
    (symbols : list string) : UserManager :=
  match users !! uid with
  | Some u =>
      <[uid := set_blacklist
                 (fold_left (fun bl s => list_remove (strip (upper s)) bl)
                    symbols (blacklist u)) u]> users
  | None => users
  end.

(* ===================================================================== *)
(** ** models.py: PriceHistory                                            *)
(* ===================================================================== *)

(** [deque(maxlen=720)] of (timestamp, value) pairs, oldest first. *)
Definition maxlen : nat := 720.

Record PriceHistory := mkHistory {
  prices : list (Z * Q);
  volumes : list (Z * Q);
}.

(** [deque.append] on a bounded deque: the oldest entry is dropped when
    the deque is full. *)
Definition deque_append {A} (d : list A) (x : A) : list A :=
  if (maxlen <=? length d)%nat then tl d ++ [x] else d ++ [x].

(** [PriceHistory.add]. *)
Definition add (self : PriceHistory) (now : Z) (price volume : Q) : PriceHistory :=
  {| prices := deque_append (prices self) (now, price);
     volumes := deque_append (volumes self) (now, volume) |}.

(** The loop of [get_change]: the price of the last entry of the leading
    run of entries that are not after [cutoff]. *)
Fixpoint scan_old_price (cutoff : Z) (old_price : option Q) (l : list (Z * Q))
    : option Q :=
  match l with
  | [] => old_price
  | (t, p) :: r =>
      if t <=? cutoff then scan_old_price cutoff (Some p) r else old_price
  end.

(** The baseline [get_change] divides by: the scanned price, or the
    earliest retained one. *)
Definition selected_baseline (self : PriceHistory) (now minutes : Z) : option Q :=
  match prices self with
  | [] => None
  | first :: _ =>
      Some (default (snd first)
              (scan_old_price (now - timedelta_minutes minutes) None (prices self)))
  end.

(** [PriceHistory.get_change] at the instant [now]. *)
Definition get_change (self : PriceHistory) (now minutes : Z) : pyres (option Q) :=
  match prices self with
  | first :: _ :: _ =>
      let cutoff := now - timedelta_minutes minutes in
      let current := snd (List.last (prices self) first) in
      let old_price :=
        match scan_old_price cutoff None (prices self) with
        | Some p => p
        | None => snd first
        end in
      if negb (Qeq_bool old_price 0) && float_lt 0 old_price then
        match py_truediv (current - old_price) old_price with
        | Ok r => Ok (Some (r * 100)%Q)
        | ZeroDivisionError => ZeroDivisionError
        end
      else Ok None
  | _ => Ok None
  end.

(** The baseline in the words of the specification: the most recent
    retained price whose timestamp is at or before the cutoff, and the
    earliest retained price when there is none. *)
Definition baseline_spec (ps : list (Z * Q)) (cutoff : Z) : option Q :=
  match List.filter (fun tp => fst tp <=? cutoff) ps with
  | [] => snd <$> head ps
  | x :: r => Some (snd (List.last r x))
  end.

(* ===================================================================== *)
(** ** notifier.py and telegram_bot.py: the dispatcher                    *)
(* ===================================================================== *)

(** What [Bot.send_message] does in [_send_telegram]: it returns, or it
    raises one of the exceptions the method distinguishes. *)
Inductive TelegramResult :=
| Delivered | Forbidden | TimedOut | NetworkError | BadRequest
| TelegramError | OtherException.

(** The objects shared by the notifier, the bot, the engine and the user
    manager.  [alerts] holds the [Alert] objects by identity;
    [pending_alerts] is [{user_id: {alert_id: Alert}}] and refers to them;
    [confirmed_ids] is [{user_id: set(alert_ids)}]; [muted_symbols] is
    [{user_id: {symbol: unmute_time}}]; [bot_system] tells whether
    [TelegramBot.system] has been set. *)
Record System := mkSystem {
  users : UserManager;
  alerts : gmap positive Alert;
  next_alert : positive;
  pending_alerts : odict (odict positive);
  confirmed_ids : gmap string (gset string);
  engine : AlertEngine;
  muted_symbols : gmap string (gmap string Z);
  bot_system : bool;
}.

Definition with_users (v : UserManager) (s : System) : System :=
  {| users := v; alerts := alerts s; next_alert := next_alert s;
     pending_alerts := pending_alerts s; confirmed_ids := confirmed_ids s;
     engine := engine s; muted_symbols := muted_symbols s;
     bot_system := bot_system s |}.

Definition with_alerts (v : gmap positive Alert) (s : System) : System :=
  {| users := users s; alerts := v; next_alert := next_alert s;
     pending_alerts := pending_alerts s; confirmed_ids := confirmed_ids s;
     engine := engine s; muted_symbols := muted_symbols s;
     bot_system := bot_system s |}.

Definition with_pending (v : odict (odict positive)) (s : System) : System :=
  {| users := users s; alerts := alerts s; next_alert := next_alert s;
     pending_alerts := v; confirmed_ids := confirmed_ids s;
     engine := engine s; muted_symbols := muted_symbols s;
     bot_system := bot_system s |}.

Definition with_confirmed (v : gmap string (gset string)) (s : System) : System :=
  {| users := users s; alerts := alerts s; next_alert := next_alert s;
     pending_alerts := pending_alerts s; confirmed_ids := v;
     engine := engine s; muted_symbols := muted_symbols s;
     bot_system := bot_system s |}.

Definition with_engine (v : AlertEngine) (s : System) : System :=
  {| users := users s; alerts := alerts s; next_alert := next_alert s;
     pending_alerts := pending_alerts s; confirmed_ids := confirmed_ids s;
     engine := v; muted_symbols := muted_symbols s;
     bot_system := bot_system s |}.

Definition with_muted (v : gmap string (gmap string Z)) (s : System) : System :=
  {| users := users s; alerts := alerts s; next_alert := next_alert s;
     pending_alerts := pending_alerts s; confirmed_ids := confirmed_ids s;
     engine := engine s; muted_symbols := v;
     bot_system := bot_system s |}.

(** The system after start-up with the registry [us]: nothing pending,
    nothing confirmed, no cooldown, no mute; [main.py] sets
    [TelegramBot.system] before anything runs. *)
Definition initial_system (us : UserManager) : System :=
  {| users := us; alerts := ∅; next_alert := 1%positive;
     pending_alerts := []; confirmed_ids := ∅;
     engine := {| cooldowns := ∅; escalation_count := 0 |};
     muted_symbols := ∅; bot_system := true |}.

(** Field updates of an [Alert] object. *)
Definition alert_set_target (uid : string) (a : Alert) : Alert :=
  {| alert_id := alert_id a; alert_type := alert_type a; level := level a;
     symbol := symbol a; target_user_id := uid; status := status a;
     sent_count := sent_count a; last_sent := last_sent a;
     confirmed_at := confirmed_at a |}.

Definition alert_mark_sent (now : Z) (a : Alert) : Alert :=
  {| alert_id := alert_id a; alert_type := alert_type a; level := level a;
     symbol := symbol a; target_user_id := target_user_id a; status := SENT;
     sent_count := sent_count a + 1; last_sent := Some now;
     confirmed_at := confirmed_at a |}.

Definition alert_mark_confirmed (now : Z) (a : Alert) : Alert :=
  {| alert_id := alert_id a; alert_type := alert_type a; level := level a;
     symbol := symbol a; target_user_id := target_user_id a; status := CONFIRMED;
     sent_count := sent_count a; last_sent := last_sent a;
     confirmed_at := Some now |}.

(** The alert bound to [(uid, aid)] in the pending registry. *)
Definition pending_lookup (s : System) (uid aid : string) : option positive :=
  d ← od_get uid (pending_alerts s); od_get aid d.

(** Every reference held by the pending registry. *)
Definition pending_refs (p : odict (odict positive)) : list positive :=
  concat (map (fun ud => map snd (snd ud)) p).

(** [MultiUserNotifier._send_telegram]: the value returned for each
    outcome of the transport, and the registry afterwards ([Forbidden]
    marks the user inactive). *)
Definition _send_telegram (us : UserManager) (user_config : UserConfig)
    (tg : TelegramResult) : bool * UserManager :=
  match tg with
  | Delivered => (true, us)
  | Forbidden => (false, update_user_is_active us (user_id user_config) false)
  | TimedOut => (true, us)
  | NetworkError | BadRequest | TelegramError | OtherException => (false, us)
  end.

(** [MultiUserNotifier._send_once] on the alert object [l]. *)
Definition _send_once (s : System) (l : positive) (user_config : UserConfig)
    (now : Z) (tg : TelegramResult) : bool * System :=
  let s1 := with_alerts (alter (alert_mark_sent now) l (alerts s)) s in
  let channels := get_notify_channels user_config now in
  if bool_decide (TELEGRAM ∈ channels) || bool_decide (ALL ∈ channels) then
    let '(tg_success, us) := _send_telegram (users s1) user_config tg in
    (tg_success, with_users us s1)
  else (true, s1).

(** [MultiUserNotifier.send_alert_to_user]; [l] is the [Alert] object and
    [uid] names the [UserConfig] object passed in (both exist whenever
    the method is called). *)
Definition send_alert_to_user (s : System) (l : positive) (uid : string)
    (now : Z) (tg : TelegramResult) : System :=
  match users s !! uid, alerts s !! l with
  | Some user_config, Some alert =>
      let user_id := user_id user_config in
      let s1 := with_alerts (alter (alert_set_target user_id) l (alerts s)) s in
      let effective_mode := get_effective_mode user_config now in
      let need_confirm := bool_decide (effective_mode = REPEAT) in
      if need_confirm then
        let '(success, s2) := _send_once s1 l user_config now tg in
        if success then
          let d := default [] (od_get user_id (pending_alerts s2)) in
          with_pending
            (od_set user_id (od_set (alert_id alert) l d) (pending_alerts s2)) s2
        else s2
      else snd (_send_once s1 l user_config now tg)
  | _, _ => s
  end.

(** [AlertEngine._emit] on a freshly built alert: [Alert(...)] in the
    [_create_*_alert] methods creates the object [a], and [_emit] hands
    it to [send_alert_to_user] through the [on_alert] callback. *)
Definition _emit (s : System) (a : Alert) (uid : string) (now : Z)
    (tg : TelegramResult) : System :=
  let l := next_alert s in
  let s1 :=
    {| users := users s; alerts := <[l := a]> (alerts s);
       next_alert := Pos.succ l; pending_alerts := pending_alerts s;
       confirmed_ids := confirmed_ids s; engine := engine s;
       muted_symbols := muted_symbols s; bot_system := bot_system s |} in
  send_alert_to_user s1 l uid now tg.

(** [MultiUserNotifier._is_confirmed]. *)
Definition _is_confirmed (s : System) (uid aid : string) : bool :=
  match confirmed_ids s !! uid with
  | Some ids => bool_decide (aid ∈ ids)
  | None => false
  end.

(** [confirmed_ids[uid].add(aid)], creating the set when it is missing. *)
Definition confirmed_add (c : gmap string (gset string)) (uid aid : string)
    : gmap string (gset string) :=
  <[uid := {[aid]} ∪ default ∅ (c !! uid)]> c.

(** The body of the inner loop of [_repeat_loop] for one snapshot entry
    [(alert_id, alert)] of the user [uid]; [interval] and [max_repeats]
    were read before the loop, the [UserConfig] object is read when it
    is used.  The state carries the list [to_remove]. *)
Definition repeat_alert (now : Z) (tg : string → string → TelegramResult)
    (uid : string) (interval max_repeats : Z)
    (st : System * list string) (entry : string * positive)
    : System * list string :=
  let '(s, to_remove) := st in
  let '(aid, l) := entry in
  match users s !! uid, alerts s !! l with
  | Some user_config, Some alert =>
      if _is_confirmed s uid aid then (s, (to_remove ++ [aid])%list)
      else if negb (should_monitor user_config (symbol alert)) then
        (s, (to_remove ++ [aid])%list)
      else if max_repeats <=? sent_count alert then (s, (to_remove ++ [aid])%list)
      else
        match last_sent alert with
        | Some ls =>
            if interval <=? now - ls then
              let '(success, s') := _send_once s l user_config now (tg uid aid) in
              if success then (s', to_remove) else (s', (to_remove ++ [aid])%list)
            else (s, to_remove)
        | None => (s, to_remove)
        end
  | _, _ => st
  end.

(** The body of the outer loop of [_repeat_loop] for the user [uid]. *)
Definition repeat_user (now : Z) (tg : string → string → TelegramResult)
    (s : System) (uid : string) : System :=
  match od_get uid (pending_alerts s) with
  | None => s
  | Some user_alerts =>
      match users s !! uid with
      | Some user_config =>
          if is_active user_config then
            let repeat_config := get_repeat_config user_config now in
            if negb (repeat_enabled repeat_config)
               && negb (bool_decide (get_effective_mode user_config now = REPEAT))
            then s
            else
              let interval := timedelta_seconds (interval_seconds repeat_config) in
              let '(s', to_remove) :=
                fold_left
                  (repeat_alert now tg uid interval (max_repeats repeat_config))
                  user_alerts (s, []) in
              with_pending
                (od_set uid (fold_left (fun d aid => od_pop aid d) to_remove user_alerts)
                   (pending_alerts s'))
                s'
          else with_pending (od_pop uid (pending_alerts s)) s
      | None => with_pending (od_pop uid (pending_alerts s)) s
      end
  end.

(** One pass of [_repeat_loop] at the instant [now]; [tg uid aid] is what
    the transport does when the alert [aid] of [uid] is resent. *)
Definition repeat_tick (now : Z) (tg : string → string → TelegramResult)
    (s : System) : System :=
  fold_left (repeat_user now tg) (od_keys (pending_alerts s)) s.

(** The fuzzy match of [confirm_alert]: the first pending id that starts
    with, or contains, the given text. *)
Definition fuzzy_match (alert_id : string) (d : odict positive)
    : option (string * positive) :=
  List.find (fun kv => startswith (fst kv) alert_id || contains (fst kv) alert_id) d.

(** Removing [(uid, aid)] from the pending registry, recording [aid] as
    confirmed and marking the alert object [l]. *)
Definition confirm_entry (now : Z) (s : System) (uid aid : string)
    (d : odict positive) (l : positive) : System :=
  with_alerts (alter (alert_mark_confirmed now) l (alerts s))
    (with_pending (od_set uid (od_pop aid d) (pending_alerts s))
       (with_confirmed (confirmed_add (confirmed_ids s) uid aid) s)).

(** [MultiUserNotifier.confirm_alert]. *)
Definition confirm_alert (now : Z) (s : System) (uid alert_id : string)
    : bool * System :=
  let s0 :=
    match confirmed_ids s !! uid with
    | Some _ => s
    | None => with_confirmed (<[uid := ∅]> (confirmed_ids s)) s
    end in
  let unmatched :=
    (true, with_confirmed (confirmed_add (confirmed_ids s0) uid alert_id) s0) in
  match od_get uid (pending_alerts s0) with
  | Some d =>
      match od_get alert_id d with
      | Some l => (true, confirm_entry now s0 uid alert_id d l)
      | None =>
          match fuzzy_match alert_id d with
          | Some (aid, l) => (true, confirm_entry now s0 uid aid d l)
          | None => unmatched
          end
      end
  | None => unmatched
  end.

(** [MultiUserNotifier.confirm_all_alerts]. *)
Definition confirm_all_alerts (s : System) (uid : string) : Z * System :=
  match od_get uid (pending_alerts s) with
  | Some d =>
      let c0 :=
        match confirmed_ids s !! uid with
        | Some _ => confirmed_ids s
        | None => <[uid := ∅]> (confirmed_ids s)
        end in
      let c := fold_left (fun c aid => confirmed_add c uid aid) (od_keys d) c0 in
      (Z.of_nat (length d),
       with_pending (od_set uid [] (pending_alerts s)) (with_confirmed c s))
  | None => (0, s)
  end.

(** The test of [remove_alerts_for_symbol]; [sym] is already upper case. *)
Definition symbol_matches (alert_symbol sym : string) : bool :=
  let alert_symbol := upper alert_symbol in
  String.eqb alert_symbol sym
  || String.eqb alert_symbol (sym ++ "USDT")
  || String.eqb (replace_USDT alert_symbol) (replace_USDT sym).

(** [MultiUserNotifier.remove_alerts_for_symbol]. *)
Definition remove_alerts_for_symbol (s : System) (uid sym : string) : Z * System :=
  let sym := upper sym in
  match od_get uid (pending_alerts s) with
  | Some d =>
      let to_remove :=
        od_keys
          (List.filter
             (fun kv =>
                match alerts s !! snd kv with
                | Some alert => symbol_matches (symbol alert) sym
                | None => false
                end) d) in
      (Z.of_nat (length to_remove),
       with_pending
         (od_set uid (fold_left (fun d aid => od_pop aid d) to_remove d)
            (pending_alerts s))
         (with_confirmed
            (fold_left (fun c aid => confirmed_add c uid aid) to_remove
               (confirmed_ids s)) s))
  | None => (0, s)
  end.

(** The symbol as [_mute_symbol_for_user] and [_unmute_symbol_for_user]
    normalise it. *)
Definition mute_symbol_name (sym : string) : string :=
  let sym := upper sym in
  if negb (endswith sym "USDT") then sym ++ "USDT" else sym.

(** [TelegramBot._mute_symbol_for_user] at the instant [now]. *)
Definition _mute_symbol_for_user (now : Z) (s : System) (uid sym : string)
    (minutes : Z) : Z * System :=
  let sym := mute_symbol_name sym in
  let s1 := with_users (add_to_blacklist (users s) uid [sym]) s in
  let '(removed_count, s2) := remove_alerts_for_symbol s1 uid sym in
  let s3 :=
    if bot_system s2 then with_engine (clear_cooldowns (engine s2) uid sym) s2
    else s2 in
  let by_symbol := default ∅ (muted_symbols s3 !! uid) in
  let unmute_time := now + timedelta_minutes minutes in
  (removed_count,
   with_muted (<[uid := <[sym := unmute_time]> by_symbol]> (muted_symbols s3)) s3).

(** [TelegramBot._unmute_symbol_for_user]. *)
Definition _unmute_symbol_for_user (s : System) (uid sym : string) : System :=
  let sym := mute_symbol_name sym in
  let s1 := with_users (remove_from_blacklist (users s) uid [sym]) s in
  match muted_symbols s1 !! uid with
  | Some by_symbol => with_muted (<[uid := delete sym by_symbol]> (muted_symbols s1)) s1
  | None => s1
  end.

(** What happens to the dispatcher, one call at a time: the engine emits
    an alert, the repeat loop makes a pass, the user acknowledges, mutes
    or unmutes, or the user's configuration object is changed (a bot
    command, or the user being marked active or inactive). *)
Inductive Event :=
| EvEmit (a : Alert) (uid : string) (now : Z) (tg : TelegramResult)
| EvTick (now : Z) (tg : string → string → TelegramResult)
| EvConfirm (uid alert_id : string) (now : Z)
| EvConfirmAll (uid : string)
| EvMute (uid sym : string) (minutes now : Z)
| EvUnmute (uid sym : string)
| EvConfigure (uid : string) (f : UserConfig → UserConfig).

Definition step (s : System) (ev : Event) : System :=
  match ev with
  | EvEmit a uid now tg => _emit s a uid now tg
  | EvTick now tg => repeat_tick now tg s
  | EvConfirm uid alert_id now => snd (confirm_alert now s uid alert_id)
  | EvConfirmAll uid => snd (confirm_all_alerts s uid)
  | EvMute uid sym minutes now => snd (_mute_symbol_for_user now s uid sym minutes)
  | EvUnmute uid sym => _unmute_symbol_for_user s uid sym
  | EvConfigure uid f => with_users (alter f uid (users s)) s
  end.

Definition run (s : System) (evs : list Event) : System := fold_left step evs s.

(* ===================================================================== *)
(** ** notifier.py and telegram_bot.py: queries and argument parsing      *)
(* ===================================================================== *)

(** [MultiUserNotifier.get_pending_count]. *)
Definition get_pending_count (s : System) (uid : string) : Z :=
  Z.of_nat (length (default [] (od_get uid (pending_alerts s)))).

(** [TelegramBot._parse_symbols]: the arguments of [/whitelist] and
    [/blacklist], each in upper case, stripped, with the quote suffix. *)
Definition _parse_symbols (args : list string) : list string :=
  map (fun s =>
         let s := strip (upper s) in
         if negb (endswith s "USDT") then s ++ "USDT" else s) args.

(* ===================================================================== *)
(** ** models.py: market data, volume ratio and price range               *)
(* ===================================================================== *)

(** [x >= y], [x <= y] and [x > y] on floats. *)
Definition float_ge (x y : Q) : bool := Qle_bool y x.
Definition float_le (x y : Q) : bool := Qle_bool x y.
Definition float_gt (x y : Q) : bool := negb (Qle_bool x y).

(** [abs(x)] and [min(a, b)] on floats; [min] keeps its first argument
    unless the second is smaller. *)
Definition py_abs (x : Q) : Q := if Qle_bool 0 x then x else (- x)%Q.
Definition py_min (a b : Q) : Q := if float_lt b a then b else a.

(** [sum(l)], and [len(l)] where it is used as a float. *)
Definition py_sum (l : list Q) : Q := fold_left Qplus l 0%Q.
Definition py_len {A} (l : list A) : Q := inject_Z (Z.of_nat (length l)).

(** Sequencing of computations that may raise. *)
Definition py_bind {A B} (r : pyres A) (f : A → pyres B) : pyres B :=
  match r with
  | Ok a => f a
  | ZeroDivisionError => ZeroDivisionError
  end.

(** [TickerData]; the timestamp, which nothing reads, is left out. *)
Record TickerData := mkTicker {
  ticker_symbol : string;
  ticker_price : Q;
  price_change_1m : Q;
  price_change_5m : Q;
  price_change_15m : Q;
  price_change_1h : Q;
  price_change_24h : Q;
  volume_24h : Q;
  quote_volume_24h : Q;
  volume_change_ratio : Q;
  high_24h : Q;
  low_24h : Q;
  ticker_market_type : MarketType;
}.

(** [SpreadData], without [next_funding_time] and the timestamp. *)
Record SpreadData := mkSpread {
  spread_symbol : string;
  spot_price : Q;
  futures_price : Q;
  spread_percent : Q;
  funding_rate : Q;
}.

(** [OrderBookData]; an order is a pair (price, quantity). *)
Record OrderBookData := mkOrderBook {
  book_symbol : string;
  bids : list (Q * Q);
  asks : list (Q * Q);
  max_bid_order : Q;
  max_ask_order : Q;
  max_bid_price : Q;
  max_ask_price : Q;
  total_bid_value : Q;
  total_ask_value : Q;
  bid_ask_ratio : Q;
  book_market_type : MarketType;
}.

(** [PriceHistory(symbol, market_type)]: both deques empty. *)
Definition new_history : PriceHistory := {| prices := []; volumes := [] |}.

(** The loop of [get_volume_ratio]: the volumes newer than [cutoff] and
    the other ones, each in insertion order. *)
Definition split_volumes (cutoff : Z) (vs : list (Z * Q)) : list Q * list Q :=
  fold_left
    (fun acc tv =>
       let '(recent, older) := acc in
       if cutoff <? fst tv then (recent ++ [snd tv], older)%list
       else (recent, older ++ [snd tv])%list)
    vs ([], []).

(** [PriceHistory.get_volume_ratio] at the instant [now]. *)
Definition get_volume_ratio (self : PriceHistory) (now minutes : Z) : pyres Q :=
  if (length (volumes self) <? 10)%nat then Ok 1%Q
  else
    let cutoff := now - timedelta_minutes minutes in
    let '(recent, older) := split_volumes cutoff (volumes self) in
    match recent, older with
    | [], _ | _, [] => Ok 1%Q
    | _, _ =>
        py_bind (py_truediv (py_sum recent) (py_len recent)) (fun avg_recent =>
        py_bind (py_truediv (py_sum older) (py_len older)) (fun avg_older =>
        if float_gt avg_older 0 then py_truediv avg_recent avg_older
        else Ok 1%Q))
    end.

(** [min(l)] and [max(l)] on a list of floats: the first least and the
    first greatest element; [None] stands for the [ValueError] that
    Python raises on an empty list. *)
Definition py_min_list (l : list Q) : option Q :=
  match l with
  | [] => None
  | x :: r => Some (fold_left (fun m y => if float_lt y m then y else m) r x)
  end.

Definition py_max_list (l : list Q) : option Q :=
  match l with
  | [] => None
  | x :: r => Some (fold_left (fun m y => if float_gt y m then y else m) r x)
  end.

(** [PriceHistory.get_price_range] at the instant [now]; [None] when
    [min] or [max] raises. *)
Definition get_price_range (self : PriceHistory) (now minutes : Z) : option (Q * Q) :=
  match prices self with
  | [] => Some (0, 0)%Q
  | _ =>
      let cutoff := now - timedelta_minutes minutes in
      let prices_in_range :=
        map snd (List.filter (fun tp => cutoff <? fst tp) (prices self)) in
      let prices_in_range :=
        match prices_in_range with
        | [] => map snd (prices self)
        | _ => prices_in_range
        end in
      lo ← py_min_list prices_in_range;
      hi ← py_max_list prices_in_range;
      Some (lo, hi)
  end.

(* ===================================================================== *)
(** ** binance_client.py: prices, histories and the order book            *)
(* ===================================================================== *)

(** An entry of [spot_24h] or [futures_24h]. *)
Record Stats24h := mkStats24h {
  s24_price : Q;
  s24_change : Q;
  s24_change_percent : Q;
  s24_high : Q;
  s24_low : Q;
  s24_volume : Q;
  s24_quote_volume : Q;
}.

(** The dictionaries of [BinanceClient] that the handlers of the streams
    and the engine read or write. *)
Record BinanceClient := mkClient {
  spot_prices : gmap string Q;
  futures_prices : gmap string Q;
  funding_rates : gmap string Q;
  spot_24h : gmap string Stats24h;
  futures_24h : gmap string Stats24h;
  spot_history : gmap string PriceHistory;
  futures_history : gmap string PriceHistory;
}.

(** The client as [__init__] leaves it. *)
Definition new_client : BinanceClient :=
  {| spot_prices := ∅; futures_prices := ∅; funding_rates := ∅;
     spot_24h := ∅; futures_24h := ∅; spot_history := ∅; futures_history := ∅ |}.

(** A message of a ticker stream after [data.get(...)] and [float(...)]:
    the symbol (empty when the message has none), the last price, the
    volume, the high and the low (0 when missing).  A message whose
    numbers do not parse makes [float] raise, and the handler drops it
    before it changes anything. *)
Record StreamTicker := mkStreamTicker {
  msg_s : string;
  msg_c : Q;
  msg_v : Q;
  msg_h : Q;
  msg_l : Q;
}.

(** [history.get_change(minutes) or 0]. *)
Definition change_or_0 (history : PriceHistory) (now minutes : Z) : pyres Q :=
  py_bind (get_change history now minutes) (fun r => Ok (default 0%Q r)).

(** [BinanceClient._make_ticker] at the instant [now]. *)
Definition _make_ticker (self : BinanceClient) (now : Z) (sym : string)
    (market : MarketType) : pyres TickerData :=
  let '(price, history, data_24h) :=
    match market with
    | SPOT => (default 0%Q (spot_prices self !! sym), spot_history self !! sym,
               spot_24h self !! sym)
    | FUTURES => (default 0%Q (futures_prices self !! sym),
                  futures_history self !! sym, futures_24h self !! sym)
    end in
  let get (f : Stats24h → Q) : Q := default 0%Q (f <$> data_24h) in
  let ticker (c1 c5 c15 c60 ratio : Q) : TickerData :=
    {| ticker_symbol := sym; ticker_price := price;
       price_change_1m := c1; price_change_5m := c5; price_change_15m := c15;
       price_change_1h := c60; price_change_24h := get s24_change_percent;
       volume_24h := get s24_volume; quote_volume_24h := get s24_quote_volume;
       volume_change_ratio := ratio;
       high_24h := get s24_high; low_24h := get s24_low;
       ticker_market_type := market |} in
  match history with
  | Some history =>
      py_bind (change_or_0 history now 1) (fun c1 =>
      py_bind (change_or_0 history now 5) (fun c5 =>
      py_bind (change_or_0 history now 15) (fun c15 =>
      py_bind (change_or_0 history now 60) (fun c60 =>
      py_bind (get_volume_ratio history now 5) (fun ratio =>
      Ok (ticker c1 c5 c15 c60 ratio))))))
  | None => Ok (ticker 0 0 0 0 1)%Q
  end.

(** [BinanceClient._make_spread]. *)
Definition _make_spread (self : BinanceClient) (sym : string) : pyres SpreadData :=
  let spot := default 0%Q (spot_prices self !! sym) in
  let futures := default 0%Q (futures_prices self !! sym) in
  py_bind
    (if float_gt spot 0
     then py_bind (py_truediv (futures - spot) spot) (fun r => Ok (r * 100)%Q)
     else Ok 0%Q)
    (fun spread_pct =>
       Ok {| spread_symbol := sym; spot_price := spot; futures_price := futures;
             spread_percent := spread_pct;
             funding_rate := default 0%Q (funding_rates self !! sym) |}).

(** The 24h entry of a symbol after a spot message. *)
Definition update_24h (d : Stats24h) (price high low : Q) : Stats24h :=
  {| s24_price := price; s24_change := s24_change d;
     s24_change_percent := s24_change_percent d;
     s24_high := if float_gt high 0 then py_max (s24_high d) high else s24_high d;
     s24_low := if float_gt low 0 && float_gt (s24_low d) 0
                then py_min (s24_low d) low else s24_low d;
     s24_volume := s24_volume d; s24_quote_volume := s24_quote_volume d |}.

(** [BinanceClient._process_spot_data] at the instant [now]: the client
    afterwards and what is handed to [on_spot_update] and to
    [on_spread_update] (both are set by [main.py]).  An exception of
    the handler itself is swallowed: nothing more is handed on.  The
    first callback is taken to return, and no other handler to run
    while it is awaited. *)
Definition _process_spot_data (self : BinanceClient) (now : Z) (data : StreamTicker)
    : BinanceClient * option TickerData * option SpreadData :=
  let sym := msg_s data in
  let price := msg_c data in
  if String.eqb sym "" || float_le price 0 then (self, None, None)
  else
    let history := default new_history (spot_history self !! sym) in
    let self1 :=
      {| spot_prices := <[sym := price]> (spot_prices self);
         futures_prices := futures_prices self;
         funding_rates := funding_rates self;
         spot_24h :=
           match spot_24h self !! sym with
           | Some d => <[sym := update_24h d price (msg_h data) (msg_l data)]>
                         (spot_24h self)
           | None => spot_24h self
           end;
         futures_24h := futures_24h self;
         spot_history := <[sym := add history now price (msg_v data)]>
                           (spot_history self);
         futures_history := futures_history self |} in
    match _make_ticker self1 now sym SPOT with
    | ZeroDivisionError => (self1, None, None)
    | Ok ticker =>
        match futures_prices self1 !! sym with
        | Some _ =>
            match _make_spread self1 sym with
            | Ok spread => (self1, Some ticker, Some spread)
            | ZeroDivisionError => (self1, Some ticker, None)
            end
        | None => (self1, Some ticker, None)
        end
    end.

(** [BinanceClient._process_futures_data]. *)
Definition _process_futures_data (self : BinanceClient) (now : Z) (data : StreamTicker)
    : BinanceClient * option TickerData * option SpreadData :=
  let sym := msg_s data in
  let price := msg_c data in
  if String.eqb sym "" || float_le price 0 then (self, None, None)
  else
    let history := default new_history (futures_history self !! sym) in
    let self1 :=
      {| spot_prices := spot_prices self;
         futures_prices := <[sym := price]> (futures_prices self);
         funding_rates := funding_rates self;
         spot_24h := spot_24h self;
         futures_24h := futures_24h self;
         spot_history := spot_history self;
         futures_history := <[sym := add history now price (msg_v data)]>
                              (futures_history self) |} in
    match _make_ticker self1 now sym FUTURES with
    | ZeroDivisionError => (self1, None, None)
    | Ok ticker =>
        match spot_prices self1 !! sym with
        | Some _ =>
            match _make_spread self1 sym with
            | Ok spread => (self1, Some ticker, Some spread)
            | ZeroDivisionError => (self1, Some ticker, None)
            end
        | None => (self1, Some ticker, None)
        end
    end.

(** The loop of [fetch_orderbook] over one side of the book: the
    greatest order value, the price of the first order that has it, and
    the total value. *)
Definition side_stats (orders : list (Q * Q)) : Q * Q * Q :=
  fold_left
    (fun acc o =>
       let '(max_order, max_price, total) := acc in
       let value := (fst o * snd o)%Q in
       let total := (total + value)%Q in
       if float_gt value max_order then (value, fst o, total)
       else (max_order, max_price, total))
    orders (0, 0, 0)%Q.

(** [BinanceClient.fetch_orderbook] once the response is parsed into
    [bids] and [asks]; [None] is what the [except] branch returns. *)
Definition fetch_orderbook (sym : string) (market : MarketType)
    (bids asks : list (Q * Q)) : option OrderBookData :=
  let '(max_bid_order, max_bid_price, total_bid_value) := side_stats bids in
  let '(max_ask_order, max_ask_price, total_ask_value) := side_stats asks in
  match (if float_gt total_ask_value 0
         then py_truediv total_bid_value total_ask_value else Ok 1%Q) with
  | Ok bid_ask_ratio =>
      Some {| book_symbol := sym; bids := bids; asks := asks;
              max_bid_order := max_bid_order; max_ask_order := max_ask_order;
              max_bid_price := max_bid_price; max_ask_price := max_ask_price;
              total_bid_value := total_bid_value;
              total_ask_value := total_ask_value;
              bid_ask_ratio := bid_ask_ratio; book_market_type := market |}
  | ZeroDivisionError => None
  end.

(* ===================================================================== *)
(** ** config.py: what the evaluation of market data reads                *)
(* ===================================================================== *)

Record PriceThreshold := mkPriceThreshold {
  short_1m_pump : Q;
  short_1m_dump : Q;
  mid_5m_pump : Q;
  mid_5m_dump : Q;
  long_15m_pump : Q;
  long_15m_dump : Q;
  hourly_pump : Q;
  hourly_dump : Q;
}.

Record SpreadThreshold := mkSpreadThreshold {
  spot_futures : Q;
  funding_high : Q;
  funding_low : Q;
}.

Record VolumeThreshold := mkVolumeThreshold {
  spike_ratio : Q;
  large_order_usdt : Q;
}.

(** The fields of [UserConfig] that only the engine reads. *)
Record Monitoring := mkMonitoring {
  price : PriceThreshold;
  spread : SpreadThreshold;
  volume : VolumeThreshold;
  enable_spot : bool;
  enable_futures : bool;
  enable_spread : bool;
  enable_volume : bool;
  enable_funding : bool;
  enable_big_order : bool;
  min_volume_24h : Q;
  volume_filter_enabled : bool;
}.

(** The dataclass defaults. *)
Definition default_price : PriceThreshold :=
  {| short_1m_pump := 6; short_1m_dump := -6; mid_5m_pump := 9; mid_5m_dump := -9;
     long_15m_pump := 15; long_15m_dump := -15;
     hourly_pump := 21; hourly_dump := -21 |}%Q.

Definition default_spread : SpreadThreshold :=
  {| spot_futures := 5 # 2; funding_high := 1 # 4; funding_low := - (1 # 4) |}%Q.

Definition default_volume : VolumeThreshold :=
  {| spike_ratio := 12; large_order_usdt := 500000 |}%Q.

Definition default_monitoring : Monitoring :=
  {| price := default_price; spread := default_spread; volume := default_volume;
     enable_spot := true; enable_futures := true; enable_spread := true;
     enable_volume := true; enable_funding := false; enable_big_order := true;
     min_volume_24h := 0; volume_filter_enabled := false |}.

(** [UserConfig.should_monitor_by_volume]. *)
Definition should_monitor_by_volume (self : Monitoring) (volume_24h : Q) : bool :=
  if negb (volume_filter_enabled self) || float_le (min_volume_24h self) 0 then true
  else float_ge volume_24h (min_volume_24h self).

(* ===================================================================== *)
(** ** alert_engine.py: levels and the evaluation of market data          *)
(* ===================================================================== *)

#[global] Instance MarketType_eq_dec : EqDecision MarketType.
Proof. solve_decision. Defined.

(** [AlertEngine._get_price_level]. *)
Definition _get_price_level (change : Q) : AlertLevel :=
  let abs_change := py_abs change in
  if float_ge abs_change 20 then EXTREME
  else if float_ge abs_change 10 then CRITICAL
  else if float_ge abs_change 5 then WARNING
  else INFO.

(** [AlertEngine._get_spread_level]. *)
Definition _get_spread_level (spread_percent : Q) : AlertLevel :=
  let abs_spread := py_abs spread_percent in
  if float_ge abs_spread 5 then EXTREME
  else if float_ge abs_spread 3 then CRITICAL
  else if float_ge abs_spread (3 # 2) then WARNING
  else INFO.

(** [AlertEngine._get_funding_level]. *)
Definition _get_funding_level (funding_rate : Q) : AlertLevel :=
  let abs_rate := py_abs funding_rate in
  if float_ge abs_rate (1 # 2) then EXTREME
  else if float_ge abs_rate (3 # 10) then CRITICAL
  else if float_ge abs_rate (1 # 10) then WARNING
  else INFO.

(** [AlertEngine._get_volume_level]. *)
Definition _get_volume_level (ratio : Q) : AlertLevel :=
  if float_ge ratio 50 then EXTREME
  else if float_ge ratio 20 then CRITICAL
  else if float_ge ratio 10 then WARNING
  else INFO.

(** [AlertEngine._get_big_order_level]. *)
Definition _get_big_order_level (order_value volume_24h : Q) : pyres AlertLevel :=
  py_bind
    (if float_le volume_24h 0 then Ok 0%Q
     else py_bind (py_truediv order_value volume_24h) (fun r => Ok (r * 100)%Q))
    (fun ratio =>
       Ok (if float_ge ratio 50 || float_ge order_value 50000000 then EXTREME
           else if float_ge ratio 20 || float_ge order_value 20000000 then CRITICAL
           else if float_ge ratio 10 || float_ge order_value 5000000 then WARNING
           else INFO)).

(** The periods of the price checks: "1分钟", "5分钟", "15分钟", "1小时". *)
Inductive Period := P1m | P5m | P15m | P1h.

(** The alerts an evaluation creates, as the calls it makes, with the
    arguments after the market data and the user. *)
Inductive EngineCall :=
| _create_price_alert (alert_type : AlertType) (change : Q) (period : Period)
    (lvl : AlertLevel) (is_escalation : bool)
| _create_volume_alert (lvl : AlertLevel) (is_escalation : bool)
| _create_spread_alert (alert_type : AlertType) (lvl : AlertLevel)
    (is_escalation : bool)
| _create_funding_alert (alert_type : AlertType) (lvl : AlertLevel)
    (is_escalation : bool)
| _create_big_order_alert (alert_type : AlertType)
    (order_value order_price current_price volume_24h : Q)
    (lvl : AlertLevel) (is_escalation : bool).

(** The check of the cooldown followed, when it admits the alert, by
    [_set_cooldown], for the alert type [ty] of one evaluation;
    [clock ty] gives the clock readings of the two calls. *)
Definition fire (clock : AlertType → Z * Z) (e : AlertEngine)
    (user_config : UserConfig) (sym : string) (ty : AlertType) (lvl : AlertLevel)
    : (bool * bool) * AlertEngine :=
  candidate_firing e
    {| c_user := user_id user_config; c_symbol := sym; c_type := ty;
       c_level := lvl; c_cooldown_seconds := cooldown_seconds user_config;
       c_check_time := fst (clock ty); c_set_time := snd (clock ty) |}.

(** The list [checks] of [_check_ticker_for_user]. *)
Definition price_checks (ticker : TickerData) (price_config : PriceThreshold)
    : list (Q * Q * Q * Period) :=
  [(price_change_1m ticker, short_1m_pump price_config,
    short_1m_dump price_config, P1m);
   (price_change_5m ticker, mid_5m_pump price_config,
    mid_5m_dump price_config, P5m);
   (price_change_15m ticker, long_15m_pump price_config,
    long_15m_dump price_config, P15m);
   (price_change_1h ticker, hourly_pump price_config,
    hourly_dump price_config, P1h)].

(** The loop over [checks]: [(pump_alerts, dump_alerts)]. *)
Definition classify_changes (checks : list (Q * Q * Q * Period))
    : list (Q * Period * AlertLevel) * list (Q * Period * AlertLevel) :=
  fold_left
    (fun acc c =>
       let '(pump_alerts, dump_alerts) := acc in
       let '(change, pump_threshold, dump_threshold, period) := c in
       if float_ge change pump_threshold
       then ((pump_alerts ++ [(change, period, _get_price_level change)])%list,
             dump_alerts)
       else if float_le change dump_threshold
       then (pump_alerts,
             (dump_alerts ++ [(change, period, _get_price_level change)])%list)
       else (pump_alerts, dump_alerts))
    checks ([], []).

(** [l.sort(key=lambda x: x[2].priority, reverse=True)]: a stable sort,
    so entries of equal priority keep their order. *)
Fixpoint insert_by_priority (x : Q * Period * AlertLevel)
    (l : list (Q * Period * AlertLevel)) : list (Q * Period * AlertLevel) :=
  match l with
  | [] => [x]
  | y :: r =>
      if priority (snd y) <=? priority (snd x) then x :: y :: r
      else y :: insert_by_priority x r
  end.

Definition sort_by_priority (l : list (Q * Period * AlertLevel))
    : list (Q * Period * AlertLevel) :=
  foldr insert_by_priority [] l.

(** [AlertEngine._check_ticker_for_user]: the returned flag, the alerts
    created and the engine afterwards. *)
Definition _check_ticker_for_user (clock : AlertType → Z * Z) (e : AlertEngine)
    (ticker : TickerData) (user_config : UserConfig) (mon : Monitoring)
    : bool * list EngineCall * AlertEngine :=
  let sym := ticker_symbol ticker in
  if negb (should_monitor user_config sym) then (false, [], e)
  else if bool_decide (ticker_market_type ticker = SPOT) && negb (enable_spot mon)
  then (false, [], e)
  else if bool_decide (ticker_market_type ticker = FUTURES) && negb (enable_futures mon)
  then (false, [], e)
  else if negb (should_monitor_by_volume mon (quote_volume_24h ticker))
  then (false, [], e)
  else
    let '(pump_alerts, dump_alerts) :=
      classify_changes (price_checks ticker (price mon)) in
    let '(triggered1, calls1, e1) :=
      match sort_by_priority pump_alerts with
      | [] => (false, [], e)
      | (change, period, lvl) :: _ =>
          let '((should_send, is_escalation), e1) :=
            fire clock e user_config sym PRICE_PUMP lvl in
          if should_send
          then (true, [_create_price_alert PRICE_PUMP change period lvl is_escalation],
                e1)
          else (false, [], e1)
      end in
    let '(triggered2, calls2, e2) :=
      match sort_by_priority dump_alerts with
      | [] => (false, [], e1)
      | (change, period, lvl) :: _ =>
          let '((should_send, is_escalation), e2) :=
            fire clock e1 user_config sym PRICE_DUMP lvl in
          if should_send
          then (true, [_create_price_alert PRICE_DUMP change period lvl is_escalation],
                e2)
          else (false, [], e2)
      end in
    let '(triggered3, calls3, e3) :=
      if enable_volume mon
         && float_ge (volume_change_ratio ticker) (spike_ratio (volume mon))
      then
        let lvl := _get_volume_level (volume_change_ratio ticker) in
        let '((should_send, is_escalation), e3) :=
          fire clock e2 user_config sym VOLUME_SPIKE lvl in
        if should_send then (true, [_create_volume_alert lvl is_escalation], e3)
        else (false, [], e3)
      else (false, [], e2) in
    (triggered1 || triggered2 || triggered3, (calls1 ++ calls2 ++ calls3)%list, e3).

(** One side of the book in [_check_orderbook_for_user]; [price_diff] is
    the deviation of the order's price from the current one.  The first
    component says whether the code returned or raised; the division in
    [_create_big_order_alert] comes after [_set_cooldown]. *)
Definition check_big_order (clock : AlertType → Z * Z) (e : AlertEngine)
    (user_config : UserConfig) (sym : string) (ty : AlertType)
    (order_value order_price current_price volume_24h : Q) (price_diff : pyres Q)
    : pyres unit * list EngineCall * AlertEngine :=
  if float_gt order_value 0 then
    if is_big_order (big_order user_config) order_value volume_24h then
      match price_diff with
      | ZeroDivisionError => (ZeroDivisionError, [], e)
      | Ok price_diff =>
          if float_le (py_abs price_diff) (max_price_deviation (big_order user_config))
          then
            match _get_big_order_level order_value volume_24h with
            | ZeroDivisionError => (ZeroDivisionError, [], e)
            | Ok lvl =>
                let '((should_send, is_escalation), e1) :=
                  fire clock e user_config sym ty lvl in
                if should_send then
                  match py_truediv (order_price - current_price) current_price with
                  | Ok _ =>
                      (Ok (),
                       [_create_big_order_alert ty order_value order_price
                          current_price volume_24h lvl is_escalation], e1)
                  | ZeroDivisionError => (ZeroDivisionError, [], e1)
                  end
                else (Ok (), [], e1)
            end
          else (Ok (), [], e)
      end
    else (Ok (), [], e)
  else (Ok (), [], e).

(** [AlertEngine._check_orderbook_for_user]; [binance] is the client that
    [main.py] hands to the engine before it starts. *)
Definition _check_orderbook_for_user (clock : AlertType → Z * Z) (e : AlertEngine)
    (binance : BinanceClient) (orderbook : OrderBookData)
    (user_config : UserConfig) (mon : Monitoring)
    : pyres unit * list EngineCall * AlertEngine :=
  let sym := book_symbol orderbook in
  if negb (enable_big_order mon) then (Ok (), [], e)
  else if negb (should_monitor user_config sym) then (Ok (), [], e)
  else if bool_decide (book_market_type orderbook = SPOT) && negb (enable_spot mon)
  then (Ok (), [], e)
  else if bool_decide (book_market_type orderbook = FUTURES) && negb (enable_futures mon)
  then (Ok (), [], e)
  else
    let volume_24h :=
      match book_market_type orderbook with
      | SPOT => default 0%Q (s24_quote_volume <$> spot_24h binance !! sym)
      | FUTURES => default 0%Q (s24_quote_volume <$> futures_24h binance !! sym)
      end in
    if negb (should_monitor_by_volume mon volume_24h) then (Ok (), [], e)
    else
      let current_price :=
        match book_market_type orderbook with
        | SPOT => default 0%Q (spot_prices binance !! sym)
        | FUTURES => default 0%Q (futures_prices binance !! sym)
        end in
      if float_le current_price 0 then (Ok (), [], e)
      else
        match
          check_big_order clock e user_config sym BIG_BID_ORDER
            (max_bid_order orderbook) (max_bid_price orderbook) current_price
            volume_24h
            (py_bind (py_truediv (current_price - max_bid_price orderbook)
                        current_price) (fun r => Ok (r * 100)%Q))
        with
        | (ZeroDivisionError, calls1, e1) => (ZeroDivisionError, calls1, e1)
        | (Ok _, calls1, e1) =>
            let '(r, calls2, e2) :=
              check_big_order clock e1 user_config sym BIG_ASK_ORDER
                (max_ask_order orderbook) (max_ask_price orderbook) current_price
                volume_24h
                (py_bind (py_truediv (max_ask_price orderbook - current_price)
                            current_price) (fun r => Ok (r * 100)%Q)) in
            (r, (calls1 ++ calls2)%list, e2)
        end.

(** [AlertEngine._check_spread_for_user]. *)
Definition _check_spread_for_user (clock : AlertType → Z * Z) (e : AlertEngine)
    (binance : BinanceClient) (spread_data : SpreadData)
    (user_config : UserConfig) (mon : Monitoring)
    : list EngineCall * AlertEngine :=
  let sym := spread_symbol spread_data in
  if negb (should_monitor user_config sym) then ([], e)
  else if negb (enable_spread mon) then ([], e)
  else
    let volume_24h := default 0%Q (s24_quote_volume <$> spot_24h binance !! sym) in
    if negb (should_monitor_by_volume mon volume_24h) then ([], e)
    else
      let spread_config := spread mon in
      let '(calls1, e1) :=
        if float_ge (py_abs (spread_percent spread_data)) (spot_futures spread_config)
        then
          let alert_type :=
            if float_gt (spread_percent spread_data) 0 then SPREAD_HIGH
            else SPREAD_LOW in
          let lvl := _get_spread_level (spread_percent spread_data) in
          let '((should_send, is_escalation), e1) :=
            fire clock e user_config sym alert_type lvl in
          if should_send then ([_create_spread_alert alert_type lvl is_escalation], e1)
          else ([], e1)
        else ([], e) in
      let '(calls2, e2) :=
        if enable_funding mon then
          if float_ge (funding_rate spread_data) (funding_high spread_config) then
            let lvl := _get_funding_level (funding_rate spread_data) in
            let '((should_send, is_escalation), e2) :=
              fire clock e1 user_config sym FUNDING_HIGH lvl in
            if should_send
            then ([_create_funding_alert FUNDING_HIGH lvl is_escalation], e2)
            else ([], e2)
          else if float_le (funding_rate spread_data) (funding_low spread_config) then
            let lvl := _get_funding_level (funding_rate spread_data) in
            let '((should_send, is_escalation), e2) :=
              fire clock e1 user_config sym FUNDING_LOW lvl in
            if should_send
            then ([_create_funding_alert FUNDING_LOW lvl is_escalation], e2)
            else ([], e2)
          else ([], e1)
        else ([], e1) in
      ((calls1 ++ calls2)%list, e2).

(* ===================================================================== *)
(** ** telegram_bot.py, notifier.py: expiry of mutes and its notice       *)
(* ===================================================================== *)

(** The loop of the [Forbidden] handler of [MultiUserNotifier.send_message]:
    the first user of [user_manager.get_all_users()] whose [chat_id] is
    the given one.  [all_users] lists the user ids in the order of the
    registry, and [chat_id u] is the chat id held by the configuration
    of the user [u]. *)
Definition first_user_of_chat (chat_id : string → string) (all_users : list string)
    (us : UserManager) (chat : string) : option string :=
  List.find (fun u => bool_decide (is_Some (us !! u) ∧ chat_id u = chat)) all_users.

(** [MultiUserNotifier.send_message] to the chat [chat]: the value
    returned for each outcome [tg] of the transport, and the registry
    afterwards ([Forbidden] marks the first user of that chat inactive). *)
Definition send_message (chat_id : string → string) (all_users : list string)
    (us : UserManager) (chat : string) (tg : TelegramResult)
    : bool * UserManager :=
  match tg with
  | Delivered => (true, us)
  | Forbidden =>
      (false,
       match first_user_of_chat chat_id all_users us chat with
       | Some u => update_user_is_active us u false
       | None => us
       end)
  | TimedOut => (true, us)
  | NetworkError | BadRequest | TelegramError | OtherException => (false, us)
  end.

(** One iteration of the inner loop of [_mute_cleanup_loop], for the
    symbol [sym] of the user [uid] at the instant [now] of the pass.  The
    keys are those listed when the loop starts, so the entry exists.  An
    expired mute is removed from the blacklist and from the table, and a
    user who is registered and active is sent the notice that the mute
    has ended; [notice uid sym] is what the transport does with that
    notice. *)
Definition cleanup_symbol (chat_id : string → string) (all_users : list string)
    (notice : string → string → TelegramResult)
    (now : Z) (uid : string) (s : System) (sym : string) : System :=
  match muted_symbols s !! uid with
  | Some by_symbol =>
      match by_symbol !! sym with
      | Some unmute_time =>
          if unmute_time <=? now then
            let s1 := with_users (remove_from_blacklist (users s) uid [sym]) s in
            let s2 :=
              with_muted (<[uid := delete sym by_symbol]> (muted_symbols s1)) s1 in
            match users s2 !! uid with
            | Some user_config =>
                if is_active user_config then
                  with_users
                    (snd (send_message chat_id all_users (users s2)
                            (chat_id uid) (notice uid sym)))
                    s2
                else s2
            | None => s2
            end
          else s
      | None => s
      end
  | None => s
  end.

(** The body of the outer loop for one user, whose symbols are listed in
    [symbols]: the inner loop, then the removal of a dictionary left
    empty. *)
Definition cleanup_user (chat_id : string → string) (all_users : list string)
    (notice : string → string → TelegramResult)
    (now : Z) (s : System) (entry : string * list string) : System :=
  let '(uid, symbols) := entry in
  let s1 := fold_left (cleanup_symbol chat_id all_users notice now uid) symbols s in
  match muted_symbols s1 !! uid with
  | Some by_symbol =>
      if decide (by_symbol = ∅)
      then with_muted (delete uid (muted_symbols s1)) s1
      else s1
  | None => s1
  end.

(** One pass of [TelegramBot._mute_cleanup_loop] at the instant [now];
    [order] gives the users, and for each user the symbols, in the order
    in which the two [list(... .keys())] enumerate them. *)
Definition _mute_cleanup_pass (chat_id : string → string) (all_users : list string)
    (notice : string → string → TelegramResult)
    (now : Z) (order : list (string * list string)) (s : System) : System :=
  fold_left (cleanup_user chat_id all_users notice now) order s.

(* ===================================================================== *)
(** ** config.py: the daytime alert mode                                  *)
(* ===================================================================== *)

(** The assignments of [set_alert_mode] on a [UserConfig] object:
    [alert_mode.mode = mode] and, for REPEAT, [alert_mode.repeat.enabled
    = True]. *)
Definition set_mode (m : AlertMode) (u : UserConfig) : UserConfig :=
  let r := repeat (alert_mode u) in
  {| user_id := user_id u; is_active := is_active u;
     timezone_offset := timezone_offset u; big_order := big_order u;
     alert_mode :=
       {| mode := m;
          repeat :=
            if bool_decide (m = REPEAT)
            then {| repeat_enabled := true; interval_seconds := interval_seconds r;
                    max_repeats := max_repeats r;
                    require_confirm := require_confirm r |}
            else r;
          night := night (alert_mode u) |};
     email := email u; notify_channels := notify_channels u;
     cooldown_seconds := cooldown_seconds u; watch_mode := watch_mode u;
     whitelist := whitelist u; blacklist := blacklist u |}.

(** [UserManager.set_alert_mode]. *)
Definition set_alert_mode (users : UserManager) (uid : string) (m : AlertMode)
    : UserManager :=
  match users !! uid with
  | Some u => <[uid := set_mode m u]> users
  | None => users
  end.

(* ===================================================================== *)
(** ** Vocabulary of the specification                                    *)
(* ===================================================================== *)

(** The tier table as the specification prints it: (minimum absolute
    notional, minimum ratio in percent) by 24h quote turnover. *)
Definition spec_tier (V : Q) : Q * Q :=
  if float_lt V 10000000 then (500000, 20)%Q
  else if float_lt V 100000000 then (2000000, 10)%Q
  else if float_lt V 1000000000 then (5000000, 5)%Q
  else (10000000, 2)%Q.

(** The big-order threshold in the words of the specification:
    [max(tier_abs(V), V * tier_ratio(V) / 100)] for a tier [(abs, ratio)]. *)
Definition spec_threshold (tier : Q * Q) (V : Q) : Q :=
  Qmax (fst tier) (V * snd tier / 100)%Q.

(** The local time lies in the configured night window: both ends parse,
    and [start <= end] means [start <= now <= end], [start > end] means
    [now >= start] or [now <= end]. *)
Definition in_night_window (cfg : UserConfig) (now : Z) : Prop :=
  ∃ start end_,
    strptime_HM (night_start (night (alert_mode cfg))) = Some start ∧
    strptime_HM (night_end (night (alert_mode cfg))) = Some end_ ∧
    let t := local_time_of_day cfg now in
    (start <= end_ → start <= t <= end_) ∧
    (start > end_ → t >= start ∨ t <= end_).

(** The timestamps of a history, in insertion order, never go back (the
    clock read by [add] does not jump backwards). *)
Definition time_ordered (ps : list (Z * Q)) : Prop :=
  StronglySorted (fun x y => fst x <= fst y) ps.

(** A send attempt succeeds: the chat channel is not among the user's
    channels, or the transport delivered the message or timed out (a
    timeout is treated as a probable delivery). *)
Definition send_succeeds (cfg : UserConfig) (now : Z) (tg : TelegramResult) : Prop :=
  ((TELEGRAM ∉ get_notify_channels cfg now) ∧ (ALL ∉ get_notify_channels cfg now))
  ∨ tg = Delivered ∨ tg = TimedOut.

(** A user whose configured mode is REPEAT, otherwise with the defaults. *)
Definition repeat_mode_user (uid : string) : UserConfig :=
  {| user_id := uid; is_active := true; timezone_offset := 8;
     big_order := default_big_order;
     alert_mode :=
       {| mode := REPEAT;
          repeat := {| repeat_enabled := true; interval_seconds := 10;
                       max_repeats := 30; require_confirm := true |};
          night := default_night |};
     email := {| email_enabled := false; to_addresses := [] |};
     notify_channels := [TELEGRAM]; cooldown_seconds := 300;
     watch_mode := "all"; whitelist := []; blacklist := [] |}.

(** An alert as the engine builds it: not yet sent. *)
Definition new_alert (aid sym : string) (ty : AlertType) (lvl : AlertLevel) : Alert :=
  {| alert_id := aid; alert_type := ty; level := lvl; symbol := sym;
     target_user_id := ""; status := PENDING; sent_count := 0;
     last_sent := None; confirmed_at := None |}.

(** The alert objects a user's pending dictionary refers to. *)
Definition alert_refs (d : odict positive) : list positive := map snd d.

(** Two registries of users that differ at most by users having been
    marked inactive. *)
Definition same_but_activity (us us' : UserManager) : Prop :=
  ∀ k, us' !! k = us !! k
       ∨ ∃ c, us !! k = Some c ∧ us' !! k = Some (set_is_active false c).

(** The dispatcher state is well formed: no alert object is pending
    twice, no user has two pending dictionaries, and every object that
    is pending or stored was created before [next_alert]. *)
Definition wf_system (s : System) : Prop :=
  NoDup (pending_refs (pending_alerts s))
  ∧ NoDup (od_keys (pending_alerts s))
  ∧ (∀ l, l ∈ pending_refs (pending_alerts s) → (l < next_alert s)%positive)
  ∧ (∀ l, is_Some (alerts s !! l) → (l < next_alert s)%positive).

(** During the pass of the repeat loop from [s] to [s'] the alert object
    [l] was resent: it was pending for a user who was active when the
    pass started, its id was not confirmed, its symbol was monitored and
    its [sent_count] was below the [max_repeats] in effect. *)
Definition resent_in_pass (now : Z) (s s' : System) (l : positive) : Prop :=
  ∃ uid d aid a cfg,
    od_get uid (pending_alerts s) = Some d ∧ (aid, l) ∈ d
    ∧ alerts s !! l = Some a
    ∧ alerts s' !! l = Some (alert_mark_sent now a)
    ∧ users s !! uid = Some cfg ∧ is_active cfg = true
    ∧ _is_confirmed s uid aid = false
    ∧ should_monitor cfg (symbol a) = true
    ∧ sent_count a < max_repeats (get_repeat_config cfg now).

(** The cooldown cells a call [clear_cooldowns(user_id, symbol)]
    addresses: those of the given user (of every user when none is
    given) and of the given symbol (of every symbol when none is given). *)
Definition addressed_by_clear (user_id sym u s : string) : bool :=
  (String.eqb user_id "" || String.eqb user_id u)
  && (String.eqb sym "" || String.eqb sym s).

(** The alert [a] is stored under its own id [aid], is addressed to
    [uid] and has been sent. *)
Definition sent_to (uid aid : string) (a : Alert) : Prop :=
  alert_id a = aid ∧ target_user_id a = uid ∧ status a = SENT
  ∧ is_Some (last_sent a).

(** During the pass of the repeat loop from [s] to [s'] at the instant
    [now] the alert object [l] was resent after its interval: it was
    pending for an active user whose repeat configuration was enabled,
    and at least the interval in effect had passed since its last send. *)
Definition resent_after_interval (now : Z) (s s' : System) (l : positive) : Prop :=
  ∃ uid d aid a cfg ls,
    od_get uid (pending_alerts s) = Some d ∧ (aid, l) ∈ d
    ∧ alerts s !! l = Some a
    ∧ alerts s' !! l = Some (alert_mark_sent now a)
    ∧ users s !! uid = Some cfg ∧ is_active cfg = true
    ∧ repeat_enabled (get_repeat_config cfg now) = true
    ∧ last_sent a = Some ls
    ∧ timedelta_seconds (interval_seconds (get_repeat_config cfg now)) <= now - ls.

(** The history built from a sequence of samples (time, price, volume),
    added in turn to an empty one. *)
Definition history_of (samples : list (Z * Q * Q)) : PriceHistory :=
  fold_left (fun h x => add h (fst (fst x)) (snd (fst x)) (snd x)) samples new_history.

(** What happens to a client: a message of the spot or of the futures
    ticker stream handled at the instant [now], or a refresh of the
    dictionaries that the REST fetches write (24h statistics and funding
    rates), to any content. *)
Inductive ClientEvent :=
| SpotTicker (now : Z) (data : StreamTicker)
| FuturesTicker (now : Z) (data : StreamTicker)
| RestRefresh (spot futures : gmap string Stats24h) (rates : gmap string Q).

(** The handler of the ticker stream of a market. *)
Definition process_data (market : MarketType) (self : BinanceClient) (now : Z)
    (data : StreamTicker) : BinanceClient * option TickerData * option SpreadData :=
  match market with
  | SPOT => _process_spot_data self now data
  | FUTURES => _process_futures_data self now data
  end.

Definition client_step (c : BinanceClient) (ev : ClientEvent) : BinanceClient :=
  match ev with
  | SpotTicker now data => fst (fst (_process_spot_data c now data))
  | FuturesTicker now data => fst (fst (_process_futures_data c now data))
  | RestRefresh spot futures rates =>
      {| spot_prices := spot_prices c; futures_prices := futures_prices c;
         funding_rates := rates; spot_24h := spot; futures_24h := futures;
         spot_history := spot_history c; futures_history := futures_history c |}
  end.

(** The client after a sequence of events since it was created. *)
Definition client_run (evs : list ClientEvent) : BinanceClient :=
  fold_left client_step evs new_client.

(** The price and the history dictionary of a market. *)
Definition prices_of (market : MarketType) (c : BinanceClient) : gmap string Q :=
  match market with SPOT => spot_prices c | FUTURES => futures_prices c end.

Definition history_of_market (market : MarketType) (c : BinanceClient)
    : gmap string PriceHistory :=
  match market with SPOT => spot_history c | FUTURES => futures_history c end.

Definition other_market (market : MarketType) : MarketType :=
  match market with SPOT => FUTURES | FUTURES => SPOT end.

(** A history that holds between 1 and 720 samples, of positive prices,
    with the volumes recorded at the same instants. *)
Definition history_ok (h : PriceHistory) : Prop :=
  prices h ≠ []
  ∧ (length (prices h) <= maxlen)%nat
  ∧ Forall (fun tp => (0 < snd tp)%Q) (prices h)
  ∧ map fst (volumes h) = map fst (prices h).

(** The symbols with a price are those with a history, and the price of
    a symbol is the newest price of its history. *)
Definition market_ok (ps : gmap string Q) (hs : gmap string PriceHistory) : Prop :=
  ∀ s, match hs !! s with
       | Some h => history_ok h ∧ ps !! s = snd <$> last (prices h)
       | None => ps !! s = None
       end.

(** A message that the handlers drop: no symbol, or a price that is not
    positive. *)
Definition rejected (d : StreamTicker) : Prop := msg_s d = "" ∨ (msg_c d <= 0)%Q.

(** The value of an order (price, quantity) of the book. *)
Definition notional (o : Q * Q) : Q := (fst o * snd o)%Q.

(** What the statistics of one side of a book say about its orders:
    [max_order] bounds every value from above, it is the value of an
    order of the side placed at [max_price] when it is positive, both
    are 0 when no order has a positive value, and [total] is the sum of
    the values. *)
Definition side_summary (orders : list (Q * Q)) (max_order max_price total : Q)
    : Prop :=
  (∀ o, o ∈ orders → (notional o <= max_order)%Q)
  ∧ ((0 < max_order)%Q →
     ∃ o, o ∈ orders ∧ max_order = notional o ∧ max_price = fst o)
  ∧ ((max_order <= 0)%Q → max_order = 0%Q ∧ max_price = 0%Q)
  ∧ total = py_sum (map notional orders).

(** The level of a big order when the ratio to the turnover is taken to
    be 0. *)
Definition level_by_value (order_value : Q) : AlertLevel :=
  if float_ge order_value 50000000 then EXTREME
  else if float_ge order_value 20000000 then CRITICAL
  else if float_ge order_value 5000000 then WARNING
  else INFO.

(** The market of the data is enabled for the user. *)
Definition market_enabled (mon : Monitoring) (market : MarketType) : bool :=
  match market with
  | SPOT => enable_spot mon
  | FUTURES => enable_futures mon
  end.

(** The alert type of a created alert. *)
Definition call_type (c : EngineCall) : AlertType :=
  match c with
  | _create_price_alert ty _ _ _ _ => ty
  | _create_volume_alert _ _ => VOLUME_SPIKE
  | _create_spread_alert ty _ _ => ty
  | _create_funding_alert ty _ _ => ty
  | _create_big_order_alert ty _ _ _ _ _ _ => ty
  end.

(** A check (change, pump threshold, dump threshold, period) counts for
    the alert type: a pump when the change reaches the pump threshold,
    a dump when it does not and reaches the dump threshold. *)
Definition crosses (ty : AlertType) (c : Q * Q * Q * Period) : Prop :=
  let '(change, pump_threshold, dump_threshold, _) := c in
  match ty with
  | PRICE_PUMP => (pump_threshold <= change)%Q
  | PRICE_DUMP => (change < pump_threshold)%Q ∧ (change <= dump_threshold)%Q
  | _ => False
  end.

(** The entry that a check (change, pump threshold, dump threshold,
    period) leaves in the list of its direction, and the tests that
    select the direction. *)
Definition check_entry (c : Q * Q * Q * Period) : Q * Period * AlertLevel :=
  (fst (fst (fst c)), snd c, _get_price_level (fst (fst (fst c)))).

Definition is_pump (c : Q * Q * Q * Period) : bool :=
  float_ge (fst (fst (fst c))) (snd (fst (fst c))).

Definition is_dump (c : Q * Q * Q * Period) : bool :=
  negb (is_pump c) && float_le (fst (fst (fst c))) (snd (fst c)).

(** The 24h quote turnover of a symbol in a market, 0 when unknown. *)
Definition quote_volume_of (market : MarketType) (c : BinanceClient) (sym : string)
    : Q :=
  match market with
  | SPOT => default 0%Q (s24_quote_volume <$> spot_24h c !! sym)
  | FUTURES => default 0%Q (s24_quote_volume <$> futures_24h c !! sym)
  end.

(** The orders of a side of the book, by the alert type of the side. *)
Definition side_orders (ty : AlertType) (bid_orders ask_orders : list (Q * Q))
    : list (Q * Q) :=
  match ty with
  | BIG_BID_ORDER => bid_orders
  | BIG_ASK_ORDER => ask_orders
  | _ => []
  end.

(** The instant at which the mute of a symbol for a user ends, when the
    symbol is muted. *)
Definition muted_until (s : System) (uid sym : string) : option Z :=
  muted_symbols s !! uid ≫= (.!! sym).

(** [order] enumerates the keys of the table of mutes: every user of the
    table, each with every symbol of its dictionary. *)
Definition enumerates (order : list (string * list string))
    (m : gmap string (gmap string Z)) : Prop :=
  (∀ uid, is_Some (m !! uid) → uid ∈ map fst order)
  ∧ ∀ uid symbols, (uid, symbols) ∈ order →
      ∃ by_symbol, m !! uid = Some by_symbol
        ∧ ∀ sym, is_Some (by_symbol !! sym) → sym ∈ symbols.

(** A mute that has ended at the instant [now] is dropped, the others
    stay. *)
Definition still_muted (now : Z) (until : option Z) : option Z :=
  t ← until; if t <=? now then None else Some t.

(** [x] is the blacklist entry of a mute of the user that is among the
    pairs (user, symbol) of [D] and has ended at the instant [now]. *)
Definition expired_name (now : Z) (s0 : System) (uid : string)
    (D : list (string * string)) (x : string) : Prop :=
  ∃ sym t, (uid, sym) ∈ D ∧ muted_until s0 uid sym = Some t ∧ t <= now
           ∧ x = strip (upper sym).

(** The state after the removal of a mute of [uid] for [sym] that has
    ended at the instant [now], before the notice is sent. *)
Definition unmute_expired (now : Z) (uid : string) (s : System) (sym : string)
    : System :=
  match muted_symbols s !! uid with
  | Some by_symbol =>
      match by_symbol !! sym with
      | Some unmute_time =>
          if unmute_time <=? now then
            let s1 := with_users (remove_from_blacklist (users s) uid [sym]) s in
            with_muted (<[uid := delete sym by_symbol]> (muted_symbols s1)) s1
          else s
      | None => s
      end
  | None => s
  end.

(** The user is registered and marked inactive. *)
Definition inactive (us : UserManager) (u : string) : Prop :=
  ∃ c, us !! u = Some c ∧ is_active c = false.

(** Among the pairs (user, symbol) of [D], the notice of a mute that has
    ended at the instant [now], for a user who was active when the pass
    started in [s0], went to the chat of the user [u] and was answered
    [Forbidden]. *)
Definition blocked_notice (chat_id : string → string)
    (notice : string → string → TelegramResult) (now : Z) (s0 : System)
    (D : list (string * string)) (u : string) : Prop :=
  ∃ u' sym t, (u', sym) ∈ D ∧ muted_until s0 u' sym = Some t ∧ t <= now
              ∧ notice u' sym = Forbidden ∧ chat_id u' = chat_id u
              ∧ ∃ c, users s0 !! u' = Some c ∧ is_active c = true.

(** The registry [us] of a pass that started in [s0], once the pairs
    (user, symbol) of [D] have been handled: a configuration has changed
    only in its blacklist, which has lost the names of mutes that ended,
    and in its activity, which is switched off only after a notice to the
    chat of the user was answered [Forbidden]. *)
Definition users_progress (chat_id : string → string)
    (notice : string → string → TelegramResult)
    (now : Z) (s0 : System) (us : UserManager) (D : list (string * string))
    : Prop :=
  ∀ u, match users s0 !! u with
       | None => us !! u = None
       | Some cfg0 =>
           ∃ bl act,
             us !! u = Some (set_is_active act (set_blacklist bl cfg0))
             ∧ (act = is_active cfg0
                ∨ (act = false ∧ blocked_notice chat_id notice now s0 D u))
             ∧ bl `sublist_of` blacklist cfg0
             ∧ (∀ x, x ∈ blacklist cfg0 → x ∈ bl ∨ expired_name now s0 u D x)
             ∧ (NoDup (blacklist cfg0) →
                ∀ x, expired_name now s0 u D x → x ∉ bl)
       end.

(** The state of a pass that started in [s0], once the pairs
    (user, symbol) of [D] have been handled. *)
Definition cleanup_progress (chat_id : string → string)
    (notice : string → string → TelegramResult)
    (now : Z) (s0 s : System) (D : list (string * string)) : Prop :=
  alerts s = alerts s0 ∧ next_alert s = next_alert s0
  ∧ pending_alerts s = pending_alerts s0 ∧ confirmed_ids s = confirmed_ids s0
  ∧ engine s = engine s0 ∧ bot_system s = bot_system s0
  ∧ (∀ u k, muted_until s u k
            = if decide ((u, k) ∈ D) then still_muted now (muted_until s0 u k)
              else muted_until s0 u k)
  ∧ users_progress chat_id notice now s0 (users s) D.

(** Every notice of [D] that was answered [Forbidden] has left the user
    it was meant for, or the first user of that chat, inactive. *)
Definition notices_effective (chat_id : string → string) (all_users : list string)
    (notice : string → string → TelegramResult)
    (now : Z) (s0 s : System) (D : list (string * string)) : Prop :=
  ∀ u k t w,
    (u, k) ∈ D → muted_until s0 u k = Some t → t <= now →
    notice u k = Forbidden → is_Some (users s0 !! u) →
    first_user_of_chat chat_id all_users (users s0) (chat_id u) = Some w →
    inactive (users s) u ∨ inactive (users s) w.

(** The registry holds every configuration under its own user id, as
    [get_or_create_user] builds it. *)
Definition keyed_by_user_id (us : UserManager) : Prop :=
  ∀ k c, us !! k = Some c → user_id c = k.




(* ===================================================================== *)
(** * Properties                                                          *)
(* ===================================================================== *)

(** ** The cooldown table *)

Section Cooldown.

Implicit Types (e : AlertEngine) (c : Candidate) (ty : AlertType).

(** The engine after an escalation has been counted. *)
Let counted e : AlertEngine :=
  {| cooldowns := cooldowns e; escalation_count := escalation_count e + 1 |}.

Lemma check_by_cell now e u sym ty lvl cd :
  _check_cooldown_and_escalation now e u sym ty lvl cd =
  match cooldown_cell e u sym ty with
  | None => ((true, false), e)
  | Some (t0, l0) =>
      if bool_decide (now - t0 < timedelta_seconds cd) then
        if bool_decide (priority lvl > priority l0)
        then ((true, true), counted e) else ((false, false), e)
      else ((true, false), e)
  end.
Proof.
  unfold _check_cooldown_and_escalation, cooldown_cell.
  destruct (cooldowns e !! u) as [by_symbol|]; simpl; [|done].
  destruct (by_symbol !! sym) as [by_type|]; simpl; [|done].
  destruct (by_type !! ty) as [[t0 l0]|]; simpl; [|done].
  by destruct (bool_decide (now - t0 < timedelta_seconds cd)).
Qed.

Lemma cell_after_set now e u sym ty lvl :
  cooldown_cell (_set_cooldown now e u sym ty lvl) u sym ty = Some (now, lvl).
Proof.
  unfold cooldown_cell, _set_cooldown; simpl.
  rewrite lookup_insert_eq; simpl.
  rewrite lookup_insert_eq; simpl.
  by rewrite lookup_insert_eq.
Qed.

Lemma cell_after_set_other now e u sym ty lvl u' sym' ty' :
  ¬ (u' = u ∧ sym' = sym ∧ ty' = ty) →
  cooldown_cell (_set_cooldown now e u sym ty lvl) u' sym' ty'
  = cooldown_cell e u' sym' ty'.
Proof.
  intros Hne. unfold cooldown_cell, _set_cooldown; simpl.
  destruct (decide (u' = u)) as [->|Hu]; [|by rewrite lookup_insert_ne].
  rewrite lookup_insert_eq; simpl.
  destruct (decide (sym' = sym)) as [->|Hs].
  - rewrite lookup_insert_eq; simpl.
    rewrite lookup_insert_ne by (intros ->; by apply Hne).
    destruct (cooldowns e !! u) as [by_symbol|]; simpl; [|done].
    by destruct (by_symbol !! sym).
  - rewrite lookup_insert_ne by done.
    by destruct (cooldowns e !! u).
Qed.

(** A candidate for another cell leaves this one alone. *)
Lemma candidate_other_cell e c u sym ty :
  ¬ (c_user c = u ∧ c_symbol c = sym ∧ c_type c = ty) →
  cooldown_cell (snd (candidate_firing e c)) u sym ty = cooldown_cell e u sym ty.
Proof.
  intros Hne. unfold candidate_firing. rewrite check_by_cell.
  assert (Hne' : ¬ (u = c_user c ∧ sym = c_symbol c ∧ ty = c_type c))
    by (intros (-> & -> & ->); by apply Hne).
  destruct (cooldown_cell e (c_user c) (c_symbol c) (c_type c)) as [[t0 l0]|]; simpl.
  - repeat case_bool_decide; simpl; rewrite ?cell_after_set_other; done.
  - by rewrite cell_after_set_other.
Qed.

(** What a candidate does to its own cell while the cooldown runs. *)
Lemma candidate_inside_cooldown e c t0 l0 :
  cooldown_cell e (c_user c) (c_symbol c) (c_type c) = Some (t0, l0) →
  c_check_time c - t0 < timedelta_seconds (c_cooldown_seconds c) →
  (fst (candidate_firing e c) = (false, false) ∧ snd (candidate_firing e c) = e
   ∧ priority (c_level c) ≤ priority l0)
  ∨ (fst (candidate_firing e c) = (true, true)
     ∧ cooldown_cell (snd (candidate_firing e c)) (c_user c) (c_symbol c) (c_type c)
       = Some (c_set_time c, c_level c)
     ∧ priority l0 < priority (c_level c)).
Proof.
  intros Hcell Hin. unfold candidate_firing. rewrite check_by_cell, Hcell.
  rewrite bool_decide_eq_true_2 by done.
  case_bool_decide; simpl.
  - right. rewrite cell_after_set. split_and!; [done..|lia].
  - left. split_and!; [done..|lia].
Qed.

(** A suppressed candidate leaves the whole engine as it was. *)
Lemma suppressed_unchanged e c :
  fst (fst (candidate_firing e c)) = false → snd (candidate_firing e c) = e.
Proof.
  unfold candidate_firing. rewrite check_by_cell.
  destruct (cooldown_cell e (c_user c) (c_symbol c) (c_type c)) as [[t0 l0]|];
    simpl; [|done].
  repeat case_bool_decide; simpl; done.
Qed.

(** C1. A candidate firing at the instant of its check, with level [L]
    and cooldown [C]: it fires (not as an escalation) when its cell does
    not exist or the cooldown has expired; inside the cooldown it fires,
    tagged as an escalation, exactly when [L] has a strictly greater
    priority than the stored level, and is suppressed otherwise; every
    fire overwrites the cell with the instant of the write and [L];
    suppression leaves the table unchanged. *)
Theorem cooldown_and_escalation_decision e c :
  let cell := cooldown_cell e (c_user c) (c_symbol c) (c_type c) in
  let r := candidate_firing e c in
  let cell' := cooldown_cell (snd r) (c_user c) (c_symbol c) (c_type c) in
  let expired t0 :=
    c_check_time c - t0 >= timedelta_seconds (c_cooldown_seconds c) in
  ((cell = None ∨ ∃ t0 l0, cell = Some (t0, l0) ∧ expired t0) →
     fst r = (true, false) ∧ cell' = Some (c_set_time c, c_level c))
  ∧ (∀ t0 l0, cell = Some (t0, l0) → ¬ expired t0 →
       (priority (c_level c) > priority l0 →
          fst r = (true, true) ∧ cell' = Some (c_set_time c, c_level c))
       ∧ (priority (c_level c) <= priority l0 →
          fst r = (false, false) ∧ snd r = e)).
Proof.
  simpl. split.
  - intros Hout. unfold candidate_firing. rewrite check_by_cell.
    destruct Hout as [->|(t0 & l0 & -> & Hexp)]; simpl.
    + by rewrite cell_after_set.
    + rewrite bool_decide_eq_false_2 by lia. simpl. by rewrite cell_after_set.
  - intros t0 l0 Hcell Hin.
    destruct (candidate_inside_cooldown e c t0 l0 Hcell) as [(Hr & He & Hp)|(Hr & Hc & Hp)];
      [lia|..]; (split; intros Hprio; [|]); try lia; done.
Qed.

(** C8. While the cooldown of a cell has not expired, its stored level
    never decreases: over any sequence of candidate firings that reach
    the cell inside its cooldown, the final stored priority is at least
    the initial one; a single such candidate either is suppressed, and
    then nothing in the engine changes, or overwrites the cell with a
    strictly higher-priority level; and no suppressed candidate ever
    changes the engine. *)
Theorem stored_level_never_decreases e u sym ty (cs : list Candidate) t0 l0 :
  cooldown_cell e u sym ty = Some (t0, l0) →
  inside_cooldown e u sym ty cs →
  (∃ t1 l1, cooldown_cell (run_candidates e cs) u sym ty = Some (t1, l1)
            ∧ priority l0 <= priority l1)
  ∧ (∀ c, c_user c = u → c_symbol c = sym → c_type c = ty →
          c_check_time c - t0 < timedelta_seconds (c_cooldown_seconds c) →
          (fst (candidate_firing e c) = (false, false)
           ∧ snd (candidate_firing e c) = e)
          ∨ (fst (candidate_firing e c) = (true, true)
             ∧ cooldown_cell (snd (candidate_firing e c)) u sym ty
               = Some (c_set_time c, c_level c)
             ∧ priority l0 < priority (c_level c)))
  ∧ (∀ e' c, fst (fst (candidate_firing e' c)) = false →
             snd (candidate_firing e' c) = e').
Proof.
  intros Hcell Hins. split_and!.
  - revert e t0 l0 Hcell Hins.
    induction cs as [|c cs IH]; intros e t0 l0 Hcell Hins; simpl in *.
    + exists t0, l0. split; [done|lia].
    + destruct Hins as [Hhere Hrest].
      destruct (decide (c_user c = u ∧ c_symbol c = sym ∧ c_type c = ty))
        as [(Hu & Hs & Ht)|Hne].
      * destruct (Hhere (conj Hu (conj Hs Ht))) as (t0' & l0' & Hcell' & Hin).
        rewrite Hcell in Hcell'. injection Hcell' as <- <-.
        subst u sym ty.
        destruct (candidate_inside_cooldown e c t0 l0 Hcell Hin)
          as [(_ & He & _)|(_ & Hc & Hp)].
        -- rewrite He in Hrest |- *. by apply (IH e t0 l0).
        -- destruct (IH _ _ _ Hc Hrest) as (t1 & l1 & H1 & Hle).
           exists t1, l1. split; [done|lia].
      * apply (IH _ t0 l0); [|done].
        by rewrite candidate_other_cell.
  - intros c <- <- <- Hin.
    destruct (candidate_inside_cooldown e c t0 l0 Hcell Hin)
      as [(Hr & He & _)|(Hr & Hc & Hp)]; [by left|by right].
  - intros e' c. apply suppressed_unchanged.
Qed.

(** The scenario of a pump that escalates: with a cooldown of 300s, a
    WARNING fired at 0s, then a CRITICAL candidate at 60s and a WARNING
    candidate at 120s; the stored level ends at least at WARNING. *)
Lemma stored_level_never_decreases_witness :
  let c lvl t :=
    {| c_user := "u1"; c_symbol := "XUSDT"; c_type := PRICE_PUMP;
       c_level := lvl; c_cooldown_seconds := 300;
       c_check_time := t; c_set_time := t |} in
  let e := snd (candidate_firing {| cooldowns := ∅; escalation_count := 0 |}
                  (c WARNING 0)) in
  ∃ t1 l1,
    cooldown_cell
      (run_candidates e [c CRITICAL 60000000; c WARNING 120000000])
      "u1" "XUSDT" PRICE_PUMP = Some (t1, l1)
    ∧ priority WARNING <= priority l1.
Proof.
  intros c e.
  apply (proj1 (stored_level_never_decreases e "u1" "XUSDT" PRICE_PUMP
                  [c CRITICAL 60000000; c WARNING 120000000] 0 WARNING
                  eq_refl
                  (conj (fun _ => ex_intro _ 0 (ex_intro _ WARNING
                                    (conj eq_refl eq_refl)))
                     (conj (fun _ => ex_intro _ 60000000 (ex_intro _ CRITICAL
                                       (conj eq_refl eq_refl)))
                        I)))).
Defined.

End Cooldown.

(** ** Big-order thresholds *)

Section BigOrder.

Implicit Types (cfg : BigOrderThreshold) (N V a b : Q).

Lemma float_lt_iff a b : float_lt a b = true ↔ (a < b)%Q.
Proof.
  unfold float_lt. rewrite negb_true_iff, <- not_true_iff_false, Qle_bool_iff.
  split; [apply Qnot_le_lt | apply Qlt_not_le].
Qed.

Lemma float_lt_false_iff a b : float_lt a b = false ↔ (b <= a)%Q.
Proof.
  unfold float_lt. rewrite negb_false_iff. apply Qle_bool_iff.
Qed.

Lemma py_max_le a b N : (py_max a b <= N)%Q ↔ (a <= N)%Q ∧ (b <= N)%Q.
Proof.
  unfold py_max. destruct (Qle_bool b a) eqn:Hba.
  - apply Qle_bool_iff in Hba. split; [|tauto].
    intros Ha. split; [done|]. by apply Qle_trans with a.
  - apply not_true_iff_false in Hba. rewrite Qle_bool_iff in Hba.
    apply Qnot_le_lt in Hba. split; [|tauto].
    intros Hb. split; [|done]. apply Qle_trans with b; [|done].
    by apply Qlt_le_weak.
Qed.

Lemma py_max_Qmax a b N : (py_max a b <= N)%Q ↔ (Qmax a b <= N)%Q.
Proof. by rewrite py_max_le, Q.max_lub_iff. Qed.

(** The tier [get_threshold] selects, by range of the turnover. *)
Lemma get_threshold_tiers cfg V :
  ((V < 10000000)%Q →
     get_threshold cfg V = (min_order_small_cap cfg, ratio_small_cap cfg))
  ∧ ((10000000 <= V)%Q → (V < 100000000)%Q →
     get_threshold cfg V = (min_order_mid_cap cfg, ratio_mid_cap cfg))
  ∧ ((100000000 <= V)%Q → (V < 1000000000)%Q →
     get_threshold cfg V = (min_order_large_cap cfg, ratio_large_cap cfg))
  ∧ ((1000000000 <= V)%Q →
     get_threshold cfg V = (min_order_mega_cap cfg, ratio_mega_cap cfg)).
Proof.
  unfold get_threshold. split_and!.
  - intros H. apply float_lt_iff in H. by rewrite H.
  - intros H1 H2. apply float_lt_false_iff in H1. apply float_lt_iff in H2.
    by rewrite H1, H2.
  - intros H1 H2.
    assert (H0 : float_lt V 10000000 = false)
      by (apply float_lt_false_iff; lra).
    apply float_lt_false_iff in H1. apply float_lt_iff in H2.
    by rewrite H0, H1, H2.
  - intros H1.
    assert (H0 : float_lt V 10000000 = false)
      by (apply float_lt_false_iff; lra).
    assert (H2 : float_lt V 100000000 = false)
      by (apply float_lt_false_iff; lra).
    apply float_lt_false_iff in H1. by rewrite H0, H2, H1.
Qed.

Lemma is_big_order_positive cfg N V :
  (0 < V)%Q →
  is_big_order cfg N V = true ↔ (spec_threshold (get_threshold cfg V) V <= N)%Q.
Proof.
  intros HV. unfold is_big_order, spec_threshold.
  assert (Hz : Qle_bool V 0 = false).
  { apply not_true_iff_false. rewrite Qle_bool_iff. by apply Qlt_not_le. }
  rewrite Hz. destruct (get_threshold cfg V) as [a r]; simpl.
  by rewrite Qle_bool_iff, py_max_Qmax.
Qed.

Lemma is_big_order_no_turnover cfg N V :
  (V <= 0)%Q → is_big_order cfg N V = true ↔ (min_order_small_cap cfg <= N)%Q.
Proof.
  intros HV. unfold is_big_order.
  apply Qle_bool_iff in HV. rewrite HV. apply Qle_bool_iff.
Qed.

Lemma default_tier_is_spec_tier V : get_threshold default_big_order V = spec_tier V.
Proof. done. Qed.

(** The claim read with the printed constants fails for a user on the
    CONSERVATIVE preset: with a turnover of 1M an order of 600k reaches
    [max(500k, 1M * 20 / 100)] but is not a big order for that user. *)
Lemma big_order_printed_tiers_not_universal :
  ¬ (is_big_order conservative_big_order 600000 1000000 = true
     ↔ (spec_threshold (spec_tier 1000000) 1000000 <= 600000)%Q).
Proof.
  intros [_ H]. enough (Hf : false = true) by discriminate.
  apply H. vm_compute. discriminate.
Qed.

(** C2 (amended). For every threshold configuration, turnover [V] and
    notional [N]: with [V > 0] the detector triggers iff
    [N >= max(tier_abs, V * tier_ratio / 100)], where the tier is the
    configured (small, mid, large, mega) floor and ratio selected by
    [V < 10M], [V < 100M], [V < 1B], [V >= 1B]; with [V <= 0] it triggers
    iff [N] reaches the configured small-cap floor alone.  Under the
    default configuration and the MODERATE preset the tiers are the
    printed ones, (500k, 20), (2M, 10), (5M, 5), (10M, 2), and the first
    formula then holds for every [V]. *)
Theorem big_order_threshold cfg N V :
  ((0 < V)%Q →
     is_big_order cfg N V = true
     ↔ (spec_threshold (get_threshold cfg V) V <= N)%Q)
  ∧ ((V <= 0)%Q →
     is_big_order cfg N V = true ↔ (min_order_small_cap cfg <= N)%Q)
  ∧ (((V < 10000000)%Q →
        get_threshold cfg V = (min_order_small_cap cfg, ratio_small_cap cfg))
     ∧ ((10000000 <= V)%Q → (V < 100000000)%Q →
        get_threshold cfg V = (min_order_mid_cap cfg, ratio_mid_cap cfg))
     ∧ ((100000000 <= V)%Q → (V < 1000000000)%Q →
        get_threshold cfg V = (min_order_large_cap cfg, ratio_large_cap cfg))
     ∧ ((1000000000 <= V)%Q →
        get_threshold cfg V = (min_order_mega_cap cfg, ratio_mega_cap cfg)))
  ∧ (is_big_order default_big_order N V = true
     ↔ (spec_threshold (spec_tier V) V <= N)%Q)
  ∧ moderate_big_order = default_big_order.
Proof.
  split_and!.
  - apply is_big_order_positive.
  - apply is_big_order_no_turnover.
  - apply get_threshold_tiers.
  - apply get_threshold_tiers.
  - apply get_threshold_tiers.
  - apply get_threshold_tiers.
  - destruct (Qlt_le_dec 0 V) as [Hpos|Hneg].
    + by rewrite is_big_order_positive, default_tier_is_spec_tier.
    + rewrite is_big_order_no_turnover by done.
      unfold spec_threshold, spec_tier.
      assert (Hs : float_lt V 10000000 = true) by (apply float_lt_iff; lra).
      rewrite Hs. cbn [fst snd min_order_small_cap default_big_order].
      rewrite Q.max_lub_iff. split; [|tauto].
      intros H. split; [done|].
      apply Qle_trans with 0%Q; [|lra].
      apply Qle_shift_div_r; lra.
  - done.
Qed.

End BigOrder.

(** ** Night mode and the effective alert mode *)

Section EffectiveMode.

Implicit Types (cfg : UserConfig) (now : Z).

(** [is_night_time] decides: night mode is enabled and the local time
    lies in the configured window. *)
Lemma is_night_time_iff cfg now :
  is_night_time cfg now = true
  ↔ night_enabled (night (alert_mode cfg)) = true ∧ in_night_window cfg now.
Proof.
  unfold is_night_time, in_night_window.
  destruct (night_enabled (night (alert_mode cfg))); simpl;
    [|split; [done|by intros [? _]]].
  destruct (strptime_HM (night_start _)) as [start|];
    [|split; [done|by intros [_ (? & ? & ? & _)]]].
  destruct (strptime_HM (night_end _)) as [end_|];
    [|split; [done|by intros [_ (? & ? & _ & ? & _)]]].
  destruct (Z.leb_spec start end_) as [Hle|Hgt].
  - rewrite andb_true_iff, !Z.leb_le. split.
    + intros Hin. split; [done|]. exists start, end_. split_and!; [done..| |]; lia.
    + intros [_ (s' & e' & [= <-] & [= <-] & H1 & _)]. lia.
  - rewrite orb_true_iff, !Z.leb_le. split.
    + intros Hin. split; [done|]. exists start, end_. split_and!; [done..| |]; lia.
    + intros [_ (s' & e' & [= <-] & [= <-] & _ & H2)]. lia.
Qed.

(** The claim without the auto-switch flag fails: a user with night mode
    enabled but auto-switch off, base mode SINGLE, at 23:30 local time
    inside the 23:00-07:00 window, keeps the SINGLE mode. *)
Lemma night_window_without_auto_switch :
  let cfg :=
    {| user_id := "u3"; is_active := true; timezone_offset := 8;
       big_order := default_big_order;
       alert_mode :=
         {| mode := SINGLE; repeat := default_repeat;
            night :=
              {| night_enabled := true; auto_switch := false;
                 night_start := "23:00"; night_end := "07:00";
                 night_interval_seconds := 15; night_max_repeats := 20;
                 night_add_email := true |} |};
       email := {| email_enabled := false; to_addresses := [] |};
       notify_channels := [TELEGRAM]; cooldown_seconds := 300;
       watch_mode := "all"; whitelist := []; blacklist := [] |} in
  let now := 15 * hour_us + 30 * 60 * 1000000 in
  night_enabled (night (alert_mode cfg)) = true
  ∧ in_night_window cfg now
  ∧ get_effective_mode cfg now = SINGLE.
Proof.
  simpl. split_and!; [done| |done].
  apply is_night_time_iff. done.
Qed.

(** C4 (amended). The effective mode is REPEAT whenever night mode is
    enabled, its auto-switch flag is set and the user's local time lies
    in the configured night window, whatever the base mode; in every
    other case it is the user's configured mode. *)
Theorem effective_mode_night_switch cfg now :
  let n := night (alert_mode cfg) in
  (night_enabled n = true ∧ auto_switch n = true ∧ in_night_window cfg now →
     get_effective_mode cfg now = REPEAT)
  ∧ (¬ (night_enabled n = true ∧ auto_switch n = true ∧ in_night_window cfg now) →
     get_effective_mode cfg now = mode (alert_mode cfg)).
Proof.
  simpl. unfold get_effective_mode.
  pose proof (is_night_time_iff cfg now) as Hn.
  destruct (is_night_time cfg now).
  - destruct Hn as [Hn _]. destruct (Hn eq_refl) as [He Hw]. rewrite He. simpl.
    destruct (auto_switch _); simpl; split; try done.
    + intros H. exfalso. by apply H.
    + by intros (_ & ? & _).
  - split.
    + intros (He & Ha & Hw). destruct Hn as [_ Hn]. by specialize (Hn (conj He Hw)).
    + intros _. by rewrite !andb_false_r.
Qed.

End EffectiveMode.

(** ** Price history *)

Section PriceChange.

Implicit Types (h : PriceHistory) (ps : list (Z * Q)) (now minutes cutoff : Z).

Lemma filter_after_cutoff ps cutoff t :
  cutoff < t → Forall (fun y => t <= fst y) ps →
  List.filter (fun tp => fst tp <=? cutoff) ps = [].
Proof.
  intros Hlt Hall. induction Hall as [|y r Hy _ IH]; [done|].
  simpl. rewrite IH. destruct (Z.leb_spec (fst y) cutoff); [lia|done].
Qed.

Lemma last_cons_default {A} (x d : A) (r : list A) :
  List.last (x :: r) d = List.last r x.
Proof.
  revert x d. induction r as [|y r IH]; intros x d; [done|].
  change (List.last (x :: y :: r) d) with (List.last (y :: r) d).
  by rewrite !IH.
Qed.

(** On ordered timestamps the scan finds the last entry that is not after
    the cutoff. *)
Lemma scan_old_price_sorted ps cutoff acc :
  time_ordered ps →
  scan_old_price cutoff acc ps =
  match List.filter (fun tp => fst tp <=? cutoff) ps with
  | [] => acc
  | x :: r => Some (snd (List.last r x))
  end.
Proof.
  intros Hs. revert acc.
  induction Hs as [|[t p] r Hr IH Hall]; intros acc; [done|].
  simpl. destruct (Z.leb_spec t cutoff) as [Hle|Hgt].
  - rewrite IH. destruct (List.filter _ r); [done|]. by rewrite last_cons_default.
  - by rewrite (filter_after_cutoff r cutoff t).
Qed.

Lemma selected_baseline_spec h now minutes :
  time_ordered (prices h) →
  selected_baseline h now minutes
  = baseline_spec (prices h) (now - timedelta_minutes minutes).
Proof.
  intros Hs. unfold selected_baseline, baseline_spec.
  rewrite scan_old_price_sorted by done.
  destruct (prices h) as [|first rest]; [done|].
  by destruct (List.filter _ (first :: rest)).
Qed.

(** [get_change] in terms of the baseline it selects. *)
Lemma get_change_by_baseline h now minutes first rest b :
  prices h = first :: rest → rest ≠ [] →
  selected_baseline h now minutes = Some b →
  get_change h now minutes =
  if negb (Qeq_bool b 0) && float_lt 0 b
  then Ok (Some (((snd (List.last (prices h) first) - b) / b) * 100)%Q)
  else Ok None.
Proof.
  intros Hp Hrest Hb. unfold selected_baseline in Hb. unfold get_change.
  rewrite Hp in *. destruct rest as [|second rest]; [done|].
  remember (scan_old_price (now - timedelta_minutes minutes) None
              (first :: second :: rest)) as o eqn:Ho.
  clear Ho. injection Hb as <-.
  destruct o as [p|]; cbv [default from_option id]; unfold py_truediv.
  - by destruct (Qeq_bool p 0).
  - by destruct (Qeq_bool (snd first) 0).
Qed.

Lemma get_change_few_samples h now minutes :
  (length (prices h) < 2)%nat → get_change h now minutes = Ok None.
Proof.
  unfold get_change. destruct (prices h) as [|first [|second rest]]; simpl; [done..|lia].
Qed.

Lemma positive_guard b : (0 < b)%Q → negb (Qeq_bool b 0) && float_lt 0 b = true.
Proof.
  intros Hb. apply andb_true_iff. split; [|by apply float_lt_iff].
  apply negb_true_iff, not_true_iff_false. rewrite Qeq_bool_iff.
  intros Heq. rewrite Heq in Hb. by apply Qlt_irrefl in Hb.
Qed.

Lemma nonpositive_guard b : (b <= 0)%Q → negb (Qeq_bool b 0) && float_lt 0 b = false.
Proof.
  intros Hb. apply andb_false_iff. right. by apply float_lt_false_iff.
Qed.

(** The formula of the specification read for every history fails on
    timestamps that are not in order, which [add] produces when the clock
    of [datetime.now()] is set back between two samples: with samples
    added at the clock readings 100s, 0s, 60s and 120s and a cutoff at
    65s the most recent price at or before the cutoff is the one stamped
    60s (80), while the scan stops at the first sample, finds none and
    takes the earliest retained price (100).  It also fails on a baseline
    that is not a positive price: two samples are retained, in order, and
    the change is [None]. *)
Lemma get_change_formula_not_universal :
  let h := add (add (add (add new_history 100000000 100 0) 0 50 0)
                  60000000 80 0) 120000000 200 0 in
  let h0 := add (add new_history 0 0 0) 120000000 5 0 in
  (prices h = [(100000000, 100%Q); (0, 50%Q); (60000000, 80%Q);
               (120000000, 200%Q)]
   ∧ baseline_spec (prices h) (125000000 - timedelta_minutes 1) = Some 80%Q
   ∧ get_change h 125000000 1 = Ok (Some (((200 - 100) / 100) * 100)%Q)
   ∧ ¬ (((200 - 100) / 100) * 100 == ((200 - 80) / 80) * 100)%Q)
  ∧ (length (prices h0) = 2%nat
     ∧ time_ordered (prices h0)
     ∧ baseline_spec (prices h0) (125000000 - timedelta_minutes 1) = Some 0%Q
     ∧ get_change h0 125000000 1 = Ok None).
Proof.
  cbv zeta. split_and!; try reflexivity.
  - intros H. vm_compute in H. discriminate H.
  - repeat constructor; simpl; lia.
Qed.

(** C7 (amended). With fewer than two retained samples the change is
    undefined ([None]).  Otherwise, on a history whose timestamps are in
    order, let [baseline] be the most recent retained price whose
    timestamp is at or before [now - minutes], or the earliest retained
    price when no sample is that old, and [current] the newest retained
    price: when the baseline is positive the change is
    [((current - baseline) / baseline) * 100], and when it is zero or
    negative the change is undefined ([None]). *)
Theorem get_change_formula h now minutes :
  ((length (prices h) < 2)%nat → get_change h now minutes = Ok None)
  ∧ (∀ first rest b,
       prices h = first :: rest → rest ≠ [] →
       time_ordered (prices h) →
       baseline_spec (prices h) (now - timedelta_minutes minutes) = Some b →
       (0 < b)%Q →
       get_change h now minutes
       = Ok (Some (((snd (List.last (prices h) first) - b) / b) * 100)%Q))
  ∧ (∀ first rest b,
       prices h = first :: rest → rest ≠ [] →
       time_ordered (prices h) →
       baseline_spec (prices h) (now - timedelta_minutes minutes) = Some b →
       (b <= 0)%Q →
       get_change h now minutes = Ok None).
Proof.
  split_and!; [apply get_change_few_samples| |].
  - intros first rest b Hp Hrest Hs Hb Hpos.
    rewrite <- selected_baseline_spec in Hb by done.
    rewrite (get_change_by_baseline h now minutes first rest b) by done.
    by rewrite positive_guard.
  - intros first rest b Hp Hrest Hs Hb Hneg.
    rewrite <- selected_baseline_spec in Hb by done.
    rewrite (get_change_by_baseline h now minutes first rest b) by done.
    by rewrite nonpositive_guard.
Qed.

(** The formula on a three-sample history: 100 at 0s, 110 at 60s, 121 at
    120s, asked at 125s for the change over one minute; the baseline is
    the sample at 60s and the change is 10 percent. *)
Lemma get_change_formula_witness :
  let h := {| prices := [(0, 100%Q); (60000000, 110%Q); (120000000, 121%Q)];
              volumes := [] |} in
  get_change h 125000000 1
  = Ok (Some (((121 - 110) / 110) * 100)%Q).
Proof.
  intros h.
  apply (proj1 (proj2 (get_change_formula h 125000000 1))
           (0, 100%Q) [(60000000, 110%Q); (120000000, 121%Q)] 110%Q).
  - reflexivity.
  - discriminate.
  - repeat constructor; simpl; lia.
  - reflexivity.
  - reflexivity.
Defined.

(** C9. [get_change] never divides by a baseline that is not positive:
    it never raises [ZeroDivisionError]; whenever the selected baseline
    is zero or negative it returns [None]; and every number it returns
    was computed from a positive baseline. *)
Theorem get_change_guarded h now minutes :
  get_change h now minutes ≠ ZeroDivisionError
  ∧ (∀ b, selected_baseline h now minutes = Some b → (b <= 0)%Q →
          get_change h now minutes = Ok None)
  ∧ (∀ v, get_change h now minutes = Ok (Some v) →
          ∃ first b, head (prices h) = Some first
            ∧ selected_baseline h now minutes = Some b ∧ (0 < b)%Q
            ∧ v = (((snd (List.last (prices h) first) - b) / b) * 100)%Q).
Proof.
  destruct (prices h) as [|first [|second rest]] eqn:Hp.
  1,2: unfold get_change; rewrite Hp; split_and!; [done|done|done].
  assert (Hb : ∃ b, selected_baseline h now minutes = Some b).
  { unfold selected_baseline. rewrite Hp. eauto. }
  destruct Hb as [b Hb].
  rewrite (get_change_by_baseline h now minutes first (second :: rest) b) by done.
  destruct (Qlt_le_dec 0 b) as [Hpos|Hneg].
  - rewrite positive_guard by done. split_and!; [done| |].
    + intros b' Hb' Hle. rewrite Hb in Hb'. injection Hb' as <-.
      exfalso. by apply (Qlt_not_le 0 b).
    + intros v [= <-]. exists first, b. by rewrite Hp.
  - rewrite nonpositive_guard by done. split_and!; done.
Qed.

End PriceChange.

(** ** Ordered dictionaries *)

Section OrderedDict.

Context {V : Type}.
Implicit Types (d : odict V) (k : string) (v : V).

Lemma od_get_set_eq k v d : od_get k (od_set k v d) = Some v.
Proof.
  induction d as [|[k' v'] r IH]; simpl.
  - by rewrite String.eqb_refl.
  - destruct (String.eqb_spec k k') as [->|Hne]; simpl.
    + by rewrite String.eqb_refl.
    + by destruct (String.eqb_spec k k').
Qed.

Lemma od_get_set_ne k k' v d : k ≠ k' → od_get k' (od_set k v d) = od_get k' d.
Proof.
  intros Hne. induction d as [|[k0 v0] r IH]; simpl.
  - by destruct (String.eqb_spec k' k) as [->|].
  - destruct (String.eqb_spec k k0) as [->|Hk]; simpl.
    + by destruct (String.eqb_spec k' k0) as [->|].
    + by rewrite IH.
Qed.

Lemma od_get_pop_eq k d : od_get k (od_pop k d) = None.
Proof.
  induction d as [|[k' v'] r IH]; simpl; [done|].
  destruct (String.eqb_spec k k') as [->|Hne]; [done|]. simpl.
  by destruct (String.eqb_spec k k').
Qed.

Lemma od_get_pop_ne k k' d : k ≠ k' → od_get k' (od_pop k d) = od_get k' d.
Proof.
  intros Hne. induction d as [|[k0 v0] r IH]; simpl; [done|].
  destruct (String.eqb_spec k k0) as [->|Hk]; simpl.
  - rewrite IH. by destruct (String.eqb_spec k' k0) as [->|].
  - by rewrite IH.
Qed.




Lemma od_get_Some_elem k v d : od_get k d = Some v → (k, v) ∈ d.
Proof.
  induction d as [|[k' v'] r IH]; simpl; [done|].
  destruct (String.eqb_spec k k') as [->|Hne].
  - intros [= ->]. apply elem_of_cons. by left.
  - intros H. apply elem_of_cons. right. by apply IH.
Qed.

End OrderedDict.

(** ** The first send and the pending registry *)

Section FirstSend.

Implicit Types (s : System) (cfg : UserConfig) (tg : TelegramResult).

Lemma send_telegram_ok us cfg tg :
  fst (_send_telegram us cfg tg) = true ↔ tg = Delivered ∨ tg = TimedOut.
Proof. destruct tg; simpl; intuition congruence. Qed.

Lemma send_once_pending s l cfg now tg :
  pending_alerts (snd (_send_once s l cfg now tg)) = pending_alerts s.
Proof.
  unfold _send_once.
  destruct (bool_decide _ || bool_decide _); [|done].
  by destruct (_send_telegram _ _ _).
Qed.

Lemma send_once_success s l cfg now tg :
  fst (_send_once s l cfg now tg) = true ↔ send_succeeds cfg now tg.
Proof.
  unfold _send_once, send_succeeds.
  destruct (bool_decide (TELEGRAM ∈ _) || bool_decide (ALL ∈ _)) eqn:Hch.
  - pose proof (send_telegram_ok
      (users (with_alerts (alter (alert_mark_sent now) l (alerts s)) s)) cfg tg) as Htg.
    destruct (_send_telegram _ _ _) as [ok us]. simpl in *.
    rewrite Htg. apply orb_true_iff in Hch.
    rewrite !bool_decide_eq_true in Hch. tauto.
  - simpl. apply orb_false_iff in Hch.
    rewrite !bool_decide_eq_false in Hch. tauto.
Qed.

Lemma pending_lookup_after_set s s' uid aid l d :
  pending_alerts s' = od_set uid (od_set aid l d) (pending_alerts s) →
  pending_lookup s' uid aid = Some l.
Proof.
  intros Hp. unfold pending_lookup. rewrite Hp, od_get_set_eq. simpl.
  apply od_get_set_eq.
Qed.

(** A fired alert need not enter the pending registry in REPEAT mode:
    for a user in REPEAT mode whose first send meets a network error the
    alert is not registered. *)
Lemma repeat_mode_send_failure_not_pending :
  let cfg := repeat_mode_user "u2" in
  let a := new_alert "a1b2c3d4" "YUSDT" PRICE_PUMP WARNING in
  let now := 4 * hour_us in
  let s' := _emit (initial_system {[ "u2" := cfg ]}) a "u2" now NetworkError in
  get_effective_mode cfg now = REPEAT
  ∧ pending_lookup s' "u2" "a1b2c3d4" = None.
Proof. by vm_compute. Qed.

(** C5 (amended). A fired alert is entered into the pending registry
    under [(user_id, alert_id)] if and only if the user's effective mode
    at fire time is REPEAT and the first send succeeds; in every other
    case the registry is left as it was. *)
Theorem pending_iff_repeat_and_sent s l uid now tg cfg a :
  users s !! uid = Some cfg →
  alerts s !! l = Some a →
  pending_lookup s (user_id cfg) (alert_id a) = None →
  let s' := send_alert_to_user s l uid now tg in
  (pending_lookup s' (user_id cfg) (alert_id a) = Some l
   ↔ get_effective_mode cfg now = REPEAT ∧ send_succeeds cfg now tg)
  ∧ (¬ (get_effective_mode cfg now = REPEAT ∧ send_succeeds cfg now tg) →
     pending_alerts s' = pending_alerts s).
Proof.
  intros Hu Ha Hfresh. simpl. unfold send_alert_to_user. rewrite Hu, Ha.
  set (s1 := with_alerts _ s).
  pose proof (send_once_success s1 l cfg now tg) as Hok.
  pose proof (send_once_pending s1 l cfg now tg) as Hpend.
  change (pending_alerts s1) with (pending_alerts s) in Hpend.
  case_bool_decide as Hmode.
  - destruct (_send_once s1 l cfg now tg) as [[|] s2]; simpl in *.
    + split.
      * split; [intros _; split; [done|by apply Hok]|intros _].
        by eapply pending_lookup_after_set.
      * intros Hn. exfalso. apply Hn. split; [done|by apply Hok].
    + assert (Hno : ¬ send_succeeds cfg now tg) by (rewrite <- Hok; done).
      unfold pending_lookup in *. rewrite Hpend. split; [|done].
      rewrite Hfresh. split; [done|]. by intros [_ ?].
  - unfold pending_lookup in *. rewrite Hpend. split; [|done].
    rewrite Hfresh. split; [done|]. by intros [? _].
Qed.

(** The registry after a delivered first send in REPEAT mode. *)
Lemma pending_iff_repeat_and_sent_witness :
  let cfg := repeat_mode_user "u2" in
  let a := new_alert "a1b2c3d4" "YUSDT" PRICE_PUMP WARNING in
  let now := 4 * hour_us in
  let s :=
    with_alerts {[ 1%positive := a ]} (initial_system {[ "u2" := cfg ]}) in
  let s' := send_alert_to_user s 1%positive "u2" now Delivered in
  (pending_lookup s' (user_id cfg) (alert_id a) = Some 1%positive
   ↔ get_effective_mode cfg now = REPEAT ∧ send_succeeds cfg now Delivered)
  ∧ (¬ (get_effective_mode cfg now = REPEAT ∧ send_succeeds cfg now Delivered) →
     pending_alerts s' = pending_alerts s).
Proof.
  intros cfg a now s.
  apply (pending_iff_repeat_and_sent s 1%positive "u2" now Delivered cfg a);
    reflexivity.
Defined.

End FirstSend.

(** ** Acknowledgement *)

Section Acknowledge.

Implicit Types (s : System) (uid aid : string) (d : odict positive).





Lemma fuzzy_match_found aid d k l :
  fuzzy_match aid d = Some (k, l) →
  (k, l) ∈ d ∧ (startswith k aid = true ∨ contains k aid = true).
Proof.
  unfold fuzzy_match. intros Hf. apply find_some in Hf as [Hin Hm].
  split; [by apply list_elem_of_In|]. by apply orb_true_iff in Hm.
Qed.










End Acknowledge.

(** ** Symbols *)

Section Symbols.

Implicit Types (s p q : string) (c : ascii).

Lemma upper_ascii_idemp c : upper_ascii (upper_ascii c) = upper_ascii c.
Proof. destruct c as [[] [] [] [] [] [] [] []]; reflexivity. Qed.

Lemma upper_idemp s : upper (upper s) = upper s.
Proof. induction s as [|c r IH]; simpl; [done|]. by rewrite upper_ascii_idemp, IH. Qed.

Lemma upper_app p q : upper (p ++ q) = (upper p ++ upper q)%string.
Proof. induction p as [|c r IH]; simpl; [done|]. by rewrite IH. Qed.

Lemma endswith_app p q : endswith (p ++ q) q = true.
Proof.
  induction p as [|c r IH]; simpl.
  - destruct q; simpl; rewrite ?String.eqb_refl, ?Ascii.eqb_refl; done.
  - rewrite IH. apply orb_true_r.
Qed.

Lemma endswith_split s q : endswith s q = true → ∃ p, s = (p ++ q)%string.
Proof.
  induction s as [|c r IH]; cbn [endswith].
  - rewrite orb_false_r. destruct q; [|done]. by exists "".
  - intros H. apply orb_true_iff in H as [H|H].
    + apply String.eqb_eq in H. by exists "".
    + destruct (IH H) as [p ->]. by exists (String c p).
Qed.

(** The normalised symbol ends with the quote asset and is in upper case. *)
Lemma mute_symbol_name_suffix s : ∃ p, mute_symbol_name s = (p ++ "USDT")%string.
Proof.
  unfold mute_symbol_name. destruct (endswith (upper s) "USDT") eqn:He; simpl.
  - by apply endswith_split.
  - by exists (upper s).
Qed.

Lemma mute_symbol_name_upper s : upper (mute_symbol_name s) = mute_symbol_name s.
Proof.
  unfold mute_symbol_name. destruct (endswith (upper s) "USDT"); simpl.
  - apply upper_idemp.
  - by rewrite upper_app, upper_idemp.
Qed.


Lemma lstrip_app_USDT p : lstrip (p ++ "USDT") = (lstrip p ++ "USDT")%string.
Proof.
  induction p as [|c r IH]; simpl; [done|]. by destruct (is_space c).
Qed.

Lemma rstrip_app_USDT p : rstrip (p ++ "USDT") = (p ++ "USDT")%string.
Proof.
  induction p as [|c r IH]; simpl; [done|].
  rewrite IH. by destruct r.
Qed.

Lemma strip_app_USDT p : strip (p ++ "USDT") = (lstrip p ++ "USDT")%string.
Proof. unfold strip. by rewrite lstrip_app_USDT, rstrip_app_USDT. Qed.

Lemma strip_mute_symbol_name_nonempty s : strip (mute_symbol_name s) ≠ "".
Proof.
  destruct (mute_symbol_name_suffix s) as [p ->]. rewrite strip_app_USDT.
  by destruct (lstrip p).
Qed.


(** Appending the quote asset does not change the base asset. *)
Lemma replace_USDT_app_bounded n :
  ∀ s, (String.length s ≤ n)%nat → replace_USDT (s ++ "USDT") = replace_USDT s.
Proof.
  induction n as [n IH] using lt_wf_ind. intros s Hn.
  destruct s as [|a [|b [|c [|d r]]]].
  - reflexivity.
  - simpl. by rewrite !andb_false_r.
  - simpl. by rewrite !andb_false_r.
  - simpl. by rewrite !andb_false_r.
  - change (String a (String b (String c (String d r))) ++ "USDT")%string
      with (String a (String b (String c (String d (r ++ "USDT"))))).
    simpl in Hn.
    assert (Htail : replace_USDT (String b (String c (String d r)) ++ "USDT")
                    = replace_USDT (String b (String c (String d r)))).
    { apply (IH (n - 1)%nat); simpl; lia. }
    assert (Hrest : replace_USDT (r ++ "USDT") = replace_USDT r).
    { apply (IH (n - 4)%nat); lia. }
    change (replace_USDT (String a (String b (String c (String d (r ++ "USDT"))))))
      with (if Ascii.eqb a "U" && Ascii.eqb b "S" && Ascii.eqb c "D" && Ascii.eqb d "T"
            then replace_USDT (r ++ "USDT")
            else String a (replace_USDT (String b (String c (String d r)) ++ "USDT"))).
    change (replace_USDT (String a (String b (String c (String d r)))))
      with (if Ascii.eqb a "U" && Ascii.eqb b "S" && Ascii.eqb c "D" && Ascii.eqb d "T"
            then replace_USDT r
            else String a (replace_USDT (String b (String c (String d r))))).
    by rewrite Htail, Hrest.
Qed.

Lemma replace_USDT_app s : replace_USDT (s ++ "USDT") = replace_USDT s.
Proof. by apply (replace_USDT_app_bounded (String.length s)). Qed.

(** Muting the symbol of an alert matches that alert. *)
Lemma symbol_matches_own_name s :
  symbol_matches s (mute_symbol_name s) = true.
Proof.
  unfold symbol_matches, mute_symbol_name.
  destruct (endswith (upper s) "USDT"); simpl.
  - by rewrite String.eqb_refl.
  - rewrite replace_USDT_app, (String.eqb_refl (replace_USDT (upper s))).
    apply orb_true_r.
Qed.

End Symbols.

(** ** Mute *)

Section Mute.

Implicit Types (s : System) (uid aid sym : string).

Lemma blacklist_add_one_in (bl : list string) sym :
  strip (upper sym) ≠ "" → strip (upper sym) ∈ blacklist_add_one bl sym.
Proof.
  intros Hne. unfold blacklist_add_one.
  destruct (String.eqb_spec (strip (upper sym)) "") as [|_]; [done|]. simpl.
  case_bool_decide as Hin; simpl; [done|].
  apply elem_of_app. right. by apply list_elem_of_singleton.
Qed.

Lemma fold_confirmed_add_in uid (ks : list string) (c : gmap string (gset string)) aid :
  aid ∈ ks ∨ (∃ ids, c !! uid = Some ids ∧ aid ∈ ids) →
  ∃ ids, fold_left (fun c a => confirmed_add c uid a) ks c !! uid = Some ids
         ∧ aid ∈ ids.
Proof.
  revert c. induction ks as [|k ks IH]; intros c [Hin|Hold]; simpl.
  - by apply elem_of_nil in Hin.
  - done.
  - apply IH. apply elem_of_cons in Hin as [->|Hin]; [right|by left].
    unfold confirmed_add. rewrite lookup_insert_eq. eexists. split; [done|].
    set_solver.
  - apply IH. right. destruct Hold as (ids & Hids & Hin).
    unfold confirmed_add. rewrite lookup_insert_eq, Hids. eexists. split; [done|].
    set_solver.
Qed.





End Mute.

(** ** The pending registry as a structure *)

Section Registry.

Implicit Types (d : odict positive) (p : odict (odict positive)) (l : positive).

Lemma submseteq_NoDup {A} (l1 l2 : list A) : l1 ⊆+ l2 → NoDup l2 → NoDup l1.
Proof.
  intros Hsub Hnd. apply submseteq_sublist_l in Hsub as (k & Hk & Hp).
  apply (sublist_NoDup l1 k); [|done]. by rewrite Hp.
Qed.

Lemma map_sublist {A B} (f : A → B) (l1 l2 : list A) :
  l1 `sublist_of` l2 → map f l1 `sublist_of` map f l2.
Proof. induction 1; simpl; by constructor. Qed.

Lemma od_pop_sublist {V} (k : string) (d : odict V) : od_pop k d `sublist_of` d.
Proof.
  induction d as [|[k' v] r IH]; simpl; [done|].
  destruct (String.eqb k k'); by constructor.
Qed.

Lemma od_pop_list_sublist {V} (ks : list string) (d : odict V) :
  fold_left (fun m a => od_pop a m) ks d `sublist_of` d.
Proof.
  revert d. induction ks as [|k ks IH]; intros d; simpl; [done|].
  etrans; [apply IH|apply od_pop_sublist].
Qed.

Lemma od_pop_elem {V} (k a : string) (v : V) (d : odict V) :
  (k, v) ∈ od_pop a d → (k, v) ∈ d ∧ k ≠ a.
Proof.
  induction d as [|[k' v'] r IH]; simpl; [by intros ?%elem_of_nil|].
  destruct (String.eqb_spec a k') as [->|Hne].
  - intros H. destruct (IH H). split; [|done]. apply elem_of_cons. by right.
  - intros H. apply elem_of_cons in H as [[= -> ->]|H].
    + split; [|done]. apply elem_of_cons. by left.
    + destruct (IH H). split; [|done]. apply elem_of_cons. by right.
Qed.

Lemma od_pop_list_elem {V} (ks : list string) (k : string) (v : V) (d : odict V) :
  (k, v) ∈ fold_left (fun m a => od_pop a m) ks d → (k, v) ∈ d ∧ k ∉ ks.
Proof.
  revert d. induction ks as [|a ks IH]; intros d; simpl.
  - intros H. split; [done|]. by intros ?%elem_of_nil.
  - intros H. destruct (IH _ H) as [H1 H2]. apply od_pop_elem in H1 as [H1 H3].
    split; [done|]. intros [->|Hin]%elem_of_cons; done.
Qed.

Lemma od_get_None_keys {V} (k : string) (d : odict V) :
  od_get k d = None ↔ k ∉ od_keys d.
Proof.
  unfold od_keys. induction d as [|[k' v] r IH]; simpl.
  - split; [intros _ ?%elem_of_nil; done|done].
  - rewrite not_elem_of_cons. destruct (String.eqb_spec k k') as [->|Hne].
    + split; [done|]. by intros [? _].
    + rewrite IH. tauto.
Qed.

Lemma od_keys_set {V} (k : string) (v : V) (d : odict V) :
  od_keys (od_set k v d)
  = match od_get k d with Some _ => od_keys d | None => (od_keys d ++ [k])%list end.
Proof.
  unfold od_keys. induction d as [|[k' v'] r IH]; simpl; [done|].
  destruct (String.eqb_spec k k') as [->|Hne]; simpl; [done|].
  rewrite IH. by destruct (od_get k r).
Qed.

Lemma od_keys_set_NoDup {V} (k : string) (v : V) (d : odict V) :
  NoDup (od_keys d) → NoDup (od_keys (od_set k v d)).
Proof.
  intros Hnd. rewrite od_keys_set. destruct (od_get k d) eqn:Hg; [done|].
  apply NoDup_app. split_and!; [done| |apply NoDup_singleton].
  intros x Hx ->%list_elem_of_singleton. by apply od_get_None_keys in Hg.
Qed.

Lemma od_keys_pop_sublist {V} (k : string) (d : odict V) :
  od_keys (od_pop k d) `sublist_of` od_keys d.
Proof. unfold od_keys. apply map_sublist, od_pop_sublist. Qed.

Lemma alert_refs_sublist d d' : d' `sublist_of` d → alert_refs d' ⊆+ alert_refs d.
Proof. intros H. apply sublist_submseteq. by apply map_sublist. Qed.

(** Replacing an entry of a dictionary: at most the new reference is
    added. *)
Lemma alert_refs_set (aid : string) l d :
  alert_refs (od_set aid l d) ⊆+ l :: alert_refs d.
Proof.
  unfold alert_refs. induction d as [|[k v] r IH]; simpl; [done|].
  destruct (String.eqb aid k); simpl.
  - apply submseteq_skip, submseteq_cons. done.
  - etrans; [apply submseteq_skip, IH|]. apply submseteq_swap.
Qed.

Lemma pending_refs_cons (uid : string) d p :
  pending_refs ((uid, d) :: p) = (alert_refs d ++ pending_refs p)%list.
Proof. done. Qed.

(** Replacing the dictionary of a user adds at most [extra]. *)
Lemma pending_refs_set (uid : string) d' p (extra : list positive) :
  alert_refs d' ⊆+ (extra ++ alert_refs (default [] (od_get uid p)))%list →
  pending_refs (od_set uid d' p) ⊆+ (extra ++ pending_refs p)%list.
Proof.
  induction p as [|[k dk] r IH]; simpl.
  - intros H. rewrite pending_refs_cons. unfold pending_refs at 1 2. simpl.
    by rewrite !app_nil_r in *.
  - destruct (String.eqb_spec uid k) as [->|Hne]; simpl.
    + intros H. rewrite !pending_refs_cons, app_assoc.
      by apply submseteq_skips_r.
    + intros H. rewrite !pending_refs_cons.
      etrans; [apply submseteq_skips_l, IH, H|].
      rewrite !app_assoc. apply submseteq_skips_r.
      by rewrite (comm (++) extra).
Qed.

Lemma pending_refs_shrink (uid : string) d d' p :
  od_get uid p = Some d → d' `sublist_of` d →
  pending_refs (od_set uid d' p) ⊆+ pending_refs p.
Proof.
  intros Hd Hsub. apply (pending_refs_set uid d' p []). rewrite Hd. simpl.
  by apply alert_refs_sublist.
Qed.

Lemma pending_refs_pop (uid : string) p :
  pending_refs (od_pop uid p) ⊆+ pending_refs p.
Proof.
  induction p as [|[k dk] r IH]; simpl; [done|].
  destruct (String.eqb uid k); rewrite !pending_refs_cons.
  - by apply submseteq_inserts_l.
  - by apply submseteq_skips_l.
Qed.

Lemma pending_refs_of_user (uid : string) d p l :
  od_get uid p = Some d → l ∈ alert_refs d → l ∈ pending_refs p.
Proof.
  induction p as [|[k dk] r IH]; simpl; [done|].
  rewrite pending_refs_cons, elem_of_app.
  destruct (String.eqb uid k); [intros [= ->]; by left|].
  intros H1 H2. right. by apply IH.
Qed.

Lemma entry_ref {V} (k : string) (v : V) (d : odict V) :
  (k, v) ∈ d → v ∈ map snd d.
Proof.
  intros H. apply list_elem_of_In. change v with (snd (k, v)).
  by apply in_map, list_elem_of_In.
Qed.

Lemma user_refs_NoDup (uid : string) d p :
  NoDup (pending_refs p) → od_get uid p = Some d → NoDup (alert_refs d).
Proof.
  induction p as [|[k dk] r IH]; simpl; [done|].
  rewrite pending_refs_cons, NoDup_app. intros (H1 & _ & H3).
  destruct (String.eqb uid k); [by intros [= ->]|by apply IH].
Qed.

(** Two users never share a pending alert object. *)
Lemma user_refs_disjoint (uid uid' : string) d d' p l :
  NoDup (pending_refs p) → uid ≠ uid' →
  od_get uid p = Some d → od_get uid' p = Some d' →
  l ∈ alert_refs d → l ∉ alert_refs d'.
Proof.
  intros Hnd Hne. induction p as [|[k dk] r IH]; simpl; [done|].
  rewrite pending_refs_cons, NoDup_app in Hnd. destruct Hnd as (H1 & H2 & H3).
  destruct (String.eqb_spec uid k) as [->|Hk], (String.eqb_spec uid' k) as [->|Hk'].
  - done.
  - intros [= ->] Hd' Hl Hl'. apply (H2 l Hl). by eapply pending_refs_of_user.
  - intros Hd [= ->] Hl Hl'. apply (H2 l Hl'). by eapply pending_refs_of_user.
  - by apply IH.
Qed.

(** Within a dictionary without shared objects, an object has one id. *)
Lemma entry_key_unique (k k' : string) l d :
  NoDup (alert_refs d) → (k, l) ∈ d → (k', l) ∈ d → k = k'.
Proof.
  unfold alert_refs. induction d as [|[k0 v0] r IH]; simpl.
  - by intros _ ?%elem_of_nil.
  - rewrite NoDup_cons. intros [Hnot Hnd] H1 H2.
    apply elem_of_cons in H1 as [E1|H1]; apply elem_of_cons in H2 as [E2|H2].
    + congruence.
    + injection E1 as -> ->. exfalso. apply Hnot. by eapply entry_ref.
    + injection E2 as -> ->. exfalso. apply Hnot. by eapply entry_ref.
    + by apply IH.
Qed.

(** Replacing the dictionary of the user who holds [l] by one that does
    not hold it removes [l] from the registry. *)
Lemma pending_refs_dropped (uid : string) d d' p l :
  NoDup (pending_refs p) → od_get uid p = Some d →
  l ∈ alert_refs d → l ∉ alert_refs d' →
  l ∉ pending_refs (od_set uid d' p).
Proof.
  intros Hnd Hd Hl Hl'. induction p as [|[k dk] r IH]; simpl in *; [done|].
  rewrite pending_refs_cons, NoDup_app in Hnd. destruct Hnd as (H1 & H2 & H3).
  destruct (String.eqb_spec uid k) as [->|Hk].
  - injection Hd as ->. rewrite pending_refs_cons, elem_of_app.
    intros [?|?]; [done|]. by apply (H2 l).
  - rewrite pending_refs_cons, elem_of_app. intros [Hin|Hin].
    + apply (H2 l Hin). by eapply pending_refs_of_user.
    + by apply IH.
Qed.

End Registry.

(** ** One pass of the repeat loop *)

Section Pass.

Implicit Types (s : System) (uid aid : string) (l : positive)
  (d : odict positive) (us : UserManager).

Lemma same_but_activity_refl us : same_but_activity us us.
Proof. intros k. by left. Qed.

Lemma same_but_activity_trans us1 us2 us3 :
  same_but_activity us1 us2 → same_but_activity us2 us3 →
  same_but_activity us1 us3.
Proof.
  intros H12 H23 k.
  destruct (H12 k) as [E12|(c & Hc & E12)], (H23 k) as [E23|(c' & Hc' & E23)].
  - left. congruence.
  - right. exists c'. split; congruence.
  - right. exists c. split; congruence.
  - right. exists c. split; [done|].
    rewrite E12 in Hc'. injection Hc' as <-. by rewrite E23.
Qed.

Lemma same_but_activity_update us k :
  same_but_activity us (update_user_is_active us k false).
Proof.
  intros k'. unfold update_user_is_active.
  destruct (us !! k) as [c|] eqn:Hk; [|by left].
  destruct (decide (k = k')) as [<-|Hne].
  - right. exists c. by rewrite lookup_insert_eq.
  - left. by rewrite lookup_insert_ne.
Qed.

Lemma same_but_activity_inactive us us' uid :
  same_but_activity us us' →
  (∀ cfg, us !! uid = Some cfg → is_active cfg = false) →
  ∀ cfg, us' !! uid = Some cfg → is_active cfg = false.
Proof.
  intros Hs Hin cfg Hcfg. destruct (Hs uid) as [E|(c & Hc & E)].
  - apply Hin. congruence.
  - rewrite E in Hcfg. by injection Hcfg as <-.
Qed.

Lemma same_but_activity_active us us' uid cfg :
  same_but_activity us us' → us' !! uid = Some cfg → is_active cfg = true →
  us !! uid = Some cfg.
Proof.
  intros Hs Hcfg Hact. destruct (Hs uid) as [E|(c & Hc & E)]; [congruence|].
  rewrite E in Hcfg. injection Hcfg as <-. done.
Qed.

Lemma same_but_activity_monitor us us' uid cfg' sym :
  same_but_activity us us' → us' !! uid = Some cfg' →
  ∃ cfg, us !! uid = Some cfg ∧ should_monitor cfg sym = should_monitor cfg' sym.
Proof.
  intros Hs Hcfg. destruct (Hs uid) as [E|(c & Hc & E)].
  - exists cfg'. split; [congruence|done].
  - exists c. split; [done|]. rewrite E in Hcfg. by injection Hcfg as <-.
Qed.

(** What the inner loop leaves alone. *)
Let frame s s' : Prop :=
  pending_alerts s' = pending_alerts s
  ∧ confirmed_ids s' = confirmed_ids s
  ∧ next_alert s' = next_alert s
  ∧ same_but_activity (users s) (users s').

Lemma frame_refl s : frame s s.
Proof. repeat split. apply same_but_activity_refl. Qed.

Lemma frame_trans s1 s2 s3 : frame s1 s2 → frame s2 s3 → frame s1 s3.
Proof.
  intros (A1 & A2 & A3 & A4) (B1 & B2 & B3 & B4).
  repeat split; try congruence. by eapply same_but_activity_trans.
Qed.

Lemma send_once_frame s l cfg now tg :
  frame s (snd (_send_once s l cfg now tg))
  ∧ alerts (snd (_send_once s l cfg now tg))
    = alter (alert_mark_sent now) l (alerts s).
Proof.
  unfold _send_once.
  destruct (bool_decide _ || bool_decide _).
  - destruct tg; simpl; (split; [repeat split|done]);
      first [apply same_but_activity_refl | apply same_but_activity_update].
  - split; [repeat split; apply same_but_activity_refl|done].
Qed.

(** The condition under which the loop resends the alert [a] bound to
    [aid], for a user with configuration [cfg]. *)
Let admitted s uid aid (a : Alert) (cfg : UserConfig) (M : Z) : Prop :=
  users s !! uid = Some cfg
  ∧ _is_confirmed s uid aid = false
  ∧ should_monitor cfg (symbol a) = true
  ∧ sent_count a < M.

Lemma repeat_alert_step now tg uid interval M s tr aid l :
  let s' := fst (repeat_alert now tg uid interval M (s, tr) (aid, l)) in
  frame s s'
  ∧ (alerts s' = alerts s
     ∨ (alerts s' = alter (alert_mark_sent now) l (alerts s)
        ∧ ∃ a cfg, alerts s !! l = Some a ∧ admitted s uid aid a cfg M)).
Proof.
  simpl. unfold repeat_alert.
  destruct (users s !! uid) as [cfg|] eqn:Hu; [|split; [apply frame_refl|by left]].
  destruct (alerts s !! l) as [a|] eqn:Ha; [|split; [apply frame_refl|by left]].
  destruct (_is_confirmed s uid aid) eqn:Hc; [split; [apply frame_refl|by left]|].
  destruct (should_monitor cfg (symbol a)) eqn:Hm; simpl;
    [|split; [apply frame_refl|by left]].
  destruct (Z.leb_spec M (sent_count a)) as [|Hlt];
    [split; [apply frame_refl|by left]|].
  destruct (last_sent a) as [ls|]; [|split; [apply frame_refl|by left]].
  destruct (interval <=? now - ls); [|split; [apply frame_refl|by left]].
  destruct (send_once_frame s l cfg now (tg uid aid)) as [Hf Hal].
  destruct (_send_once s l cfg now (tg uid aid)) as [[|] s1]; simpl in *.
  - split; [done|]. right. split; [done|]. by exists a, cfg.
  - split; [done|]. right. split; [done|]. by exists a, cfg.
Qed.

Lemma admitted_frame s s' uid aid a cfg' M :
  frame s s' → admitted s' uid aid a cfg' M →
  ∃ cfg, admitted s uid aid a cfg M.
Proof.
  intros (_ & Hc & _ & Hs) (Hu & Hconf & Hmon & Hcnt).
  destruct (same_but_activity_monitor _ _ uid cfg' (symbol a) Hs Hu)
    as (cfg & Hcfg & Heq).
  exists cfg. split_and!; [done| |congruence|done].
  unfold _is_confirmed in *. by rewrite <- Hc.
Qed.

(** The inner loop over the entries [d] of one user. *)
Lemma repeat_alerts_fold now tg uid interval M d :
  ∀ s tr, NoDup (alert_refs d) →
  let s' := fst (fold_left (repeat_alert now tg uid interval M) d (s, tr)) in
  frame s s'
  ∧ (∀ l, l ∉ alert_refs d → alerts s' !! l = alerts s !! l)
  ∧ (∀ l, alerts s' !! l = alerts s !! l
          ∨ ∃ aid a cfg, (aid, l) ∈ d ∧ alerts s !! l = Some a
              ∧ alerts s' !! l = Some (alert_mark_sent now a)
              ∧ admitted s uid aid a cfg M).
Proof.
  induction d as [|[aid l1] rest IH]; intros s tr Hnd; cbn [fold_left].
  - split; [apply frame_refl|]. split; [done|by left].
  - change (alert_refs ((aid, l1) :: rest)) with (l1 :: alert_refs rest) in *.
    apply NoDup_cons in Hnd as [Hl1 Hnd].
    destruct (repeat_alert_step now tg uid interval M s tr aid l1) as [Hf Hstep].
    destruct (repeat_alert now tg uid interval M (s, tr) (aid, l1)) as [s1 tr1].
    simpl in Hf, Hstep.
    destruct (IH s1 tr1 Hnd) as (Hf' & Hout & Hev).
    set (s' := fst (fold_left _ rest (s1, tr1))) in *.
    assert (Hother : ∀ l, l ≠ l1 → alerts s1 !! l = alerts s !! l).
    { intros l Hne. destruct Hstep as [->|[-> _]]; [done|].
      by rewrite lookup_alter_ne. }
    split; [|split].
    + by eapply frame_trans.
    + intros l [Hne Hl]%not_elem_of_cons. rewrite Hout by done. by apply Hother.
    + intros l. destruct (decide (l = l1)) as [->|Hne].
      * rewrite (Hout l1 Hl1).
        destruct Hstep as [->|[-> (a & cfg & Ha & Hadm)]]; [by left|].
        right. exists aid, a, cfg. rewrite lookup_alter_eq, Ha.
        split_and!; [apply elem_of_cons; by left|done..].
      * destruct (Hev l) as [E|(aid' & a & cfg & Hin & Ha & Ha' & Hadm)].
        -- left. rewrite E. by apply Hother.
        -- right. destruct (admitted_frame s s1 uid aid' a cfg M Hf Hadm)
             as (cfg0 & Hadm0).
           exists aid', a, cfg0.
           split_and!; [apply elem_of_cons; by right| |done..].
           by rewrite <- Hother.
Qed.

(** The alert object [l] was resent while the loop handled [uid]. *)
Let resent_for now s s' uid l : Prop :=
  ∃ d aid a cfg,
    od_get uid (pending_alerts s) = Some d ∧ (aid, l) ∈ d
    ∧ alerts s !! l = Some a
    ∧ alerts s' !! l = Some (alert_mark_sent now a)
    ∧ users s !! uid = Some cfg ∧ is_active cfg = true
    ∧ _is_confirmed s uid aid = false
    ∧ should_monitor cfg (symbol a) = true
    ∧ sent_count a < max_repeats (get_repeat_config cfg now).

(** What handling one user does and leaves alone. *)
Let user_pass now s s' uid : Prop :=
  confirmed_ids s' = confirmed_ids s
  ∧ next_alert s' = next_alert s
  ∧ same_but_activity (users s) (users s')
  ∧ pending_refs (pending_alerts s') ⊆+ pending_refs (pending_alerts s)
  ∧ od_keys (pending_alerts s') ⊆+ od_keys (pending_alerts s)
  ∧ (∀ uid', uid' ≠ uid →
       od_get uid' (pending_alerts s') = od_get uid' (pending_alerts s))
  ∧ ((∀ cfg, users s !! uid = Some cfg → is_active cfg = false) →
       od_get uid (pending_alerts s') = None)
  ∧ (∀ l, alerts s' !! l = alerts s !! l ∨ resent_for now s s' uid l).

Lemma user_pass_idle now s uid :
  (od_get uid (pending_alerts s) = None
   ∨ ∃ cfg, users s !! uid = Some cfg ∧ is_active cfg = true) →
  user_pass now s s uid.
Proof.
  intros Hidle. split_and!; try done.
  - apply same_but_activity_refl.
  - intros Hin. destruct Hidle as [?|(cfg & Hu & Hact)]; [done|].
    rewrite (Hin cfg Hu) in Hact. done.
  - by left.
Qed.

Lemma user_pass_dropped now s uid :
  user_pass now s (with_pending (od_pop uid (pending_alerts s)) s) uid.
Proof.
  split_and!; simpl; try done.
  - apply same_but_activity_refl.
  - apply pending_refs_pop.
  - apply sublist_submseteq, od_keys_pop_sublist.
  - intros uid' Hne. apply od_get_pop_ne. congruence.
  - intros _. apply od_get_pop_eq.
  - by left.
Qed.

Lemma repeat_user_pass now tg s uid :
  NoDup (pending_refs (pending_alerts s)) →
  user_pass now s (repeat_user now tg s uid) uid.
Proof.
  intros Hnd. unfold repeat_user.
  destruct (od_get uid (pending_alerts s)) as [d|] eqn:Hd;
    [|apply user_pass_idle; by left].
  destruct (users s !! uid) as [cfg|] eqn:Hu; [|apply user_pass_dropped].
  destruct (is_active cfg) eqn:Hact; [|apply user_pass_dropped].
  destruct (negb _ && negb _); [apply user_pass_idle; right; by exists cfg|].
  set (interval := timedelta_seconds _).
  set (M := max_repeats (get_repeat_config cfg now)).
  destruct (repeat_alerts_fold now tg uid interval M d s []
              (user_refs_NoDup uid d _ Hnd Hd)) as (Hf & _ & Hev).
  destruct (fold_left _ d (s, [])) as [s1 tr]. simpl in Hf, Hev.
  destruct Hf as (Hp & Hc & Hn & Hs).
  split_and!; simpl; try done.
  - rewrite Hp. eapply pending_refs_shrink; [done|apply od_pop_list_sublist].
  - rewrite Hp, od_keys_set, Hd. done.
  - intros uid' Hne. rewrite Hp. apply od_get_set_ne. congruence.
  - intros Hin. rewrite (Hin cfg Hu) in Hact. done.
  - intros l. destruct (Hev l) as [E|(aid & a & cfg0 & Hin & Ha & Ha' & Hadm)];
      [by left|right].
    destruct Hadm as (Hu0 & Hconf & Hmon & Hcnt).
    rewrite Hu in Hu0. injection Hu0 as <-.
    exists d, aid, a, cfg. split_and!; done.
Qed.

(** The alert object [l] was resent while the loop handled one of [ks]. *)
Let resent_among now s s' (ks : list string) l : Prop :=
  ∃ uid, uid ∈ ks ∧ resent_for now s s' uid l.

(** The outer loop over the users [ks]. *)
Lemma repeat_users_fold now tg (ks : list string) :
  ∀ s, NoDup ks → NoDup (pending_refs (pending_alerts s)) →
  let s' := fold_left (repeat_user now tg) ks s in
  confirmed_ids s' = confirmed_ids s
  ∧ next_alert s' = next_alert s
  ∧ same_but_activity (users s) (users s')
  ∧ pending_refs (pending_alerts s') ⊆+ pending_refs (pending_alerts s)
  ∧ od_keys (pending_alerts s') ⊆+ od_keys (pending_alerts s)
  ∧ (∀ uid, uid ∉ ks →
       od_get uid (pending_alerts s') = od_get uid (pending_alerts s))
  ∧ (∀ uid, uid ∈ ks →
       (∀ cfg, users s !! uid = Some cfg → is_active cfg = false) →
       od_get uid (pending_alerts s') = None)
  ∧ (∀ l, alerts s' !! l = alerts s !! l ∨ resent_among now s s' ks l).
Proof.
  induction ks as [|k rest IH]; intros s Hks Hnd; cbn [fold_left].
  - split_and!; try done.
    + apply same_but_activity_refl.
    + by intros uid ?%elem_of_nil.
    + by left.
  - apply NoDup_cons in Hks as [Hk Hrest].
    destruct (repeat_user_pass now tg s k Hnd)
      as (A1 & A2 & A3 & A4 & A5 & A6 & A7 & A8).
    set (s1 := repeat_user now tg s k) in *.
    assert (Hnd1 : NoDup (pending_refs (pending_alerts s1)))
      by (by eapply submseteq_NoDup).
    destruct (IH s1 Hrest Hnd1) as (B1 & B2 & B3 & B4 & B5 & B6 & B7 & B8).
    set (s' := fold_left (repeat_user now tg) rest s1) in *.
    split_and!.
    + congruence.
    + congruence.
    + by eapply same_but_activity_trans.
    + by etrans.
    + by etrans.
    + intros uid [Hne Hin]%not_elem_of_cons. rewrite B6 by done. by apply A6.
    + intros uid [->|Hin]%elem_of_cons Hinact.
      * rewrite B6 by done. by apply A7.
      * apply B7; [done|]. by eapply same_but_activity_inactive.
    + intros l. destruct (B8 l) as [E|(uid & Hin & Hres)].
      * rewrite E. destruct (A8 l) as [E1|Hres]; [by left|right].
        exists k. split; [apply elem_of_cons; by left|].
        destruct Hres as (d & aid & a & cfg & H1 & H2 & H3 & H4 & H5).
        exists d, aid, a, cfg. split; [done|]. split; [done|]. split; [done|].
        split; [congruence|done].
      * right. exists uid. split; [apply elem_of_cons; by right|].
        destruct Hres as (d & aid & a & cfg & H1 & H2 & H3 & H4 & H5 & H6 & H7 & H8).
        assert (Hne : uid ≠ k) by (by intros ->).
        rewrite A6 in H1 by done.
        assert (Hsame : alerts s1 !! l = alerts s !! l).
        { destruct (A8 l) as [E1|(dk & aidk & ak & cfgk & K1 & K2 & _)]; [done|].
          exfalso.
          apply (user_refs_disjoint k uid dk d (pending_alerts s) l Hnd);
            [congruence|done|done|by eapply entry_ref|by eapply entry_ref]. }
        exists d, aid, a, cfg. split; [done|]. split; [done|].
        split; [congruence|]. split; [done|].
        split; [by eapply same_but_activity_active|]. split; [done|].
        split; [|done]. unfold _is_confirmed in *. by rewrite <- A1.
Qed.

(** One pass of the repeat loop from a well-formed state. *)
Lemma repeat_tick_pass now tg s :
  wf_system s →
  let s' := repeat_tick now tg s in
  confirmed_ids s' = confirmed_ids s
  ∧ next_alert s' = next_alert s
  ∧ same_but_activity (users s) (users s')
  ∧ pending_refs (pending_alerts s') ⊆+ pending_refs (pending_alerts s)
  ∧ od_keys (pending_alerts s') ⊆+ od_keys (pending_alerts s)
  ∧ (∀ uid, (∀ cfg, users s !! uid = Some cfg → is_active cfg = false) →
            od_get uid (pending_alerts s') = None)
  ∧ (∀ l, alerts s' !! l = alerts s !! l ∨ resent_in_pass now s s' l).
Proof.
  intros (Hnd & Hks & _ & _). simpl. unfold repeat_tick.
  destruct (repeat_users_fold now tg (od_keys (pending_alerts s)) s Hks Hnd)
    as (B1 & B2 & B3 & B4 & B5 & B6 & B7 & B8).
  set (s' := fold_left _ _ s) in *.
  split; [done|]. split; [done|]. split; [done|]. split; [done|].
  split; [done|]. split.
  - intros uid Hin.
    destruct (decide (uid ∈ od_keys (pending_alerts s))) as [Hk|Hk].
    + by apply B7.
    + rewrite B6 by done. by apply od_get_None_keys.
  - intros l. destruct (B8 l) as [E|(uid & _ & d & aid & a & cfg & Hres)];
      [by left|right].
    by exists uid, d, aid, a, cfg.
Qed.

(** A pass that starts with the user inactive resends none of that
    user's alerts. *)
Lemma repeat_tick_inactive now tg s uid d aid l :
  wf_system s →
  (∀ cfg, users s !! uid = Some cfg → is_active cfg = false) →
  od_get uid (pending_alerts s) = Some d → (aid, l) ∈ d →
  alerts (repeat_tick now tg s) !! l = alerts s !! l.
Proof.
  intros Hwf Hin Hd Hl.
  destruct (repeat_tick_pass now tg s Hwf) as (_ & _ & _ & _ & _ & _ & Hev).
  destruct (Hev l) as [E|(uid' & d' & aid' & a & cfg & H1 & H2 & _ & _ & H5 & H6 & _)];
    [done|exfalso].
  destruct (decide (uid' = uid)) as [->|Hne].
  - rewrite (Hin cfg H5) in H6. done.
  - destruct Hwf as (Hnd & _).
    apply (user_refs_disjoint uid' uid d' d (pending_alerts s) l Hnd);
      [done|done|done|by eapply entry_ref|by eapply entry_ref].
Qed.

End Pass.

(** ** Reachable states and alerts that left the registry *)

Section Termination.

Implicit Types (s : System) (uid aid : string) (l : positive)
  (d : odict positive) (ev : Event).

(** A step that creates no alert object and registers none. *)
Let quiet s s' : Prop :=
  pending_refs (pending_alerts s') ⊆+ pending_refs (pending_alerts s)
  ∧ od_keys (pending_alerts s') ⊆+ od_keys (pending_alerts s)
  ∧ next_alert s' = next_alert s
  ∧ (∀ l, l ∉ pending_refs (pending_alerts s) → alerts s' !! l = alerts s !! l)
  ∧ (∀ l, is_Some (alerts s' !! l) → is_Some (alerts s !! l)).

Lemma wf_initial us : wf_system (initial_system us).
Proof.
  split_and!; simpl.
  - apply NoDup_nil_2.
  - apply NoDup_nil_2.
  - by intros l ?%elem_of_nil.
  - intros l [a Ha]. by rewrite lookup_empty in Ha.
Qed.

Lemma wf_quiet s s' : wf_system s → quiet s s' → wf_system s'.
Proof.
  intros (W1 & W2 & W3 & W4) (Q1 & Q2 & Q3 & Q4 & Q5). split_and!.
  - by eapply submseteq_NoDup.
  - by eapply submseteq_NoDup.
  - intros l Hl. rewrite Q3. apply W3. by eapply elem_of_submseteq.
  - intros l Hl. rewrite Q3. by apply W4, Q5.
Qed.

Lemma quiet_same s s' :
  pending_alerts s' = pending_alerts s → alerts s' = alerts s →
  next_alert s' = next_alert s → quiet s s'.
Proof. intros Hp Ha Hn. unfold quiet. rewrite Hp, Ha, Hn. by split_and!. Qed.

Lemma quiet_trans s1 s2 s3 : quiet s1 s2 → quiet s2 s3 → quiet s1 s3.
Proof.
  intros (A1 & A2 & A3 & A4 & A5) (B1 & B2 & B3 & B4 & B5). split_and!.
  - by etrans.
  - by etrans.
  - congruence.
  - intros l Hl. rewrite B4, A4; [done..|].
    intros Hin. apply Hl. by eapply elem_of_submseteq.
  - intros l Hl. by apply A5, B5.
Qed.

Lemma resent_is_pending now s s' l :
  resent_in_pass now s s' l → l ∈ pending_refs (pending_alerts s).
Proof.
  intros (uid & d & aid & a & cfg & Hd & Hin & _).
  eapply pending_refs_of_user; [done|]. by eapply entry_ref.
Qed.

Lemma quiet_tick now tg s : wf_system s → quiet s (repeat_tick now tg s).
Proof.
  intros Hwf.
  destruct (repeat_tick_pass now tg s Hwf) as (_ & Hn & _ & Hr & Hk & _ & Hev).
  split_and!; [done..| |].
  - intros l Hl. destruct (Hev l) as [E|Hres]; [done|].
    exfalso. by eapply Hl, resent_is_pending.
  - intros l Hl. destruct (Hev l) as [E|Hres]; [by rewrite <- E|].
    destruct Hres as (_ & _ & _ & a & _ & _ & _ & Ha & _). by rewrite Ha.
Qed.

Lemma quiet_replace s s' uid d d' :
  od_get uid (pending_alerts s) = Some d → d' `sublist_of` d →
  pending_alerts s' = od_set uid d' (pending_alerts s) →
  alerts s' = alerts s → next_alert s' = next_alert s → quiet s s'.
Proof.
  intros Hd Hsub Hp Ha Hn. unfold quiet. rewrite Hp, Ha, Hn. split_and!; try done.
  - by eapply pending_refs_shrink.
  - by rewrite od_keys_set, Hd.
Qed.

Lemma quiet_confirm_entry now s uid k d l :
  od_get uid (pending_alerts s) = Some d → (k, l) ∈ d →
  quiet s (confirm_entry now s uid k d l).
Proof.
  intros Hd Hin. split_and!; simpl.
  - eapply pending_refs_shrink; [done|apply od_pop_sublist].
  - by rewrite od_keys_set, Hd.
  - done.
  - intros l0 Hl0. apply lookup_alter_ne. intros ->. apply Hl0.
    eapply pending_refs_of_user; [done|]. by eapply entry_ref.
  - intros l0. by rewrite lookup_alter_is_Some.
Qed.

Lemma quiet_confirm now s uid aid : quiet s (snd (confirm_alert now s uid aid)).
Proof.
  unfold confirm_alert.
  set (s0 := match confirmed_ids s !! uid with Some _ => s | None => _ end).
  assert (H0 : quiet s s0).
  { subst s0. destruct (confirmed_ids s !! uid); by apply quiet_same. }
  assert (Hp0 : pending_alerts s0 = pending_alerts s).
  { subst s0. by destruct (confirmed_ids s !! uid). }
  destruct (od_get uid (pending_alerts s0)) as [d|] eqn:Hd; simpl.
  - destruct (od_get aid d) as [l|] eqn:Hl; simpl.
    + eapply quiet_trans; [done|].
      apply quiet_confirm_entry; [done|by apply od_get_Some_elem].
    + destruct (fuzzy_match aid d) as [[k l]|] eqn:Hf; simpl.
      * eapply quiet_trans; [done|].
        apply quiet_confirm_entry; [done|]. by apply fuzzy_match_found in Hf as [? _].
      * eapply quiet_trans; [done|]. by apply quiet_same.
  - eapply quiet_trans; [done|]. by apply quiet_same.
Qed.

Lemma quiet_confirm_all s uid : quiet s (snd (confirm_all_alerts s uid)).
Proof.
  unfold confirm_all_alerts.
  destruct (od_get uid (pending_alerts s)) as [d|] eqn:Hd; simpl.
  - eapply (quiet_replace s _ uid d []); [done|apply sublist_nil_l|done..].
  - by apply quiet_same.
Qed.

Lemma quiet_remove s uid sym : quiet s (snd (remove_alerts_for_symbol s uid sym)).
Proof.
  unfold remove_alerts_for_symbol.
  destruct (od_get uid (pending_alerts s)) as [d|] eqn:Hd; simpl.
  - eapply (quiet_replace s _ uid d); [done|apply od_pop_list_sublist|done..].
  - by apply quiet_same.
Qed.

Lemma quiet_mute now s uid sym m :
  quiet s (snd (_mute_symbol_for_user now s uid sym m)).
Proof.
  unfold _mute_symbol_for_user.
  set (s1 := with_users _ s).
  pose proof (quiet_remove s1 uid (mute_symbol_name sym)) as Hq.
  destruct (remove_alerts_for_symbol s1 uid (mute_symbol_name sym)) as [n s2].
  simpl in *. eapply quiet_trans; [by apply (quiet_same s s1)|].
  eapply quiet_trans; [done|].
  apply quiet_same; by destruct (bot_system s2).
Qed.

Lemma quiet_unmute s uid sym : quiet s (_unmute_symbol_for_user s uid sym).
Proof.
  unfold _unmute_symbol_for_user.
  set (s1 := with_users _ s).
  by destruct (muted_symbols s1 !! uid); apply quiet_same.
Qed.

(** The first send: what [send_alert_to_user] does to the object it is
    given and to the registry. *)
Lemma send_alert_effect s l uid now tg :
  let s' := send_alert_to_user s l uid now tg in
  next_alert s' = next_alert s
  ∧ (∀ l0, l0 ≠ l → alerts s' !! l0 = alerts s !! l0)
  ∧ (∀ l0, is_Some (alerts s' !! l0) → is_Some (alerts s !! l0))
  ∧ (pending_alerts s' = pending_alerts s
     ∨ ∃ uid' aid,
         pending_alerts s'
         = od_set uid'
             (od_set aid l (default [] (od_get uid' (pending_alerts s))))
             (pending_alerts s)).
Proof.
  simpl. unfold send_alert_to_user.
  destruct (users s !! uid) as [cfg|]; [|split_and!; [done..|by left]].
  destruct (alerts s !! l) as [a|]; [|split_and!; [done..|by left]].
  set (s1 := with_alerts _ s).
  destruct (send_once_frame s1 l cfg now tg) as ((Hp & _ & Hn & _) & Hal).
  assert (Hne : ∀ s2, alerts s2 = alerts (snd (_send_once s1 l cfg now tg)) →
            (∀ l0, l0 ≠ l → alerts s2 !! l0 = alerts s !! l0)
            ∧ (∀ l0, is_Some (alerts s2 !! l0) → is_Some (alerts s !! l0))).
  { intros s2 ->. rewrite Hal. unfold s1. simpl. split.
    - intros l0 Hl0. by rewrite !lookup_alter_ne.
    - intros l0. by rewrite !lookup_alter_is_Some. }
  destruct (bool_decide _).
  - destruct (_send_once s1 l cfg now tg) as [[|] s2]; simpl in *.
    + destruct (Hne s2 eq_refl). split_and!; [done..|].
      right. exists (user_id cfg), (alert_id a). by rewrite Hp.
    + destruct (Hne s2 eq_refl). split_and!; [done..|by left].
  - destruct (Hne _ eq_refl). split_and!; [done..|by left].
Qed.

Lemma emit_effect s a uid now tg :
  wf_system s →
  let s' := _emit s a uid now tg in
  wf_system s'
  ∧ (∀ l, (l < next_alert s)%positive → (l < next_alert s')%positive)
  ∧ (∀ l, (l < next_alert s)%positive → alerts s' !! l = alerts s !! l)
  ∧ (∀ l, l ∈ pending_refs (pending_alerts s') →
          l ∈ pending_refs (pending_alerts s) ∨ l = next_alert s).
Proof.
  intros (W1 & W2 & W3 & W4). simpl. unfold _emit.
  set (l' := next_alert s).
  set (s1 := {| users := users s; alerts := <[l' := a]> (alerts s);
                next_alert := Pos.succ l'; pending_alerts := pending_alerts s;
                confirmed_ids := confirmed_ids s; engine := engine s;
                muted_symbols := muted_symbols s; bot_system := bot_system s |}).
  destruct (send_alert_effect s1 l' uid now tg) as (Hn & Hal & Hsome & Hp).
  set (s' := send_alert_to_user s1 l' uid now tg) in *.
  assert (Hfresh : l' ∉ pending_refs (pending_alerts s)).
  { intros Hin. apply W3 in Hin. by apply Pos.lt_irrefl in Hin. }
  assert (Hrefs : pending_refs (pending_alerts s')
                  ⊆+ l' :: pending_refs (pending_alerts s)).
  { destruct Hp as [->|(uid' & aid & ->)]; simpl.
    - by apply submseteq_cons.
    - apply (pending_refs_set uid' _ (pending_alerts s) [l']).
      apply alert_refs_set. }
  assert (Hkeys : NoDup (od_keys (pending_alerts s'))).
  { destruct Hp as [->|(uid' & aid & ->)]; simpl; [done|].
    by apply od_keys_set_NoDup. }
  split_and!.
  - split_and!; [|done| |].
    + eapply submseteq_NoDup; [done|]. by apply NoDup_cons.
    + intros l Hl. rewrite Hn. simpl.
      apply (elem_of_submseteq _ _ _ Hl) in Hrefs.
      apply elem_of_cons in Hrefs as [->|Hin].
      * apply Pos.lt_succ_diag_r.
      * apply Pos.lt_lt_succ. by apply W3.
    + intros l Hl. rewrite Hn. simpl. apply Hsome in Hl. simpl in Hl.
      destruct (decide (l = l')) as [->|Hne]; [apply Pos.lt_succ_diag_r|].
      rewrite lookup_insert_ne in Hl by done. apply Pos.lt_lt_succ. by apply W4.
  - intros l Hl. rewrite Hn. simpl. by apply Pos.lt_lt_succ.
  - intros l Hl.
    assert (Hne : l ≠ l') by (intros ->; by apply Pos.lt_irrefl in Hl).
    rewrite Hal by done. simpl. by rewrite lookup_insert_ne.
  - intros l Hl. apply (elem_of_submseteq _ _ _ Hl) in Hrefs.
    apply elem_of_cons in Hrefs as [->|?]; [by right|by left].
Qed.

(** Every reachable state is well formed. *)
Lemma wf_step s ev : wf_system s → wf_system (step s ev).
Proof.
  intros Hwf. destruct ev; simpl.
  - by apply emit_effect.
  - eapply wf_quiet; [done|by apply quiet_tick].
  - eapply wf_quiet; [done|apply quiet_confirm].
  - eapply wf_quiet; [done|apply quiet_confirm_all].
  - eapply wf_quiet; [done|apply quiet_mute].
  - eapply wf_quiet; [done|apply quiet_unmute].
  - eapply wf_quiet; [done|by apply quiet_same].
Qed.

Lemma wf_run s evs : wf_system s → wf_system (run s evs).
Proof.
  revert s. induction evs as [|ev evs IH]; intros s Hwf; simpl; [done|].
  by apply IH, wf_step.
Qed.

Lemma wf_reachable us evs : wf_system (run (initial_system us) evs).
Proof. apply wf_run, wf_initial. Qed.

(** An alert object that no user has pending is left alone by a step,
    and stays out of the registry. *)
Lemma step_untouched s ev l :
  wf_system s → (l < next_alert s)%positive →
  l ∉ pending_refs (pending_alerts s) →
  (l < next_alert (step s ev))%positive
  ∧ (l ∉ pending_refs (pending_alerts (step s ev)))
  ∧ alerts (step s ev) !! l = alerts s !! l.
Proof.
  intros Hwf Hlt Hout.
  assert (Hq : ∀ s', quiet s s' →
            (l < next_alert s')%positive
            ∧ (l ∉ pending_refs (pending_alerts s'))
            ∧ alerts s' !! l = alerts s !! l).
  { intros s' (Q1 & _ & Q3 & Q4 & _). split_and!.
    - by rewrite Q3.
    - intros Hin. apply Hout. by eapply elem_of_submseteq.
    - by apply Q4. }
  destruct ev; simpl.
  - destruct (emit_effect s a uid now tg Hwf) as (_ & E1 & E2 & E3).
    split_and!; [by apply E1| |by apply E2].
    intros Hin. destruct (E3 l Hin) as [? | ->]; [done|].
    by apply Pos.lt_irrefl in Hlt.
  - by apply Hq, quiet_tick.
  - apply Hq, quiet_confirm.
  - apply Hq, quiet_confirm_all.
  - apply Hq, quiet_mute.
  - apply Hq, quiet_unmute.
  - by apply Hq, quiet_same.
Qed.

Lemma run_untouched evs :
  ∀ s l, wf_system s → (l < next_alert s)%positive →
         l ∉ pending_refs (pending_alerts s) →
         alerts (run s evs) !! l = alerts s !! l.
Proof.
  induction evs as [|ev evs IH]; intros s l Hwf Hlt Hout; simpl; [done|].
  destruct (step_untouched s ev l Hwf Hlt Hout) as (H1 & H2 & H3).
  rewrite <- H3. apply IH; [by apply wf_step|done..].
Qed.

Lemma ref_entry d l : l ∈ alert_refs d → ∃ k, (k, l) ∈ d.
Proof.
  unfold alert_refs. intros Hin. apply list_elem_of_In, in_map_iff in Hin.
  destruct Hin as ([k l'] & <- & Hin). exists k. by apply list_elem_of_In.
Qed.

(** Once its id has been popped, an alert object is no longer referred
    to by the user's dictionary. *)
Lemma popped_ref_gone (ks : list string) d aid l :
  NoDup (alert_refs d) → (aid, l) ∈ d → aid ∈ ks →
  l ∉ alert_refs (fold_left (fun m a => od_pop a m) ks d).
Proof.
  intros Hnd Hin Hks Hl. apply ref_entry in Hl as [k Hk].
  apply od_pop_list_elem in Hk as [Hk Hnot].
  by rewrite (entry_key_unique k aid l d Hnd Hk Hin) in Hnot.
Qed.

Lemma confirm_drops now s uid aid l :
  wf_system s → pending_lookup s uid aid = Some l →
  (l ∉ pending_refs (pending_alerts (snd (confirm_alert now s uid aid))))
  ∧ alerts (snd (confirm_alert now s uid aid)) !! l
    = alert_mark_confirmed now <$> alerts s !! l.
Proof.
  intros (Hnd & _) Hl. unfold pending_lookup in Hl. unfold confirm_alert.
  set (s0 := match confirmed_ids s !! uid with Some _ => s | None => _ end).
  assert (Hp0 : pending_alerts s0 = pending_alerts s ∧ alerts s0 = alerts s).
  { subst s0. by destruct (confirmed_ids s !! uid). }
  destruct Hp0 as [Hp0 Ha0]. rewrite Hp0.
  destruct (od_get uid (pending_alerts s)) as [d|] eqn:Hd; [|done].
  simpl in Hl. rewrite Hl. simpl. rewrite Hp0, Ha0. split.
  - apply (pending_refs_dropped uid d); [done|done| |].
    + eapply entry_ref. by apply od_get_Some_elem.
    + apply (popped_ref_gone [aid] d aid l).
      * by eapply user_refs_NoDup.
      * by apply od_get_Some_elem.
      * apply elem_of_cons. by left.
  - apply lookup_alter_eq.
Qed.

Lemma remove_alerts_drops s uid sym aid l a :
  wf_system s → pending_lookup s uid aid = Some l → alerts s !! l = Some a →
  symbol_matches (symbol a) (upper sym) = true →
  (l ∉ pending_refs (pending_alerts (snd (remove_alerts_for_symbol s uid sym))))
  ∧ alerts (snd (remove_alerts_for_symbol s uid sym)) = alerts s.
Proof.
  intros (Hnd & _) Hl Ha Hm. unfold pending_lookup in Hl.
  unfold remove_alerts_for_symbol.
  destruct (od_get uid (pending_alerts s)) as [d|] eqn:Hd; [|done].
  simpl in Hl. simpl. split; [|done].
  set (keep := fun kv : string * positive =>
                 match alerts s !! snd kv with
                 | Some alert => symbol_matches (symbol alert) (upper sym)
                 | None => false
                 end).
  apply (pending_refs_dropped uid d); [done|done| |].
  - eapply entry_ref. by apply od_get_Some_elem.
  - apply (popped_ref_gone _ d aid l).
    + by eapply user_refs_NoDup.
    + by apply od_get_Some_elem.
    + apply list_elem_of_In. unfold od_keys.
      change aid with (fst (aid, l)). apply in_map, filter_In. split.
      * by apply list_elem_of_In, od_get_Some_elem.
      * unfold keep. simpl. by rewrite Ha.
Qed.

Lemma mute_drops now s uid aid l a minutes :
  wf_system s → pending_lookup s uid aid = Some l → alerts s !! l = Some a →
  (l ∉ pending_refs
         (pending_alerts (snd (_mute_symbol_for_user now s uid (symbol a) minutes))))
  ∧ alerts (snd (_mute_symbol_for_user now s uid (symbol a) minutes)) = alerts s.
Proof.
  intros Hwf Hl Ha. unfold _mute_symbol_for_user.
  set (name := mute_symbol_name (symbol a)).
  set (s1 := with_users _ s).
  assert (Hm : symbol_matches (symbol a) (upper name) = true).
  { unfold name. rewrite mute_symbol_name_upper. apply symbol_matches_own_name. }
  destruct (remove_alerts_drops s1 uid name aid l a Hwf Hl Ha Hm) as [Hout Hal].
  destruct (remove_alerts_for_symbol s1 uid name) as [n s2]. simpl in *.
  by destruct (bot_system s2).
Qed.

(** The first send is made, and counted, whatever [max_repeats] is. *)
Lemma emit_first_send s a uid cfg now tg :
  users s !! uid = Some cfg →
  alerts (_emit s a uid now tg) !! next_alert s
  = Some (alert_mark_sent now (alert_set_target (user_id cfg) a)).
Proof.
  intros Hu. unfold _emit, send_alert_to_user. simpl.
  rewrite Hu, lookup_insert_eq.
  set (s1 := with_alerts _ _).
  destruct (send_once_frame s1 (next_alert s) cfg now tg) as (_ & Hal).
  assert (Hgoal : alerts (snd (_send_once s1 (next_alert s) cfg now tg))
                  !! next_alert s
                  = Some (alert_mark_sent now (alert_set_target (user_id cfg) a))).
  { rewrite Hal. unfold s1. simpl.
    by rewrite !lookup_alter_eq, lookup_insert_eq. }
  destruct (bool_decide _); [|done].
  by destruct (_send_once s1 (next_alert s) cfg now tg) as [[|] s2].
Qed.

End Termination.

(** ** Repeat termination *)

Section RepeatTermination.

(** The count of sends can exceed the [max_repeats] in effect.  First
    scenario: a user in REPEAT mode with the default limits (30 by day,
    20 at night, night from 23:00, UTC+8) gets an alert at 22:55 local
    time; the loop makes a pass every 5 seconds until 22:58:20 and
    resends it every 10 seconds; at 23:00 the alert is still pending
    with 21 sends while the limit in effect is 20.  Second scenario: with [max_repeats = 0] the first
    send is made all the same. *)
Lemma sent_count_exceeds_limit_in_effect :
  let a := new_alert "a1b2c3d4" "YUSDT" PRICE_PUMP WARNING in
  let cfg := repeat_mode_user "u2" in
  let t0 := 14 * hour_us + 55 * 60 * 1000000 in
  let t1 := 15 * hour_us in
  let s :=
    run (initial_system {[ "u2" := cfg ]})
      (EvEmit a "u2" t0 Delivered
       :: ((fun k => EvTick (t0 + k * 5000000) (fun _ _ => Delivered))
             <$> seqZ 1 40)) in
  let cfg0 :=
    {| user_id := "u9"; is_active := true; timezone_offset := 8;
       big_order := default_big_order;
       alert_mode :=
         {| mode := REPEAT;
            repeat := {| repeat_enabled := true; interval_seconds := 10;
                         max_repeats := 0; require_confirm := true |};
            night := default_night |};
       email := {| email_enabled := false; to_addresses := [] |};
       notify_channels := [TELEGRAM]; cooldown_seconds := 300;
       watch_mode := "all"; whitelist := []; blacklist := [] |} in
  let s0 := _emit (initial_system {[ "u9" := cfg0 ]}) a "u9" (4 * hour_us) Delivered in
  (pending_lookup s "u2" "a1b2c3d4" = Some 1%positive
   ∧ users s !! "u2" = Some cfg
   ∧ get_effective_mode cfg t1 = REPEAT
   ∧ sent_count <$> alerts s !! 1%positive = Some 21
   ∧ max_repeats (get_repeat_config cfg t1) = 20)
  ∧ (pending_lookup s0 "u9" "a1b2c3d4" = Some 1%positive
     ∧ get_effective_mode cfg0 (4 * hour_us) = REPEAT
     ∧ sent_count <$> alerts s0 !! 1%positive = Some 1
     ∧ max_repeats (get_repeat_config cfg0 (4 * hour_us)) = 0).
Proof. by vm_compute. Qed.

(** Within one pass, a send that finds the user has blocked the bot marks
    the user inactive, and the next pending alert of that user is still
    attempted in the same pass: the two steps of the inner loop, and the
    pass as a whole. *)
Lemma deactivation_inside_a_pass :
  let cfg := repeat_mode_user "u2" in
  let t0 := 4 * hour_us in
  let s :=
    run (initial_system {[ "u2" := cfg ]})
      [EvEmit (new_alert "a1" "XUSDT" PRICE_PUMP WARNING) "u2" t0 Delivered;
       EvEmit (new_alert "a2" "YUSDT" PRICE_DUMP WARNING) "u2" t0 Delivered] in
  let s1 :=
    fst (repeat_alert (t0 + 10000000) (fun _ _ => Forbidden) "u2" 10000000 30
           (s, []) ("a1", 1%positive)) in
  let s2 :=
    fst (repeat_alert (t0 + 10000000) (fun _ _ => Forbidden) "u2" 10000000 30
           (s1, ["a1"]) ("a2", 2%positive)) in
  is_active <$> users s1 !! "u2" = Some false
  ∧ sent_count <$> alerts s1 !! 2%positive = Some 1
  ∧ sent_count <$> alerts s2 !! 2%positive = Some 2
  ∧ alerts (repeat_tick (t0 + 10000000) (fun _ _ => Forbidden) s) = alerts s2
  ∧ pending_alerts (repeat_tick (t0 + 10000000) (fun _ _ => Forbidden) s)
    = [("u2", [])].
Proof. by vm_compute. Qed.

(** C6 (amended). In every reachable state of the dispatcher: the first
    send of an alert is made and counted whatever [max_repeats] is; a
    pass of the repeat loop resends an alert at most once, and only if
    it is pending for a user who was active when the pass started, its
    id is not confirmed, its symbol is monitored and its [sent_count] is
    below the [max_repeats] in effect at that pass, so that a resend
    never takes [sent_count] above that limit; a pass that starts with
    the user inactive drops the user's pending alerts and resends none
    of them; an alert that is no longer in the pending registry is never
    sent again; and that is the case of an acknowledged alert and of an
    alert whose symbol has been muted for its user. *)
Theorem repeat_loop_termination (us : UserManager) (evs0 : list Event) :
  let s := run (initial_system us) evs0 in
  (∀ a uid cfg now tg,
     users s !! uid = Some cfg →
     alerts (_emit s a uid now tg) !! next_alert s
     = Some (alert_mark_sent now (alert_set_target (user_id cfg) a)))
  ∧ (∀ now tg l,
       alerts (repeat_tick now tg s) !! l = alerts s !! l
       ∨ resent_in_pass now s (repeat_tick now tg s) l)
  ∧ (∀ now tg uid,
       (∀ cfg, users s !! uid = Some cfg → is_active cfg = false) →
       od_get uid (pending_alerts (repeat_tick now tg s)) = None
       ∧ ∀ aid l, pending_lookup s uid aid = Some l →
                  alerts (repeat_tick now tg s) !! l = alerts s !! l)
  ∧ (∀ l evs,
       is_Some (alerts s !! l) → l ∉ pending_refs (pending_alerts s) →
       alerts (run s evs) !! l = alerts s !! l)
  ∧ (∀ now uid aid l evs,
       pending_lookup s uid aid = Some l →
       alerts (run (snd (confirm_alert now s uid aid)) evs) !! l
       = alert_mark_confirmed now <$> alerts s !! l)
  ∧ (∀ now uid aid l a minutes evs,
       pending_lookup s uid aid = Some l → alerts s !! l = Some a →
       alerts (run (snd (_mute_symbol_for_user now s uid (symbol a) minutes)) evs) !! l
       = Some a).
Proof.
  intros s. pose proof (wf_reachable us evs0) as Hwf. fold s in Hwf.
  pose proof Hwf as (_ & _ & Hbound & Hstored).
  assert (Hrefs : ∀ uid aid l, pending_lookup s uid aid = Some l →
            l ∈ pending_refs (pending_alerts s)).
  { intros uid aid l Hl. unfold pending_lookup in Hl.
    destruct (od_get uid (pending_alerts s)) as [d|] eqn:Hd; [|done].
    eapply pending_refs_of_user; [done|].
    eapply entry_ref. by apply od_get_Some_elem. }
  split_and!.
  - intros a uid cfg now tg. apply emit_first_send.
  - intros now tg l. by apply repeat_tick_pass.
  - intros now tg uid Hin. split; [by apply repeat_tick_pass|].
    intros aid l Hl. unfold pending_lookup in Hl.
    destruct (od_get uid (pending_alerts s)) as [d|] eqn:Hd; [|done].
    eapply repeat_tick_inactive; [done..|]. by apply od_get_Some_elem.
  - intros l evs Hsome Hout. apply run_untouched; [done| |done].
    by apply Hstored.
  - intros now uid aid l evs Hl.
    destruct (confirm_drops now s uid aid l Hwf Hl) as [Hout Hal].
    rewrite <- Hal.
    assert (Hwf' : wf_system (step s (EvConfirm uid aid now)))
      by (by apply wf_step).
    apply run_untouched; [done| |done].
    destruct (quiet_confirm now s uid aid) as (_ & _ & Hn & _).
    rewrite Hn. by eapply Hbound, Hrefs.
  - intros now uid aid l a minutes evs Hl Ha.
    destruct (mute_drops now s uid aid l a minutes Hwf Hl Ha) as [Hout Hal].
    rewrite <- Ha, <- Hal.
    assert (Hwf' : wf_system (step s (EvMute uid (symbol a) minutes now)))
      by (by apply wf_step).
    apply run_untouched; [done| |done].
    destruct (quiet_mute now s uid (symbol a) minutes) as (_ & _ & Hn & _).
    rewrite Hn. by eapply Hbound, Hrefs.
Qed.

(** An alert on YUSDT for a user in REPEAT mode, resent twice, then the
    symbol is muted: whatever the loop does in the next two passes, the
    alert object is as the mute left it, with its three sends. *)
Lemma repeat_loop_termination_witness :
  let cfg := repeat_mode_user "u2" in
  let a := new_alert "a1b2c3d4" "YUSDT" PRICE_PUMP WARNING in
  let t0 := 4 * hour_us in
  let ok : string → string → TelegramResult := fun _ _ => Delivered in
  let history :=
    [EvEmit a "u2" t0 Delivered; EvTick (t0 + 10000000) ok;
     EvTick (t0 + 20000000) ok] in
  let s := run (initial_system {[ "u2" := cfg ]}) history in
  let sent := alert_mark_sent (t0 + 20000000)
                (alert_mark_sent (t0 + 10000000)
                   (alert_mark_sent t0 (alert_set_target "u2" a))) in
  alerts
    (run (snd (_mute_symbol_for_user (t0 + 21000000) s "u2" (symbol sent) 60))
       [EvTick (t0 + 30000000) ok; EvTick (t0 + 40000000) ok]) !! 1%positive
  = Some sent
  ∧ sent_count sent = 3.
Proof.
  intros cfg a t0 ok history s sent. split; [|reflexivity].
  apply (proj2 (proj2 (proj2 (proj2 (proj2
           (repeat_loop_termination {[ "u2" := cfg ]} history)))))
           (t0 + 21000000) "u2" "a1b2c3d4" 1%positive sent 60
           [EvTick (t0 + 30000000) ok; EvTick (t0 + 40000000) ok]).
  - reflexivity.
  - reflexivity.
Defined.

End RepeatTermination.

(** ** Clearing cooldowns *)

Section ClearCooldowns.

Implicit Types (e : AlertEngine) (c : Candidate) (ty : AlertType).

Lemma clear_cooldowns_lookup e user_id sym u s ty :
  cooldown_cell (clear_cooldowns e user_id sym) u s ty
  = if addressed_by_clear user_id sym u s then None else cooldown_cell e u s ty.
Proof.
  unfold cooldown_cell, clear_cooldowns, addressed_by_clear. simpl.
  destruct (String.eqb_spec user_id "") as [->|Hu];
    destruct (String.eqb_spec sym "") as [->|Hs]; simpl.
  - by rewrite lookup_empty.
  - rewrite lookup_fmap.
    destruct (cooldowns e !! u) as [by_symbol|]; simpl;
      [|by destruct (String.eqb sym s)].
    destruct (String.eqb_spec sym s) as [->|Hne].
    + by rewrite lookup_delete_eq.
    + by rewrite lookup_delete_ne.
  - destruct (String.eqb_spec user_id u) as [->|Hne]; simpl.
    + destruct (cooldowns e !! u) as [by_symbol|] eqn:Hc; simpl.
      * rewrite lookup_insert_eq. simpl. by rewrite lookup_empty.
      * by rewrite Hc.
    + destruct (cooldowns e !! user_id) as [by_symbol|]; [|done].
      by rewrite lookup_insert_ne.
  - destruct (String.eqb_spec user_id u) as [->|Hne]; simpl.
    + destruct (cooldowns e !! u) as [by_symbol|] eqn:Hc; simpl.
      * rewrite lookup_insert_eq. simpl.
        destruct (String.eqb_spec sym s) as [->|Hne'].
        -- by rewrite lookup_delete_eq.
        -- by rewrite lookup_delete_ne.
      * rewrite Hc. simpl. by destruct (String.eqb sym s).
    + destruct (cooldowns e !! user_id) as [by_symbol|]; [|done].
      by rewrite lookup_insert_ne.
Qed.

(** X1. [clear_cooldowns(user_id, symbol)] empties exactly the cells it
    addresses (those of the given user, or of every user when none is
    given, and of the given symbol, or of every symbol when none is
    given) and leaves every other cell and the escalation counter as
    they were; the next candidate for an emptied cell fires at once, not
    as an escalation, whatever its level, and starts a new cooldown. *)
Theorem clear_cooldowns_effect e user_id sym :
  (∀ u s ty,
     cooldown_cell (clear_cooldowns e user_id sym) u s ty
     = if addressed_by_clear user_id sym u s then None else cooldown_cell e u s ty)
  ∧ escalation_count (clear_cooldowns e user_id sym) = escalation_count e
  ∧ (∀ c, addressed_by_clear user_id sym (c_user c) (c_symbol c) = true →
          fst (candidate_firing (clear_cooldowns e user_id sym) c) = (true, false)
          ∧ cooldown_cell (snd (candidate_firing (clear_cooldowns e user_id sym) c))
              (c_user c) (c_symbol c) (c_type c)
            = Some (c_set_time c, c_level c)).
Proof.
  split_and!.
  - apply clear_cooldowns_lookup.
  - done.
  - intros c Hc. unfold candidate_firing. rewrite check_by_cell.
    rewrite clear_cooldowns_lookup, Hc. simpl. by rewrite cell_after_set.
Qed.

End ClearCooldowns.

(** ** Night mode and the repeat configuration *)

Section NightConfig.

Implicit Types (cfg : UserConfig) (now : Z).

Lemma is_night_time_enabled cfg now :
  is_night_time cfg now = true → night_enabled (night (alert_mode cfg)) = true.
Proof. unfold is_night_time. by destruct (night_enabled _). Qed.

Lemma is_night_time_unparsable cfg now :
  strptime_HM (night_start (night (alert_mode cfg))) = None
  ∨ strptime_HM (night_end (night (alert_mode cfg))) = None →
  is_night_time cfg now = false.
Proof.
  unfold is_night_time. intros [-> | ->].
  - by destruct (night_enabled _).
  - destruct (night_enabled _); simpl; [|done].
    by destruct (strptime_HM (night_start _)).
Qed.

(** X2. A night window one of whose ends [strptime] rejects (the
    [except] branch of [is_night_time]) switches night mode off as a
    whole: it is never night, the effective mode is the configured one,
    the repeat configuration is the day-time one and no e-mail channel is
    added. *)
Theorem unparsable_night_window_is_day cfg now :
  strptime_HM (night_start (night (alert_mode cfg))) = None
  ∨ strptime_HM (night_end (night (alert_mode cfg))) = None →
  is_night_time cfg now = false
  ∧ get_effective_mode cfg now = mode (alert_mode cfg)
  ∧ get_repeat_config cfg now
    = {| repeat_enabled :=
           repeat_enabled (repeat (alert_mode cfg))
           || bool_decide (mode (alert_mode cfg) = REPEAT);
         interval_seconds := interval_seconds (repeat (alert_mode cfg));
         max_repeats := max_repeats (repeat (alert_mode cfg));
         require_confirm := require_confirm (repeat (alert_mode cfg)) |}
  ∧ get_notify_channels cfg now = notify_channels cfg.
Proof.
  intros Hbad. pose proof (is_night_time_unparsable cfg now Hbad) as Hn.
  unfold get_effective_mode, get_repeat_config, get_notify_channels.
  rewrite Hn. simpl. by rewrite !andb_false_r.
Qed.

(** A window starting at "24:00": at midnight local time the user is in
    day mode. *)
Lemma unparsable_night_window_is_day_witness :
  let cfg :=
    {| user_id := "u4"; is_active := true; timezone_offset := 8;
       big_order := default_big_order;
       alert_mode :=
         {| mode := SINGLE; repeat := default_repeat;
            night :=
              {| night_enabled := true; auto_switch := true;
                 night_start := "24:00"; night_end := "07:00";
                 night_interval_seconds := 15; night_max_repeats := 20;
                 night_add_email := true |} |};
       email := {| email_enabled := true; to_addresses := ["a@b.c"] |};
       notify_channels := [TELEGRAM]; cooldown_seconds := 300;
       watch_mode := "all"; whitelist := []; blacklist := [] |} in
  is_night_time cfg (16 * hour_us) = false
  ∧ get_effective_mode cfg (16 * hour_us) = SINGLE
  ∧ max_repeats (get_repeat_config cfg (16 * hour_us)) = 30
  ∧ get_notify_channels cfg (16 * hour_us) = [TELEGRAM].
Proof.
  intros cfg.
  destruct (unparsable_night_window_is_day cfg (16 * hour_us)) as (H1 & H2 & H3 & H4);
    [by left|].
  split_and!; [exact H1|exact H2|by rewrite H3|exact H4].
Defined.

Lemma repeat_enabled_of_effective cfg now :
  get_effective_mode cfg now = REPEAT →
  repeat_enabled (get_repeat_config cfg now) = true.
Proof.
  unfold get_effective_mode, get_repeat_config.
  destruct (is_night_time cfg now) eqn:Hn.
  - by rewrite (is_night_time_enabled cfg now Hn).
  - rewrite !andb_false_r. simpl. intros ->. apply orb_true_r.
Qed.

Lemma repeat_skip_iff cfg now :
  negb (repeat_enabled (get_repeat_config cfg now))
  && negb (bool_decide (get_effective_mode cfg now = REPEAT))
  = negb (repeat_enabled (get_repeat_config cfg now)).
Proof.
  destruct (repeat_enabled (get_repeat_config cfg now)) eqn:He; simpl; [done|].
  case_bool_decide as Hm; [|done].
  by rewrite (repeat_enabled_of_effective cfg now Hm) in He.
Qed.

(** X3. The repeat configuration agrees with the effective mode:
    whenever the effective mode is REPEAT the configuration returned by
    [get_repeat_config] is enabled, so the repeat loop skips a user
    exactly when that configuration is disabled; at night the
    configuration holds the night interval and limit, by day the
    configured ones. *)
Theorem effective_repeat_is_enabled cfg now :
  (get_effective_mode cfg now = REPEAT →
     repeat_enabled (get_repeat_config cfg now) = true)
  ∧ (negb (repeat_enabled (get_repeat_config cfg now))
     && negb (bool_decide (get_effective_mode cfg now = REPEAT))
     = negb (repeat_enabled (get_repeat_config cfg now)))
  ∧ (is_night_time cfg now = true →
       get_repeat_config cfg now
       = {| repeat_enabled := true;
            interval_seconds := night_interval_seconds (night (alert_mode cfg));
            max_repeats := night_max_repeats (night (alert_mode cfg));
            require_confirm := true |})
  ∧ (is_night_time cfg now = false →
       get_repeat_config cfg now
       = {| repeat_enabled :=
              repeat_enabled (repeat (alert_mode cfg))
              || bool_decide (mode (alert_mode cfg) = REPEAT);
            interval_seconds := interval_seconds (repeat (alert_mode cfg));
            max_repeats := max_repeats (repeat (alert_mode cfg));
            require_confirm := require_confirm (repeat (alert_mode cfg)) |}).
Proof.
  split_and!.
  - apply repeat_enabled_of_effective.
  - apply repeat_skip_iff.
  - intros Hn. unfold get_repeat_config.
    by rewrite Hn, (is_night_time_enabled cfg now Hn).
  - intros Hn. unfold get_repeat_config. by rewrite Hn.
Qed.

(** X4. [get_notify_channels] returns the configured channels with the
    e-mail channel appended at the end exactly when it is night, night
    mode adds e-mail, e-mail is enabled and the channel is not already
    configured; in every other case it returns the configured channels
    unchanged.  No other channel is ever added or removed, so whether the
    chat channel is used does not depend on the time of day, and a list
    without repetition stays so. *)
Theorem night_only_adds_email cfg now :
  (get_notify_channels cfg now = notify_channels cfg
   ∨ (get_notify_channels cfg now = (notify_channels cfg ++ [EMAIL])%list
      ∧ (EMAIL ∉ notify_channels cfg)
      ∧ is_night_time cfg now = true
      ∧ night_add_email (night (alert_mode cfg)) = true
      ∧ email_enabled (email cfg) = true))
  ∧ (∀ ch, ch ≠ EMAIL →
           (ch ∈ get_notify_channels cfg now ↔ ch ∈ notify_channels cfg))
  ∧ (NoDup (notify_channels cfg) → NoDup (get_notify_channels cfg now))
  ∧ (email_enabled (email cfg) = false →
       get_notify_channels cfg now = notify_channels cfg)
  ∧ (get_notify_channels cfg now = (notify_channels cfg ++ [EMAIL])%list
     ↔ is_night_time cfg now = true
       ∧ night_add_email (night (alert_mode cfg)) = true
       ∧ email_enabled (email cfg) = true
       ∧ (EMAIL ∉ notify_channels cfg))
  ∧ (get_notify_channels cfg now = notify_channels cfg
     ↔ ¬ (is_night_time cfg now = true
          ∧ night_add_email (night (alert_mode cfg)) = true
          ∧ email_enabled (email cfg) = true
          ∧ (EMAIL ∉ notify_channels cfg))).
Proof.
  assert (Hlen : ∀ l : list NotifyChannel, l ≠ (l ++ [EMAIL])%list).
  { intros l H. apply (f_equal length) in H. rewrite length_app in H.
    simpl in H. lia. }
  assert (Hoff : get_notify_channels cfg now = notify_channels cfg →
                 ¬ (is_night_time cfg now = true
                    ∧ night_add_email (night (alert_mode cfg)) = true
                    ∧ email_enabled (email cfg) = true
                    ∧ (EMAIL ∉ notify_channels cfg)) →
    (get_notify_channels cfg now = notify_channels cfg
     ∨ (get_notify_channels cfg now = (notify_channels cfg ++ [EMAIL])%list
        ∧ (EMAIL ∉ notify_channels cfg)
        ∧ is_night_time cfg now = true
        ∧ night_add_email (night (alert_mode cfg)) = true
        ∧ email_enabled (email cfg) = true))
    ∧ (∀ ch, ch ≠ EMAIL →
             (ch ∈ get_notify_channels cfg now ↔ ch ∈ notify_channels cfg))
    ∧ (NoDup (notify_channels cfg) → NoDup (get_notify_channels cfg now))
    ∧ (email_enabled (email cfg) = false →
         get_notify_channels cfg now = notify_channels cfg)
    ∧ (get_notify_channels cfg now = (notify_channels cfg ++ [EMAIL])%list
       ↔ is_night_time cfg now = true
         ∧ night_add_email (night (alert_mode cfg)) = true
         ∧ email_enabled (email cfg) = true
         ∧ (EMAIL ∉ notify_channels cfg))
    ∧ (get_notify_channels cfg now = notify_channels cfg
       ↔ ¬ (is_night_time cfg now = true
            ∧ night_add_email (night (alert_mode cfg)) = true
            ∧ email_enabled (email cfg) = true
            ∧ (EMAIL ∉ notify_channels cfg)))).
  { intros Heq Hnot. rewrite Heq. split_and!; [by left|done..| |done].
    split; [|done]. intros H. by apply Hlen in H. }
  pose proof (is_night_time_enabled cfg now) as Hen.
  unfold get_notify_channels in *.
  destruct (night_enabled _) eqn:He; simpl in *;
    [|apply Hoff; [done|]; intros (Hn & _); by specialize (Hen Hn)].
  clear Hen.
  destruct (night_add_email _) eqn:Ha; simpl in *;
    [|apply Hoff; [done|]; by intros (_ & ? & _)].
  destruct (is_night_time cfg now) eqn:Hn; simpl in *;
    [|apply Hoff; [done|]; by intros (? & _)].
  destruct (email_enabled _) eqn:Hm; simpl in *;
    [|apply Hoff; [done|]; by intros (_ & _ & ? & _)].
  case_bool_decide as Hin; simpl in *;
    [apply Hoff; [done|]; by intros (_ & _ & _ & ?)|].
  clear Hoff. split_and!.
  - right. done.
  - intros ch Hch. rewrite elem_of_app, list_elem_of_singleton. tauto.
  - intros Hnd. apply NoDup_app. split_and!; [done| |apply NoDup_singleton].
    intros x Hx ->%list_elem_of_singleton. done.
  - done.
  - done.
  - split; [|intros Hnot; exfalso; by apply Hnot].
    intros H. symmetry in H. by apply Hlen in H.
Qed.

End NightConfig.

(** ** Monitored symbols and the blacklist *)

Section Monitoring.

Implicit Types (cfg : UserConfig) (sym b : string) (l : list string).

Lemma base_in_iff sym l :
  base_in sym l = true ↔ ∃ b, b ∈ l ∧ replace_USDT sym = replace_USDT b.
Proof.
  unfold base_in. rewrite existsb_exists. split.
  - intros (b & Hin & Heq). exists b. split; [by apply list_elem_of_In|].
    by apply String.eqb_eq.
  - intros (b & Hin & Heq). exists b. split; [by apply list_elem_of_In|].
    by apply String.eqb_eq.
Qed.

Lemma base_in_elem sym l : sym ∈ l → base_in sym l = true.
Proof. intros Hin. apply base_in_iff. by exists sym. Qed.

(** X5. [should_monitor] decides by base asset: a symbol is monitored
    exactly when no blacklist entry has the base asset of its upper-case
    form and, in whitelist mode only, some whitelist entry has it; the
    blacklist wins over the whitelist in every watch mode, and the answer
    does not depend on the case of the symbol. *)
Theorem should_monitor_by_base_asset cfg sym :
  let blocked :=
    ∃ b, b ∈ blacklist cfg ∧ replace_USDT (upper sym) = replace_USDT b in
  let allowed :=
    ∃ w, w ∈ whitelist cfg ∧ replace_USDT (upper sym) = replace_USDT w in
  (should_monitor cfg sym = true
   ↔ ¬ blocked ∧ (watch_mode cfg = "whitelist" → allowed))
  ∧ (blocked → should_monitor cfg sym = false)
  ∧ should_monitor cfg (upper sym) = should_monitor cfg sym.
Proof.
  simpl.
  assert (Hspec : should_monitor cfg sym = true
    ↔ ¬ (∃ b, b ∈ blacklist cfg ∧ replace_USDT (upper sym) = replace_USDT b)
      ∧ (watch_mode cfg = "whitelist" →
         ∃ w, w ∈ whitelist cfg ∧ replace_USDT (upper sym) = replace_USDT w)).
  { unfold should_monitor. rewrite <- !base_in_iff.
    case_bool_decide as Hb.
    - rewrite (base_in_elem _ _ Hb). intuition congruence.
    - destruct (base_in (upper sym) (blacklist cfg)); [intuition congruence|].
      destruct (String.eqb_spec (watch_mode cfg) "whitelist") as [Hw|Hw].
      + case_bool_decide as Hin.
        * rewrite (base_in_elem _ _ Hin). intuition congruence.
        * destruct (base_in (upper sym) (whitelist cfg)); intuition congruence.
      + intuition congruence. }
  split_and!; [done| |].
  - intros Hbl. apply not_true_iff_false. rewrite Hspec. tauto.
  - unfold should_monitor. by rewrite upper_idemp.
Qed.

End Monitoring.

Section Blacklist.

Implicit Types (us : UserManager) (cfg : UserConfig) (sym uid : string)
  (bl : list string).

Lemma list_remove_app_new sym bl : sym ∉ bl → list_remove sym (bl ++ [sym]) = bl.
Proof.
  induction bl as [|y r IH]; simpl; intros Hnot.
  - by rewrite String.eqb_refl.
  - apply not_elem_of_cons in Hnot as [Hne Hnot].
    destruct (String.eqb_spec sym y) as [|_]; [done|]. by rewrite IH.
Qed.

Lemma list_remove_NoDup sym bl : NoDup bl → (sym ∉ list_remove sym bl) ∧ NoDup (list_remove sym bl).
Proof.
  induction 1 as [|y r Hy Hnd IH]; simpl; [split; [by intros ?%elem_of_nil|constructor]|].
  destruct (String.eqb_spec sym y) as [->|Hne]; [done|].
  destruct IH as [IH1 IH2]. split.
  - intros [?|?]%elem_of_cons; done.
  - constructor; [|done]. intros Hin. apply Hy. clear -Hin.
    induction r as [|z r IH]; simpl in *; [done|].
    destruct (String.eqb sym z); [by apply elem_of_cons; right|].
    apply elem_of_cons in Hin as [->|Hin]; [by left|right; by apply IH].
Qed.

Lemma blacklist_add_one_NoDup bl sym : NoDup bl → NoDup (blacklist_add_one bl sym).
Proof.
  intros Hnd. unfold blacklist_add_one.
  destruct (negb _); simpl; [|done].
  case_bool_decide as Hin; simpl; [done|].
  apply NoDup_app. split_and!; [done| |apply NoDup_singleton].
  intros x Hx ->%list_elem_of_singleton. done.
Qed.

Lemma blacklist_add_one_present bl sym :
  strip (upper sym) = "" ∨ strip (upper sym) ∈ bl → blacklist_add_one bl sym = bl.
Proof.
  unfold blacklist_add_one. intros [->|Hin]; [done|].
  rewrite (bool_decide_eq_true_2 _ Hin). simpl. by rewrite andb_false_r.
Qed.

Lemma blacklist_add_one_mono bl sym x : x ∈ bl → x ∈ blacklist_add_one bl sym.
Proof.
  intros Hin. unfold blacklist_add_one. destruct (_ && _); [|done].
  apply elem_of_app. by left.
Qed.

Lemma blacklist_add_fold_mono (syms : list string) bl x :
  x ∈ bl → x ∈ fold_left blacklist_add_one syms bl.
Proof.
  revert bl. induction syms as [|s r IH]; intros bl Hin; simpl; [done|].
  by apply IH, blacklist_add_one_mono.
Qed.

Lemma blacklist_add_fold_NoDup (syms : list string) bl :
  NoDup bl → NoDup (fold_left blacklist_add_one syms bl).
Proof.
  revert bl. induction syms as [|s r IH]; intros bl Hnd; simpl; [done|].
  by apply IH, blacklist_add_one_NoDup.
Qed.

Lemma blacklist_add_fold_present (syms : list string) bl :
  (∀ s, s ∈ syms → strip (upper s) = "" ∨ strip (upper s) ∈ bl) →
  fold_left blacklist_add_one syms bl = bl.
Proof.
  revert bl. induction syms as [|s r IH]; intros bl Hall; simpl; [done|].
  rewrite blacklist_add_one_present by (apply Hall, elem_of_cons; by left).
  apply IH. intros s' Hs'. apply Hall, elem_of_cons. by right.
Qed.

Lemma blacklist_add_fold_covers (syms : list string) bl s :
  s ∈ syms →
  strip (upper s) = "" ∨ strip (upper s) ∈ fold_left blacklist_add_one syms bl.
Proof.
  revert bl. induction syms as [|s0 r IH]; intros bl Hin; simpl.
  - by apply elem_of_nil in Hin.
  - apply elem_of_cons in Hin as [->|Hin]; [|by apply IH].
    destruct (String.eqb_spec (strip (upper s0)) "") as [?|Hne]; [by left|].
    right. apply blacklist_add_fold_mono. by apply blacklist_add_one_in.
Qed.

(** X6. [add_to_blacklist] only adds: for a registered user every old
    entry is kept, every given symbol that is not blank is in the list
    afterwards in its normalised form, and a list without repetition
    stays so; adding the same symbols again changes nothing; an
    unregistered user is ignored and no other user is touched. *)
Theorem blacklist_add_is_idempotent us uid (syms : list string) :
  add_to_blacklist (add_to_blacklist us uid syms) uid syms
  = add_to_blacklist us uid syms
  ∧ (∀ cfg cfg', us !! uid = Some cfg →
       add_to_blacklist us uid syms !! uid = Some cfg' →
       (∀ x, x ∈ blacklist cfg → x ∈ blacklist cfg')
       ∧ (∀ s, s ∈ syms → strip (upper s) ≠ "" → strip (upper s) ∈ blacklist cfg')
       ∧ (NoDup (blacklist cfg) → NoDup (blacklist cfg')))
  ∧ (us !! uid = None → add_to_blacklist us uid syms = us)
  ∧ (∀ uid', uid' ≠ uid → add_to_blacklist us uid syms !! uid' = us !! uid').
Proof.
  unfold add_to_blacklist.
  destruct (us !! uid) as [cfg|] eqn:Hu.
  - split_and!.
    + rewrite lookup_insert_eq. simpl.
      rewrite blacklist_add_fold_present by
        (intros s Hs; by apply blacklist_add_fold_covers).
      by rewrite insert_insert_eq.
    + intros c c' [= <-]. rewrite lookup_insert_eq. intros [= <-]. simpl.
      split_and!.
      * intros x. apply blacklist_add_fold_mono.
      * intros s Hs Hne.
        by destruct (blacklist_add_fold_covers syms (blacklist cfg) s Hs).
      * apply blacklist_add_fold_NoDup.
    + done.
    + intros uid' Hne. by rewrite lookup_insert_ne.
  - rewrite Hu. split_and!; done.
Qed.

(** X7. For a registered user, removing a symbol that was just added,
    and was not blacklisted before, restores the registry exactly. *)
Theorem blacklist_add_then_remove us uid sym cfg :
  us !! uid = Some cfg →
  strip (upper sym) ≠ "" →
  strip (upper sym) ∉ blacklist cfg →
  remove_from_blacklist (add_to_blacklist us uid [sym]) uid [sym] = us.
Proof.
  intros Hu Hne Hnot. unfold remove_from_blacklist, add_to_blacklist.
  rewrite Hu, lookup_insert_eq. simpl. unfold blacklist_add_one.
  destruct (String.eqb_spec (strip (upper sym)) "") as [|_]; [done|].
  rewrite (bool_decide_eq_false_2 _ Hnot). simpl.
  rewrite list_remove_app_new by done.
  rewrite insert_insert_eq. apply insert_id. rewrite Hu. f_equal.
  by destruct cfg.
Qed.

(** Adding and removing " doge " for a user with an empty blacklist. *)
Lemma blacklist_add_then_remove_witness :
  let us : UserManager := {[ "u1" := default_user "u1" ]} in
  remove_from_blacklist (add_to_blacklist us "u1" [" doge "]) "u1" [" doge "] = us.
Proof.
  intros us. apply (blacklist_add_then_remove us "u1" " doge " (default_user "u1")).
  - reflexivity.
  - by vm_compute.
  - by intros ?%elem_of_nil.
Defined.

End Blacklist.

(** ** Unmute *)

Section Unmute.

Implicit Types (s : System) (uid sym : string) (cfg : UserConfig).

Lemma remove_alerts_frame s uid sym :
  let s' := snd (remove_alerts_for_symbol s uid sym) in
  users s' = users s ∧ engine s' = engine s ∧ bot_system s' = bot_system s
  ∧ muted_symbols s' = muted_symbols s ∧ alerts s' = alerts s
  ∧ next_alert s' = next_alert s.
Proof.
  simpl. unfold remove_alerts_for_symbol.
  by destruct (od_get uid (pending_alerts s)).
Qed.

(** X8. Unmuting after a mute, for a registered user whose blacklist
    did not hold the symbol: the registry of users is exactly as it was
    before the mute and the mute entry is gone, while the pending
    registry, the confirmed ids and the cooldown table stay as the mute
    left them (the alerts it dropped are not restored). *)
Theorem unmute_undoes_blacklist_only now s uid sym minutes cfg :
  users s !! uid = Some cfg →
  strip (mute_symbol_name sym) ∉ blacklist cfg →
  let name := mute_symbol_name sym in
  let s1 := snd (_mute_symbol_for_user now s uid sym minutes) in
  let s2 := _unmute_symbol_for_user s1 uid sym in
  users s2 = users s
  ∧ muted_symbols s2 !! uid ≫= (.!! name) = None
  ∧ pending_alerts s2 = pending_alerts s1
  ∧ confirmed_ids s2 = confirmed_ids s1
  ∧ engine s2 = engine s1
  ∧ alerts s2 = alerts s.
Proof.
  intros Hu Hnot. simpl.
  unfold _unmute_symbol_for_user, _mute_symbol_for_user.
  set (name := mute_symbol_name sym) in *.
  set (s0 := with_users (add_to_blacklist (users s) uid [name]) s).
  destruct (remove_alerts_frame s0 uid name) as (Hus & Heng & Hbs & Hmu & Hal & _).
  destruct (remove_alerts_for_symbol s0 uid name) as [n s1]. simpl in *.
  assert (Hup : upper name = name) by apply mute_symbol_name_upper.
  assert (Hrt : remove_from_blacklist (add_to_blacklist (users s) uid [name]) uid [name]
                = users s).
  { apply (blacklist_add_then_remove (users s) uid name cfg); [done|..];
      rewrite Hup; [apply strip_mute_symbol_name_nonempty|done]. }
  destruct (bot_system s1); simpl; rewrite lookup_insert_eq; simpl;
    rewrite Hus, Hrt, lookup_insert_eq; simpl; by rewrite lookup_delete_eq.
Qed.

(** Muting and unmuting "yusdt" for a user with one pending alert on
    YUSDT. *)
Lemma unmute_undoes_blacklist_only_witness :
  let cfg := repeat_mode_user "u2" in
  let a := new_alert "a1b2c3d4" "YUSDT" PRICE_PUMP WARNING in
  let s := _emit (initial_system {[ "u2" := cfg ]}) a "u2" (4 * hour_us) Delivered in
  let s1 := snd (_mute_symbol_for_user (5 * hour_us) s "u2" "yusdt" 60) in
  let s2 := _unmute_symbol_for_user s1 "u2" "yusdt" in
  users s2 = users s
  ∧ pending_lookup s "u2" "a1b2c3d4" = Some 1%positive
  ∧ pending_lookup s2 "u2" "a1b2c3d4" = None.
Proof.
  intros cfg a s s1 s2.
  destruct (unmute_undoes_blacklist_only (5 * hour_us) s "u2" "yusdt" 60 cfg)
    as (H1 & _); [reflexivity|by intros ?%elem_of_nil|].
  split_and!; [exact H1|reflexivity|reflexivity].
Defined.

End Unmute.

(** ** Symbols given to the list commands *)

Section ParseSymbols.

Implicit Types (s p : string) (c : ascii).

Lemma is_space_upper c : is_space (upper_ascii c) = is_space c.
Proof. destruct c as [[] [] [] [] [] [] [] []]; reflexivity. Qed.

Lemma lstrip_upper s : lstrip (upper s) = upper (lstrip s).
Proof.
  induction s as [|c r IH]; simpl; [done|].
  rewrite is_space_upper. by destruct (is_space c).
Qed.

Lemma rstrip_upper s : rstrip (upper s) = upper (rstrip s).
Proof.
  induction s as [|c r IH]; simpl; [done|].
  rewrite IH, is_space_upper.
  destruct (rstrip r); simpl; [|done]. by destruct (is_space c).
Qed.

Lemma strip_upper s : strip (upper s) = upper (strip s).
Proof. unfold strip. by rewrite lstrip_upper, rstrip_upper. Qed.

(** The text does not start with white space. *)
Let no_leading_space s : Prop :=
  match s with
  | EmptyString => True
  | String c _ => is_space c = false
  end.

Lemma lstrip_no_leading_space s : no_leading_space (lstrip s).
Proof.
  induction s as [|c r IH]; simpl; [done|].
  by destruct (is_space c) eqn:Hc.
Qed.

Lemma rstrip_no_leading_space s : no_leading_space s → no_leading_space (rstrip s).
Proof.
  destruct s as [|c r]; simpl; [done|]. intros Hc.
  destruct (rstrip r); simpl; [by rewrite Hc|done].
Qed.

Lemma lstrip_fixed s : no_leading_space s → lstrip s = s.
Proof. destruct s as [|c r]; simpl; [done|]. by intros ->. Qed.

Lemma rstrip_idemp s : rstrip (rstrip s) = rstrip s.
Proof.
  induction s as [|c r IH]; simpl; [done|].
  destruct (rstrip r) as [|d r'] eqn:Hr.
  - destruct (is_space c) eqn:Hc; simpl; [done|]. by rewrite Hc.
  - change (rstrip (String c (String d r')))
      with (match rstrip (String d r') with
            | EmptyString => if is_space c then EmptyString else String c EmptyString
            | String x y => String c (String x y)
            end).
    by rewrite IH.
Qed.

Lemma strip_no_leading_space s : no_leading_space (strip s).
Proof. apply rstrip_no_leading_space, lstrip_no_leading_space. Qed.

Lemma strip_idemp s : strip (strip s) = strip s.
Proof.
  unfold strip. rewrite (lstrip_fixed (rstrip (lstrip s))).
  - apply rstrip_idemp.
  - apply strip_no_leading_space.
Qed.

(** One symbol as [_parse_symbols] normalises it. *)
Let parsed s : string :=
  let s := strip (upper s) in
  if negb (endswith s "USDT") then (s ++ "USDT")%string else s.

Lemma parsed_normal s :
  (∃ p, parsed s = (p ++ "USDT")%string)
  ∧ upper (parsed s) = parsed s
  ∧ strip (parsed s) = parsed s.
Proof.
  unfold parsed.
  assert (Hup : upper (strip (upper s)) = strip (upper s))
    by (by rewrite <- strip_upper, upper_idemp).
  destruct (endswith (strip (upper s)) "USDT") eqn:He; simpl.
  - split_and!; [by apply endswith_split|done|apply strip_idemp].
  - split_and!; [by eexists|by rewrite upper_app, Hup|].
    rewrite strip_app_USDT, lstrip_fixed; [done|apply strip_no_leading_space].
Qed.

Lemma parsed_idemp s : parsed (parsed s) = parsed s.
Proof.
  destruct (parsed_normal s) as ((p & Hp) & Hup & Hst).
  unfold parsed at 1. rewrite Hup, Hst, Hp, endswith_app. done.
Qed.

(** X9. [_parse_symbols] yields symbols in normal form: one per
    argument, each ending with the quote suffix and not empty, each left
    unchanged by the normalisation of [add_to_blacklist] (upper case and
    strip) and by that of mute and unmute; parsing the result again
    changes nothing. *)
Theorem parse_symbols_normal_form (args : list string) :
  _parse_symbols (_parse_symbols args) = _parse_symbols args
  ∧ length (_parse_symbols args) = length args
  ∧ (∀ o, o ∈ _parse_symbols args →
       (∃ p, o = (p ++ "USDT")%string)
       ∧ strip (upper o) = o
       ∧ mute_symbol_name o = o
       ∧ o ≠ "").
Proof.
  split_and!.
  - unfold _parse_symbols. rewrite map_map. apply map_ext. intros s.
    apply parsed_idemp.
  - apply length_map.
  - intros o Hin. change (_parse_symbols args) with (map parsed args) in Hin.
    apply list_elem_of_In, in_map_iff in Hin as (s & <- & _).
    destruct (parsed_normal s) as ((p & Hp) & Hup & Hst).
    split_and!.
    + by exists p.
    + by rewrite Hup.
    + unfold mute_symbol_name. by rewrite Hup, Hp, endswith_app.
    + rewrite Hp. by destruct p.
Qed.

End ParseSymbols.

(** ** Confirmed ids *)

Section ConfirmedGrow.

Implicit Types (s : System) (uid aid : string) (c : gmap string (gset string)).

(** Every id recorded in [c] is recorded in [c']. *)
Let grows c c' : Prop :=
  ∀ uid aid ids, c !! uid = Some ids → aid ∈ ids →
                 ∃ ids', c' !! uid = Some ids' ∧ aid ∈ ids'.

Lemma grows_refl c : grows c c.
Proof. intros uid aid ids ? ?. by exists ids. Qed.

Lemma grows_trans c1 c2 c3 : grows c1 c2 → grows c2 c3 → grows c1 c3.
Proof.
  intros H12 H23 uid aid ids Hc Hin.
  destruct (H12 uid aid ids Hc Hin) as (ids' & Hc' & Hin'). by eapply H23.
Qed.

Lemma grows_add c uid aid : grows c (confirmed_add c uid aid).
Proof.
  intros uid' aid' ids Hc Hin. unfold confirmed_add.
  destruct (decide (uid' = uid)) as [->|Hne].
  - rewrite lookup_insert_eq, Hc. eexists. split; [done|]. set_solver.
  - rewrite lookup_insert_ne by done. by exists ids.
Qed.

Lemma grows_add_fold uid (ks : list string) c :
  grows c (fold_left (fun c a => confirmed_add c uid a) ks c).
Proof.
  revert c. induction ks as [|k ks IH]; intros c; simpl; [apply grows_refl|].
  eapply grows_trans; [apply grows_add|apply IH].
Qed.

Lemma grows_create c uid : c !! uid = None → grows c (<[uid := ∅]> c).
Proof.
  intros Hnone uid' aid ids Hc Hin.
  destruct (decide (uid' = uid)) as [->|Hne]; [congruence|].
  rewrite lookup_insert_ne by done. by exists ids.
Qed.

Lemma grows_confirmed s s' uid aid :
  grows (confirmed_ids s) (confirmed_ids s') →
  _is_confirmed s uid aid = true → _is_confirmed s' uid aid = true.
Proof.
  intros Hg. unfold _is_confirmed.
  destruct (confirmed_ids s !! uid) as [ids|] eqn:Hc; [|done].
  intros Hin%bool_decide_eq_true.
  destruct (Hg uid aid ids Hc Hin) as (ids' & -> & Hin').
  by apply bool_decide_eq_true.
Qed.

Lemma repeat_alerts_confirmed now tg uid interval M (d : odict positive) :
  ∀ s tr,
    confirmed_ids (fst (fold_left (repeat_alert now tg uid interval M) d (s, tr)))
    = confirmed_ids s.
Proof.
  induction d as [|[aid l] rest IH]; intros s tr; cbn [fold_left]; [done|].
  destruct (repeat_alert_step now tg uid interval M s tr aid l) as [(_ & Hc & _) _].
  destruct (repeat_alert now tg uid interval M (s, tr) (aid, l)) as [s1 tr1].
  simpl in Hc. by rewrite IH.
Qed.

Lemma repeat_user_confirmed now tg s uid :
  confirmed_ids (repeat_user now tg s uid) = confirmed_ids s.
Proof.
  unfold repeat_user.
  destruct (od_get uid (pending_alerts s)) as [d|]; [|done].
  destruct (users s !! uid) as [cfg|]; [|done].
  destruct (is_active cfg); [|done].
  destruct (negb _ && negb _); [done|].
  pose proof (repeat_alerts_confirmed now tg uid
                (timedelta_seconds (interval_seconds (get_repeat_config cfg now)))
                (max_repeats (get_repeat_config cfg now)) d s []) as Hc.
  by destruct (fold_left _ d (s, [])) as [s1 tr].
Qed.

Lemma repeat_tick_confirmed now tg s :
  confirmed_ids (repeat_tick now tg s) = confirmed_ids s.
Proof.
  unfold repeat_tick. generalize (od_keys (pending_alerts s)). intros ks.
  revert s. induction ks as [|k ks IH]; intros s; simpl; [done|].
  by rewrite IH, repeat_user_confirmed.
Qed.

Lemma send_alert_confirmed s l uid now tg :
  confirmed_ids (send_alert_to_user s l uid now tg) = confirmed_ids s.
Proof.
  unfold send_alert_to_user.
  destruct (users s !! uid) as [cfg|]; [|done].
  destruct (alerts s !! l) as [a|]; [|done].
  set (s1 := with_alerts _ s).
  destruct (send_once_frame s1 l cfg now tg) as ((_ & Hc & _) & _).
  destruct (bool_decide _); [|done].
  by destruct (_send_once s1 l cfg now tg) as [[|] s2].
Qed.

Lemma step_confirmed_grows s ev :
  grows (confirmed_ids s) (confirmed_ids (step s ev)).
Proof.
  destruct ev as [a uid now tg|now tg|uid aid now|uid|uid sym minutes now|uid sym|uid f];
    simpl.
  - unfold _emit. rewrite send_alert_confirmed. apply grows_refl.
  - rewrite repeat_tick_confirmed. apply grows_refl.
  - unfold confirm_alert.
    set (s0 := match confirmed_ids s !! uid with Some _ => s | None => _ end).
    assert (H0 : grows (confirmed_ids s) (confirmed_ids s0)).
    { subst s0. destruct (confirmed_ids s !! uid) eqn:Hc; [apply grows_refl|].
      by apply grows_create. }
    eapply grows_trans; [exact H0|].
    destruct (od_get uid (pending_alerts s0)) as [d|]; simpl; [|apply grows_add].
    destruct (od_get aid d) as [l|]; simpl; [apply grows_add|].
    destruct (fuzzy_match aid d) as [[k l]|]; simpl; apply grows_add.
  - unfold confirm_all_alerts.
    destruct (od_get uid (pending_alerts s)) as [d|]; simpl; [|apply grows_refl].
    eapply grows_trans; [|apply grows_add_fold].
    destruct (confirmed_ids s !! uid) eqn:Hc; [apply grows_refl|].
    by apply grows_create.
  - unfold _mute_symbol_for_user.
    set (s1 := with_users _ s).
    assert (Hrm : grows (confirmed_ids s)
                    (confirmed_ids (snd (remove_alerts_for_symbol s1 uid
                                           (mute_symbol_name sym))))).
    { unfold remove_alerts_for_symbol.
      destruct (od_get uid (pending_alerts s1)) as [d|]; simpl; [|apply grows_refl].
      apply grows_add_fold. }
    destruct (remove_alerts_for_symbol s1 uid (mute_symbol_name sym)) as [n s2].
    simpl in *. by destruct (bot_system s2).
  - unfold _unmute_symbol_for_user.
    set (s1 := with_users _ s).
    destruct (muted_symbols s1 !! uid); apply grows_refl.
  - apply grows_refl.
Qed.

(** X10. No call ever removes an id from a confirmed set: an id that is
    confirmed for a user stays confirmed over every sequence of calls of
    the dispatcher. *)
Theorem confirmed_ids_only_grow s (evs : list Event) uid aid :
  _is_confirmed s uid aid = true →
  _is_confirmed (run s evs) uid aid = true.
Proof.
  revert s. induction evs as [|ev evs IH]; intros s Hc; simpl; [done|].
  apply IH. eapply grows_confirmed; [apply step_confirmed_grows|done].
Qed.

(** An id confirmed by a prefix stays confirmed: a later alert that
    carries the same id is dropped by the next pass without a resend. *)
Lemma confirmed_ids_only_grow_witness :
  let cfg := repeat_mode_user "u2" in
  let a := new_alert "a1b2c3d4" "YUSDT" PRICE_PUMP WARNING in
  let b := new_alert "a1b2c3d4" "ZUSDT" PRICE_DUMP CRITICAL in
  let t0 := 4 * hour_us in
  let s :=
    run (initial_system {[ "u2" := cfg ]})
      [EvEmit a "u2" t0 Delivered; EvConfirm "u2" "a1b2" (t0 + 1000000)] in
  let s' :=
    run s [EvEmit b "u2" (t0 + 2000000) Delivered;
           EvTick (t0 + 12000000) (fun _ _ => Delivered)] in
  _is_confirmed s' "u2" "a1b2c3d4" = true
  ∧ pending_lookup s' "u2" "a1b2c3d4" = None
  ∧ sent_count <$> alerts s' !! 2%positive = Some 1.
Proof.
  intros cfg a b t0 s s'. split; [|by vm_compute].
  apply (confirmed_ids_only_grow s). reflexivity.
Defined.

End ConfirmedGrow.

(** ** Pending alerts have been sent *)

Section PendingSent.

Implicit Types (s : System) (uid aid : string) (l : positive)
  (d : odict positive) (ev : Event).

(** Every pending alert has been sent. *)
Let sent_inv s : Prop :=
  ∀ uid aid l, pending_lookup s uid aid = Some l →
               ∃ a, alerts s !! l = Some a ∧ sent_to uid aid a.

(** The registry of [s'] binds nothing that the registry of [s] does not. *)
Let no_new_entry s s' : Prop :=
  ∀ uid aid l, pending_lookup s' uid aid = Some l → pending_lookup s uid aid = Some l.

Lemma pending_lookup_ref s uid aid l :
  pending_lookup s uid aid = Some l → l ∈ pending_refs (pending_alerts s).
Proof.
  unfold pending_lookup. intros Hl.
  destruct (od_get uid (pending_alerts s)) as [d|] eqn:Hd; [|done].
  eapply pending_refs_of_user; [done|].
  eapply entry_ref. by apply od_get_Some_elem.
Qed.

Lemma od_get_pop_list_Some {V} (ks : list string) (k : string) (v : V) (m : odict V) :
  od_get k (fold_left (fun m a => od_pop a m) ks m) = Some v → od_get k m = Some v.
Proof.
  revert m. induction ks as [|a ks IH]; intros m; simpl; [done|].
  intros H. apply IH in H. destruct (decide (a = k)) as [->|Hne].
  - by rewrite od_get_pop_eq in H.
  - by rewrite od_get_pop_ne in H.
Qed.

Lemma no_new_entry_refl s : no_new_entry s s.
Proof. by intros uid aid l. Qed.

Lemma no_new_entry_trans s1 s2 s3 :
  no_new_entry s1 s2 → no_new_entry s2 s3 → no_new_entry s1 s3.
Proof. intros H12 H23 uid aid l H. by apply H12, H23. Qed.

Lemma no_new_entry_replace s s' uid d d' :
  od_get uid (pending_alerts s) = Some d →
  pending_alerts s' = od_set uid d' (pending_alerts s) →
  (∀ k l, od_get k d' = Some l → od_get k d = Some l) →
  no_new_entry s s'.
Proof.
  intros Hd Hp Hsub u k l. unfold pending_lookup. rewrite Hp.
  destruct (decide (uid = u)) as [<-|Hne].
  - rewrite od_get_set_eq, Hd. simpl. apply Hsub.
  - by rewrite od_get_set_ne.
Qed.

Lemma no_new_entry_pop s uid :
  no_new_entry s (with_pending (od_pop uid (pending_alerts s)) s).
Proof.
  intros u k l. unfold pending_lookup. simpl.
  destruct (decide (uid = u)) as [<-|Hne].
  - by rewrite od_get_pop_eq.
  - by rewrite od_get_pop_ne.
Qed.

Lemma repeat_alerts_pending now tg uid interval M d :
  ∀ s tr,
    pending_alerts (fst (fold_left (repeat_alert now tg uid interval M) d (s, tr)))
    = pending_alerts s.
Proof.
  induction d as [|[aid l] rest IH]; intros s tr; cbn [fold_left]; [done|].
  destruct (repeat_alert_step now tg uid interval M s tr aid l) as [(Hp & _) _].
  destruct (repeat_alert now tg uid interval M (s, tr) (aid, l)) as [s1 tr1].
  simpl in Hp. by rewrite IH.
Qed.

Lemma repeat_user_no_new_entry now tg s uid :
  no_new_entry s (repeat_user now tg s uid).
Proof.
  unfold repeat_user.
  destruct (od_get uid (pending_alerts s)) as [d|] eqn:Hd; [|apply no_new_entry_refl].
  destruct (users s !! uid) as [cfg|]; [|apply no_new_entry_pop].
  destruct (is_active cfg); [|apply no_new_entry_pop].
  destruct (negb _ && negb _); [apply no_new_entry_refl|].
  pose proof (repeat_alerts_pending now tg uid
                (timedelta_seconds (interval_seconds (get_repeat_config cfg now)))
                (max_repeats (get_repeat_config cfg now)) d s []) as Hp.
  destruct (fold_left _ d (s, [])) as [s1 tr]. simpl in Hp.
  eapply (no_new_entry_replace s _ uid d); [done|by simpl; rewrite Hp|].
  intros k l. apply od_get_pop_list_Some.
Qed.

Lemma repeat_tick_no_new_entry now tg s : no_new_entry s (repeat_tick now tg s).
Proof.
  unfold repeat_tick. generalize (od_keys (pending_alerts s)). intros ks.
  revert s. induction ks as [|k ks IH]; intros s; simpl; [apply no_new_entry_refl|].
  eapply no_new_entry_trans; [apply repeat_user_no_new_entry|apply IH].
Qed.

Lemma sent_to_mark_sent now uid aid a :
  alert_id a = aid → target_user_id a = uid → sent_to uid aid (alert_mark_sent now a).
Proof. intros Hi Ht. by split_and!. Qed.

(** A step that binds nothing new and marks as sent whatever pending
    object it changes keeps the invariant. *)
Lemma sent_inv_quiet s s' :
  sent_inv s → no_new_entry s s' →
  (∀ l, l ∈ pending_refs (pending_alerts s') →
        alerts s' !! l = alerts s !! l
        ∨ ∃ now a, alerts s !! l = Some a ∧ alerts s' !! l = Some (alert_mark_sent now a)) →
  sent_inv s'.
Proof.
  intros Hinv Hno Hal uid aid l Hl.
  destruct (Hinv uid aid l (Hno uid aid l Hl)) as (a & Ha & Hi & Ht & Hst & Hls).
  destruct (Hal l (pending_lookup_ref s' uid aid l Hl)) as [E|(now & a' & Ha' & E)].
  - exists a. by rewrite E.
  - rewrite Ha in Ha'. injection Ha' as <-. exists (alert_mark_sent now a).
    split; [done|]. by apply sent_to_mark_sent.
Qed.

Lemma sent_inv_tick now tg s :
  wf_system s → sent_inv s → sent_inv (repeat_tick now tg s).
Proof.
  intros Hwf Hinv. eapply sent_inv_quiet; [done|apply repeat_tick_no_new_entry|].
  intros l _.
  destruct (repeat_tick_pass now tg s Hwf) as (_ & _ & _ & _ & _ & _ & Hev).
  destruct (Hev l) as [E|(uid & d & aid & a & cfg & _ & _ & Ha & Ha' & _)];
    [by left|right]. by exists now, a.
Qed.

Lemma sent_inv_confirm_entry now s uid k d l :
  wf_system s → sent_inv s →
  od_get uid (pending_alerts s) = Some d → (k, l) ∈ d →
  sent_inv (confirm_entry now s uid k d l).
Proof.
  intros (Hnd & _) Hinv Hd Hin u k' l' Hl'.
  assert (Hold : pending_lookup s u k' = Some l' ∧ (u = uid → k' ≠ k)).
  { unfold pending_lookup in *. simpl in Hl'.
    destruct (decide (uid = u)) as [<-|Hne].
    - rewrite od_get_set_eq in Hl'. simpl in Hl'. rewrite Hd. simpl.
      destruct (decide (k = k')) as [<-|Hk].
      + by rewrite od_get_pop_eq in Hl'.
      + rewrite od_get_pop_ne in Hl' by done. split; [done|]. by intros _ ->.
    - rewrite od_get_set_ne in Hl' by done. split; [done|]. by intros ->. }
  destruct Hold as [Hold Hk].
  destruct (Hinv u k' l' Hold) as (a & Ha & Hsent).
  exists a. split; [|done]. simpl. rewrite lookup_alter_ne; [done|].
  intros <-. unfold pending_lookup in Hold.
  destruct (od_get u (pending_alerts s)) as [d'|] eqn:Hd'; [|done]. simpl in Hold.
  apply od_get_Some_elem in Hold.
  destruct (decide (u = uid)) as [->|Hne].
  - rewrite Hd in Hd'. injection Hd' as <-.
    apply (Hk eq_refl). apply (entry_key_unique k' k l d); [|done..].
    by eapply user_refs_NoDup.
  - apply (user_refs_disjoint u uid d' d (pending_alerts s) l Hnd Hne Hd' Hd);
      by eapply entry_ref.
Qed.

Lemma sent_inv_same s s' :
  sent_inv s → pending_alerts s' = pending_alerts s → alerts s' = alerts s →
  sent_inv s'.
Proof.
  intros Hinv Hp Ha uid aid l. unfold pending_lookup. rewrite Hp, Ha. apply Hinv.
Qed.

Lemma sent_inv_confirm now s uid aid :
  wf_system s → sent_inv s → sent_inv (snd (confirm_alert now s uid aid)).
Proof.
  intros Hwf Hinv. unfold confirm_alert.
  set (s0 := match confirmed_ids s !! uid with Some _ => s | None => _ end).
  assert (H0 : pending_alerts s0 = pending_alerts s ∧ alerts s0 = alerts s
               ∧ wf_system s0).
  { subst s0. by destruct (confirmed_ids s !! uid). }
  destruct H0 as (Hp0 & Ha0 & Hwf0).
  assert (Hinv0 : sent_inv s0) by (by apply (sent_inv_same s)).
  destruct (od_get uid (pending_alerts s0)) as [d|] eqn:Hd; simpl.
  - destruct (od_get aid d) as [l|] eqn:Hl; simpl.
    + apply sent_inv_confirm_entry; [done..|by apply od_get_Some_elem].
    + destruct (fuzzy_match aid d) as [[k l]|] eqn:Hf; simpl.
      * apply sent_inv_confirm_entry; [done..|].
        by apply fuzzy_match_found in Hf as [? _].
      * by apply (sent_inv_same s0).
  - by apply (sent_inv_same s0).
Qed.

Lemma sent_inv_replace s s' uid d d' :
  sent_inv s → od_get uid (pending_alerts s) = Some d →
  pending_alerts s' = od_set uid d' (pending_alerts s) →
  (∀ k l, od_get k d' = Some l → od_get k d = Some l) →
  alerts s' = alerts s → sent_inv s'.
Proof.
  intros Hinv Hd Hp Hsub Ha.
  eapply sent_inv_quiet; [done|by eapply no_new_entry_replace|].
  intros l _. left. by rewrite Ha.
Qed.

Lemma sent_inv_remove s uid sym :
  sent_inv s → sent_inv (snd (remove_alerts_for_symbol s uid sym)).
Proof.
  intros Hinv. unfold remove_alerts_for_symbol.
  destruct (od_get uid (pending_alerts s)) as [d|] eqn:Hd; simpl; [|done].
  eapply (sent_inv_replace s _ uid d); [done|done|done| |done].
  intros k l. apply od_get_pop_list_Some.
Qed.

Lemma sent_inv_emit s a uid now tg :
  wf_system s → sent_inv s → sent_inv (_emit s a uid now tg).
Proof.
  intros (_ & _ & W3 & _) Hinv. unfold _emit.
  set (l' := next_alert s).
  set (s1 := {| users := users s; alerts := <[l' := a]> (alerts s);
                next_alert := Pos.succ l'; pending_alerts := pending_alerts s;
                confirmed_ids := confirmed_ids s; engine := engine s;
                muted_symbols := muted_symbols s; bot_system := bot_system s |}).
  assert (Hfresh : ∀ u k l, pending_lookup s u k = Some l → l ≠ l').
  { intros u k l Hl ->. apply pending_lookup_ref, W3 in Hl.
    by apply Pos.lt_irrefl in Hl. }
  assert (Hinv1 : sent_inv s1).
  { intros u k l Hl. destruct (Hinv u k l Hl) as (a0 & Ha0 & Hs).
    exists a0. split; [|done]. simpl. rewrite lookup_insert_ne; [done|].
    intros <-. by apply (Hfresh u k l'). }
  unfold send_alert_to_user.
  destruct (users s1 !! uid) as [cfg|] eqn:Hu; [|done].
  replace (alerts s1 !! l') with (Some a) by (simpl; by rewrite lookup_insert_eq).
  set (s2 := with_alerts _ s1).
  destruct (send_once_frame s2 l' cfg now tg) as ((Hp & _) & Hal).
  assert (Hold : ∀ s3, alerts s3 = alerts (snd (_send_once s2 l' cfg now tg)) →
            ∀ u k l, pending_lookup s u k = Some l →
                     ∃ a0, alerts s3 !! l = Some a0 ∧ sent_to u k a0).
  { intros s3 E u k l Hl. destruct (Hinv u k l Hl) as (a0 & Ha0 & Hs).
    exists a0. split; [|done]. rewrite E, Hal. unfold s2. simpl.
    pose proof (Hfresh u k l Hl) as Hne.
    by rewrite !lookup_alter_ne, lookup_insert_ne. }
  assert (Hnew : alerts (snd (_send_once s2 l' cfg now tg)) !! l'
                 = Some (alert_mark_sent now (alert_set_target (user_id cfg) a))).
  { rewrite Hal. unfold s2. simpl.
    by rewrite !lookup_alter_eq, lookup_insert_eq. }
  assert (Hsame : ∀ s3, pending_alerts s3 = pending_alerts s →
            alerts s3 = alerts (snd (_send_once s2 l' cfg now tg)) → sent_inv s3).
  { intros s3 E1 E2 u k l Hl. apply (Hold s3 E2). unfold pending_lookup in *.
    by rewrite <- E1. }
  destruct (bool_decide _); [|by apply Hsame].
  destruct (_send_once s2 l' cfg now tg) as [[|] s3]; simpl in *; [|by apply Hsame].
  intros u k l Hl. unfold pending_lookup in Hl. simpl in Hl. rewrite Hp in Hl.
  destruct (decide (user_id cfg = u)) as [<-|Hne].
  - rewrite od_get_set_eq in Hl. simpl in Hl.
    destruct (decide (alert_id a = k)) as [<-|Hk].
    + rewrite od_get_set_eq in Hl. injection Hl as <-.
      eexists. split; [exact Hnew|]. by apply sent_to_mark_sent.
    + rewrite od_get_set_ne in Hl by done. apply (Hold s3 eq_refl).
      unfold pending_lookup.
      destruct (od_get (user_id cfg) (pending_alerts s)); [done|]. done.
  - rewrite od_get_set_ne in Hl by done. by apply (Hold s3 eq_refl).
Qed.

Lemma sent_inv_step s ev : wf_system s → sent_inv s → sent_inv (step s ev).
Proof.
  intros Hwf Hinv.
  destruct ev as [a uid now tg|now tg|uid aid now|uid|uid sym minutes now|uid sym|uid f];
    simpl.
  - by apply sent_inv_emit.
  - by apply sent_inv_tick.
  - by apply sent_inv_confirm.
  - unfold confirm_all_alerts.
    destruct (od_get uid (pending_alerts s)) as [d|] eqn:Hd; simpl; [|done].
    by eapply (sent_inv_replace s _ uid d []).
  - unfold _mute_symbol_for_user. set (s1 := with_users _ s).
    assert (Hinv1 : sent_inv s1) by (by apply (sent_inv_same s)).
    pose proof (sent_inv_remove s1 uid (mute_symbol_name sym) Hinv1) as Hrm.
    destruct (remove_alerts_for_symbol s1 uid (mute_symbol_name sym)) as [n s2].
    simpl in *. apply (sent_inv_same s2); [done| |]; by destruct (bot_system s2).
  - unfold _unmute_symbol_for_user. set (s1 := with_users _ s).
    apply (sent_inv_same s); [done| |]; by destruct (muted_symbols s1 !! uid).
  - by apply (sent_inv_same s).
Qed.

Lemma sent_inv_run evs : ∀ s, wf_system s → sent_inv s → sent_inv (run s evs).
Proof.
  induction evs as [|ev evs IH]; intros s Hwf Hinv; simpl; [done|].
  apply IH; [by apply wf_step|by apply sent_inv_step].
Qed.

(** X11. In every reachable state of the dispatcher, an alert that is
    pending for a user under an id is stored, carries that id and that
    user as its target, has status SENT and has a time of last send: the
    repeat loop never meets a pending alert that was not sent. *)
Theorem pending_alerts_were_sent (us : UserManager) (evs : list Event) uid aid l :
  let s := run (initial_system us) evs in
  pending_lookup s uid aid = Some l →
  ∃ a, alerts s !! l = Some a ∧ sent_to uid aid a.
Proof.
  simpl. apply (sent_inv_run evs (initial_system us)); [apply wf_initial|].
  intros u k l'. done.
Qed.

(** The pending alert after a first send and a resend. *)
Lemma pending_alerts_were_sent_witness :
  let cfg := repeat_mode_user "u2" in
  let a := new_alert "a1b2c3d4" "YUSDT" PRICE_PUMP WARNING in
  let t0 := 4 * hour_us in
  let s :=
    run (initial_system {[ "u2" := cfg ]})
      [EvEmit a "u2" t0 Delivered; EvTick (t0 + 10000000) (fun _ _ => TimedOut)] in
  ∃ a', alerts s !! 1%positive = Some a' ∧ sent_to "u2" "a1b2c3d4" a'.
Proof.
  intros cfg a t0 s.
  apply (pending_alerts_were_sent {[ "u2" := cfg ]}
           [EvEmit a "u2" t0 Delivered; EvTick (t0 + 10000000) (fun _ _ => TimedOut)]
           "u2" "a1b2c3d4" 1%positive).
  reflexivity.
Defined.

End PendingSent.

(** ** Acknowledging everything *)

Section ConfirmAll.

Implicit Types (s : System) (uid aid : string).

(** X12. [confirm_all_alerts] returns the number of alerts the user had
    pending and leaves none pending; every id that was pending is in the
    user's confirmed set afterwards; the other users' pending alerts and
    confirmed sets are untouched; and, unlike [confirm_alert], it changes
    no alert object and no user. *)
Theorem confirm_all_alerts_effect s uid :
  let r := confirm_all_alerts s uid in
  fst r = get_pending_count s uid
  ∧ get_pending_count (snd r) uid = 0
  ∧ (∀ aid, pending_lookup (snd r) uid aid = None)
  ∧ (∀ aid l, pending_lookup s uid aid = Some l →
              _is_confirmed (snd r) uid aid = true)
  ∧ (∀ uid', uid' ≠ uid →
       od_get uid' (pending_alerts (snd r)) = od_get uid' (pending_alerts s)
       ∧ confirmed_ids (snd r) !! uid' = confirmed_ids s !! uid')
  ∧ alerts (snd r) = alerts s
  ∧ users (snd r) = users s.
Proof.
  simpl. unfold confirm_all_alerts, get_pending_count, pending_lookup.
  destruct (od_get uid (pending_alerts s)) as [d|] eqn:Hd; simpl.
  - rewrite od_get_set_eq. simpl. split_and!; try done.
    + intros aid l Hl. unfold _is_confirmed. simpl.
      destruct (fold_confirmed_add_in uid (od_keys d)
                  (match confirmed_ids s !! uid with
                   | Some _ => confirmed_ids s
                   | None => <[uid := ∅]> (confirmed_ids s)
                   end) aid) as (ids & -> & Hids).
      * left. apply od_get_Some_elem in Hl. unfold od_keys.
        apply list_elem_of_In. change aid with (fst (aid, l)).
        by apply in_map, list_elem_of_In.
      * by apply bool_decide_eq_true.
    + intros uid' Hne. split; [by apply od_get_set_ne|].
      assert (Hfold : ∀ (ks : list string) c,
                fold_left (fun c a => confirmed_add c uid a) ks c !! uid' = c !! uid').
      { induction ks as [|k ks IH]; intros c; simpl; [done|].
        rewrite IH. unfold confirmed_add. by rewrite lookup_insert_ne. }
      rewrite Hfold. destruct (confirmed_ids s !! uid); [done|].
      by rewrite lookup_insert_ne.
  - rewrite Hd. simpl. split_and!; done.
Qed.

End ConfirmAll.

(** ** The interval between resends *)

Section Spacing.

Implicit Types (s : System) (uid aid : string) (l : positive)
  (d : odict positive) (cfg : UserConfig).

(** The alert was last sent at least [interval] before [now]. *)
Let spaced now interval s l : Prop :=
  ∃ a ls, alerts s !! l = Some a ∧ last_sent a = Some ls ∧ interval <= now - ls.

Lemma repeat_alert_spaced now tg uid interval M s tr aid l :
  let s' := fst (repeat_alert now tg uid interval M (s, tr) (aid, l)) in
  alerts s' = alerts s
  ∨ (alerts s' = alter (alert_mark_sent now) l (alerts s) ∧ spaced now interval s l).
Proof.
  simpl. unfold repeat_alert.
  destruct (users s !! uid) as [cfg|]; [|by left].
  destruct (alerts s !! l) as [a|] eqn:Ha; [|by left].
  destruct (_is_confirmed s uid aid); [by left|].
  destruct (should_monitor cfg (symbol a)); simpl; [|by left].
  destruct (M <=? sent_count a); [by left|].
  destruct (last_sent a) as [ls|] eqn:Hls; [|by left].
  destruct (Z.leb_spec interval (now - ls)) as [Hle|]; [|by left].
  destruct (send_once_frame s l cfg now (tg uid aid)) as [_ Hal].
  right. split; [|by exists a, ls].
  by destruct (_send_once s l cfg now (tg uid aid)) as [[|] s1].
Qed.

Lemma repeat_alerts_spaced now tg uid interval M d :
  ∀ s tr, NoDup (alert_refs d) →
  let s' := fst (fold_left (repeat_alert now tg uid interval M) d (s, tr)) in
  ∀ l, alerts s' !! l = alerts s !! l ∨ spaced now interval s l.
Proof.
  induction d as [|[aid l1] rest IH]; intros s tr Hnd; cbn [fold_left]; [by left|].
  change (alert_refs ((aid, l1) :: rest)) with (l1 :: alert_refs rest) in *.
  apply NoDup_cons in Hnd as [Hl1 Hnd].
  pose proof (repeat_alert_spaced now tg uid interval M s tr aid l1) as Hstep.
  destruct (repeat_alert now tg uid interval M (s, tr) (aid, l1)) as [s1 tr1].
  simpl in Hstep.
  destruct (repeat_alerts_fold now tg uid interval M rest s1 tr1 Hnd) as (_ & Hout & _).
  specialize (IH s1 tr1 Hnd). simpl in IH.
  intros l. destruct (decide (l = l1)) as [->|Hne].
  - rewrite (Hout l1 Hl1). destruct Hstep as [->|[_ Hsp]]; [by left|by right].
  - assert (Hsame : alerts s1 !! l = alerts s !! l).
    { destruct Hstep as [->|[-> _]]; [done|]. by rewrite lookup_alter_ne. }
    destruct (IH l) as [E|(a & ls & Ha & Hls & Hle)].
    + left. by rewrite E.
    + right. exists a, ls. by rewrite <- Hsame.
Qed.

Lemma repeat_user_spaced now tg s uid :
  NoDup (pending_refs (pending_alerts s)) →
  ∀ l, alerts (repeat_user now tg s uid) !! l = alerts s !! l
       ∨ ∃ cfg, users s !! uid = Some cfg
           ∧ repeat_enabled (get_repeat_config cfg now) = true
           ∧ spaced now (timedelta_seconds (interval_seconds (get_repeat_config cfg now)))
               s l.
Proof.
  intros Hnd l. unfold repeat_user.
  destruct (od_get uid (pending_alerts s)) as [d|] eqn:Hd; [|by left].
  destruct (users s !! uid) as [cfg|] eqn:Hu; [|by left].
  destruct (is_active cfg); [|by left].
  rewrite repeat_skip_iff.
  destruct (repeat_enabled (get_repeat_config cfg now)) eqn:He; simpl; [|by left].
  pose proof (repeat_alerts_spaced now tg uid
                (timedelta_seconds (interval_seconds (get_repeat_config cfg now)))
                (max_repeats (get_repeat_config cfg now)) d s []
                (user_refs_NoDup uid d _ Hnd Hd) l) as Hsp.
  destruct (fold_left _ d (s, [])) as [s1 tr]. simpl in *.
  destruct Hsp as [E|Hsp]; [by left|right]. by exists cfg.
Qed.

(** The handling of the users [ks]: the object [l], pending for [uid],
    is left alone or was resent after the interval of [uid]. *)
Lemma repeat_users_spaced now tg uid d aid l a (rc : RepeatAlertConfig) :
  (aid, l) ∈ d →
  ∀ (ks : list string) s,
    NoDup ks → NoDup (pending_refs (pending_alerts s)) →
    od_get uid (pending_alerts s) = Some d →
    (∀ c, users s !! uid = Some c → get_repeat_config c now = rc) →
    alerts s !! l = Some a →
    alerts (fold_left (repeat_user now tg) ks s) !! l = Some a
    ∨ (repeat_enabled rc = true
       ∧ ∃ ls, last_sent a = Some ls
               ∧ timedelta_seconds (interval_seconds rc) <= now - ls).
Proof.
  intros Hin. induction ks as [|k rest IH]; intros s Hks Hnd Hd Hu Ha;
    cbn [fold_left]; [by left|].
  apply NoDup_cons in Hks as [Hk Hrest].
  destruct (repeat_user_pass now tg s k Hnd) as (_ & _ & A3 & A4 & _ & A6 & _ & A8).
  pose proof (repeat_user_spaced now tg s k Hnd l) as Hsp.
  set (s1 := repeat_user now tg s k) in *.
  assert (Hnd1 : NoDup (pending_refs (pending_alerts s1)))
    by (by eapply submseteq_NoDup).
  destruct (decide (k = uid)) as [->|Hne].
  - destruct Hsp as [E1|(c & Hc & Hen & a1 & ls & Ha1 & Hls & Hle)].
    + destruct (repeat_users_fold now tg rest s1 Hrest Hnd1)
        as (_ & _ & _ & _ & _ & _ & _ & B8).
      destruct (B8 l) as [E|(uid' & Hin' & d' & aid' & a' & c' & K1 & K2 & _)].
      * left. by rewrite E, E1.
      * exfalso. assert (Hne : uid' ≠ uid) by (by intros ->).
        rewrite A6 in K1 by done.
        apply (user_refs_disjoint uid' uid d' d (pending_alerts s) l Hnd);
          [done|done|done|by eapply entry_ref|by eapply entry_ref].
    + right. rewrite Ha in Ha1. injection Ha1 as <-.
      rewrite (Hu c Hc) in *. split; [done|]. by exists ls.
  - assert (Hsame : alerts s1 !! l = alerts s !! l).
    { destruct (A8 l) as [E1|(dk & aidk & ak & ck & K1 & K2 & _)]; [done|].
      exfalso.
      apply (user_refs_disjoint k uid dk d (pending_alerts s) l Hnd);
        [done|done|done|by eapply entry_ref|by eapply entry_ref]. }
    apply IH; [done|done| | |congruence].
    + by rewrite A6.
    + intros c Hc. destruct (A3 uid) as [E|(c0 & Hc0 & E)].
      * apply Hu. congruence.
      * rewrite E in Hc. injection Hc as <-. exact (Hu c0 Hc0).
Qed.

(** One pass: an object whose record changes was resent after its
    interval. *)
Lemma repeat_tick_spaced now tg s :
  wf_system s →
  ∀ l, alerts (repeat_tick now tg s) !! l = alerts s !! l
       ∨ resent_after_interval now s (repeat_tick now tg s) l.
Proof.
  intros Hwf l. pose proof Hwf as (Hnd & Hks & _ & _).
  destruct (repeat_tick_pass now tg s Hwf) as (_ & _ & _ & _ & _ & _ & Hev).
  destruct (Hev l) as [E|(uid & d & aid & a & cfg & Hd & Hin & Ha & Ha' & Hu & Hact & _)];
    [by left|].
  destruct (repeat_users_spaced now tg uid d aid l a (get_repeat_config cfg now) Hin
              (od_keys (pending_alerts s)) s Hks Hnd Hd) as [E|(Hen & ls & Hls & Hle)].
  - intros c Hc. rewrite Hu in Hc. by injection Hc as <-.
  - done.
  - left. fold (repeat_tick now tg s) in E. by rewrite E.
  - right. by exists uid, d, aid, a, cfg, ls.
Qed.

(** X13. In every reachable state, a pass of the repeat loop changes an
    alert object only by resending it, and resends it only if it is
    pending for an active user whose repeat configuration is enabled and
    at least the interval in effect at that pass has elapsed since the
    alert was last sent. *)
Theorem resend_waits_for_interval (us : UserManager) (evs0 : list Event) now tg l :
  let s := run (initial_system us) evs0 in
  alerts (repeat_tick now tg s) !! l = alerts s !! l
  ∨ resent_after_interval now s (repeat_tick now tg s) l.
Proof. simpl. apply repeat_tick_spaced, wf_reachable. Qed.

End Spacing.

(** ** Pending alerts of a user whose repeat configuration is off *)

Section Frozen.

Implicit Types (s : System) (uid aid : string) (l : positive)
  (d : odict positive) (cfg : UserConfig).

Lemma repeat_user_disabled now tg s uid :
  (∀ c, users s !! uid = Some c → repeat_enabled (get_repeat_config c now) = false) →
  repeat_user now tg s uid = s
  ∨ (repeat_user now tg s uid = with_pending (od_pop uid (pending_alerts s)) s
     ∧ ∀ c, users s !! uid = Some c → is_active c = false).
Proof.
  intros Hdis. unfold repeat_user.
  destruct (od_get uid (pending_alerts s)) as [d|]; [|by left].
  destruct (users s !! uid) as [c|] eqn:Hu; [|by right].
  destruct (is_active c) eqn:Hact.
  - left. by rewrite repeat_skip_iff, (Hdis c eq_refl).
  - right. split; [done|]. by intros c' [= <-].
Qed.

Lemma repeat_users_disabled now tg uid (ks : list string) :
  ∀ s, NoDup ks → NoDup (pending_refs (pending_alerts s)) →
  (∀ c, users s !! uid = Some c → repeat_enabled (get_repeat_config c now) = false) →
  let s' := fold_left (repeat_user now tg) ks s in
  od_get uid (pending_alerts s') = od_get uid (pending_alerts s)
  ∨ ∀ c, users s' !! uid = Some c → is_active c = false.
Proof.
  induction ks as [|k rest IH]; intros s Hks Hnd Hdis; cbn [fold_left]; [by left|].
  apply NoDup_cons in Hks as [Hk Hrest].
  destruct (repeat_user_pass now tg s k Hnd) as (_ & _ & A3 & A4 & _ & A6 & _ & _).
  pose proof (repeat_user_disabled now tg s k) as Hown.
  set (s1 := repeat_user now tg s k) in *.
  assert (Hnd1 : NoDup (pending_refs (pending_alerts s1)))
    by (by eapply submseteq_NoDup).
  destruct (repeat_users_fold now tg rest s1 Hrest Hnd1)
    as (_ & _ & B3 & _ & _ & B6 & _ & _).
  destruct (decide (k = uid)) as [->|Hne].
  - destruct (Hown Hdis) as [E|[E Hin]].
    + left. rewrite B6 by done. by rewrite E.
    + right. eapply same_but_activity_inactive; [exact B3|]. by rewrite E.
  - destruct (IH s1 Hrest Hnd1) as [E|Hin].
    + intros c Hc. destruct (A3 uid) as [E|(c0 & Hc0 & E)].
      * apply Hdis. congruence.
      * rewrite E in Hc. injection Hc as <-. exact (Hdis c0 Hc0).
    + left. rewrite E. by apply A6.
    + by right.
Qed.

(** X14. In every reachable state, a pass of the repeat loop at an
    instant at which a user's repeat configuration is disabled resends
    none of that user's pending alerts, and keeps them pending unless the
    user is inactive when the pass ends: alerts registered under the
    night switch are neither repeated nor dropped by day. *)
Theorem disabled_repeat_freezes_pending
    (us : UserManager) (evs0 : list Event) now tg uid cfg d :
  let s := run (initial_system us) evs0 in
  let s' := repeat_tick now tg s in
  users s !! uid = Some cfg →
  repeat_enabled (get_repeat_config cfg now) = false →
  od_get uid (pending_alerts s) = Some d →
  (∀ aid l, (aid, l) ∈ d → alerts s' !! l = alerts s !! l)
  ∧ (od_get uid (pending_alerts s') = Some d
     ∨ ∀ c, users s' !! uid = Some c → is_active c = false).
Proof.
  intros s s' Hu Hdis Hd.
  pose proof (wf_reachable us evs0) as Hwf. fold s in Hwf.
  pose proof Hwf as (Hnd & Hks & _ & _). split.
  - intros aid l Hin.
    destruct (repeat_tick_spaced now tg s Hwf l)
      as [E|(uid' & d' & aid' & a & cfg' & ls & K1 & K2 & _ & _ & K5 & _ & K7 & _)];
      [done|exfalso].
    destruct (decide (uid' = uid)) as [->|Hne].
    + rewrite Hu in K5. injection K5 as <-. congruence.
    + apply (user_refs_disjoint uid' uid d' d (pending_alerts s) l Hnd);
        [done|done|done|by eapply entry_ref|by eapply entry_ref].
  - rewrite <- Hd.
    apply (repeat_users_disabled now tg uid (od_keys (pending_alerts s)) s Hks Hnd).
    intros c Hc. rewrite Hu in Hc. by injection Hc as <-.
Qed.

(** An alert sent at 06:59:50 local time to a user in SINGLE mode with
    the default night window: at 07:00:05 the pass neither resends nor
    drops it; the first pass of the next night, at 23:00:05, resends
    it. *)
Lemma disabled_repeat_freezes_pending_witness :
  let cfg := default_user "u5" in
  let a := new_alert "a1b2c3d4" "YUSDT" PRICE_PUMP WARNING in
  let t0 := 22 * hour_us + 3590 * 1000000 in
  let t1 := 23 * hour_us + 5 * 1000000 in
  let t2 := 39 * hour_us + 5 * 1000000 in
  let ok : string → string → TelegramResult := fun _ _ => Delivered in
  let s := run (initial_system {[ "u5" := cfg ]}) [EvEmit a "u5" t0 Delivered] in
  mode (alert_mode cfg) = SINGLE
  ∧ pending_lookup s "u5" "a1b2c3d4" = Some 1%positive
  ∧ alerts (repeat_tick t1 ok s) !! 1%positive = alerts s !! 1%positive
  ∧ sent_count <$> alerts (repeat_tick t1 ok s) !! 1%positive = Some 1
  ∧ sent_count <$> alerts (repeat_tick t2 ok (repeat_tick t1 ok s)) !! 1%positive
    = Some 2.
Proof.
  intros cfg a t0 t1 t2 ok s.
  destruct (disabled_repeat_freezes_pending {[ "u5" := cfg ]}
              [EvEmit a "u5" t0 Delivered] t1 ok "u5" cfg [("a1b2c3d4", 1%positive)])
    as [Hsame _]; [reflexivity..|].
  split_and!; [reflexivity|reflexivity| |by vm_compute|by vm_compute].
  apply (Hsame "a1b2c3d4"). apply elem_of_cons. by left.
Defined.

End Frozen.

(** ** Price history: retention, volume ratio and price range *)

Section HistoryAdd.

Implicit Types (h : PriceHistory) (samples : list (Z * Q * Q)).

Lemma tl_drop {A} (k : nat) (l : list A) : tl (drop k l) = drop (S k) l.
Proof.
  revert k. induction l as [|y r IH]; intros [|k]; simpl; done.
Qed.

(** Appending to a deque bounded by [n] that holds the last [n] elements
    of [l] gives the last [n] elements of [l ++ [x]]. *)
Lemma bounded_append_drop {A} (n : nat) (l : list A) (x : A) :
  (0 < n)%nat →
  (if (n <=? length (drop (length l - n) l))%nat
   then tl (drop (length l - n) l) ++ [x]
   else drop (length l - n) l ++ [x])%list
  = drop (length (l ++ [x]) - n) (l ++ [x]).
Proof.
  intros Hn. rewrite length_drop, length_app. cbn [length].
  destruct (Nat.leb_spec n (length l - (length l - n))) as [Hfull|Hroom].
  - assert (Hlen : (n <= length l)%nat) by lia.
    replace (length l + 1 - n)%nat with (S (length l - n)) by lia.
    rewrite tl_drop. rewrite drop_app_le by lia. done.
  - assert (Hlen : (length l < n)%nat) by lia.
    replace (length l - n)%nat with 0%nat by lia.
    replace (length l + 1 - n)%nat with 0%nat by lia. done.
Qed.

Lemma deque_append_drop {A} (n : nat) (l : list A) (x : A) :
  n = length l →
  deque_append (drop (n - maxlen) l) x = drop (S n - maxlen) (l ++ [x]).
Proof.
  intros ->. replace (S (length l)) with (length (l ++ [x]))
    by (rewrite length_app; simpl; lia).
  apply bounded_append_drop. unfold maxlen. lia.
Qed.

Lemma history_of_snoc samples x :
  history_of (samples ++ [x])
  = add (history_of samples) (fst (fst x)) (snd (fst x)) (snd x).
Proof. unfold history_of. by rewrite fold_left_app. Qed.

(** The deques hold the last [maxlen] samples. *)
Lemma history_of_last samples :
  prices (history_of samples)
  = drop (length samples - maxlen) (map fst samples)
  ∧ volumes (history_of samples)
    = drop (length samples - maxlen) (map (fun x => (fst (fst x), snd x)) samples).
Proof.
  induction samples as [|x samples [IHp IHv]] using rev_ind; [done|].
  rewrite history_of_snoc. unfold add. cbn [prices volumes].
  rewrite IHp, IHv, !map_app. cbn [map].
  rewrite !deque_append_drop by (by rewrite length_map).
  rewrite length_app. cbn [length].
  replace (length samples + 1)%nat with (S (length samples)) by lia.
  split; [|done]. by destruct x as [[t p] v].
Qed.

Lemma StronglySorted_drop {A} (R : A → A → Prop) (k : nat) (l : list A) :
  StronglySorted R l → StronglySorted R (drop k l).
Proof.
  intros Hs. revert k. induction Hs as [|y r Hr IH Hall]; intros [|k]; simpl.
  - constructor.
  - constructor.
  - by constructor.
  - apply IH.
Qed.

Lemma clock_ordered_prices samples :
  StronglySorted (fun x y => fst (fst x) <= fst (fst y)) samples →
  time_ordered (map fst samples).
Proof.
  unfold time_ordered.
  induction 1 as [|x r Hr IH Hall]; simpl; constructor; [done|].
  apply Forall_map. by eapply Forall_impl.
Qed.

(** X15. After any sequence of [add]s to an empty history the two
    deques hold the last 720 samples, oldest first: their length is the
    number of samples capped at 720, price and volume entries carry the
    same timestamps, the sample added last is the newest entry, and when
    the samples arrive in the order of their timestamps the retained
    prices are ordered by time. *)
Theorem history_keeps_last_samples samples :
  let h := history_of samples in
  prices h = drop (length samples - maxlen) (map fst samples)
  ∧ volumes h
    = drop (length samples - maxlen) (map (fun x => (fst (fst x), snd x)) samples)
  ∧ length (prices h) = Nat.min (length samples) maxlen
  ∧ map fst (volumes h) = map fst (prices h)
  ∧ (∀ t p v, prices (history_of (samples ++ [(t, p, v)])) ≠ []
              ∧ List.last (prices (history_of (samples ++ [(t, p, v)]))) (0, 0%Q)
                = (t, p))
  ∧ (StronglySorted (fun x y => fst (fst x) <= fst (fst y)) samples →
     time_ordered (prices h)).
Proof.
  simpl. destruct (history_of_last samples) as [Hp Hv]. split_and!.
  - done.
  - done.
  - rewrite Hp, length_drop, length_map. lia.
  - rewrite Hp, Hv, <- !skipn_map, !map_map. done.
  - intros t p v. destruct (history_of_last (samples ++ [(t, p, v)])) as [-> _].
    rewrite map_app, length_app. cbn [map length fst].
    rewrite drop_app_le by (rewrite length_map; unfold maxlen; lia).
    split; [|apply last_last].
    intros H. symmetry in H. by apply app_cons_not_nil in H.
  - intros Hs. rewrite Hp. by apply StronglySorted_drop, clock_ordered_prices.
Qed.

End HistoryAdd.

Section VolumeRatio.

Implicit Types (h : PriceHistory) (vs : list (Z * Q)) (l : list Q).

Lemma float_gt_iff (a b : Q) : float_gt a b = true ↔ (b < a)%Q.
Proof.
  unfold float_gt. rewrite negb_true_iff, <- not_true_iff_false, Qle_bool_iff.
  split; [apply Qnot_le_lt|apply Qlt_not_le].
Qed.

Lemma float_gt_false_iff (a b : Q) : float_gt a b = false ↔ (a <= b)%Q.
Proof. unfold float_gt. by rewrite negb_false_iff, Qle_bool_iff. Qed.

Lemma split_volumes_acc cutoff vs (r0 o0 : list Q) :
  fold_left
    (fun acc tv =>
       let '(recent, older) := acc in
       if cutoff <? fst tv then (recent ++ [snd tv], older)%list
       else (recent, older ++ [snd tv])%list)
    vs (r0, o0)
  = ((r0 ++ map snd (List.filter (fun tv => cutoff <? fst tv) vs))%list,
     (o0 ++ map snd (List.filter (fun tv => negb (cutoff <? fst tv)) vs))%list).
Proof.
  revert r0 o0. induction vs as [|[t v] vs IH]; intros r0 o0; simpl.
  - by rewrite !app_nil_r.
  - destruct (cutoff <? t); simpl; rewrite IH, <- ?app_assoc; done.
Qed.

Lemma split_volumes_filter cutoff vs :
  split_volumes cutoff vs
  = (map snd (List.filter (fun tv => cutoff <? fst tv) vs),
     map snd (List.filter (fun tv => negb (cutoff <? fst tv)) vs)).
Proof. unfold split_volumes. by rewrite split_volumes_acc. Qed.

Lemma py_len_pos {A} (x : A) (r : list A) : (0 < py_len (x :: r))%Q.
Proof.
  unfold py_len. change 0%Q with (inject_Z 0). rewrite <- Zlt_Qlt.
  simpl length. lia.
Qed.

Lemma py_truediv_pos (a b : Q) : (0 < b)%Q → py_truediv a b = Ok (a / b)%Q.
Proof.
  intros Hb. unfold py_truediv.
  destruct (Qeq_bool b 0) eqn:He; [|done].
  apply Qeq_bool_iff in He. rewrite He in Hb. by apply Qlt_irrefl in Hb.
Qed.

Lemma py_sum_acc_nonneg l (acc : Q) :
  (0 <= acc)%Q → Forall (fun v => (0 <= v)%Q) l → (0 <= fold_left Qplus l acc)%Q.
Proof.
  revert acc. induction l as [|v l IH]; intros acc Hacc Hall; simpl; [done|].
  apply Forall_cons in Hall as [Hv Hall]. apply IH; [|done].
  change 0%Q with (0 + 0)%Q. by apply Qplus_le_compat.
Qed.

Lemma py_sum_nonneg l : Forall (fun v => (0 <= v)%Q) l → (0 <= py_sum l)%Q.
Proof. apply py_sum_acc_nonneg. apply Qle_refl. Qed.

Lemma Forall_nonneg_filter vs (f : Z * Q → bool) :
  Forall (fun tv => (0 <= snd tv)%Q) vs →
  Forall (fun v => (0 <= v)%Q) (map snd (List.filter f vs)).
Proof.
  induction 1 as [|tv vs Hv _ IH]; simpl; [constructor|].
  destruct (f tv); simpl; [by constructor|done].
Qed.

(** [get_volume_ratio] returns a number. *)
Lemma get_volume_ratio_ok h now minutes :
  ∃ r, get_volume_ratio h now minutes = Ok r.
Proof.
  unfold get_volume_ratio. rewrite split_volumes_filter.
  destruct (length (volumes h) <? 10)%nat; [by eexists|].
  destruct (map snd (List.filter _ (volumes h))) as [|x r]; [by eexists|].
  destruct (map snd (List.filter _ (volumes h))) as [|y o]; [by eexists|].
  rewrite !py_truediv_pos by apply py_len_pos. cbn [py_bind].
  destruct (float_gt _ 0) eqn:Hg; [|by eexists].
  apply float_gt_iff in Hg. rewrite py_truediv_pos by done. by eexists.
Qed.

(** X16. [get_volume_ratio] never raises: it divides only by the number
    of entries of a list that is not empty and by an average that is
    positive.  It answers 1 with fewer than ten volume samples, when no
    sample or every sample is newer than the cutoff, and when the
    average of the older samples is not positive; otherwise it is the
    average of the newer samples over the average of the older ones.
    On volumes that are not negative the ratio is not negative. *)
Theorem volume_ratio_is_guarded h now minutes :
  let cutoff := now - timedelta_minutes minutes in
  let recent := map snd (List.filter (fun tv => cutoff <? fst tv) (volumes h)) in
  let older :=
    map snd (List.filter (fun tv => negb (cutoff <? fst tv)) (volumes h)) in
  let avg l := (py_sum l / py_len l)%Q in
  get_volume_ratio h now minutes ≠ ZeroDivisionError
  ∧ ((length (volumes h) < 10)%nat ∨ recent = [] ∨ older = []
     ∨ (avg older <= 0)%Q →
     get_volume_ratio h now minutes = Ok 1%Q)
  ∧ ((10 <= length (volumes h))%nat → recent ≠ [] → older ≠ [] →
     (0 < avg older)%Q →
     get_volume_ratio h now minutes = Ok (avg recent / avg older)%Q)
  ∧ (Forall (fun tv => (0 <= snd tv)%Q) (volumes h) →
     ∀ r, get_volume_ratio h now minutes = Ok r → (0 <= r)%Q).
Proof.
  intros cutoff recent older avg.
  assert (Hnn : Forall (fun tv => (0 <= snd tv)%Q) (volumes h) →
                (0 <= avg recent)%Q).
  { intros Hall. unfold avg, recent.
    destruct (map snd (List.filter _ (volumes h))) as [|x r] eqn:Hr.
    - done.
    - apply Qle_shift_div_l; [apply py_len_pos|]. rewrite Qmult_0_l.
      rewrite <- Hr. by apply py_sum_nonneg, Forall_nonneg_filter. }
  unfold get_volume_ratio. fold cutoff.
  rewrite split_volumes_filter. fold recent older.
  destruct (Nat.ltb_spec (length (volumes h)) 10) as [Hfew|Hmany].
  { split_and!; [done|done|lia|]. intros _ r [= <-]. done. }
  destruct recent as [|x r] eqn:Hr.
  { split_and!; [done|done|done|]. intros _ r' [= <-]. done. }
  destruct older as [|y o] eqn:Ho.
  { split_and!; [done|done|done|]. intros _ r' [= <-]. done. }
  rewrite !py_truediv_pos by apply py_len_pos. cbn [py_bind].
  fold (avg (x :: r)) (avg (y :: o)) in *.
  destruct (float_gt (avg (y :: o)) 0) eqn:Hg.
  - apply float_gt_iff in Hg. rewrite py_truediv_pos by done.
    split_and!; [done| |done|].
    + intros [?|[?|[?|Hle]]]; [lia|done|done|].
      exfalso. by apply (Qlt_not_le _ _ Hg).
    + intros Hall r' [= <-]. apply Qle_shift_div_l; [done|].
      rewrite Qmult_0_l. by apply Hnn.
  - apply float_gt_false_iff in Hg. split_and!; [done|done| |].
    + intros _ _ _ Hpos. exfalso. by apply (Qlt_not_le _ _ Hpos).
    + intros _ r' [= <-]. done.
Qed.

End VolumeRatio.

Section PriceRange.

Implicit Types (h : PriceHistory) (l : list Q).

Lemma fold_min_spec l (x : Q) :
  let m := fold_left (fun m y => if float_lt y m then y else m) l x in
  (m = x ∨ m ∈ l) ∧ (m <= x)%Q ∧ ∀ y, y ∈ l → (m <= y)%Q.
Proof.
  revert x. induction l as [|y l IH]; intros x; simpl.
  - split_and!; [by left|apply Qle_refl|]. by intros y ?%elem_of_nil.
  - destruct (float_lt y x) eqn:Hlt.
    + apply float_lt_iff in Hlt. destruct (IH y) as (Hin & Hle & Hall).
      split_and!.
      * right. destruct Hin as [->|Hin]; apply elem_of_cons; [by left|by right].
      * eapply Qle_trans; [done|]. by apply Qlt_le_weak.
      * intros z [->|Hz]%elem_of_cons; [done|by apply Hall].
    + apply float_lt_false_iff in Hlt. destruct (IH x) as (Hin & Hle & Hall).
      split_and!.
      * destruct Hin as [->|Hin]; [by left|right; apply elem_of_cons; by right].
      * done.
      * intros z [->|Hz]%elem_of_cons; [by eapply Qle_trans|by apply Hall].
Qed.

Lemma fold_max_spec l (x : Q) :
  let m := fold_left (fun m y => if float_gt y m then y else m) l x in
  (m = x ∨ m ∈ l) ∧ (x <= m)%Q ∧ ∀ y, y ∈ l → (y <= m)%Q.
Proof.
  revert x. induction l as [|y l IH]; intros x; simpl.
  - split_and!; [by left|apply Qle_refl|]. by intros y ?%elem_of_nil.
  - destruct (float_gt y x) eqn:Hgt.
    + apply float_gt_iff in Hgt. destruct (IH y) as (Hin & Hle & Hall).
      split_and!.
      * right. destruct Hin as [->|Hin]; apply elem_of_cons; [by left|by right].
      * eapply Qle_trans; [|done]. by apply Qlt_le_weak.
      * intros z [->|Hz]%elem_of_cons; [done|by apply Hall].
    + apply float_gt_false_iff in Hgt. destruct (IH x) as (Hin & Hle & Hall).
      split_and!.
      * destruct Hin as [->|Hin]; [by left|right; apply elem_of_cons; by right].
      * done.
      * intros z [->|Hz]%elem_of_cons; [by eapply Qle_trans|by apply Hall].
Qed.

(** On a list that is not empty [min] and [max] return elements of the
    list that bound it. *)
Lemma py_min_max_list l :
  l ≠ [] →
  ∃ lo hi, py_min_list l = Some lo ∧ py_max_list l = Some hi
           ∧ lo ∈ l ∧ hi ∈ l ∧ ∀ y, y ∈ l → (lo <= y <= hi)%Q.
Proof.
  destruct l as [|x r]; [done|]. intros _. simpl.
  destruct (fold_min_spec r x) as (Hin & Hle & Hall).
  destruct (fold_max_spec r x) as (Hin' & Hle' & Hall').
  eexists _, _. split_and!; [done|done| | |].
  - destruct Hin as [->|Hin]; apply elem_of_cons; [by left|by right].
  - destruct Hin' as [->|Hin']; apply elem_of_cons; [by left|by right].
  - intros y [->|Hy]%elem_of_cons; split; auto.
Qed.

Lemma last_after_cutoff (ps : list (Z * Q)) (cutoff : Z) first :
  time_ordered ps →
  List.filter (fun tp => cutoff <? fst tp) ps ≠ [] →
  List.last ps first ∈ List.filter (fun tp => cutoff <? fst tp) ps.
Proof.
  intros Hs. revert first. induction Hs as [|[t p] r Hr IH Hall]; intros first;
    [done|].
  rewrite last_cons_default. destruct r as [|y r'].
  - simpl. destruct (cutoff <? t); [|done]. intros _. apply elem_of_cons. by left.
  - intros Hne. simpl List.filter at 1. cbn [fst].
    assert (Hrest : List.filter (fun tp => cutoff <? fst tp) (y :: r') ≠ []).
    { destruct (Z.ltb_spec cutoff t) as [Hlt|Hge].
      - apply Forall_cons in Hall as [Hy _]. simpl in Hy. simpl.
        destruct (Z.ltb_spec cutoff (fst y)); [done|lia].
      - simpl in Hne. destruct (Z.ltb_spec cutoff t); [lia|done]. }
    specialize (IH (t, p) Hrest). rewrite last_cons_default in IH.
    rewrite last_cons_default.
    destruct (cutoff <? t); [apply elem_of_cons; right|]; exact IH.
Qed.

Lemma last_elem {A} (l : list A) (d : A) : l ≠ [] → List.last l d ∈ l.
Proof.
  revert d. induction l as [|x r IH]; intros d; [done|]. intros _.
  rewrite last_cons_default. destruct r as [|y r'].
  - apply elem_of_cons. by left.
  - apply elem_of_cons. right. by apply IH.
Qed.

(** X17. [get_price_range] always returns a pair: (0, 0) on an empty
    history, and otherwise two retained prices [lo <= hi] that bracket
    every retained price newer than the cutoff; on a history ordered by
    time they bracket the newest price too (when no price is newer than
    the cutoff the range is taken over all retained prices). *)
Theorem price_range_brackets h now minutes :
  ∃ lo hi,
    get_price_range h now minutes = Some (lo, hi)
    ∧ (prices h = [] → (lo, hi) = (0, 0)%Q)
    ∧ (prices h ≠ [] →
       lo ∈ map snd (prices h) ∧ hi ∈ map snd (prices h) ∧ (lo <= hi)%Q
       ∧ (∀ t p, (t, p) ∈ prices h → now - timedelta_minutes minutes < t →
                 (lo <= p <= hi)%Q)
       ∧ (time_ordered (prices h) →
          ∀ first, (lo <= snd (List.last (prices h) first) <= hi)%Q)).
Proof.
  unfold get_price_range.
  destruct (prices h) as [|x0 r0] eqn:Hp; [by exists 0%Q, 0%Q|].
  set (ps := x0 :: r0) in *.
  set (cutoff := now - timedelta_minutes minutes).
  set (newer := fun tp : Z * Q => cutoff <? fst tp).
  set (sel := map snd (List.filter newer ps)).
  set (R := match sel with [] => map snd ps | _ => sel end).
  assert (HR : R ≠ []) by (unfold R; by destruct sel).
  destruct (py_min_max_list R HR) as (lo & hi & -> & -> & Hlo & Hhi & Hall).
  exists lo, hi. split; [done|]. split; [done|]. intros _.
  assert (Hsel : ∀ y, y ∈ sel → y ∈ map snd ps).
  { intros y Hy. apply list_elem_of_In, in_map_iff in Hy as (tp & <- & Hin).
    apply filter_In in Hin as [Hin _]. by apply list_elem_of_In, in_map. }
  assert (Hsub : ∀ y, y ∈ R → y ∈ map snd ps).
  { unfold R. destruct sel eqn:E; [done|]. by rewrite <- E in *. }
  assert (Hin_sel : ∀ tp, tp ∈ List.filter newer ps → snd tp ∈ R).
  { intros tp Hin. assert (Hs : snd tp ∈ sel)
      by (by apply list_elem_of_In, in_map, list_elem_of_In).
    unfold R. destruct sel; [by apply elem_of_nil in Hs|done]. }
  split_and!.
  - by apply Hsub.
  - by apply Hsub.
  - by destruct (Hall lo Hlo).
  - intros t p Hin Hlt. apply Hall, (Hin_sel (t, p)).
    apply list_elem_of_In, filter_In. split; [by apply list_elem_of_In|].
    unfold newer. simpl. by apply Z.ltb_lt.
  - intros Hs first. apply Hall.
    destruct (List.filter newer ps) as [|z zs] eqn:Hf.
    + change R with (map snd ps).
      apply list_elem_of_In, in_map, list_elem_of_In. by apply last_elem.
    + apply Hin_sel. rewrite <- Hf. apply last_after_cutoff; [done|].
      fold newer. by rewrite Hf.
Qed.

End PriceRange.

(** ** The stream handlers of the client *)

Section StreamClient.

Implicit Types (c : BinanceClient) (h : PriceHistory) (d : StreamTicker).

Lemma deque_append_last {A} (l : list A) (x : A) : last (deque_append l x) = Some x.
Proof. unfold deque_append. destruct (_ <=? _)%nat; apply last_snoc. Qed.

Lemma deque_append_not_nil {A} (l : list A) (x : A) : deque_append l x ≠ [].
Proof.
  unfold deque_append. destruct (_ <=? _)%nat; intros H; symmetry in H;
    by apply app_cons_not_nil in H.
Qed.

Lemma deque_append_length {A} (l : list A) (x : A) :
  (length l <= maxlen)%nat → (length (deque_append l x) <= maxlen)%nat.
Proof.
  intros Hl. unfold deque_append.
  destruct (Nat.leb_spec maxlen (length l)) as [Hfull|Hroom];
    rewrite length_app; cbn [length].
  - destruct l; simpl in *; [unfold maxlen in *; lia|lia].
  - lia.
Qed.

Lemma Forall_tl {A} (P : A → Prop) (l : list A) : Forall P l → Forall P (tl l).
Proof. destruct 1; [constructor|done]. Qed.

Lemma deque_append_Forall {A} (P : A → Prop) (l : list A) (x : A) :
  Forall P l → P x → Forall P (deque_append l x).
Proof.
  intros Hl Hx. unfold deque_append.
  destruct (_ <=? _)%nat; apply Forall_app; split; auto using Forall_tl.
Qed.

Lemma deque_append_stamps (l1 l2 : list (Z * Q)) (t : Z) (a b : Q) :
  map fst l1 = map fst l2 →
  map fst (deque_append l1 (t, a)) = map fst (deque_append l2 (t, b)).
Proof.
  intros Hm. unfold deque_append.
  assert (Hlen : length l1 = length l2)
    by (by rewrite <- (length_map fst l1), Hm, length_map).
  rewrite Hlen. destruct (_ <=? _)%nat; rewrite !map_app; cbn [map fst].
  - f_equal. destruct l1, l2; simpl in *; congruence.
  - by rewrite Hm.
Qed.

(** Adding a sample of positive price to a new or to a sound history. *)
Lemma add_ok h now (p v : Q) :
  h = new_history ∨ history_ok h → (0 < p)%Q →
  history_ok (add h now p v)
  ∧ last (prices (add h now p v)) = Some (now, p)
  ∧ last (volumes (add h now p v)) = Some (now, v).
Proof.
  intros Hh Hp. unfold add. cbn [prices volumes].
  rewrite !deque_append_last. split; [|done].
  assert (H : (length (prices h) <= maxlen)%nat
              ∧ Forall (fun tp => (0 < snd tp)%Q) (prices h)
              ∧ map fst (volumes h) = map fst (prices h)).
  { destruct Hh as [->|(_ & ? & ? & ?)]; [|done]. simpl. split_and!; [lia|done|done]. }
  destruct H as (Hlen & Hall & Hst).
  split_and!; cbn [prices volumes].
  - apply deque_append_not_nil.
  - by apply deque_append_length.
  - by apply deque_append_Forall.
  - by apply deque_append_stamps.
Qed.

Lemma market_ok_update (ps : gmap string Q) (hs : gmap string PriceHistory)
    (s : string) now (p v : Q) :
  market_ok ps hs → (0 < p)%Q →
  market_ok (<[s := p]> ps) (<[s := add (default new_history (hs !! s)) now p v]> hs).
Proof.
  intros Hok Hp s'. destruct (decide (s' = s)) as [->|Hne].
  - rewrite !lookup_insert_eq.
    destruct (add_ok (default new_history (hs !! s)) now p v) as (Hh & Hl & _); [|done|].
    + specialize (Hok s). destruct (hs !! s); [right; by destruct Hok|by left].
    + by rewrite Hl.
  - rewrite !lookup_insert_ne by done. apply Hok.
Qed.

Lemma market_ok_positive (ps : gmap string Q) (hs : gmap string PriceHistory)
    (s : string) (p : Q) :
  market_ok ps hs → ps !! s = Some p → (0 < p)%Q.
Proof.
  intros Hok Hs. specialize (Hok s). destruct (hs !! s) as [h|]; [|congruence].
  destruct Hok as ((_ & _ & Hall & _) & Hl). rewrite Hs in Hl.
  destruct (last (prices h)) as [[t p']|] eqn:Hlast; [|done].
  injection Hl as ->. apply last_Some in Hlast as [l' Hl'].
  rewrite Hl' in Hall. apply Forall_app in Hall as [_ Hall].
  by apply Forall_cons in Hall as [Hall _].
Qed.

Lemma rejected_guard d :
  String.eqb (msg_s d) "" || float_le (msg_c d) 0 = true ↔ rejected d.
Proof.
  unfold rejected, float_le. rewrite orb_true_iff, String.eqb_eq, Qle_bool_iff. done.
Qed.

(** The client after a message of the spot stream. *)
Lemma process_spot_state c now d :
  fst (fst (_process_spot_data c now d))
  = if String.eqb (msg_s d) "" || float_le (msg_c d) 0 then c
    else
      {| spot_prices := <[msg_s d := msg_c d]> (spot_prices c);
         futures_prices := futures_prices c;
         funding_rates := funding_rates c;
         spot_24h :=
           match spot_24h c !! msg_s d with
           | Some x => <[msg_s d := update_24h x (msg_c d) (msg_h d) (msg_l d)]>
                         (spot_24h c)
           | None => spot_24h c
           end;
         futures_24h := futures_24h c;
         spot_history :=
           <[msg_s d := add (default new_history (spot_history c !! msg_s d)) now
                          (msg_c d) (msg_v d)]> (spot_history c);
         futures_history := futures_history c |}.
Proof.
  unfold _process_spot_data. destruct (_ || _); [done|].
  destruct (_make_ticker _ _ _ _); [|done].
  cbn [futures_prices]. destruct (futures_prices c !! msg_s d); [|done].
  by destruct (_make_spread _ _).
Qed.

Lemma process_futures_state c now d :
  fst (fst (_process_futures_data c now d))
  = if String.eqb (msg_s d) "" || float_le (msg_c d) 0 then c
    else
      {| spot_prices := spot_prices c;
         futures_prices := <[msg_s d := msg_c d]> (futures_prices c);
         funding_rates := funding_rates c;
         spot_24h := spot_24h c;
         futures_24h := futures_24h c;
         spot_history := spot_history c;
         futures_history :=
           <[msg_s d := add (default new_history (futures_history c !! msg_s d)) now
                          (msg_c d) (msg_v d)]> (futures_history c) |}.
Proof.
  unfold _process_futures_data. destruct (_ || _); [done|].
  destruct (_make_ticker _ _ _ _); [|done].
  cbn [spot_prices]. destruct (spot_prices c !! msg_s d); [|done].
  by destruct (_make_spread _ _).
Qed.

Lemma guard_positive d :
  String.eqb (msg_s d) "" || float_le (msg_c d) 0 = false → (0 < msg_c d)%Q.
Proof.
  intros Hg. apply orb_false_iff in Hg as [_ Hg]. unfold float_le in Hg.
  apply Qnot_le_lt. intros Hle. apply Qle_bool_iff in Hle. congruence.
Qed.

Lemma client_step_ok c ev :
  market_ok (spot_prices c) (spot_history c) →
  market_ok (futures_prices c) (futures_history c) →
  market_ok (spot_prices (client_step c ev)) (spot_history (client_step c ev))
  ∧ market_ok (futures_prices (client_step c ev)) (futures_history (client_step c ev)).
Proof.
  intros Hs Hf. destruct ev as [now d|now d|s24 f24 rates]; cbn [client_step].
  - rewrite process_spot_state. destruct (_ || _) eqn:Hg; [done|].
    cbn [spot_prices spot_history futures_prices futures_history].
    split; [|done]. apply market_ok_update; [done|]. by apply guard_positive.
  - rewrite process_futures_state. destruct (_ || _) eqn:Hg; [done|].
    cbn [spot_prices spot_history futures_prices futures_history].
    split; [done|]. apply market_ok_update; [done|]. by apply guard_positive.
  - done.
Qed.

Lemma client_run_ok evs :
  market_ok (spot_prices (client_run evs)) (spot_history (client_run evs))
  ∧ market_ok (futures_prices (client_run evs)) (futures_history (client_run evs)).
Proof.
  unfold client_run. induction evs as [|ev evs IH] using rev_ind.
  - split; intros s; simpl; by rewrite !lookup_empty.
  - rewrite fold_left_app. simpl. destruct IH. by apply client_step_ok.
Qed.

(** X18. In every state the client reaches from its creation, through
    messages of the two ticker streams and refreshes of the 24h
    statistics and funding rates, in each market the symbols with a
    price are exactly those with a history; the history of a symbol
    holds between 1 and 720 samples, all of positive price, with its
    volumes recorded at the same instants, and the price of the symbol
    is the newest price of its history; so every stored price is
    positive. *)
Theorem stream_state_invariant evs :
  let c := client_run evs in
  market_ok (spot_prices c) (spot_history c)
  ∧ market_ok (futures_prices c) (futures_history c)
  ∧ ∀ market s p, prices_of market c !! s = Some p → (0 < p)%Q.
Proof.
  intros c. destruct (client_run_ok evs) as [Hs Hf]. split_and!; [done|done|].
  intros [] s p Hp; simpl in Hp.
  - exact (market_ok_positive _ _ s p Hs Hp).
  - exact (market_ok_positive _ _ s p Hf Hp).
Qed.

End StreamClient.
Section StreamOutput.

Implicit Types (c : BinanceClient) (h : PriceHistory) (d : StreamTicker).

Lemma scan_old_price_elem cutoff (acc : option Q) (l : list (Z * Q)) (p : Q) :
  scan_old_price cutoff acc l = Some p → acc = Some p ∨ p ∈ map snd l.
Proof.
  revert acc. induction l as [|[t q] l IH]; intros acc; simpl; [by left|].
  destruct (t <=? cutoff); [|by left].
  intros [[= ->]|Hin]%IH; right; apply elem_of_cons; [by left|by right].
Qed.

Lemma selected_baseline_elem h now minutes (b : Q) :
  selected_baseline h now minutes = Some b → b ∈ map snd (prices h).
Proof.
  unfold selected_baseline. destruct (prices h) as [|first rest] eqn:Hp; [done|].
  remember (scan_old_price (now - timedelta_minutes minutes) None (first :: rest))
    as o eqn:Hs.
  intros [= <-]. symmetry in Hs. destruct o as [p|]; cbv [default from_option id].
  - by apply scan_old_price_elem in Hs as [?|?].
  - apply elem_of_cons. by left.
Qed.

Lemma relative_change_above (cur b : Q) :
  (0 < cur)%Q → (0 < b)%Q → (-100 < (cur - b) / b * 100)%Q.
Proof.
  intros Hc Hb.
  assert (H : (-1 < (cur - b) / b)%Q).
  { apply Qlt_shift_div_l; [done|]. lra. }
  lra.
Qed.

(** On positive prices a change is above -100 percent. *)
Lemma get_change_above h now minutes :
  Forall (fun tp => (0 < snd tp)%Q) (prices h) →
  ∃ r, get_change h now minutes = Ok r ∧ ∀ v, r = Some v → (-100 < v)%Q.
Proof.
  intros Hall.
  destruct (prices h) as [|first [|second rest]] eqn:Hp.
  1,2: exists None; unfold get_change; rewrite Hp; done.
  assert (Hb : ∃ b, selected_baseline h now minutes = Some b).
  { unfold selected_baseline. rewrite Hp. eauto. }
  destruct Hb as [b Hb].
  rewrite (get_change_by_baseline h now minutes first (second :: rest) b) by done.
  assert (Hpos : ∀ q, q ∈ map snd (prices h) → (0 < q)%Q).
  { intros q (tp & -> & Hin)%list_elem_of_fmap. rewrite <- Hp in Hall.
    by apply (proj1 (Forall_forall _ _) Hall). }
  assert (Hbpos : (0 < b)%Q) by (by eapply Hpos, selected_baseline_elem).
  rewrite positive_guard by done. eexists. split; [done|].
  intros v [= <-]. apply relative_change_above; [|done].
  apply Hpos. apply list_elem_of_fmap. eexists. split; [done|].
  rewrite Hp. rewrite last_cons_default.
  destruct (last_cons_default second first rest).
  set (l := second :: rest).
  assert (Hl : List.last l first ∈ l) by (by apply last_elem).
  apply elem_of_cons. by right.
Qed.

Lemma change_or_0_above h now minutes :
  Forall (fun tp => (0 < snd tp)%Q) (prices h) →
  ∃ v, change_or_0 h now minutes = Ok v ∧ (-100 < v)%Q.
Proof.
  intros Hall. destruct (get_change_above h now minutes Hall) as (r & Hr & Hv).
  unfold change_or_0. rewrite Hr. simpl. eexists. split; [done|].
  destruct r as [v|]; simpl; [by apply Hv|done].
Qed.

Lemma make_ticker_ok c now (sym : string) (market : MarketType) h :
  history_of_market market c !! sym = Some h →
  Forall (fun tp => (0 < snd tp)%Q) (prices h) →
  ∃ tk, _make_ticker c now sym market = Ok tk
    ∧ ticker_symbol tk = sym
    ∧ ticker_price tk = default 0%Q (prices_of market c !! sym)
    ∧ ticker_market_type tk = market
    ∧ (-100 < price_change_1m tk)%Q ∧ (-100 < price_change_5m tk)%Q
    ∧ (-100 < price_change_15m tk)%Q ∧ (-100 < price_change_1h tk)%Q.
Proof.
  intros Hh Hall.
  destruct (change_or_0_above h now 1 Hall) as (c1 & E1 & H1).
  destruct (change_or_0_above h now 5 Hall) as (c5 & E5 & H5).
  destruct (change_or_0_above h now 15 Hall) as (c15 & E15 & H15).
  destruct (change_or_0_above h now 60 Hall) as (c60 & E60 & H60).
  destruct (get_volume_ratio_ok h now 5) as (ratio & Er).
  unfold _make_ticker.
  destruct market; simpl in Hh; rewrite Hh, E1, E5, E15, E60, Er; cbn [py_bind];
    eexists; (split; [done|]); cbn; done.
Qed.

Lemma make_spread_positive c (sym : string) (s : Q) :
  spot_prices c !! sym = Some s → (0 < s)%Q →
  _make_spread c sym
  = Ok {| spread_symbol := sym; spot_price := s;
          futures_price := default 0%Q (futures_prices c !! sym);
          spread_percent := ((default 0%Q (futures_prices c !! sym) - s) / s * 100)%Q;
          funding_rate := default 0%Q (funding_rates c !! sym) |}.
Proof.
  intros Hs Hp. unfold _make_spread. rewrite Hs. cbn [default from_option id].
  rewrite (proj2 (float_gt_iff s 0) Hp), py_truediv_pos by done. done.
Qed.

Lemma spread_sign (s f : Q) :
  (0 < s)%Q → ((0 < (f - s) / s * 100)%Q ↔ (s < f)%Q).
Proof.
  intros Hs. split.
  - intros H. assert (H' : (0 < (f - s) / s)%Q) by lra.
    assert (Hm : (0 * s < (f - s) / s * s)%Q) by (apply Qmult_lt_compat_r; done).
    rewrite Qmult_0_l in Hm. unfold Qdiv in Hm.
    rewrite <- Qmult_assoc, (Qmult_comm (/ s)), Qmult_inv_r, Qmult_1_r in Hm; [lra|].
    intros E. rewrite E in Hs. by apply Qlt_irrefl in Hs.
  - intros H. assert (H' : (0 < (f - s) / s)%Q).
    { apply Qlt_shift_div_l; [done|]. lra. }
    lra.
Qed.

(** The client after an accepted message of a market, and what it hands
    on. *)
Lemma process_data_accepted c market now d :
  market_ok (spot_prices c) (spot_history c) →
  market_ok (futures_prices c) (futures_history c) →
  ¬ rejected d →
  ∃ c' tk,
    process_data market c now d
    = (c', Some tk,
       match prices_of (other_market market) c !! msg_s d with
       | Some _ =>
           match _make_spread c' (msg_s d) with
           | Ok sp => Some sp
           | ZeroDivisionError => None
           end
       | None => None
       end)
    ∧ market_ok (spot_prices c') (spot_history c')
    ∧ market_ok (futures_prices c') (futures_history c')
    ∧ prices_of market c' !! msg_s d = Some (msg_c d)
    ∧ prices_of (other_market market) c' = prices_of (other_market market) c
    ∧ ticker_symbol tk = msg_s d ∧ ticker_price tk = msg_c d
    ∧ ticker_market_type tk = market
    ∧ (-100 < price_change_1m tk)%Q ∧ (-100 < price_change_5m tk)%Q
    ∧ (-100 < price_change_15m tk)%Q ∧ (-100 < price_change_1h tk)%Q.
Proof.
  intros Hs Hf Hacc.
  assert (Hg : String.eqb (msg_s d) "" || float_le (msg_c d) 0 = false).
  { apply not_true_iff_false. by rewrite rejected_guard. }
  assert (Hp : (0 < msg_c d)%Q) by (by apply guard_positive).
  destruct market; cbn [process_data other_market prices_of].
  - unfold _process_spot_data. rewrite Hg.
    set (c' := {| spot_prices := <[msg_s d := msg_c d]> (spot_prices c) |}).
    assert (Hs' : market_ok (spot_prices c') (spot_history c'))
      by (by apply market_ok_update).
    pose proof (Hs' (msg_s d)) as Hh. cbn [c' spot_history] in Hh.
    rewrite lookup_insert_eq in Hh. destruct Hh as ((_ & _ & Hall & _) & _).
    destruct (make_ticker_ok c' now (msg_s d) SPOT _ (lookup_insert_eq _ _ _) Hall)
      as (tk & -> & Hsym & Hprice & Hm & H1 & H5 & H15 & H60).
    cbn [prices_of c' spot_prices] in Hprice. rewrite lookup_insert_eq in Hprice.
    exists c', tk. split_and!; try done.
    + change (futures_prices c') with (futures_prices c).
      destruct (futures_prices c !! msg_s d); [|done]. by destruct (_make_spread _ _).
    + cbn. by rewrite lookup_insert_eq.
  - unfold _process_futures_data. rewrite Hg.
    set (c' := {| futures_prices := <[msg_s d := msg_c d]> (futures_prices c) |}).
    assert (Hf' : market_ok (futures_prices c') (futures_history c'))
      by (by apply market_ok_update).
    pose proof (Hf' (msg_s d)) as Hh. cbn [c' futures_history] in Hh.
    rewrite lookup_insert_eq in Hh. destruct Hh as ((_ & _ & Hall & _) & _).
    destruct (make_ticker_ok c' now (msg_s d) FUTURES _ (lookup_insert_eq _ _ _) Hall)
      as (tk & -> & Hsym & Hprice & Hm & H1 & H5 & H15 & H60).
    cbn [prices_of c' futures_prices] in Hprice. rewrite lookup_insert_eq in Hprice.
    exists c', tk. split_and!; try done.
    + change (spot_prices c') with (spot_prices c).
      destruct (spot_prices c !! msg_s d); [|done]. by destruct (_make_spread _ _).
    + cbn. by rewrite lookup_insert_eq.
Qed.

Lemma process_data_rejected c market now d :
  rejected d → process_data market c now d = (c, None, None).
Proof.
  intros Hr%rejected_guard.
  destruct market; cbn [process_data];
    unfold _process_spot_data, _process_futures_data; by rewrite Hr.
Qed.

(** X19. In every state the client reaches, a message of a ticker
    stream without a symbol or with a price that is not positive changes
    nothing and hands nothing on.  Any other message stores its price
    for its symbol and always hands a ticker to the engine (no exception
    is swallowed): the ticker carries the symbol, the price and the
    market of the message, and each of its four price changes is above
    -100 percent.  A spread is handed on exactly when the other market
    has a price for the symbol. *)
Theorem stream_message_outcome evs market now d :
  let c := client_run evs in
  let r := process_data market c now d in
  (rejected d → r = (c, None, None))
  ∧ (¬ rejected d →
     prices_of market (fst (fst r)) !! msg_s d = Some (msg_c d)
     ∧ (∃ tk, snd (fst r) = Some tk
          ∧ ticker_symbol tk = msg_s d ∧ ticker_price tk = msg_c d
          ∧ ticker_market_type tk = market
          ∧ (-100 < price_change_1m tk)%Q ∧ (-100 < price_change_5m tk)%Q
          ∧ (-100 < price_change_15m tk)%Q ∧ (-100 < price_change_1h tk)%Q)
     ∧ (is_Some (snd r)
        ↔ is_Some (prices_of (other_market market) c !! msg_s d))).
Proof.
  intros c r. split; [apply process_data_rejected|]. intros Hacc.
  destruct (client_run_ok evs) as [Hs Hf].
  destruct (process_data_accepted c market now d Hs Hf Hacc)
    as (c' & tk & Hr & Hs' & Hf' & Hp & Hother & Htk).
  subst r. rewrite Hr. cbn [fst snd]. split_and!; [done|by exists tk|].
  destruct (prices_of (other_market market) c !! msg_s d) as [q|] eqn:Hq.
  - assert (Hsp : ∃ s, spot_prices c' !! msg_s d = Some s ∧ (0 < s)%Q).
    { destruct market; cbn [prices_of other_market] in *.
      - exists (msg_c d). split; [done|]. exact (market_ok_positive _ _ _ _ Hs' Hp).
      - exists q. rewrite Hother. split; [done|].
        exact (market_ok_positive _ _ _ _ Hs Hq). }
    destruct Hsp as (s & Hs1 & Hs2). rewrite (make_spread_positive c' _ s) by done.
    split; eauto.
  - split; intros [? ?]; done.
Qed.

(** X20. In every state the client reaches, a spread handed to the
    engine is computed from two stored, positive prices of the symbol:
    its percentage is [(futures - spot) / spot * 100], it is positive
    exactly when the futures price is above the spot price, and it is
    above -100. *)
Theorem spread_follows_prices evs market now d sp :
  let r := process_data market (client_run evs) now d in
  snd r = Some sp →
  ∃ s f, spot_prices (fst (fst r)) !! msg_s d = Some s
    ∧ futures_prices (fst (fst r)) !! msg_s d = Some f
    ∧ (0 < s)%Q ∧ (0 < f)%Q
    ∧ spread_symbol sp = msg_s d ∧ spot_price sp = s ∧ futures_price sp = f
    ∧ spread_percent sp = ((f - s) / s * 100)%Q
    ∧ ((0 < spread_percent sp)%Q ↔ (s < f)%Q)
    ∧ (-100 < spread_percent sp)%Q.
Proof.
  intros r Hsp. set (c := client_run evs) in *.
  destruct (client_run_ok evs) as [Hs Hf]. fold c in Hs, Hf.
  assert (Hacc : ¬ rejected d).
  { intros Hr. subst r. by rewrite process_data_rejected in Hsp. }
  destruct (process_data_accepted c market now d Hs Hf Hacc)
    as (c' & tk & Hr & Hs' & Hf' & Hp & Hother & Htk).
  subst r. rewrite Hr in *. cbn [fst snd] in *.
  destruct (prices_of (other_market market) c !! msg_s d) as [q|] eqn:Hq; [|done].
  rewrite <- Hother in Hq.
  assert (H : ∃ s f, spot_prices c' !! msg_s d = Some s
                ∧ futures_prices c' !! msg_s d = Some f).
  { destruct market; cbn [prices_of other_market] in *; eauto. }
  destruct H as (s & f & Hs1 & Hf1).
  assert (Hspos : (0 < s)%Q) by exact (market_ok_positive _ _ _ _ Hs' Hs1).
  assert (Hfpos : (0 < f)%Q) by exact (market_ok_positive _ _ _ _ Hf' Hf1).
  rewrite (make_spread_positive c' _ s) in Hsp by done. injection Hsp as <-.
  rewrite Hf1. cbn. exists s, f. split_and!; try done.
  - by apply spread_sign.
  - by apply relative_change_above.
Qed.

(** A spot price of 100 followed by a futures price of 101: the spread
    handed on is one percent. *)
Lemma spread_follows_prices_witness :
  let d0 := {| msg_s := "BTCUSDT"; msg_c := 100; msg_v := 5; msg_h := 0; msg_l := 0 |}%Q in
  let d1 := {| msg_s := "BTCUSDT"; msg_c := 101; msg_v := 7; msg_h := 0; msg_l := 0 |}%Q in
  let r := process_data FUTURES (client_run [SpotTicker 0 d0]) 1000000 d1 in
  ∃ sp s f,
    snd r = Some sp
    ∧ spot_prices (fst (fst r)) !! "BTCUSDT" = Some s
    ∧ futures_prices (fst (fst r)) !! "BTCUSDT" = Some f
    ∧ spread_percent sp = ((f - s) / s * 100)%Q
    ∧ s = 100%Q ∧ f = 101%Q.
Proof.
  intros d0 d1 r.
  assert (Hsp : ∃ sp, snd r = Some sp) by (vm_compute; eauto).
  destruct Hsp as [sp Hsp].
  destruct (spread_follows_prices [SpotTicker 0 d0] FUTURES 1000000 d1 sp Hsp)
    as (s & f & Hs & Hf & _ & _ & _ & _ & _ & Hpct & _).
  exists sp, s, f. split_and!; try done.
  - vm_compute in Hs. congruence.
  - vm_compute in Hf. congruence.
Defined.

End StreamOutput.

(** ** The statistics of the order book *)

Section OrderBook.

Implicit Types (orders : list (Q * Q)).

Lemma side_stats_snoc orders (o : Q * Q) :
  side_stats (orders ++ [o])
  = (let '(max_order, max_price, total) := side_stats orders in
     if float_gt (notional o) max_order
     then (notional o, fst o, (total + notional o)%Q)
     else (max_order, max_price, (total + notional o)%Q)).
Proof.
  unfold side_stats. rewrite fold_left_app. cbn [fold_left].
  by destruct (fold_left _ orders _) as [[mo mp] tot].
Qed.

Lemma py_sum_snoc (l : list Q) (x : Q) : py_sum (l ++ [x]) = (py_sum l + x)%Q.
Proof. unfold py_sum. by rewrite fold_left_app. Qed.

Lemma side_stats_summary orders :
  let '(max_order, max_price, total) := side_stats orders in
  ((max_order = 0%Q ∧ max_price = 0%Q)
   ∨ ((0 < max_order)%Q
      ∧ ∃ o, o ∈ orders ∧ max_order = notional o ∧ max_price = fst o))
  ∧ (∀ o, o ∈ orders → (notional o <= max_order)%Q)
  ∧ total = py_sum (map notional orders).
Proof.
  induction orders as [|o orders IH] using rev_ind.
  - simpl. split_and!; [by left| |done]. by intros o ?%elem_of_nil.
  - rewrite side_stats_snoc. destruct (side_stats orders) as [[mo mp] tot].
    destruct IH as (Hmax & Hall & ->).
    assert (Hnn : (0 <= mo)%Q).
    { destruct Hmax as [[-> _]|[? _]]; [done|by apply Qlt_le_weak]. }
    rewrite map_app. cbn [map]. rewrite py_sum_snoc.
    destruct (float_gt (notional o) mo) eqn:Hgt.
    + apply float_gt_iff in Hgt. split_and!; [| |done].
      * right. split; [by eapply Qle_lt_trans|].
        exists o. split; [|done]. apply elem_of_app. right. by apply list_elem_of_singleton.
      * intros o' [Ho'|Ho'%list_elem_of_singleton]%elem_of_app.
        -- eapply Qle_trans; [by apply Hall|by apply Qlt_le_weak].
        -- subst o'. apply Qle_refl.
    + apply float_gt_false_iff in Hgt. split_and!; [| |done].
      * destruct Hmax as [?|[Hpos (o' & Hin & ? & ?)]]; [by left|right].
        split; [done|]. exists o'. split; [|done]. apply elem_of_app. by left.
      * intros o' [Ho'|Ho'%list_elem_of_singleton]%elem_of_app.
        -- by apply Hall.
        -- by subst o'.
Qed.

Lemma side_stats_side_summary orders :
  side_summary orders (fst (fst (side_stats orders))) (snd (fst (side_stats orders)))
    (snd (side_stats orders)).
Proof.
  pose proof (side_stats_summary orders) as H.
  destruct (side_stats orders) as [[mo mp] tot]. destruct H as (Hmax & Hall & Htot).
  cbn [fst snd]. split_and!; [done| | |done].
  - intros Hpos. destruct Hmax as [[-> _]|[_ ?]]; [by apply Qlt_irrefl in Hpos|done].
  - intros Hle. destruct Hmax as [?|[Hpos _]]; [done|].
    exfalso. by apply (Qlt_not_le _ _ Hpos).
Qed.

(** X21. Once the response is parsed, [fetch_orderbook] always returns
    an order book (its division is guarded).  On each side, the greatest
    order value bounds the value [price * quantity] of every order; when
    positive it is the value of an order of that side, placed at the
    recorded price; when no order has a positive value both are 0; the
    total is the sum of the values.  The bid/ask ratio is the quotient of
    the totals when the ask total is positive, and 1 otherwise. *)
Theorem fetch_orderbook_statistics (sym : string) (market : MarketType)
    (bid_orders ask_orders : list (Q * Q)) :
  ∃ ob, fetch_orderbook sym market bid_orders ask_orders = Some ob
    ∧ book_symbol ob = sym ∧ book_market_type ob = market
    ∧ bids ob = bid_orders ∧ asks ob = ask_orders
    ∧ side_summary bid_orders (max_bid_order ob) (max_bid_price ob)
        (total_bid_value ob)
    ∧ side_summary ask_orders (max_ask_order ob) (max_ask_price ob)
        (total_ask_value ob)
    ∧ ((0 < total_ask_value ob)%Q →
       bid_ask_ratio ob = (total_bid_value ob / total_ask_value ob)%Q)
    ∧ ((total_ask_value ob <= 0)%Q → bid_ask_ratio ob = 1%Q).
Proof.
  pose proof (side_stats_side_summary bid_orders) as Hb.
  pose proof (side_stats_side_summary ask_orders) as Ha.
  unfold fetch_orderbook.
  destruct (side_stats bid_orders) as [[mb pb] tb].
  destruct (side_stats ask_orders) as [[ma pa] ta]. cbn [fst snd] in Hb, Ha.
  destruct (float_gt ta 0) eqn:Hgt.
  - apply float_gt_iff in Hgt. rewrite py_truediv_pos by done.
    eexists. split; [done|]. cbn. split_and!; try done.
    intros Hle. exfalso. by apply (Qlt_not_le _ _ Hgt).
  - apply float_gt_false_iff in Hgt.
    eexists. split; [done|]. cbn. split_and!; try done.
    intros Hpos. exfalso. by apply (Qlt_not_le _ _ Hpos).
Qed.

End OrderBook.

(** ** Levels of big-order alerts *)

Section BigOrderLevel.

Implicit Types (cfg : BigOrderThreshold) (N V : Q).

Lemma float_ge_iff (a b : Q) : float_ge a b = true ↔ (b <= a)%Q.
Proof. unfold float_ge. apply Qle_bool_iff. Qed.

Lemma float_ge_false_iff (a b : Q) : float_ge a b = false ↔ (a < b)%Q.
Proof.
  unfold float_ge. rewrite <- not_true_iff_false, Qle_bool_iff.
  split; [apply Qnot_le_lt|apply Qlt_not_le].
Qed.

Lemma float_le_iff (a b : Q) : float_le a b = true ↔ (a <= b)%Q.
Proof. unfold float_le. apply Qle_bool_iff. Qed.

Lemma float_le_false_iff (a b : Q) : float_le a b = false ↔ (b < a)%Q.
Proof.
  unfold float_le. rewrite <- not_true_iff_false, Qle_bool_iff.
  split; [apply Qnot_le_lt|apply Qlt_not_le].
Qed.

Lemma big_order_level_positive N V :
  (0 < V)%Q →
  _get_big_order_level N V
  = Ok (let ratio := (N / V * 100)%Q in
        if float_ge ratio 50 || float_ge N 50000000 then EXTREME
        else if float_ge ratio 20 || float_ge N 20000000 then CRITICAL
        else if float_ge ratio 10 || float_ge N 5000000 then WARNING
        else INFO).
Proof.
  intros HV. unfold _get_big_order_level.
  rewrite (proj2 (float_le_false_iff V 0) HV), py_truediv_pos by done. done.
Qed.

Lemma big_order_level_no_turnover N V :
  (V <= 0)%Q → _get_big_order_level N V = Ok (level_by_value N).
Proof.
  intros HV. unfold _get_big_order_level, level_by_value.
  rewrite (proj2 (float_le_iff V 0) HV). cbn [py_bind].
  assert (H50 : float_ge 0 50 = false) by done.
  assert (H20 : float_ge 0 20 = false) by done.
  assert (H10 : float_ge 0 10 = false) by done.
  by rewrite H50, H20, H10.
Qed.

Lemma big_order_level_shape N V :
  ∃ ratio : Q,
    _get_big_order_level N V
    = Ok (if float_ge ratio 50 || float_ge N 50000000 then EXTREME
          else if float_ge ratio 20 || float_ge N 20000000 then CRITICAL
          else if float_ge ratio 10 || float_ge N 5000000 then WARNING
          else INFO).
Proof.
  destruct (Qlt_le_dec 0 V) as [HV|HV].
  - eexists. by apply big_order_level_positive.
  - exists 0%Q. unfold _get_big_order_level.
    by rewrite (proj2 (float_le_iff V 0) HV).
Qed.

Lemma level_floor_by_value (ratio N : Q) :
  let lvl := if float_ge ratio 50 || float_ge N 50000000 then EXTREME
             else if float_ge ratio 20 || float_ge N 20000000 then CRITICAL
             else if float_ge ratio 10 || float_ge N 5000000 then WARNING
             else INFO in
  ((50000000 <= N)%Q → lvl = EXTREME)
  ∧ ((20000000 <= N)%Q → priority CRITICAL <= priority lvl)
  ∧ ((5000000 <= N)%Q → priority WARNING <= priority lvl).
Proof.
  cbv zeta. split_and!.
  - intros H%float_ge_iff. by rewrite H, orb_true_r.
  - intros H%float_ge_iff. rewrite H, orb_true_r. by destruct (_ || _).
  - intros H%float_ge_iff. rewrite H, orb_true_r.
    destruct (_ || _); [done|]. by destruct (_ || _).
Qed.

Lemma big_order_reaches_floor cfg N V (a r : Q) :
  (0 < V)%Q → get_threshold cfg V = (a, r) → is_big_order cfg N V = true →
  (a <= N)%Q.
Proof.
  intros HV Ht Hbig. apply is_big_order_positive in Hbig; [|done].
  rewrite Ht in Hbig. unfold spec_threshold in Hbig. cbn [fst snd] in Hbig.
  by apply Q.max_lub_iff in Hbig as [? _].
Qed.

(** X22. [_get_big_order_level] never raises, and the value of the
    order alone gives a floor to the level: EXTREME from 50M, at least
    CRITICAL from 20M, at least WARNING from 5M, whatever the turnover.
    Hence an order that passes [is_big_order] is classified WARNING or
    higher when the turnover is in the large tier (100M to 1B) and the
    configured floor of that tier is at least 5M (the default
    configuration and the CONSERVATIVE and MODERATE presets), or in the
    mega tier (from 1B) with a floor of at least 5M (all four shipped
    configurations).  Without a turnover (zero or negative) the level
    depends on the order value alone, so an order that passes the
    detector with less than 5M is classified INFO. *)
Theorem big_order_alert_level cfg N V :
  (∃ lvl, _get_big_order_level N V = Ok lvl)
  ∧ (∀ lvl, _get_big_order_level N V = Ok lvl →
       ((50000000 <= N)%Q → lvl = EXTREME)
       ∧ ((20000000 <= N)%Q → priority CRITICAL <= priority lvl)
       ∧ ((5000000 <= N)%Q → priority WARNING <= priority lvl))
  ∧ ((100000000 <= V)%Q → (V < 1000000000)%Q →
     (5000000 <= min_order_large_cap cfg)%Q → is_big_order cfg N V = true →
     ∃ lvl, _get_big_order_level N V = Ok lvl ∧ priority WARNING <= priority lvl)
  ∧ ((1000000000 <= V)%Q →
     (5000000 <= min_order_mega_cap cfg)%Q → is_big_order cfg N V = true →
     ∃ lvl, _get_big_order_level N V = Ok lvl ∧ priority WARNING <= priority lvl)
  ∧ ((V <= 0)%Q → _get_big_order_level N V = Ok (level_by_value N))
  ∧ ((V <= 0)%Q → (min_order_small_cap cfg <= N)%Q → (N < 5000000)%Q →
     is_big_order cfg N V = true ∧ _get_big_order_level N V = Ok INFO)
  ∧ (5000000 <= min_order_large_cap default_big_order)%Q
  ∧ (5000000 <= min_order_large_cap conservative_big_order)%Q
  ∧ (5000000 <= min_order_large_cap moderate_big_order)%Q
  ∧ (5000000 <= min_order_mega_cap default_big_order)%Q
  ∧ (5000000 <= min_order_mega_cap conservative_big_order)%Q
  ∧ (5000000 <= min_order_mega_cap moderate_big_order)%Q
  ∧ (5000000 <= min_order_mega_cap aggressive_big_order)%Q.
Proof.
  destruct (big_order_level_shape N V) as [ratio Hshape].
  destruct (level_floor_by_value ratio N) as (L1 & L2 & L3).
  destruct (get_threshold_tiers cfg V) as (_ & _ & T3 & T4).
  split_and!.
  - rewrite Hshape. by eexists.
  - intros lvl. rewrite Hshape. intros [= <-]. done.
  - intros H1 H2 Hfloor Hbig. rewrite Hshape. eexists. split; [done|].
    apply L3. apply Qle_trans with (min_order_large_cap cfg); [done|].
    apply (big_order_reaches_floor cfg N V _ (ratio_large_cap cfg));
      [lra|by apply T3|done].
  - intros H1 Hfloor Hbig. rewrite Hshape. eexists. split; [done|].
    apply L3. apply Qle_trans with (min_order_mega_cap cfg); [done|].
    apply (big_order_reaches_floor cfg N V _ (ratio_mega_cap cfg));
      [lra|by apply T4|done].
  - apply big_order_level_no_turnover.
  - intros HV Hmin Hlt. split; [by apply is_big_order_no_turnover|].
    rewrite big_order_level_no_turnover by done. unfold level_by_value.
    rewrite !(proj2 (float_ge_false_iff _ _)); [done|lra..].
  - cbn; lra.
  - cbn; lra.
  - cbn; lra.
  - cbn; lra.
  - cbn; lra.
  - cbn; lra.
  - cbn; lra.
Qed.

End BigOrderLevel.

(** ** Evaluation of a ticker *)

Section TickerCheck.

Implicit Types (e : AlertEngine) (ticker : TickerData) (cfg : UserConfig)
  (mon : Monitoring) (l : list (Q * Period * AlertLevel)).

Lemma classify_changes_acc (checks : list (Q * Q * Q * Period)) p0 d0 :
  fold_left
    (fun acc c =>
       let '(pump_alerts, dump_alerts) := acc in
       let '(change, pump_threshold, dump_threshold, period) := c in
       if float_ge change pump_threshold
       then ((pump_alerts ++ [(change, period, _get_price_level change)])%list,
             dump_alerts)
       else if float_le change dump_threshold
       then (pump_alerts,
             (dump_alerts ++ [(change, period, _get_price_level change)])%list)
       else (pump_alerts, dump_alerts))
    checks (p0, d0)
  = ((p0 ++ map check_entry (List.filter is_pump checks))%list,
     (d0 ++ map check_entry (List.filter is_dump checks))%list).
Proof.
  revert p0 d0.
  induction checks as [|[[[change pump] dump] period] checks IH];
    intros p0 d0; cbn [fold_left List.filter].
  - simpl. by rewrite !app_nil_r.
  - change (is_pump (change, pump, dump, period)) with (float_ge change pump).
    change (is_dump (change, pump, dump, period))
      with (negb (float_ge change pump) && float_le change dump).
    destruct (float_ge change pump); cbn [negb andb].
    + rewrite IH. cbn [map]. by rewrite <- app_assoc.
    + destruct (float_le change dump).
      * rewrite IH. cbn [map]. by rewrite <- app_assoc.
      * by rewrite IH.
Qed.

Lemma classify_changes_filter (checks : list (Q * Q * Q * Period)) :
  classify_changes checks
  = (map check_entry (List.filter is_pump checks), map check_entry (List.filter is_dump checks)).
Proof. unfold classify_changes. by rewrite classify_changes_acc. Qed.

Lemma is_pump_crosses c : is_pump c = true ↔ crosses PRICE_PUMP c.
Proof. destruct c as [[[change pump] dump] period]. apply float_ge_iff. Qed.

Lemma is_dump_crosses c : is_dump c = true ↔ crosses PRICE_DUMP c.
Proof.
  destruct c as [[[change pump] dump] period]. unfold is_dump, is_pump. cbn.
  by rewrite andb_true_iff, negb_true_iff, float_ge_false_iff, float_le_iff.
Qed.

(** The first entry after the sort is an entry of the list of greatest
    priority. *)
Lemma sort_by_priority_head l :
  match sort_by_priority l with
  | [] => l = []
  | x :: _ => x ∈ l ∧ ∀ y, y ∈ l → priority (snd y) <= priority (snd x)
  end.
Proof.
  induction l as [|a l IH]; [done|]. cbn [sort_by_priority foldr].
  fold (sort_by_priority l).
  destruct (sort_by_priority l) as [|x s]; cbn [insert_by_priority].
  - subst l. split; [by apply elem_of_cons; left|].
    intros y [->|[]%elem_of_nil]%elem_of_cons. lia.
  - destruct IH as [Hx Hmax].
    destruct (Z.leb_spec (priority (snd x)) (priority (snd a))) as [Hle|Hgt].
    + split; [by apply elem_of_cons; left|].
      intros y [->|Hy]%elem_of_cons; [lia|]. specialize (Hmax y Hy). lia.
    + split; [by apply elem_of_cons; right|].
      intros y [->|Hy]%elem_of_cons; [lia|by apply Hmax].
Qed.

Lemma direction_entry (f : Q * Q * Q * Period → bool) (ty : AlertType)
    (checks : list (Q * Q * Q * Period)) (change : Q) (period : Period)
    (lvl : AlertLevel) :
  (∀ c, f c = true ↔ crosses ty c) →
  (change, period, lvl) ∈ map check_entry (List.filter f checks) →
  (∀ y, y ∈ map check_entry (List.filter f checks) →
        priority (snd y) <= priority lvl) →
  lvl = _get_price_level change
  ∧ (∃ pump_threshold dump_threshold,
       (change, pump_threshold, dump_threshold, period) ∈ checks
       ∧ crosses ty (change, pump_threshold, dump_threshold, period))
  ∧ (∀ c, c ∈ checks → crosses ty c →
          priority (_get_price_level (fst (fst (fst c)))) <= priority lvl).
Proof.
  intros Hf Hin Hmax.
  apply list_elem_of_In, in_map_iff in Hin as ([[[ch pt] dt] per] & [= <- <- <-] & Hin).
  apply filter_In in Hin as [Hin Hc]. cbn [fst snd]. split_and!.
  - done.
  - exists pt, dt. split; [by apply list_elem_of_In|by apply Hf].
  - intros c Hc' Hcr.
    apply (Hmax (check_entry c)).
    apply list_elem_of_In, in_map, filter_In. split; [by apply list_elem_of_In|by apply Hf].
Qed.

Lemma check_ticker_gated clock e ticker cfg mon :
  should_monitor cfg (ticker_symbol ticker) = false
  ∨ market_enabled mon (ticker_market_type ticker) = false
  ∨ should_monitor_by_volume mon (quote_volume_24h ticker) = false →
  _check_ticker_for_user clock e ticker cfg mon = (false, [], e).
Proof.
  intros H. unfold _check_ticker_for_user.
  destruct (should_monitor cfg (ticker_symbol ticker)); cbn [negb]; [|done].
  destruct (ticker_market_type ticker); cbn [market_enabled] in H.
  - rewrite bool_decide_eq_true_2 by done. cbn [andb].
    destruct (enable_spot mon); cbn [negb]; [|done].
    rewrite bool_decide_eq_false_2 by done. cbn [andb].
    destruct (should_monitor_by_volume mon _); [|done].
    by destruct H as [?|[?|?]].
  - rewrite bool_decide_eq_false_2 by done. cbn [andb].
    rewrite bool_decide_eq_true_2 by done. cbn [andb].
    destruct (enable_futures mon); cbn [negb]; [|done].
    destruct (should_monitor_by_volume mon _); [|done].
    by destruct H as [?|[?|?]].
Qed.

Ltac split_elem H :=
  repeat first [ apply elem_of_nil in H; destruct H
               | apply elem_of_cons in H as [H|H] ].

(** X23. [_check_ticker_for_user] creates nothing and leaves the engine
    alone for a symbol the user does not monitor, a market the user has
    switched off, or a turnover below the user's filter.  It returns
    [True] exactly when it creates an alert, and creates at most one
    alert of each type, all of them price or volume alerts.  A price
    alert reports a period whose change crossed its threshold in the
    direction of the alert, with the level of that change, and no period
    that crossed in that direction has a change of higher level.  A
    volume alert means that volume alerts are enabled and the ratio
    reached the user's spike ratio. *)
Theorem ticker_check_outcome clock e ticker cfg mon :
  let r := _check_ticker_for_user clock e ticker cfg mon in
  let checks := price_checks ticker (price mon) in
  (should_monitor cfg (ticker_symbol ticker) = false
   ∨ market_enabled mon (ticker_market_type ticker) = false
   ∨ should_monitor_by_volume mon (quote_volume_24h ticker) = false →
   r = (false, [], e))
  ∧ (fst (fst r) = true ↔ snd (fst r) ≠ [])
  ∧ NoDup (map call_type (snd (fst r)))
  ∧ (∀ ty change period lvl esc,
       _create_price_alert ty change period lvl esc ∈ snd (fst r) →
       lvl = _get_price_level change
       ∧ (∃ pump_threshold dump_threshold,
            (change, pump_threshold, dump_threshold, period) ∈ checks
            ∧ crosses ty (change, pump_threshold, dump_threshold, period))
       ∧ (∀ c, c ∈ checks → crosses ty c →
               priority (_get_price_level (fst (fst (fst c)))) <= priority lvl))
  ∧ (∀ lvl esc,
       _create_volume_alert lvl esc ∈ snd (fst r) →
       enable_volume mon = true
       ∧ (spike_ratio (volume mon) <= volume_change_ratio ticker)%Q
       ∧ lvl = _get_volume_level (volume_change_ratio ticker))
  ∧ (∀ c, c ∈ snd (fst r) →
          (∃ ty change period lvl esc, c = _create_price_alert ty change period lvl esc)
          ∨ (∃ lvl esc, c = _create_volume_alert lvl esc)).
Proof.
  intros r checks. split; [apply check_ticker_gated|].
  destruct (should_monitor cfg (ticker_symbol ticker)
            && market_enabled mon (ticker_market_type ticker)
            && should_monitor_by_volume mon (quote_volume_24h ticker)) eqn:Hgate.
  2:{ assert (Hr : r = (false, [], e)).
      { apply check_ticker_gated. apply andb_false_iff in Hgate as [Hgate|?]; [|auto].
        apply andb_false_iff in Hgate as [?|?]; auto. }
      rewrite Hr. cbn [fst snd map]. split_and!.
      - split; [done|]. intros H. by destruct H.
      - constructor.
      - intros * Hin. by apply elem_of_nil in Hin.
      - intros * Hin. by apply elem_of_nil in Hin.
      - intros * Hin. by apply elem_of_nil in Hin. }
  apply andb_true_iff in Hgate as [Hgate Hvol].
  apply andb_true_iff in Hgate as [Hmon Hmarket].
  subst r. unfold _check_ticker_for_user. rewrite Hmon, Hvol. cbn [negb].
  replace (bool_decide (ticker_market_type ticker = SPOT) && negb (enable_spot mon))
    with false
    by (destruct (ticker_market_type ticker); cbn in Hmarket; rewrite ?Hmarket;
        by repeat case_bool_decide).
  replace (bool_decide (ticker_market_type ticker = FUTURES) && negb (enable_futures mon))
    with false
    by (destruct (ticker_market_type ticker); cbn in Hmarket; rewrite ?Hmarket;
        by repeat case_bool_decide).
  fold checks. rewrite classify_changes_filter.
  pose proof (sort_by_priority_head (map check_entry (List.filter is_pump checks)))
    as HP.
  pose proof (sort_by_priority_head (map check_entry (List.filter is_dump checks)))
    as HD.
  destruct (sort_by_priority (map check_entry (List.filter is_pump checks)))
    as [|[[c1 p1] l1] s1];
  destruct (sort_by_priority (map check_entry (List.filter is_dump checks)))
    as [|[[c2 p2] l2] s2];
  repeat (destruct (fire _ _ _ _ _ _) as [[[] ?] ?]);
  destruct (enable_volume mon
            && float_ge (volume_change_ratio ticker) (spike_ratio (volume mon)))
    eqn:HV;
  repeat (destruct (fire _ _ _ _ _ _) as [[[] ?] ?]);
  cbn [fst snd app orb map call_type];
  (split_and!;
   [ split; intros H; first [done | by destruct H]
   | apply (bool_decide_unpack _); vm_compute; exact I
   | intros ty change period lvl esc Hin; split_elem Hin; try done;
     injection Hin as -> -> -> -> ->;
     first [ eapply direction_entry; [apply is_pump_crosses|apply HP..]
           | eapply direction_entry; [apply is_dump_crosses|apply HD..] ]
   | intros lvl esc Hin; split_elem Hin; try done;
     injection Hin as -> ->;
     apply andb_true_iff in HV as [-> HV%float_ge_iff]; done
   | intros c Hin; split_elem Hin; subst c;
     first [ left; by eexists _, _, _, _, _ | right; by eexists _, _ ] ]).
Qed.

End TickerCheck.

(** ** Evaluating the same data again *)

Section Recheck.

Implicit Types (e : AlertEngine) (ticker : TickerData) (cfg : UserConfig)
  (mon : Monitoring) (ty : AlertType) (lvl : AlertLevel).

(** After a candidate of level [lvl] its cell holds a level that is not
    lower. *)
Lemma fire_leaves_level clock e cfg (sym : string) ty lvl :
  ∃ t l, cooldown_cell (snd (fire clock e cfg sym ty lvl)) (user_id cfg) sym ty
         = Some (t, l)
         ∧ priority lvl <= priority l.
Proof.
  unfold fire, candidate_firing. rewrite check_by_cell. cbn.
  destruct (cooldown_cell e (user_id cfg) sym ty) as [[t0 l0]|] eqn:Hc; cbn.
  - repeat case_bool_decide; cbn; rewrite ?cell_after_set, ?Hc;
      eexists _, _; (split; [done|lia]).
  - rewrite cell_after_set. eexists _, _. split; [done|lia].
Qed.

Lemma fire_other_cell clock e cfg (sym : string) ty lvl ty' :
  ty' ≠ ty →
  cooldown_cell (snd (fire clock e cfg sym ty lvl)) (user_id cfg) sym ty'
  = cooldown_cell e (user_id cfg) sym ty'.
Proof.
  intros Hne. unfold fire. apply candidate_other_cell. cbn. by intros (_ & _ & ->).
Qed.

(** Inside the cooldown a candidate that is not of higher level is
    suppressed and changes nothing. *)
Lemma fire_silent clock e cfg (sym : string) ty lvl t0 l0 :
  cooldown_cell e (user_id cfg) sym ty = Some (t0, l0) →
  fst (clock ty) - t0 < timedelta_seconds (cooldown_seconds cfg) →
  priority lvl <= priority l0 →
  fire clock e cfg sym ty lvl = ((false, false), e).
Proof.
  intros Hc Hin Hp. unfold fire.
  match goal with |- candidate_firing e ?c = _ =>
    destruct (candidate_inside_cooldown e c t0 l0 Hc Hin)
      as [(Hr & He & _)|(_ & _ & Hlt)]; [|cbn in Hlt; lia];
    destruct (candidate_firing e c) as [res e'] end.
  cbn in Hr, He. by subst.
Qed.

(** X24. Evaluating the same ticker for the same user again, at an
    instant where every cooldown of that user and symbol is still
    running, creates no alert, returns [False] and leaves the engine
    unchanged: whatever the first evaluation fired or suppressed, the
    levels it leaves in the table are not lower than the levels of the
    data. *)
Theorem ticker_recheck_is_silent clock clock' e ticker cfg mon :
  let e1 := snd (_check_ticker_for_user clock e ticker cfg mon) in
  (∀ ty t0 l0,
     cooldown_cell e1 (user_id cfg) (ticker_symbol ticker) ty = Some (t0, l0) →
     fst (clock' ty) - t0 < timedelta_seconds (cooldown_seconds cfg)) →
  _check_ticker_for_user clock' e1 ticker cfg mon = (false, [], e1).
Proof.
  intros e1 Hcool.
  destruct (should_monitor cfg (ticker_symbol ticker)
            && market_enabled mon (ticker_market_type ticker)
            && should_monitor_by_volume mon (quote_volume_24h ticker)) eqn:Hgate.
  2:{ apply check_ticker_gated. apply andb_false_iff in Hgate as [Hgate|?]; [|auto].
      apply andb_false_iff in Hgate as [?|?]; auto. }
  apply andb_true_iff in Hgate as [Hgate Hvol].
  apply andb_true_iff in Hgate as [Hmon Hmarket].
  assert (Hspot : bool_decide (ticker_market_type ticker = SPOT)
                  && negb (enable_spot mon) = false)
    by (destruct (ticker_market_type ticker); cbn in Hmarket; rewrite ?Hmarket;
        by repeat case_bool_decide).
  assert (Hfut : bool_decide (ticker_market_type ticker = FUTURES)
                 && negb (enable_futures mon) = false)
    by (destruct (ticker_market_type ticker); cbn in Hmarket; rewrite ?Hmarket;
        by repeat case_bool_decide).
  revert Hcool. subst e1. unfold _check_ticker_for_user.
  rewrite Hmon, Hvol, Hspot, Hfut. cbn [negb].
  destruct (classify_changes (price_checks ticker (price mon)))
    as [pump_alerts dump_alerts].
  set (sym := ticker_symbol ticker).
  destruct (sort_by_priority pump_alerts) as [|[[c1 p1] l1] s1];
  destruct (sort_by_priority dump_alerts) as [|[[c2 p2] l2] s2];
  destruct (enable_volume mon
            && float_ge (volume_change_ratio ticker) (spike_ratio (volume mon)));
  repeat
    match goal with
    | |- context [fire clock ?e0 cfg sym ?ty ?lvl] =>
        let H := fresh "Hlevel" in
        let F := fresh "Hframe" in
        pose proof (fire_leaves_level clock e0 cfg sym ty lvl) as H;
        pose proof (fire_other_cell clock e0 cfg sym ty lvl) as F;
        destruct (fire clock e0 cfg sym ty lvl) as [[[] ?] ?];
        cbn [fst snd] in *
    end;
  intros Hcool;
  try done;
  repeat
    match goal with
    | H : ∃ t l, _ ∧ _ |- _ => destruct H as (? & ? & ? & ?)
    end;
  repeat
    match goal with
    | F : ∀ ty', ty' ≠ _ → cooldown_cell _ _ _ ty' = cooldown_cell ?eb _ _ ty',
      Hc : cooldown_cell ?eb _ _ _ = Some _ |- _ =>
        rewrite <- F in Hc by done
    end;
  repeat
    match goal with
    | Hc : cooldown_cell ?ef _ _ ?ty = Some (?t, ?l),
      Hp : priority ?lvl <= priority ?l
      |- context [fire clock' ?ef cfg sym ?ty ?lvl] =>
        rewrite (fire_silent clock' ef cfg sym ty lvl t l Hc (Hcool _ _ _ Hc) Hp)
    end;
  done.
Qed.

(** A one-minute change of 7 percent under the default thresholds fires
    a WARNING pump alert; the same ticker evaluated a minute later, with
    a cooldown of 300 seconds, creates nothing. *)
Lemma ticker_recheck_is_silent_witness :
  let ticker :=
    {| ticker_symbol := "BTCUSDT"; ticker_price := 107;
       price_change_1m := 7; price_change_5m := 7; price_change_15m := 0;
       price_change_1h := 0; price_change_24h := 0; volume_24h := 0;
       quote_volume_24h := 0; volume_change_ratio := 1; high_24h := 0;
       low_24h := 0; ticker_market_type := SPOT |}%Q in
  let e := {| cooldowns := ∅; escalation_count := 0 |} in
  let first :=
    _check_ticker_for_user (fun _ => (0, 0)) e ticker (default_user "u1")
      default_monitoring in
  snd (fst first) = [_create_price_alert PRICE_PUMP 7 P1m WARNING false]
  ∧ _check_ticker_for_user (fun _ => (60000000, 60000000)) (snd first) ticker
      (default_user "u1") default_monitoring
    = (false, [], snd first).
Proof.
  intros ticker e first. split; [by vm_compute|].
  apply (ticker_recheck_is_silent (fun _ => (0, 0)) (fun _ => (60000000, 60000000)) e
           ticker (default_user "u1") default_monitoring).
  intros ty t0 l0 H. destruct ty; vm_compute in H; try discriminate H.
  injection H as <- <-. reflexivity.
Defined.

End Recheck.

(** ** Evaluation of an order book *)

Section OrderBookCheck.

Implicit Types (e : AlertEngine) (cfg : UserConfig) (mon : Monitoring)
  (ty : AlertType).

Lemma big_order_level_ok (v vol : Q) : ∃ lvl, _get_big_order_level v vol = Ok lvl.
Proof.
  destruct (Qlt_le_dec 0 vol) as [HV|HV].
  - rewrite big_order_level_positive by done. by eexists.
  - rewrite big_order_level_no_turnover by done. by eexists.
Qed.

Lemma py_abs_le (x d : Q) : (py_abs x <= d)%Q → (- d <= x)%Q ∧ (x <= d)%Q.
Proof.
  unfold py_abs. destruct (Qle_bool 0 x) eqn:Hx.
  - apply Qle_bool_iff in Hx. intros H. split; lra.
  - apply not_true_iff_false in Hx. rewrite Qle_bool_iff in Hx.
    apply Qnot_le_lt in Hx. intros H. split; lra.
Qed.

(** One side of the book, once the current price is known to be
    positive: nothing raises, and at most one alert is created. *)
Lemma check_big_order_spec clock e cfg (sym : string) ty (v p cur vol num : Q) :
  (0 < cur)%Q →
  ∃ calls e',
    check_big_order clock e cfg sym ty v p cur vol
      (py_bind (py_truediv num cur) (fun r => Ok (r * 100)%Q))
    = (Ok (), calls, e')
    ∧ (calls = []
       ∨ ∃ lvl esc,
           calls = [_create_big_order_alert ty v p cur vol lvl esc]
           ∧ (0 < v)%Q
           ∧ is_big_order (big_order cfg) v vol = true
           ∧ (- max_price_deviation (big_order cfg) <= num / cur * 100)%Q
           ∧ (num / cur * 100 <= max_price_deviation (big_order cfg))%Q
           ∧ _get_big_order_level v vol = Ok lvl).
Proof.
  intros Hcur. unfold check_big_order.
  destruct (float_gt v 0) eqn:Hv; [|by eexists _, _; split; [|left]].
  destruct (is_big_order (big_order cfg) v vol) eqn:Hbig;
    [|by eexists _, _; split; [|left]].
  rewrite !py_truediv_pos by done. cbn [py_bind].
  destruct (float_le _ _) eqn:Hdev; [|by eexists _, _; split; [|left]].
  destruct (big_order_level_ok v vol) as [lvl Hlvl]. rewrite Hlvl.
  destruct (fire clock e cfg sym ty lvl) as [[[] esc] e'];
    [|by eexists _, _; split; [|left]].
  eexists _, _. split; [done|]. right. exists lvl, esc.
  apply float_gt_iff in Hv. apply float_le_iff, py_abs_le in Hdev as [? ?].
  by split_and!.
Qed.

(** X25. On any order book that [fetch_orderbook] returns,
    [_check_orderbook_for_user] never raises (each of its divisions is
    by a price known to be positive, or guarded) and creates at most one
    alert for the bid side and one for the ask side.  Each alert refers
    to an order that is in the book on that side and has the greatest
    value there; the symbol has a positive stored price in the market of
    the book, the price of the order deviates from it by at most
    [max_price_deviation] percent, the value passes [is_big_order]
    against the 24h turnover of that market, and the user has big-order
    alerts enabled and monitors the symbol. *)
Theorem big_order_alerts_refer_to_book clock e (binance : BinanceClient) cfg mon
    (sym : string) (market : MarketType) (bid_orders ask_orders : list (Q * Q)) :
  ∃ ob, fetch_orderbook sym market bid_orders ask_orders = Some ob
    ∧ let r := _check_orderbook_for_user clock e binance ob cfg mon in
      fst (fst r) = Ok ()
      ∧ NoDup (map call_type (snd (fst r)))
      ∧ ∀ call, call ∈ snd (fst r) →
          ∃ ty o cur lvl esc,
            call = _create_big_order_alert ty (notional o) (fst o) cur
                     (quote_volume_of market binance sym) lvl esc
            ∧ (ty = BIG_BID_ORDER ∨ ty = BIG_ASK_ORDER)
            ∧ o ∈ side_orders ty bid_orders ask_orders
            ∧ (∀ o', o' ∈ side_orders ty bid_orders ask_orders →
                     (notional o' <= notional o)%Q)
            ∧ prices_of market binance !! sym = Some cur ∧ (0 < cur)%Q
            ∧ (- max_price_deviation (big_order cfg)
               <= (fst o - cur) / cur * 100)%Q
            ∧ ((fst o - cur) / cur * 100 <= max_price_deviation (big_order cfg))%Q
            ∧ is_big_order (big_order cfg) (notional o)
                (quote_volume_of market binance sym) = true
            ∧ _get_big_order_level (notional o) (quote_volume_of market binance sym)
              = Ok lvl
            ∧ enable_big_order mon = true
            ∧ should_monitor cfg sym = true.
Proof.
  pose proof (side_stats_side_summary bid_orders) as (Hb1 & Hb2 & _ & _).
  pose proof (side_stats_side_summary ask_orders) as (Ha1 & Ha2 & _ & _).
  unfold fetch_orderbook.
  destruct (side_stats bid_orders) as [[mb pb] tb].
  destruct (side_stats ask_orders) as [[ma pa] ta]. cbn [fst snd] in *.
  assert (Hratio : ∃ ratio,
            (if float_gt ta 0 then py_truediv tb ta else Ok 1%Q) = Ok ratio).
  { destruct (float_gt ta 0) eqn:Hgt; [|by eexists].
    apply float_gt_iff in Hgt. rewrite py_truediv_pos by done. by eexists. }
  destruct Hratio as [ratio ->]. eexists. split; [done|].
  unfold _check_orderbook_for_user.
  cbn [book_symbol book_market_type max_bid_order max_bid_price max_ask_order
       max_ask_price].
  assert (Hnil : ∀ P : EngineCall → Prop,
            (Ok (), @nil EngineCall, e).1.1 = Ok ()
            ∧ NoDup (map call_type (Ok (), @nil EngineCall, e).1.2)
            ∧ ∀ call, call ∈ (Ok (), @nil EngineCall, e).1.2 → P call).
  { intros P. cbn. split_and!; [done|constructor|].
    intros call Hin. by apply elem_of_nil in Hin. }
  destruct (enable_big_order mon) eqn:Hen; cbn [negb]; [|apply Hnil].
  destruct (should_monitor cfg sym) eqn:Hmon; cbn [negb]; [|apply Hnil].
  destruct (bool_decide (market = SPOT) && negb (enable_spot mon)); [apply Hnil|].
  destruct (bool_decide (market = FUTURES) && negb (enable_futures mon));
    [apply Hnil|].
  fold (quote_volume_of market binance sym).
  destruct (should_monitor_by_volume mon _); cbn [negb]; [|apply Hnil].
  set (cur := match market with
              | SPOT => default 0%Q (spot_prices binance !! sym)
              | FUTURES => default 0%Q (futures_prices binance !! sym)
              end).
  destruct (float_le cur 0) eqn:Hcur; [apply Hnil|].
  apply float_le_false_iff in Hcur.
  assert (Hprice : prices_of market binance !! sym = Some cur).
  { subst cur. destruct market; cbn [prices_of] in *.
    - destruct (spot_prices binance !! sym); [done|].
      by apply Qlt_irrefl in Hcur.
    - destruct (futures_prices binance !! sym); [done|].
      by apply Qlt_irrefl in Hcur. }
  clearbody cur.
  destruct (check_big_order_spec clock e cfg sym BIG_BID_ORDER mb pb cur
              (quote_volume_of market binance sym) (cur - pb)%Q Hcur)
    as (calls1 & e1 & -> & H1).
  destruct (check_big_order_spec clock e1 cfg sym BIG_ASK_ORDER ma pa cur
              (quote_volume_of market binance sym) (pa - cur)%Q Hcur)
    as (calls2 & e2 & -> & H2).
  cbn [fst snd].
  assert (Hbid : ∀ call, call ∈ calls1 →
            ∃ o lvl esc,
              call = _create_big_order_alert BIG_BID_ORDER (notional o) (fst o) cur
                       (quote_volume_of market binance sym) lvl esc
              ∧ o ∈ bid_orders
              ∧ (∀ o', o' ∈ bid_orders → (notional o' <= notional o)%Q)
              ∧ (- max_price_deviation (big_order cfg)
                 <= (fst o - cur) / cur * 100)%Q
              ∧ ((fst o - cur) / cur * 100 <= max_price_deviation (big_order cfg))%Q
              ∧ is_big_order (big_order cfg) (notional o)
                  (quote_volume_of market binance sym) = true
              ∧ _get_big_order_level (notional o)
                  (quote_volume_of market binance sym) = Ok lvl).
  { intros call Hin.
    destruct H1 as [->|(lvl & esc & -> & Hpos & Hbig & Hlo & Hhi & Hlvl)];
      [by apply elem_of_nil in Hin|].
    apply list_elem_of_singleton in Hin as ->.
    destruct (Hb2 Hpos) as (o & Ho & -> & ->).
    exists o, lvl, esc.
    assert (Heq : ((fst o - cur) / cur * 100 == - ((cur - fst o) / cur * 100))%Q)
      by (unfold Qdiv; ring).
    split_and!; try done; rewrite Heq; lra. }
  assert (Hask : ∀ call, call ∈ calls2 →
            ∃ o lvl esc,
              call = _create_big_order_alert BIG_ASK_ORDER (notional o) (fst o) cur
                       (quote_volume_of market binance sym) lvl esc
              ∧ o ∈ ask_orders
              ∧ (∀ o', o' ∈ ask_orders → (notional o' <= notional o)%Q)
              ∧ (- max_price_deviation (big_order cfg)
                 <= (fst o - cur) / cur * 100)%Q
              ∧ ((fst o - cur) / cur * 100 <= max_price_deviation (big_order cfg))%Q
              ∧ is_big_order (big_order cfg) (notional o)
                  (quote_volume_of market binance sym) = true
              ∧ _get_big_order_level (notional o)
                  (quote_volume_of market binance sym) = Ok lvl).
  { intros call Hin.
    destruct H2 as [->|(lvl & esc & -> & Hpos & Hbig & Hlo & Hhi & Hlvl)];
      [by apply elem_of_nil in Hin|].
    apply list_elem_of_singleton in Hin as ->.
    destruct (Ha2 Hpos) as (o & Ho & -> & ->).
    exists o, lvl, esc. by split_and!. }
  split_and!.
  - done.
  - destruct H1 as [->|(? & ? & -> & _)], H2 as [->|(? & ? & -> & _)]; cbn;
      apply (bool_decide_unpack _); vm_compute; exact I.
  - intros call [Hin|Hin]%elem_of_app.
    + destruct (Hbid call Hin) as (o & lvl & esc & -> & ? & ? & ? & ? & ? & ?).
      exists BIG_BID_ORDER, o, cur, lvl, esc. split_and!; try done. by left.
    + destruct (Hask call Hin) as (o & lvl & esc & -> & ? & ? & ? & ? & ? & ?).
      exists BIG_ASK_ORDER, o, cur, lvl, esc. split_and!; try done. by right.
Qed.

End OrderBookCheck.

(** ** Evaluation of a spread *)

Section SpreadCheck.

Implicit Types (e : AlertEngine) (cfg : UserConfig) (mon : Monitoring)
  (d : StreamTicker) (sp : SpreadData).

(** A spread that the client hands on is computed from a positive spot
    price. *)
Lemma handed_spread evs (market : MarketType) now d sp :
  snd (process_data market (client_run evs) now d) = Some sp →
  spread_symbol sp = msg_s d
  ∧ (0 < spot_price sp)%Q
  ∧ spread_percent sp
    = ((futures_price sp - spot_price sp) / spot_price sp * 100)%Q.
Proof.
  intros Hsp. set (c := client_run evs) in *.
  destruct (client_run_ok evs) as [Hs Hf]. fold c in Hs, Hf.
  assert (Hacc : ¬ rejected d).
  { intros Hr. by rewrite process_data_rejected in Hsp. }
  destruct (process_data_accepted c market now d Hs Hf Hacc)
    as (c' & tk & Hr & Hs' & Hf' & Hp & Hother & Htk).
  rewrite Hr in Hsp. cbn [fst snd] in Hsp.
  destruct (prices_of (other_market market) c !! msg_s d) as [q|] eqn:Hq; [|done].
  rewrite <- Hother in Hq.
  assert (H : ∃ s, spot_prices c' !! msg_s d = Some s).
  { destruct market; cbn [prices_of other_market] in *; eauto. }
  destruct H as (s & Hs1).
  assert (Hspos : (0 < s)%Q) by exact (market_ok_positive _ _ _ _ Hs' Hs1).
  rewrite (make_spread_positive c' _ s) in Hsp by done. by injection Hsp as <-.
Qed.

(** X26. For a spread that the client hands to the engine,
    [_check_spread_for_user] creates nothing when the user has spread
    alerts switched off (funding alerts included) or does not monitor
    the symbol.  It creates at most one spread alert and one funding
    alert.  A spread alert means that the absolute spread reached the
    user's threshold; it is SPREAD_HIGH exactly when the futures price
    is above the spot price, and SPREAD_LOW otherwise.  A funding alert
    needs funding alerts enabled; it is FUNDING_HIGH when the rate
    reached the high threshold, and FUNDING_LOW when it did not and
    reached the low one.  Levels are those of the spread and of the
    rate. *)
Theorem spread_alerts_follow_prices evs (market : MarketType) now d sp
    clock e cfg mon :
  let r := process_data market (client_run evs) now d in
  snd r = Some sp →
  let out := _check_spread_for_user clock e (fst (fst r)) sp cfg mon in
  (enable_spread mon = false ∨ should_monitor cfg (msg_s d) = false →
   out = ([], e))
  ∧ NoDup (map call_type (fst out))
  ∧ ∀ call, call ∈ fst out →
      (∃ ty lvl esc,
         call = _create_spread_alert ty lvl esc
         ∧ (spot_futures (spread mon) <= py_abs (spread_percent sp))%Q
         ∧ lvl = _get_spread_level (spread_percent sp)
         ∧ ((ty = SPREAD_HIGH ∧ (spot_price sp < futures_price sp)%Q)
            ∨ (ty = SPREAD_LOW ∧ (futures_price sp <= spot_price sp)%Q)))
      ∨ (∃ ty lvl esc,
           call = _create_funding_alert ty lvl esc
           ∧ enable_funding mon = true
           ∧ lvl = _get_funding_level (funding_rate sp)
           ∧ ((ty = FUNDING_HIGH
               ∧ (funding_high (spread mon) <= funding_rate sp)%Q)
              ∨ (ty = FUNDING_LOW
                 ∧ (funding_rate sp < funding_high (spread mon))%Q
                 ∧ (funding_rate sp <= funding_low (spread mon))%Q))).
Proof.
  intros r Hsp out.
  destruct (handed_spread evs market now d sp Hsp) as (Hsym & Hspot & Hpct).
  assert (Hsign : float_gt (spread_percent sp) 0 = true
                  ↔ (spot_price sp < futures_price sp)%Q).
  { rewrite float_gt_iff, Hpct. by apply spread_sign. }
  assert (Hsign' : float_gt (spread_percent sp) 0 = false
                   → (futures_price sp <= spot_price sp)%Q).
  { intros Hf. apply Qnot_lt_le. intros Hlt%Hsign. congruence. }
  subst out. generalize (fst (fst r)). intros binance.
  unfold _check_spread_for_user. rewrite Hsym.
  assert (Hnil : ∀ P : EngineCall → Prop,
            NoDup (map call_type (@nil EngineCall, e).1)
            ∧ ∀ call, call ∈ (@nil EngineCall, e).1 → P call).
  { intros P. cbn. split; [constructor|].
    intros call Hin. by apply elem_of_nil in Hin. }
  destruct (should_monitor cfg (msg_s d)) eqn:Hmon; cbn [negb];
    [|split; [done|apply Hnil]].
  destruct (enable_spread mon) eqn:Hen; cbn [negb]; [|split; [done|apply Hnil]].
  split; [by intros [?|?]|].
  destruct (should_monitor_by_volume mon _); cbn [negb]; [|apply Hnil].
  destruct (float_ge (py_abs (spread_percent sp)) (spot_futures (spread mon)))
    eqn:Habs;
  destruct (float_gt (spread_percent sp) 0) eqn:Hgt;
  repeat (destruct (fire _ _ _ _ _ _) as [[[] ?] ?]);
  destruct (enable_funding mon) eqn:Hfund;
  try destruct (float_ge (funding_rate sp) (funding_high (spread mon))) eqn:Hhigh;
  try destruct (float_le (funding_rate sp) (funding_low (spread mon))) eqn:Hlow;
  repeat (destruct (fire _ _ _ _ _ _) as [[[] ?] ?]);
  cbn [fst snd app map call_type];
  (split;
   [ apply (bool_decide_unpack _); vm_compute; exact I
   | intros call Hin;
     repeat first [ apply elem_of_nil in Hin; destruct Hin
                  | apply elem_of_cons in Hin as [Hin|Hin] ];
     subst call;
     first
       [ left; eexists _, _, _; split; [done|];
         apply float_ge_iff in Habs;
         split_and!; [done|done|];
         first [ left; split; [done|]; by apply Hsign
               | right; split; [done|]; by apply Hsign' ]
       | right; eexists _, _, _; split; [done|];
         split_and!; [done|done|];
         first [ left; split; [done|]; by apply float_ge_iff
               | right; split_and!;
                 [done|by apply float_ge_false_iff|by apply float_le_iff] ] ] ]).
Qed.

(** A spot price of 100 followed by a futures price of 103: the spread of
    3 percent reaches the default threshold of 2.5 and is reported as
    SPREAD_HIGH at level CRITICAL. *)
Lemma spread_alerts_follow_prices_witness :
  let d0 := {| msg_s := "BTCUSDT"; msg_c := 100; msg_v := 5; msg_h := 0; msg_l := 0 |}%Q in
  let d1 := {| msg_s := "BTCUSDT"; msg_c := 103; msg_v := 7; msg_h := 0; msg_l := 0 |}%Q in
  let r := process_data FUTURES (client_run [SpotTicker 0 d0]) 1000000 d1 in
  let e := {| cooldowns := ∅; escalation_count := 0 |} in
  ∃ sp,
    snd r = Some sp
    ∧ fst (_check_spread_for_user (fun _ => (0, 0)) e (fst (fst r)) sp
             (default_user "u1") default_monitoring)
      = [_create_spread_alert SPREAD_HIGH CRITICAL false]
    ∧ (spot_price sp < futures_price sp)%Q.
Proof.
  intros d0 d1 r e.
  assert (Hsp : ∃ sp, snd r = Some sp) by (vm_compute; eauto).
  destruct Hsp as [sp Hsp]. exists sp. split; [done|].
  pose proof (spread_alerts_follow_prices [SpotTicker 0 d0] FUTURES 1000000 d1 sp
                (fun _ => (0, 0)) e (default_user "u1") default_monitoring Hsp)
    as (_ & _ & Hcalls).
  assert (Hout : fst (_check_spread_for_user (fun _ => (0, 0)) e (fst (fst r)) sp
                        (default_user "u1") default_monitoring)
                 = [_create_spread_alert SPREAD_HIGH CRITICAL false]).
  { vm_compute in Hsp. injection Hsp as <-. by vm_compute. }
  split; [done|].
  assert (Hin : _create_spread_alert SPREAD_HIGH CRITICAL false
                ∈ fst (_check_spread_for_user (fun _ => (0, 0)) e (fst (fst r)) sp
                         (default_user "u1") default_monitoring)).
  { rewrite Hout. apply elem_of_cons. by left. }
  destruct (Hcalls _ Hin)
    as [(ty & lvl & esc & [= <- <- <-] & _ & _ & [[_ Hlt]|[? _]])
       |(ty & lvl & esc & ? & _)]; done.
Defined.

End SpreadCheck.

(** ** Expiry of mutes *)

Section MuteExpiry.

Variable chat_id : string → string.
Variable all_users : list string.
Variable notice : string → string → TelegramResult.

Implicit Types (s : System) (us : UserManager) (uid sym : string)
  (D : list (string * string)).

Lemma still_muted_idemp now (o : option Z) :
  still_muted now (still_muted now o) = still_muted now o.
Proof.
  unfold still_muted. destruct o as [t|]; simpl; [|done].
  destruct (Z.leb_spec t now); simpl; [done|].
  by destruct (Z.leb_spec t now); [lia|].
Qed.

Lemma still_muted_Some now (o : option Z) t :
  still_muted now o = Some t → o = Some t ∧ now < t.
Proof.
  unfold still_muted. destruct o as [t'|]; simpl; [|done].
  destruct (Z.leb_spec t' now); [done|]. by intros [= ->].
Qed.

Lemma list_remove_sublist (x : string) (l : list string) :
  list_remove x l `sublist_of` l.
Proof.
  induction l as [|y r IH]; simpl; [done|].
  destruct (String.eqb x y); [by apply sublist_cons|by apply sublist_skip].
Qed.

Lemma list_remove_elem (x y : string) (l : list string) :
  y ∈ l → y ∈ list_remove x l ∨ y = x.
Proof.
  induction l as [|z r IH]; simpl; [by intros ?%elem_of_nil|].
  destruct (String.eqb_spec x z) as [->|Hne].
  - intros [->|?]%elem_of_cons; [by right|by left].
  - intros [->|Hin]%elem_of_cons; [left; by apply elem_of_cons; left|].
    destruct (IH Hin) as [?|?]; [left; by apply elem_of_cons; right|by right].
Qed.

(** What the removal of an expired mute does to the table of mutes. *)
Lemma unmute_expired_muted now uid s sym u k :
  muted_until (unmute_expired now uid s sym) u k
  = if decide (u = uid ∧ k = sym) then still_muted now (muted_until s u k)
    else muted_until s u k.
Proof.
  unfold unmute_expired, muted_until, still_muted.
  destruct (muted_symbols s !! uid) as [by_symbol|] eqn:Hm.
  - destruct (by_symbol !! sym) as [t|] eqn:Ht.
    + destruct (Z.leb_spec t now) as [Hle|Hgt]; cbn.
      * destruct (decide (u = uid)) as [->|Hu].
        -- rewrite lookup_insert_eq, Hm. cbn.
           destruct (decide (k = sym)) as [->|Hk].
           ++ rewrite decide_True by done. rewrite lookup_delete_eq, Ht. cbn.
              by destruct (Z.leb_spec t now); [|lia].
           ++ rewrite decide_False by (by intros [_ ?]).
              by rewrite lookup_delete_ne.
        -- rewrite lookup_insert_ne by done.
           by rewrite decide_False by (by intros [? _]).
      * case_decide as Hd; [|done]. destruct Hd as [-> ->]. rewrite Hm. cbn.
        rewrite Ht. cbn. by destruct (Z.leb_spec t now); [lia|].
    + case_decide as Hd; [|done]. destruct Hd as [-> ->]. rewrite Hm. cbn.
      by rewrite Ht.
  - case_decide as Hd; [|done]. destruct Hd as [-> ->]. by rewrite Hm.
Qed.

(** What it does to the registry of users. *)
Lemma unmute_expired_users now uid s sym :
  users (unmute_expired now uid s sym)
  = match muted_until s uid sym with
    | Some t => if t <=? now then remove_from_blacklist (users s) uid [sym]
                else users s
    | None => users s
    end.
Proof.
  unfold unmute_expired, muted_until.
  destruct (muted_symbols s !! uid) as [by_symbol|]; cbn; [|done].
  destruct (by_symbol !! sym) as [t|]; [|done].
  by destruct (t <=? now).
Qed.

Lemma unmute_expired_frame now uid s sym :
  let s' := unmute_expired now uid s sym in
  alerts s' = alerts s ∧ next_alert s' = next_alert s
  ∧ pending_alerts s' = pending_alerts s ∧ confirmed_ids s' = confirmed_ids s
  ∧ engine s' = engine s ∧ bot_system s' = bot_system s.
Proof.
  cbn. unfold unmute_expired.
  destruct (muted_symbols s !! uid) as [by_symbol|]; [|done].
  destruct (by_symbol !! sym) as [t|]; [|done].
  by destruct (t <=? now).
Qed.

Lemma unmute_expired_other_user now uid s sym u :
  u ≠ uid →
  muted_symbols (unmute_expired now uid s sym) !! u = muted_symbols s !! u.
Proof.
  intros Hu. unfold unmute_expired.
  destruct (muted_symbols s !! uid) as [by_symbol|]; [|done].
  destruct (by_symbol !! sym) as [t|]; [|done].
  destruct (t <=? now); [|done]. cbn. by rewrite lookup_insert_ne.
Qed.

(** An iteration is the removal, followed by the notice when the mute
    had ended and the user is registered and active. *)
Lemma cleanup_symbol_split now uid s sym :
  cleanup_symbol chat_id all_users notice now uid s sym
  = let s2 := unmute_expired now uid s sym in
    match muted_until s uid sym with
    | Some t =>
        if t <=? now then
          match users s2 !! uid with
          | Some c =>
              if is_active c then
                with_users
                  (snd (send_message chat_id all_users (users s2)
                          (chat_id uid) (notice uid sym)))
                  s2
              else s2
          | None => s2
          end
        else s2
    | None => s2
    end.
Proof.
  unfold cleanup_symbol, unmute_expired, muted_until.
  destruct (muted_symbols s !! uid) as [by_symbol|]; cbn; [|done].
  destruct (by_symbol !! sym) as [t|]; [|done].
  by destruct (t <=? now).
Qed.

(** The notice changes the registry of users only. *)
Lemma cleanup_symbol_but_users now uid s sym :
  let s2 := unmute_expired now uid s sym in
  let s3 := cleanup_symbol chat_id all_users notice now uid s sym in
  alerts s3 = alerts s2 ∧ next_alert s3 = next_alert s2
  ∧ pending_alerts s3 = pending_alerts s2 ∧ confirmed_ids s3 = confirmed_ids s2
  ∧ engine s3 = engine s2 ∧ bot_system s3 = bot_system s2
  ∧ muted_symbols s3 = muted_symbols s2.
Proof.
  cbn. rewrite cleanup_symbol_split. cbn.
  destruct (muted_until s uid sym) as [t|]; [|done].
  destruct (t <=? now); [|done].
  destruct (users (unmute_expired now uid s sym) !! uid) as [c|]; [|done].
  by destruct (is_active c).
Qed.

Lemma cleanup_symbol_users_cases now uid s sym :
  let s2 := unmute_expired now uid s sym in
  let s3 := cleanup_symbol chat_id all_users notice now uid s sym in
  users s3 = users s2
  ∨ ∃ t c w,
      muted_until s uid sym = Some t ∧ t <= now
      ∧ users s2 !! uid = Some c ∧ is_active c = true
      ∧ notice uid sym = Forbidden
      ∧ first_user_of_chat chat_id all_users (users s2) (chat_id uid) = Some w
      ∧ users s3 = update_user_is_active (users s2) w false.
Proof.
  cbn. rewrite cleanup_symbol_split. cbn.
  destruct (muted_until s uid sym) as [t|]; [|by left].
  destruct (Z.leb_spec t now) as [Hle|]; [|by left].
  destruct (users (unmute_expired now uid s sym) !! uid) as [c|] eqn:Hc; [|by left].
  destruct (is_active c) eqn:Hact; [|by left].
  unfold send_message.
  destruct (notice uid sym) eqn:Hn; try by left.
  cbn [snd].
  destruct (first_user_of_chat _ _ _ _) as [w|] eqn:Hw; [|by left].
  right. by exists t, c, w.
Qed.

Lemma cleanup_symbol_muted now uid s sym u k :
  muted_until (cleanup_symbol chat_id all_users notice now uid s sym) u k
  = if decide (u = uid ∧ k = sym) then still_muted now (muted_until s u k)
    else muted_until s u k.
Proof.
  destruct (cleanup_symbol_but_users now uid s sym) as (_ & _ & _ & _ & _ & _ & Hm).
  rewrite <- unmute_expired_muted. unfold muted_until. by rewrite Hm.
Qed.

Lemma cleanup_symbol_other_user now uid s sym u :
  u ≠ uid →
  muted_symbols (cleanup_symbol chat_id all_users notice now uid s sym) !! u
  = muted_symbols s !! u.
Proof.
  intros Hu.
  destruct (cleanup_symbol_but_users now uid s sym) as (_ & _ & _ & _ & _ & _ & Hm).
  rewrite Hm. by apply unmute_expired_other_user.
Qed.

Lemma expired_name_mono now s0 u D D' x :
  (∀ p, p ∈ D → p ∈ D') → expired_name now s0 u D x → expired_name now s0 u D' x.
Proof. intros Hsub (sym & t & Hin & ?). exists sym, t. split; [by apply Hsub|done]. Qed.

Lemma blocked_notice_mono now s0 u D D' :
  (∀ p, p ∈ D → p ∈ D') →
  blocked_notice chat_id notice now s0 D u → blocked_notice chat_id notice now s0 D' u.
Proof.
  intros Hsub (u' & sym & t & Hin & ?). exists u', sym, t.
  split; [by apply Hsub|done].
Qed.

Lemma set_is_active_same (c : UserConfig) : set_is_active (is_active c) c = c.
Proof. by destruct c. Qed.

Lemma users_progress_start now s : users_progress chat_id notice now s (users s) [].
Proof.
  intros u. destruct (users s !! u) as [cfg|] eqn:Hu; [|done].
  exists (blacklist cfg), (is_active cfg). split_and!.
  - by destruct cfg.
  - by left.
  - done.
  - intros x ?. by left.
  - intros _ x (sym & t & []%elem_of_nil & _).
Qed.

Lemma cleanup_progress_start now s : cleanup_progress chat_id notice now s s [].
Proof.
  unfold cleanup_progress. split_and!; try done. apply users_progress_start.
Qed.

(** The registry keeps its keys. *)
Lemma users_progress_keys now s0 us D u :
  users_progress chat_id notice now s0 us D →
  is_Some (us !! u) ↔ is_Some (users s0 !! u).
Proof.
  intros Hu. specialize (Hu u). destruct (users s0 !! u) as [cfg0|].
  - destruct Hu as (bl & act & -> & _). split; eauto.
  - rewrite Hu. done.
Qed.

(** Marking a user inactive after a notice to the chat of that user was
    answered [Forbidden] keeps the invariant of the registry. *)
Lemma users_progress_deactivate now s0 us D w :
  users_progress chat_id notice now s0 us D →
  blocked_notice chat_id notice now s0 D w →
  users_progress chat_id notice now s0 (update_user_is_active us w false) D.
Proof.
  intros Hu Hw u. pose proof (Hu u) as Hu'. unfold update_user_is_active.
  destruct (us !! w) as [cw|] eqn:Hcw; [|done].
  destruct (decide (u = w)) as [->|Hne].
  - rewrite lookup_insert_eq. destruct (users s0 !! w) as [cfg0|]; [|congruence].
    destruct Hu' as (bl & act & Hbl & Hact & Hrest).
    rewrite Hcw in Hbl. injection Hbl as ->.
    exists bl, false. split_and!; [done|by right|apply Hrest..].
  - by rewrite lookup_insert_ne.
Qed.

(** The invariant of the registry is kept by the removal of a mute. *)
Lemma users_progress_unmute now s0 s D uid sym :
  cleanup_progress chat_id notice now s0 s D →
  users_progress chat_id notice now s0
    (users (unmute_expired now uid s sym)) ((uid, sym) :: D).
Proof.
  intros (H1 & H2 & H3 & H4 & H5 & H6 & Hm & Hu).
  intros u. specialize (Hu u). rewrite unmute_expired_users.
  assert (Hmono : ∀ x, expired_name now s0 u D x
                       → expired_name now s0 u ((uid, sym) :: D) x).
  { intros x. apply expired_name_mono. intros p ?. apply elem_of_cons. by right. }
  assert (Hbmono : blocked_notice chat_id notice now s0 D u
                   → blocked_notice chat_id notice now s0 ((uid, sym) :: D) u).
  { apply blocked_notice_mono. intros p ?. apply elem_of_cons. by right. }
  assert (Hsame :
            match users s0 !! u with
            | None => users s !! u = None
            | Some cfg0 =>
                ∃ bl act,
                  users s !! u = Some (set_is_active act (set_blacklist bl cfg0))
                  ∧ (act = is_active cfg0
                     ∨ (act = false
                        ∧ blocked_notice chat_id notice now s0 ((uid, sym) :: D) u))
                  ∧ bl `sublist_of` blacklist cfg0
                  ∧ (∀ x, x ∈ blacklist cfg0
                          → x ∈ bl ∨ expired_name now s0 u ((uid, sym) :: D) x)
                  ∧ (NoDup (blacklist cfg0) →
                     ∀ x, expired_name now s0 u ((uid, sym) :: D) x → x ∉ bl
                          ∨ (u = uid ∧ x = strip (upper sym)
                             ∧ ∃ t, muted_until s0 uid sym = Some t ∧ t <= now
                                    ∧ (uid, sym) ∉ D))
            end).
  { destruct (users s0 !! u) as [cfg0|]; [|done].
    destruct Hu as (bl & act & Hbl & Hact & Hsub & Hkept & Hgone). exists bl, act.
    split_and!; try done.
    - destruct Hact as [?|[? ?]]; [by left|right; split; [done|by apply Hbmono]].
    - intros x Hx. destruct (Hkept x Hx) as [?|?]; [by left|right; by apply Hmono].
    - intros Hnd x (sym' & t & Hin & Ht & Hle & ->).
      apply elem_of_cons in Hin as [[= -> ->]|Hin].
      + destruct (decide ((uid, sym) ∈ D)) as [Hd|Hd].
        * left. apply (Hgone Hnd). by exists sym, t.
        * right. split_and!; [done|done|]. by exists t.
      + left. apply (Hgone Hnd). by exists sym', t. }
  specialize (Hm uid sym).
  destruct (muted_until s uid sym) as [t|] eqn:Hcur.
  2:{ destruct (users s0 !! u) as [cfg0|]; [|done].
      destruct Hsame as (bl & act & Hbl & Hact & Hsub & Hkept & Hgone). exists bl, act.
      split_and!; try done. intros Hnd x He.
      destruct (Hgone Hnd x He) as [?|(E1 & E2 & t & Ht & Hle & Hd)]; [done|].
      exfalso. rewrite decide_False in Hm by done. congruence. }
  destruct (Z.leb_spec t now) as [Hle|Hgt].
  2:{ destruct (users s0 !! u) as [cfg0|]; [|done].
      destruct Hsame as (bl & act & Hbl & Hact & Hsub & Hkept & Hgone). exists bl, act.
      split_and!; try done. intros Hnd x He.
      destruct (Hgone Hnd x He) as [?|(E1 & E2 & t' & Ht & Hle & Hd)]; [done|].
      exfalso. rewrite decide_False in Hm by done.
      rewrite Ht in Hm. injection Hm as ->. lia. }
  assert (Hfirst : ((uid, sym) ∉ D) ∧ muted_until s0 uid sym = Some t).
  { destruct (decide ((uid, sym) ∈ D)) as [Hd|Hd]; [|done].
    symmetry in Hm. apply still_muted_Some in Hm as [_ ?]. lia. }
  destruct Hfirst as [Hd H0].
  unfold remove_from_blacklist.
  destruct (decide (u = uid)) as [->|Hne].
  + destruct (users s0 !! uid) as [cfg0|] eqn:Hu0.
    * destruct Hu as (bl & act & Hbl & Hact & Hsub & Hkept & Hgone). rewrite Hbl.
      rewrite lookup_insert_eq. cbn [fold_left blacklist set_blacklist set_is_active].
      exists (list_remove (strip (upper sym)) bl), act. split_and!.
      -- done.
      -- destruct Hact as [?|[? ?]]; [by left|right; split; [done|by apply Hbmono]].
      -- etrans; [apply list_remove_sublist|done].
      -- intros x Hx. destruct (Hkept x Hx) as [Hin|?]; [|right; by apply Hmono].
         destruct (list_remove_elem (strip (upper sym)) x bl Hin) as [?|Hx'];
           [by left|right; subst x].
         exists sym, t. split_and!; [apply elem_of_cons; by left|done..].
      -- intros Hnd x (sym' & t' & Hin & Ht' & Hle' & ->).
         assert (Hnd' : NoDup bl) by exact (sublist_NoDup _ _ Hnd Hsub).
         apply elem_of_cons in Hin as [[= ->]|Hin].
         ++ by apply list_remove_NoDup.
         ++ intros Hx. apply (Hgone Hnd (strip (upper sym'))); [by exists sym', t'|].
            eapply elem_of_sublist; [exact Hx|apply list_remove_sublist].
    * by rewrite Hu.
  + destruct (users s !! uid) as [cfg|].
    * rewrite lookup_insert_ne by done.
      destruct (users s0 !! u) as [cfg0|]; [|done].
      destruct Hsame as (bl & act & Hbl & Hact & Hsub & Hkept & Hgone). exists bl, act.
      split_and!; try done. intros Hnd x He.
      by destruct (Hgone Hnd x He) as [?|(? & _)].
    * destruct (users s0 !! u) as [cfg0|]; [|done].
      destruct Hsame as (bl & act & Hbl & Hact & Hsub & Hkept & Hgone). exists bl, act.
      split_and!; try done. intros Hnd x He.
      by destruct (Hgone Hnd x He) as [?|(? & _)].
Qed.

(** A mute that an iteration finds ended was not handled before, and is
    the one recorded when the pass started. *)
Lemma cleanup_progress_expired now s0 s D uid sym t :
  cleanup_progress chat_id notice now s0 s D →
  muted_until s uid sym = Some t → t <= now →
  ((uid, sym) ∉ D) ∧ muted_until s0 uid sym = Some t.
Proof.
  intros (_ & _ & _ & _ & _ & _ & Hm & _) Hcur Hle.
  specialize (Hm uid sym). rewrite Hcur in Hm.
  destruct (decide ((uid, sym) ∈ D)) as [Hd|Hd]; [|done].
  symmetry in Hm. apply still_muted_Some in Hm as [_ ?]. lia.
Qed.

Lemma first_user_of_chat_found us chat w :
  first_user_of_chat chat_id all_users us chat = Some w →
  is_Some (us !! w) ∧ chat_id w = chat.
Proof.
  unfold first_user_of_chat. intros [_ H]%find_some.
  by apply bool_decide_eq_true in H.
Qed.

Lemma first_user_of_chat_keys us us' chat :
  (∀ u, is_Some (us !! u) ↔ is_Some (us' !! u)) →
  first_user_of_chat chat_id all_users us chat
  = first_user_of_chat chat_id all_users us' chat.
Proof.
  intros Hk. unfold first_user_of_chat.
  induction all_users as [|u l IH]; simpl; [done|].
  rewrite IH.
  by rewrite (bool_decide_ext _ (is_Some (us' !! u) ∧ chat_id u = chat))
    by (by rewrite Hk).
Qed.

(** The invariant of the pass is kept by one iteration. *)
Lemma cleanup_progress_step now s0 s D uid sym :
  cleanup_progress chat_id notice now s0 s D →
  cleanup_progress chat_id notice now s0
    (cleanup_symbol chat_id all_users notice now uid s sym) ((uid, sym) :: D).
Proof.
  intros Hp. pose proof (users_progress_unmute now s0 s D uid sym Hp) as Hu2.
  pose proof Hp as (H1 & H2 & H3 & H4 & H5 & H6 & Hm & Hu).
  destruct (unmute_expired_frame now uid s sym) as (F1 & F2 & F3 & F4 & F5 & F6).
  destruct (cleanup_symbol_but_users now uid s sym)
    as (G1 & G2 & G3 & G4 & G5 & G6 & G7).
  unfold cleanup_progress.
  split_and!; [congruence..| |].
  - intros u k. rewrite cleanup_symbol_muted, Hm.
    destruct (decide (u = uid ∧ k = sym)) as [[-> ->]|Hne].
    + rewrite (decide_True (P := (uid, sym) ∈ (uid, sym) :: D))
        by (apply elem_of_cons; by left).
      destruct (decide ((uid, sym) ∈ D)); [apply still_muted_idemp|done].
    + destruct (decide ((u, k) ∈ D)) as [Hd|Hd].
      * by rewrite decide_True by (apply elem_of_cons; by right).
      * rewrite decide_False; [done|].
        intros [[= -> ->]|?]%elem_of_cons; [by apply Hne|done].
  - destruct (cleanup_symbol_users_cases now uid s sym)
      as [->|(t & c & w & Hcur & Hle & Hc & Hact & Hn & Hw & ->)]; [done|].
    apply users_progress_deactivate; [done|].
    destruct (cleanup_progress_expired now s0 s D uid sym t Hp Hcur Hle) as [_ H0].
    apply first_user_of_chat_found in Hw as [_ Hchat].
    exists uid, sym, t. split_and!; [apply elem_of_cons; by left|done..|].
    specialize (Hu2 uid). destruct (users s0 !! uid) as [cfg0|]; [|congruence].
    destruct Hu2 as (bl & act & Hbl & Hact' & _). exists cfg0. split; [done|].
    rewrite Hc in Hbl. injection Hbl as ->. cbn in Hact.
    by destruct Hact' as [<-|[-> _]].
Qed.

Lemma inactive_remove_from_blacklist us uid (symbols : list string) u :
  inactive us u → inactive (remove_from_blacklist us uid symbols) u.
Proof.
  intros (c & Hc & Hact). unfold inactive, remove_from_blacklist.
  destruct (us !! uid) as [cu|] eqn:Hcu; [|by eauto].
  destruct (decide (u = uid)) as [->|Hne].
  - rewrite lookup_insert_eq. eexists. split; [done|].
    rewrite Hc in Hcu. injection Hcu as <-. done.
  - rewrite lookup_insert_ne by done. eauto.
Qed.

Lemma inactive_update us w u :
  inactive us u → inactive (update_user_is_active us w false) u.
Proof.
  intros (c & Hc & Hact). unfold inactive, update_user_is_active.
  destruct (us !! w) as [cw|] eqn:Hcw; [|by eauto].
  destruct (decide (u = w)) as [->|Hne].
  - rewrite lookup_insert_eq. by eexists.
  - rewrite lookup_insert_ne by done. eauto.
Qed.

Lemma inactive_after_update us w :
  is_Some (us !! w) → inactive (update_user_is_active us w false) w.
Proof.
  intros [c Hc]. unfold inactive, update_user_is_active. rewrite Hc.
  rewrite lookup_insert_eq. by eexists.
Qed.

Lemma inactive_unmute_expired now uid s sym u :
  inactive (users s) u → inactive (users (unmute_expired now uid s sym)) u.
Proof.
  intros Hi. rewrite unmute_expired_users.
  destruct (muted_until s uid sym) as [t|]; [|done].
  destruct (t <=? now); [|done]. by apply inactive_remove_from_blacklist.
Qed.

Lemma inactive_cleanup_symbol now uid s sym u :
  inactive (users s) u →
  inactive (users (cleanup_symbol chat_id all_users notice now uid s sym)) u.
Proof.
  intros Hi%(inactive_unmute_expired now uid s sym).
  destruct (cleanup_symbol_users_cases now uid s sym)
    as [->|(t & c & w & _ & _ & _ & _ & _ & _ & ->)]; [done|].
  by apply inactive_update.
Qed.

(** A notice answered [Forbidden] takes effect in the iteration that
    sends it, and the effect lasts. *)
Lemma notices_effective_step now s0 s D uid sym :
  cleanup_progress chat_id notice now s0 s D →
  notices_effective chat_id all_users notice now s0 s D →
  notices_effective chat_id all_users notice now s0
    (cleanup_symbol chat_id all_users notice now uid s sym) ((uid, sym) :: D).
Proof.
  intros Hp He u k t w Hin Ht Hle Hn Hreg Hfind.
  destruct (decide ((u, k) ∈ D)) as [Hd|Hd].
  { destruct (He u k t w Hd Ht Hle Hn Hreg Hfind) as [?|?];
      [left|right]; by apply inactive_cleanup_symbol. }
  apply elem_of_cons in Hin as [[= -> ->]|?]; [|done].
  pose proof (users_progress_unmute now s0 s D uid sym Hp) as Hu2.
  pose proof Hp as (_ & _ & _ & _ & _ & _ & Hm & _).
  specialize (Hm uid sym). rewrite decide_False in Hm by done.
  rewrite Ht in Hm.
  assert (Hkeys : ∀ x, is_Some (users (unmute_expired now uid s sym) !! x)
                       ↔ is_Some (users s0 !! x)).
  { intros x. by eapply users_progress_keys. }
  rewrite <- (first_user_of_chat_keys _ _ _ Hkeys) in Hfind.
  apply Hkeys in Hreg as [c Hc].
  pose proof (first_user_of_chat_found _ _ _ Hfind) as [Hw _].
  rewrite cleanup_symbol_split. cbn zeta. rewrite Hm.
  destruct (Z.leb_spec t now) as [_|?]; [|lia].
  rewrite Hc. destruct (is_active c) eqn:Hact.
  - right. unfold send_message. rewrite Hn. cbn [snd users with_users].
    rewrite Hfind. by apply inactive_after_update.
  - left. by exists c.
Qed.

Lemma cleanup_symbols_progress now s0 uid (symbols : list string) s D :
  cleanup_progress chat_id notice now s0 s D →
  notices_effective chat_id all_users notice now s0 s D →
  ∃ D', cleanup_progress chat_id notice now s0
          (fold_left (cleanup_symbol chat_id all_users notice now uid) symbols s) D'
        ∧ notices_effective chat_id all_users notice now s0
            (fold_left (cleanup_symbol chat_id all_users notice now uid) symbols s) D'
        ∧ ∀ p, p ∈ D' ↔ p ∈ D ∨ (fst p = uid ∧ snd p ∈ symbols).
Proof.
  revert s D. induction symbols as [|sym symbols IH]; intros s D Hp He; cbn [fold_left].
  - exists D. split_and!; [done..|]. intros p. split; [by left|].
    by intros [?|[_ ?%elem_of_nil]].
  - destruct (IH _ _ (cleanup_progress_step now s0 s D uid sym Hp)
                (notices_effective_step now s0 s D uid sym Hp He))
      as (D' & Hp' & He' & HD).
    exists D'. split_and!; [done..|]. intros [u k]. rewrite HD, !elem_of_cons. cbn.
    split.
    + intros [[[= -> ->]|?]|[? ?]]; [right; split; [done|by left]|by left|].
      right. split; [done|by right].
    + intros [?|[-> [->|?]]]; [left; by right|left; by left|right; by split].
Qed.

Lemma cleanup_progress_drop now s0 s D uid :
  cleanup_progress chat_id notice now s0 s D →
  muted_symbols s !! uid = Some ∅ →
  cleanup_progress chat_id notice now s0
    (with_muted (delete uid (muted_symbols s)) s) D.
Proof.
  intros (H1 & H2 & H3 & H4 & H5 & H6 & Hm & Hu) Hempty.
  unfold cleanup_progress. split_and!; try done.
  intros u k. rewrite <- Hm. unfold muted_until. cbn.
  destruct (decide (u = uid)) as [->|Hne].
  - by rewrite lookup_delete_eq, Hempty.
  - by rewrite lookup_delete_ne.
Qed.

Lemma cleanup_user_progress now s0 uid (symbols : list string) s D :
  cleanup_progress chat_id notice now s0 s D →
  notices_effective chat_id all_users notice now s0 s D →
  ∃ D', cleanup_progress chat_id notice now s0
          (cleanup_user chat_id all_users notice now s (uid, symbols)) D'
        ∧ notices_effective chat_id all_users notice now s0
            (cleanup_user chat_id all_users notice now s (uid, symbols)) D'
        ∧ ∀ p, p ∈ D' ↔ p ∈ D ∨ (fst p = uid ∧ snd p ∈ symbols).
Proof.
  intros Hp He. destruct (cleanup_symbols_progress now s0 uid symbols s D Hp He)
    as (D' & Hp' & He' & HD).
  exists D'. unfold cleanup_user.
  destruct (muted_symbols
              (fold_left (cleanup_symbol chat_id all_users notice now uid) symbols s)
            !! uid) as [by_symbol|] eqn:Hm; [|done].
  destruct (decide (by_symbol = ∅)) as [->|]; [|done].
  split_and!; [by apply cleanup_progress_drop|done|done].
Qed.

Lemma cleanup_pass_progress now s0 (order : list (string * list string)) s D :
  cleanup_progress chat_id notice now s0 s D →
  notices_effective chat_id all_users notice now s0 s D →
  ∃ D', cleanup_progress chat_id notice now s0
          (_mute_cleanup_pass chat_id all_users notice now order s) D'
        ∧ notices_effective chat_id all_users notice now s0
            (_mute_cleanup_pass chat_id all_users notice now order s) D'
        ∧ ∀ p, p ∈ D' ↔ p ∈ D ∨ ∃ symbols, (fst p, symbols) ∈ order ∧ snd p ∈ symbols.
Proof.
  unfold _mute_cleanup_pass. revert s D.
  induction order as [|[uid symbols] order IH]; intros s D Hp He; cbn [fold_left].
  - exists D. split_and!; [done..|]. intros p. split; [by left|].
    by intros [?|(? & ?%elem_of_nil & _)].
  - destruct (cleanup_user_progress now s0 uid symbols s D Hp He)
      as (D1 & Hp1 & He1 & HD1).
    destruct (IH _ _ Hp1 He1) as (D' & Hp' & He' & HD). exists D'.
    split_and!; [done..|].
    intros [u k]. rewrite HD, HD1. cbn. split.
    + intros [[?|[-> ?]]|(syms & ? & ?)]; [by left|right..].
      * exists symbols. split; [apply elem_of_cons; by left|done].
      * exists syms. split; [apply elem_of_cons; by right|done].
    + intros [?|(syms & [[= -> ->]|?]%elem_of_cons & ?)]; [left; by left|left; by right|].
      right. by exists syms.
Qed.

Lemma cleanup_user_other now s uid (symbols : list string) u :
  u ≠ uid →
  muted_symbols (cleanup_user chat_id all_users notice now s (uid, symbols)) !! u
  = muted_symbols s !! u.
Proof.
  intros Hne. unfold cleanup_user.
  assert (H : muted_symbols
                (fold_left (cleanup_symbol chat_id all_users notice now uid) symbols s)
              !! u
              = muted_symbols s !! u).
  { revert s. induction symbols as [|sym symbols IH]; intros s; cbn [fold_left]; [done|].
    by rewrite IH, cleanup_symbol_other_user. }
  destruct (muted_symbols
              (fold_left (cleanup_symbol chat_id all_users notice now uid) symbols s)
            !! uid) as [by_symbol|]; [|done].
  destruct (decide (by_symbol = ∅)); [|done]. cbn. by rewrite lookup_delete_ne.
Qed.

Lemma cleanup_user_not_empty now s uid (symbols : list string) :
  muted_symbols (cleanup_user chat_id all_users notice now s (uid, symbols)) !! uid
  ≠ Some ∅.
Proof.
  unfold cleanup_user.
  destruct (muted_symbols
              (fold_left (cleanup_symbol chat_id all_users notice now uid) symbols s)
            !! uid) as [by_symbol|] eqn:Hm; [|by rewrite Hm].
  destruct (decide (by_symbol = ∅)) as [->|Hne].
  - cbn. by rewrite lookup_delete_eq.
  - rewrite Hm. by intros [= ->].
Qed.

Lemma cleanup_pass_not_empty now (order : list (string * list string)) s u :
  u ∈ map fst order →
  muted_symbols (_mute_cleanup_pass chat_id all_users notice now order s) !! u
  ≠ Some ∅.
Proof.
  unfold _mute_cleanup_pass.
  induction order as [|[uid symbols] order IH] using rev_ind; [by intros ?%elem_of_nil|].
  rewrite map_app, fold_left_app. cbn [map fold_left fst].
  intros Hin. destruct (decide (u = uid)) as [->|Hne].
  - apply cleanup_user_not_empty.
  - rewrite cleanup_user_other by done. apply IH.
    apply elem_of_app in Hin as [?|?%list_elem_of_singleton]; done.
Qed.

Lemma cleanup_symbol_keys now uid s sym :
  is_Some (muted_symbols (cleanup_symbol chat_id all_users notice now uid s sym) !! uid)
  → is_Some (muted_symbols s !! uid).
Proof.
  destruct (cleanup_symbol_but_users now uid s sym) as (_ & _ & _ & _ & _ & _ & ->).
  unfold unmute_expired.
  destruct (muted_symbols s !! uid) as [by_symbol|] eqn:E; [by eauto|].
  by rewrite E.
Qed.

Lemma cleanup_pass_keys now (order : list (string * list string)) s u :
  is_Some (muted_symbols (_mute_cleanup_pass chat_id all_users notice now order s) !! u)
  → is_Some (muted_symbols s !! u).
Proof.
  unfold _mute_cleanup_pass. revert s.
  induction order as [|[uid symbols] order IH]; intros s; cbn [fold_left]; [done|].
  intros H%IH. destruct (decide (u = uid)) as [->|Hne].
  - revert H. unfold cleanup_user.
    assert (Hk : ∀ s1, is_Some (muted_symbols
                   (fold_left (cleanup_symbol chat_id all_users notice now uid)
                      symbols s1) !! uid)
                 → is_Some (muted_symbols s1 !! uid)).
    { induction symbols as [|sym symbols IHs]; intros s1; cbn [fold_left]; [done|].
      intros H%IHs. by apply cleanup_symbol_keys in H. }
    destruct (muted_symbols
                (fold_left (cleanup_symbol chat_id all_users notice now uid) symbols s)
              !! uid) as [by_symbol|] eqn:Hm.
    + intros _. apply Hk. by rewrite Hm.
    + rewrite Hm. by intros [? ?].
  - by rewrite cleanup_user_other in H.
Qed.

(** X27. One pass of the cleanup loop at the instant [now] ends exactly
    the mutes whose time is at or before [now]: their entries leave the
    table, the others stay with their times, and no user is left with an
    empty dictionary.  For a registered user the configuration changes
    only in the blacklist and in the activity flag.  The blacklist loses
    entries and keeps their order: every entry that is lost is the name
    of a mute that ended, and on a blacklist without repetition no name
    of a mute that ended remains.  The activity flag only ever changes
    to inactive, and only when a notice of an ended mute, sent for a user
    who was active when the pass started to a chat that is also the chat
    of the user marked inactive, was answered [Forbidden]; conversely, when the notice
    for a registered user is answered [Forbidden], that user or the first
    user of the same chat is inactive after the pass, and when no notice
    is answered [Forbidden] the configuration changes in the blacklist
    only.  Pending alerts, confirmed ids, alerts and cooldowns are
    untouched (the alerts dropped by the mute do not come back). *)
Theorem mutes_expire now (order : list (string * list string)) s :
  enumerates order (muted_symbols s) →
  let s' := _mute_cleanup_pass chat_id all_users notice now order s in
  (∀ uid sym, muted_until s' uid sym = still_muted now (muted_until s uid sym))
  ∧ (∀ uid, muted_symbols s' !! uid ≠ Some ∅)
  ∧ (∀ uid, match users s !! uid with
            | None => users s' !! uid = None
            | Some cfg =>
                ∃ bl act,
                  users s' !! uid = Some (set_is_active act (set_blacklist bl cfg))
                  ∧ (act = is_active cfg
                     ∨ (act = false
                        ∧ ∃ u sym t c,
                            muted_until s u sym = Some t ∧ t <= now
                            ∧ notice u sym = Forbidden
                            ∧ chat_id u = chat_id uid
                            ∧ users s !! u = Some c ∧ is_active c = true))
                  ∧ bl `sublist_of` blacklist cfg
                  ∧ (∀ x, x ∈ blacklist cfg →
                          x ∈ bl
                          ∨ ∃ sym t, muted_until s uid sym = Some t ∧ t <= now
                                     ∧ x = strip (upper sym))
                  ∧ (NoDup (blacklist cfg) →
                     ∀ sym t, muted_until s uid sym = Some t → t <= now →
                              strip (upper sym) ∉ bl)
            end)
  ∧ (∀ uid sym t w,
       muted_until s uid sym = Some t → t <= now →
       notice uid sym = Forbidden → is_Some (users s !! uid) →
       first_user_of_chat chat_id all_users (users s) (chat_id uid) = Some w →
       inactive (users s') uid ∨ inactive (users s') w)
  ∧ ((∀ uid sym t, muted_until s uid sym = Some t → t <= now →
                   notice uid sym ≠ Forbidden) →
     ∀ uid cfg, users s !! uid = Some cfg →
                ∃ bl, users s' !! uid = Some (set_blacklist bl cfg))
  ∧ pending_alerts s' = pending_alerts s ∧ confirmed_ids s' = confirmed_ids s
  ∧ alerts s' = alerts s ∧ engine s' = engine s.
Proof.
  intros [Husers Hsyms] s'.
  assert (He0 : notices_effective chat_id all_users notice now s s []).
  { intros u k t w []%elem_of_nil. }
  destruct (cleanup_pass_progress now s order s []
              (cleanup_progress_start now s) He0)
    as (D & (H1 & H2 & H3 & H4 & H5 & H6 & Hm & Hu) & He & HD).
  fold s' in H1, H2, H3, H4, H5, H6, Hm, Hu, He.
  assert (Hall : ∀ uid sym t, muted_until s uid sym = Some t → (uid, sym) ∈ D).
  { intros uid sym t Ht. apply HD. right. cbn.
    unfold muted_until in Ht.
    destruct (muted_symbols s !! uid) as [by_symbol|] eqn:Hby; [|done].
    assert (Hin : uid ∈ map fst order) by (apply Husers; by rewrite Hby).
    apply list_elem_of_fmap in Hin as ([uid' symbols] & -> & Hin). cbn in *.
    exists symbols. split; [done|].
    destruct (Hsyms _ _ Hin) as (by_symbol' & Hby' & Hk).
    rewrite Hby in Hby'. injection Hby' as <-. apply Hk. cbn in Ht. by rewrite Ht. }
  assert (Husers' : ∀ uid, match users s !! uid with
            | None => users s' !! uid = None
            | Some cfg =>
                ∃ bl act,
                  users s' !! uid = Some (set_is_active act (set_blacklist bl cfg))
                  ∧ (act = is_active cfg
                     ∨ (act = false
                        ∧ ∃ u sym t c,
                            muted_until s u sym = Some t ∧ t <= now
                            ∧ notice u sym = Forbidden
                            ∧ chat_id u = chat_id uid
                            ∧ users s !! u = Some c ∧ is_active c = true))
                  ∧ bl `sublist_of` blacklist cfg
                  ∧ (∀ x, x ∈ blacklist cfg →
                          x ∈ bl
                          ∨ ∃ sym t, muted_until s uid sym = Some t ∧ t <= now
                                     ∧ x = strip (upper sym))
                  ∧ (NoDup (blacklist cfg) →
                     ∀ sym t, muted_until s uid sym = Some t → t <= now →
                              strip (upper sym) ∉ bl)
            end).
  { intros uid. specialize (Hu uid). destruct (users s !! uid) as [cfg|]; [|done].
    destruct Hu as (bl & act & Hbl & Hact & Hsub & Hkept & Hgone). exists bl, act.
    split_and!; try done.
    - destruct Hact as [?|[? (u & sym & t & _ & ? & ? & ? & ? & c & ? & ?)]];
        [by left|].
      right. split; [done|]. by exists u, sym, t, c.
    - intros x Hx. destruct (Hkept x Hx) as [?|(sym & t & _ & ? & ? & ?)]; [by left|].
      right. by exists sym, t.
    - intros Hnd sym t Ht Hle. apply (Hgone Hnd). exists sym, t.
      split_and!; [by apply (Hall uid sym t)|done..]. }
  split_and!; try done.
  - intros uid sym. rewrite Hm. destruct (decide ((uid, sym) ∈ D)) as [?|Hd]; [done|].
    destruct (muted_until s uid sym) as [t|] eqn:Ht; [|done].
    exfalso. by apply Hd, (Hall uid sym t).
  - intros uid Hempty.
    assert (Hin : uid ∈ map fst order).
    { apply Husers, (cleanup_pass_keys now order s uid). fold s'. by rewrite Hempty. }
    by apply (cleanup_pass_not_empty now order s uid Hin).
  - intros uid sym t w Ht Hle Hn Hreg Hfind.
    apply (He uid sym t w); [by apply (Hall uid sym t)|done..].
  - intros Hnone uid cfg Hcfg. specialize (Husers' uid). rewrite Hcfg in Husers'.
    destruct Husers' as (bl & act & Hbl & Hact & _). exists bl. rewrite Hbl.
    destruct Hact as [->|[_ (u & sym & t & c & Ht & Hle & Hn & _)]].
    + by rewrite <- (set_is_active_same (set_blacklist bl cfg)) at 2.
    + by destruct (Hnone u sym t Ht Hle).
Qed.

End MuteExpiry.

(** A mute of ten minutes set at the instant 0: a pass after eleven
    minutes removes the entry of the table; the user has blocked the bot,
    the notice is answered [Forbidden] and the user is left inactive. *)
Lemma mutes_expire_witness :
  let s0 := initial_system {[ "u1" := default_user "u1" ]} in
  let s1 := snd (_mute_symbol_for_user 0 s0 "u1" "btc" 10) in
  let s2 := _mute_cleanup_pass (fun u => u) ["u1"] (fun _ _ => Forbidden)
              660000000 [("u1", ["BTCUSDT"])] s1 in
  muted_until s1 "u1" "BTCUSDT" = Some 600000000
  ∧ muted_until s2 "u1" "BTCUSDT" = None
  ∧ muted_symbols s2 !! "u1" = None
  ∧ inactive (users s2) "u1"
  ∧ users s2 !! "u1" = Some (set_is_active false (default_user "u1")).
Proof.
  intros s0 s1 s2.
  assert (Hms : muted_symbols s1 = {[ "u1" := {[ "BTCUSDT" := 600000000 ]} ]})
    by (by vm_compute).
  assert (Hen : enumerates [("u1", ["BTCUSDT"])] (muted_symbols s1)).
  { rewrite Hms. split.
    - intros uid [m [<- _]%lookup_singleton_Some]. apply elem_of_cons. by left.
    - intros uid symbols [[= -> ->]|[]%elem_of_nil]%elem_of_cons.
      eexists. split; [apply lookup_singleton_eq|].
      intros sym [t [<- _]%lookup_singleton_Some]. apply elem_of_cons. by left. }
  destruct (mutes_expire (fun u => u) ["u1"] (fun _ _ => Forbidden)
              660000000 [("u1", ["BTCUSDT"])] s1 Hen)
    as (Hm & Hne & _ & Heff & _).
  split_and!.
  - reflexivity.
  - unfold s2. rewrite (Hm "u1" "BTCUSDT"). reflexivity.
  - reflexivity.
  - unfold s2.
    destruct (Heff "u1" "BTCUSDT" 600000000 "u1") as [H|H];
      [reflexivity|lia|reflexivity|by eexists|reflexivity|exact H|exact H].
  - reflexivity.
Defined.

(** ** A due alert is resent *)

Section RepeatLiveness.

Implicit Types (s : System) (uid aid : string) (l : positive) (a : Alert)
  (cfg : UserConfig) (d : odict positive).

Lemma update_user_other (us : UserManager) (k k' : string) (b : bool) :
  k' ≠ k → update_user_is_active us k b !! k' = us !! k'.
Proof.
  intros Hne. unfold update_user_is_active.
  destruct (us !! k); [|done]. by rewrite lookup_insert_ne.
Qed.

Lemma send_once_users_other s l cfg now tg (k : string) :
  k ≠ user_id cfg → users (snd (_send_once s l cfg now tg)) !! k = users s !! k.
Proof.
  intros Hne. unfold _send_once.
  destruct (bool_decide _ || bool_decide _); [|done].
  destruct tg; cbn; try done. by apply update_user_other.
Qed.

Lemma keyed_same_but_activity (us us' : UserManager) :
  same_but_activity us us' → keyed_by_user_id us → keyed_by_user_id us'.
Proof.
  intros Hs Hk k c Hc. destruct (Hs k) as [E|(c0 & Hc0 & E)].
  - apply Hk. congruence.
  - rewrite E in Hc. injection Hc as <-. exact (Hk k c0 Hc0).
Qed.

Lemma repeat_alert_users_other now tg uid interval M s tr aid l (k : string) :
  keyed_by_user_id (users s) → k ≠ uid →
  users (fst (repeat_alert now tg uid interval M (s, tr) (aid, l))) !! k
  = users s !! k.
Proof.
  intros Hk Hne. unfold repeat_alert.
  destruct (users s !! uid) as [cfg|] eqn:Hu; [|done].
  destruct (alerts s !! l) as [a|]; [|done].
  destruct (_is_confirmed s uid aid); [done|].
  destruct (negb (should_monitor cfg (symbol a))); [done|].
  destruct (M <=? sent_count a); [done|].
  destruct (last_sent a) as [ls|]; [|done].
  destruct (interval <=? now - ls); [|done].
  pose proof (send_once_users_other s l cfg now (tg uid aid) k) as Ho.
  rewrite (Hk uid cfg Hu) in Ho. specialize (Ho Hne).
  by destruct (_send_once s l cfg now (tg uid aid)) as [[|] s1].
Qed.

Lemma repeat_alerts_users_other now tg uid interval M d (k : string) :
  ∀ s tr, keyed_by_user_id (users s) → k ≠ uid →
  users (fst (fold_left (repeat_alert now tg uid interval M) d (s, tr))) !! k
  = users s !! k.
Proof.
  induction d as [|[aid l] rest IH]; intros s tr Hk Hne; cbn [fold_left]; [done|].
  pose proof (repeat_alert_users_other now tg uid interval M s tr aid l k Hk Hne) as H1.
  destruct (repeat_alert_step now tg uid interval M s tr aid l) as [(_ & _ & _ & Hs) _].
  destruct (repeat_alert now tg uid interval M (s, tr) (aid, l)) as [s1 tr1].
  cbn [fst] in *. rewrite IH; [done| |done]. by eapply keyed_same_but_activity.
Qed.

Lemma repeat_user_users_other now tg s uid (k : string) :
  keyed_by_user_id (users s) → k ≠ uid →
  users (repeat_user now tg s uid) !! k = users s !! k.
Proof.
  intros Hk Hne. unfold repeat_user.
  destruct (od_get uid (pending_alerts s)) as [d|]; [|done].
  destruct (users s !! uid) as [cfg|]; [|done].
  destruct (is_active cfg); [|done].
  destruct (_ && _); [done|].
  pose proof (repeat_alerts_users_other now tg uid
                (timedelta_seconds (interval_seconds (get_repeat_config cfg now)))
                (max_repeats (get_repeat_config cfg now)) d k s [] Hk Hne) as H.
  by destruct (fold_left _ d (s, [])) as [s' to_remove].
Qed.

(** The entry that is due is sent again when the loop reaches it. *)
Lemma repeat_alert_resend now tg uid interval M s tr aid l a cfg ls :
  alerts s !! l = Some a → users s !! uid = Some cfg →
  _is_confirmed s uid aid = false → should_monitor cfg (symbol a) = true →
  sent_count a < M → last_sent a = Some ls → interval <= now - ls →
  alerts (fst (repeat_alert now tg uid interval M (s, tr) (aid, l))) !! l
  = Some (alert_mark_sent now a).
Proof.
  intros Ha Hu Hc Hm Hcnt Hls Hint. unfold repeat_alert.
  rewrite Hu, Ha, Hc, Hm, Hls. cbn [negb].
  destruct (Z.leb_spec M (sent_count a)); [lia|].
  destruct (Z.leb_spec interval (now - ls)); [|lia].
  destruct (send_once_frame s l cfg now (tg uid aid)) as [_ Hal].
  destruct (_send_once s l cfg now (tg uid aid)) as [[|] s1]; cbn [fst snd] in *;
    by rewrite Hal, lookup_alter_eq, Ha.
Qed.

Lemma repeat_alerts_resend now tg uid interval M d :
  ∀ s tr aid l a cfg ls,
  NoDup (alert_refs d) → (aid, l) ∈ d →
  alerts s !! l = Some a → users s !! uid = Some cfg →
  _is_confirmed s uid aid = false → should_monitor cfg (symbol a) = true →
  sent_count a < M → last_sent a = Some ls → interval <= now - ls →
  alerts (fst (fold_left (repeat_alert now tg uid interval M) d (s, tr))) !! l
  = Some (alert_mark_sent now a).
Proof.
  induction d as [|[aid1 l1] rest IH];
    intros s tr aid l a cfg ls Hnd Hin Ha Hu Hc Hm Hcnt Hls Hint;
    [by apply elem_of_nil in Hin|].
  cbn [alert_refs map snd] in Hnd. apply NoDup_cons in Hnd as [Hl1 Hnd].
  cbn [fold_left]. apply elem_of_cons in Hin as [[= <- <-]|Hin].
  - pose proof (repeat_alert_resend now tg uid interval M s tr aid l a cfg ls
                  Ha Hu Hc Hm Hcnt Hls Hint) as H1.
    destruct (repeat_alert now tg uid interval M (s, tr) (aid, l)) as [s1 tr1].
    cbn [fst] in H1.
    destruct (repeat_alerts_fold now tg uid interval M rest s1 tr1 Hnd) as (_ & Hout & _).
    by rewrite Hout.
  - assert (Hne : l ≠ l1).
    { intros ->. apply Hl1. by eapply entry_ref. }
    destruct (repeat_alert_step now tg uid interval M s tr aid1 l1)
      as [(_ & Hconf & _ & Hs) Hal].
    destruct (repeat_alert now tg uid interval M (s, tr) (aid1, l1)) as [s1 tr1].
    cbn [fst] in *.
    assert (Ha1 : alerts s1 !! l = Some a).
    { destruct Hal as [->|[-> _]]; [done|]. by rewrite lookup_alter_ne. }
    assert (Hc1 : _is_confirmed s1 uid aid = false)
      by (unfold _is_confirmed in *; by rewrite Hconf).
    destruct (Hs uid) as [E|(c & Hc0 & E)].
    + apply (IH s1 tr1 aid l a cfg ls); try done. congruence.
    + rewrite Hu in Hc0. injection Hc0 as <-.
      by apply (IH s1 tr1 aid l a (set_is_active false cfg) ls).
Qed.

Lemma repeat_user_resend now tg s uid d aid l a cfg ls :
  NoDup (pending_refs (pending_alerts s)) →
  od_get uid (pending_alerts s) = Some d → (aid, l) ∈ d →
  alerts s !! l = Some a → users s !! uid = Some cfg → is_active cfg = true →
  repeat_enabled (get_repeat_config cfg now) = true →
  _is_confirmed s uid aid = false → should_monitor cfg (symbol a) = true →
  sent_count a < max_repeats (get_repeat_config cfg now) →
  last_sent a = Some ls →
  timedelta_seconds (interval_seconds (get_repeat_config cfg now)) <= now - ls →
  alerts (repeat_user now tg s uid) !! l = Some (alert_mark_sent now a).
Proof.
  intros Hnd Hd Hin Ha Hu Hact Hen Hc Hm Hcnt Hls Hint. unfold repeat_user.
  rewrite Hd, Hu, Hact, Hen. cbn [negb andb].
  pose proof (repeat_alerts_resend now tg uid
                (timedelta_seconds (interval_seconds (get_repeat_config cfg now)))
                (max_repeats (get_repeat_config cfg now)) d s [] aid l a cfg ls
                (user_refs_NoDup uid d _ Hnd Hd) Hin Ha Hu Hc Hm Hcnt Hls Hint) as H.
  by destruct (fold_left _ d (s, [])) as [s' to_remove].
Qed.

Lemma repeat_users_resend now tg uid aid l a cfg ls (ks : list string) :
  ∀ s d,
  NoDup ks → uid ∈ ks →
  NoDup (pending_refs (pending_alerts s)) → keyed_by_user_id (users s) →
  od_get uid (pending_alerts s) = Some d → (aid, l) ∈ d →
  alerts s !! l = Some a → users s !! uid = Some cfg → is_active cfg = true →
  repeat_enabled (get_repeat_config cfg now) = true →
  _is_confirmed s uid aid = false → should_monitor cfg (symbol a) = true →
  sent_count a < max_repeats (get_repeat_config cfg now) →
  last_sent a = Some ls →
  timedelta_seconds (interval_seconds (get_repeat_config cfg now)) <= now - ls →
  alerts (fold_left (repeat_user now tg) ks s) !! l = Some (alert_mark_sent now a).
Proof.
  induction ks as [|k rest IH];
    intros s d Hks Hin Hnd Hkey Hd Hentry Ha Hu Hact Hen Hc Hm Hcnt Hls Hint;
    [by apply elem_of_nil in Hin|].
  apply NoDup_cons in Hks as [Hk Hrest]. cbn [fold_left].
  destruct (repeat_user_pass now tg s k Hnd)
    as (A1 & A2 & A3 & A4 & A5 & A6 & A7 & A8).
  assert (Hnd1 : NoDup (pending_refs (pending_alerts (repeat_user now tg s k))))
    by (by eapply submseteq_NoDup).
  destruct (decide (k = uid)) as [->|Hne].
  - pose proof (repeat_user_resend now tg s uid d aid l a cfg ls Hnd Hd Hentry Ha Hu
                  Hact Hen Hc Hm Hcnt Hls Hint) as H1.
    destruct (repeat_users_fold now tg rest (repeat_user now tg s uid) Hrest Hnd1)
      as (_ & _ & _ & _ & _ & B6 & _ & B8).
    destruct (B8 l) as [E|(u & Hu' & du & aid' & a' & cfg' & K1 & K2 & _)];
      [by rewrite E|].
    exfalso. assert (Hneq : u ≠ uid) by (by intros ->).
    rewrite A6 in K1 by done.
    apply (user_refs_disjoint u uid du d (pending_alerts s) l Hnd Hneq K1 Hd);
      by eapply entry_ref.
  - apply elem_of_cons in Hin as [->|Hin]; [done|].
    apply (IH (repeat_user now tg s k) d); try done.
    + by eapply keyed_same_but_activity.
    + by rewrite A6.
    + destruct (A8 l) as [E|(dk & aidk & ak & cfgk & K1 & K2 & _)]; [by rewrite E|].
      exfalso.
      apply (user_refs_disjoint k uid dk d (pending_alerts s) l Hnd Hne K1 Hd);
        by eapply entry_ref.
    + by rewrite repeat_user_users_other.
    + unfold _is_confirmed in *. by rewrite A1.
Qed.

(** X28. A pass of the repeat loop resends every alert that is due.  In
    a well-formed state whose registry holds each configuration under
    its own user id, an alert that is pending for an active user whose
    repeat configuration is enabled at the instant of the pass, that is
    not acknowledged, whose symbol the user monitors, that has been sent
    fewer times than [max_repeats], and whose last send is at least
    [interval_seconds] old, is sent once more during the pass: its
    [sent_count] grows by one and its [last_sent] becomes the instant of
    the pass, whatever the transport answers for this or any other
    alert. *)
Theorem due_alert_is_resent now tg s uid d aid l a cfg ls :
  wf_system s → keyed_by_user_id (users s) →
  od_get uid (pending_alerts s) = Some d → (aid, l) ∈ d →
  alerts s !! l = Some a → users s !! uid = Some cfg → is_active cfg = true →
  repeat_enabled (get_repeat_config cfg now) = true →
  _is_confirmed s uid aid = false → should_monitor cfg (symbol a) = true →
  sent_count a < max_repeats (get_repeat_config cfg now) →
  last_sent a = Some ls →
  timedelta_seconds (interval_seconds (get_repeat_config cfg now)) <= now - ls →
  alerts (repeat_tick now tg s) !! l = Some (alert_mark_sent now a).
Proof.
  intros (Hnd & Hkeys & _) Hkey Hd Hin Ha Hu Hact Hen Hc Hm Hcnt Hls Hint.
  unfold repeat_tick.
  apply (repeat_users_resend now tg uid aid l a cfg ls (od_keys (pending_alerts s))
           s d); try done.
  destruct (decide (uid ∈ od_keys (pending_alerts s))) as [?|Hno]; [done|].
  apply od_get_None_keys in Hno. congruence.
Qed.

(** An alert sent at 12:00 local time to a user in REPEAT mode with an
    interval of ten seconds: the pass ten seconds later sends it a
    second time, here with a transport that fails. *)
Lemma due_alert_is_resent_witness :
  let cfg := repeat_mode_user "u2" in
  let a := new_alert "a1b2c3d4" "YUSDT" PRICE_PUMP WARNING in
  let s := _emit (initial_system {[ "u2" := cfg ]}) a "u2" (4 * hour_us) Delivered in
  let s' := repeat_tick (4 * hour_us + 10000000) (fun _ _ => NetworkError) s in
  ∃ a', alerts s' !! 1%positive = Some a'
        ∧ sent_count a' = 2
        ∧ last_sent a' = Some (4 * hour_us + 10000000).
Proof.
  intros cfg a s s'.
  set (a0 := alert_mark_sent (4 * hour_us) (alert_set_target "u2" a)).
  exists (alert_mark_sent (4 * hour_us + 10000000) a0).
  split; [|split; reflexivity].
  apply (due_alert_is_resent (4 * hour_us + 10000000) (fun _ _ => NetworkError) s
           "u2" [("a1b2c3d4", 1%positive)] "a1b2c3d4" 1%positive a0 cfg
           (4 * hour_us)).
  - exact (wf_reachable {[ "u2" := cfg ]} [EvEmit a "u2" (4 * hour_us) Delivered]).
  - assert (Hus : users s = {[ "u2" := cfg ]}) by (by vm_compute).
    rewrite Hus. by intros k c [<- <-]%lookup_singleton_Some.
  - reflexivity.
  - apply elem_of_cons. by left.
  - reflexivity.
  - reflexivity.
  - reflexivity.
  - reflexivity.
  - reflexivity.
  - reflexivity.
  - by vm_compute.
  - reflexivity.
  - by vm_compute.
Defined.

End RepeatLiveness.

(** ** Switching the daytime mode *)

Section AlertModeSwitch.

Implicit Types (s : System) (uid aid : string) (l : positive) (a : Alert)
  (cfg : UserConfig) (d : odict positive) (m : AlertMode).

Lemma set_mode_night m cfg now :
  is_night_time (set_mode m cfg) now = is_night_time cfg now.
Proof. done. Qed.

Lemma set_mode_repeat_config m cfg now :
  let rc := get_repeat_config cfg now in
  let rc' := get_repeat_config (set_mode m cfg) now in
  interval_seconds rc' = interval_seconds rc
  ∧ max_repeats rc' = max_repeats rc
  ∧ (repeat_enabled (repeat (alert_mode cfg)) = true → repeat_enabled rc' = true).
Proof.
  cbn. unfold get_repeat_config. rewrite set_mode_night.
  destruct (is_night_time cfg now && night_enabled (night (alert_mode cfg))) eqn:Hn.
  - replace (night_enabled (night (alert_mode (set_mode m cfg))))
      with (night_enabled (night (alert_mode cfg))) by done.
    by rewrite Hn.
  - replace (night_enabled (night (alert_mode (set_mode m cfg))))
      with (night_enabled (night (alert_mode cfg))) by done.
    rewrite Hn. destruct m; cbn; split_and!; try done.
    rewrite !bool_decide_eq_false_2 by done. by intros ->.
Qed.

(** X29. Switching a user to SINGLE mode does not stop the repetition of
    the alerts that are already pending.  [set_alert_mode] with REPEAT
    sets [repeat.enabled], and with SINGLE leaves it as it is; so after
    a switch back to SINGLE the mode is SINGLE, by day the effective
    mode is SINGLE (new alerts are sent once), and yet a pass of the
    repeat loop still resends a pending alert of that user that is due,
    exactly as in REPEAT mode. *)
Theorem single_mode_keeps_repeating now tg s uid d aid l a cfg ls :
  wf_system s → keyed_by_user_id (users s) →
  od_get uid (pending_alerts s) = Some d → (aid, l) ∈ d →
  alerts s !! l = Some a → users s !! uid = Some cfg → is_active cfg = true →
  repeat_enabled (repeat (alert_mode cfg)) = true →
  _is_confirmed s uid aid = false → should_monitor cfg (symbol a) = true →
  sent_count a < max_repeats (get_repeat_config cfg now) →
  last_sent a = Some ls →
  timedelta_seconds (interval_seconds (get_repeat_config cfg now)) <= now - ls →
  let s1 := with_users (set_alert_mode (users s) uid SINGLE) s in
  (∀ us c, us !! uid = Some c →
     ∃ c', set_alert_mode us uid REPEAT !! uid = Some c'
           ∧ mode (alert_mode c') = REPEAT
           ∧ repeat_enabled (repeat (alert_mode c')) = true)
  ∧ (∃ cfg1, users s1 !! uid = Some cfg1
       ∧ mode (alert_mode cfg1) = SINGLE
       ∧ repeat_enabled (repeat (alert_mode cfg1)) = true
       ∧ (is_night_time cfg1 now = false → get_effective_mode cfg1 now = SINGLE))
  ∧ alerts (repeat_tick now tg s1) !! l = Some (alert_mark_sent now a).
Proof.
  intros (Hnd & Hkeys & Hwf) Hkey Hd Hin Ha Hu Hact Hen Hc Hm Hcnt Hls Hint s1.
  assert (Hu1 : users s1 !! uid = Some (set_mode SINGLE cfg)).
  { cbn. unfold set_alert_mode. rewrite Hu. by rewrite lookup_insert_eq. }
  destruct (set_mode_repeat_config SINGLE cfg now) as (Hi & Hmax & Hen').
  split_and!.
  - intros us c Hc'. exists (set_mode REPEAT c). split; [|done].
    unfold set_alert_mode. rewrite Hc'. by rewrite lookup_insert_eq.
  - exists (set_mode SINGLE cfg). split_and!; [done|done|done|].
    intros Hday. unfold get_effective_mode. rewrite Hday.
    by rewrite !andb_false_r.
  - unfold repeat_tick.
    apply (repeat_users_resend now tg uid aid l a (set_mode SINGLE cfg) ls
             (od_keys (pending_alerts s1)) s1 d); try done.
    + destruct (decide (uid ∈ od_keys (pending_alerts s))) as [?|Hno]; [done|].
      apply od_get_None_keys in Hno. congruence.
    + intros k c. cbn. unfold set_alert_mode. rewrite Hu.
      destruct (decide (k = uid)) as [->|Hne].
      * rewrite lookup_insert_eq. intros [= <-]. cbn. by apply Hkey.
      * rewrite lookup_insert_ne by done. apply Hkey.
    + by apply Hen'.
    + by rewrite Hmax.
    + by rewrite Hi.
Qed.

(** An alert sent to a user in REPEAT mode; the user then switches to
    SINGLE mode, and the pass ten seconds after the first send still
    sends the alert a second time. *)
Lemma single_mode_keeps_repeating_witness :
  let cfg := repeat_mode_user "u2" in
  let a := new_alert "a1b2c3d4" "YUSDT" PRICE_PUMP WARNING in
  let s := _emit (initial_system {[ "u2" := cfg ]}) a "u2" (4 * hour_us) Delivered in
  let s1 := with_users (set_alert_mode (users s) "u2" SINGLE) s in
  let s2 := repeat_tick (4 * hour_us + 10000000) (fun _ _ => Delivered) s1 in
  (∃ cfg1, users s1 !! "u2" = Some cfg1 ∧ mode (alert_mode cfg1) = SINGLE)
  ∧ ∃ a', alerts s2 !! 1%positive = Some a' ∧ sent_count a' = 2.
Proof.
  intros cfg a s s1 s2.
  set (a0 := alert_mark_sent (4 * hour_us) (alert_set_target "u2" a)).
  destruct (single_mode_keeps_repeating (4 * hour_us + 10000000)
              (fun _ _ => Delivered) s "u2" [("a1b2c3d4", 1%positive)] "a1b2c3d4"
              1%positive a0 cfg (4 * hour_us))
    as (_ & (cfg1 & H1 & H2 & _) & H3).
  - exact (wf_reachable {[ "u2" := cfg ]} [EvEmit a "u2" (4 * hour_us) Delivered]).
  - assert (Hus : users s = {[ "u2" := cfg ]}) by (by vm_compute).
    rewrite Hus. by intros k c [<- <-]%lookup_singleton_Some.
  - reflexivity.
  - apply elem_of_cons. by left.
  - reflexivity.
  - reflexivity.
  - reflexivity.
  - reflexivity.
  - reflexivity.
  - reflexivity.
  - by vm_compute.
  - reflexivity.
  - by vm_compute.
  - split; [by exists cfg1|].
    exists (alert_mark_sent (4 * hour_us + 10000000) a0). by split.
Defined.

End AlertModeSwitch.

(** ** Levels and magnitudes *)

Section LevelOrder.

Implicit Types (x y t : Q).

Ltac float_cases :=
  repeat match goal with
         | |- context [float_ge ?a ?b] =>
             let H := fresh "H" in
             destruct (float_ge a b) eqn:H;
             [apply float_ge_iff in H|apply float_ge_false_iff in H]
         | |- context [float_le ?a ?b] =>
             let H := fresh "H" in
             destruct (float_le a b) eqn:H;
             [apply float_le_iff in H|apply float_le_false_iff in H]
         end.

(** A classifier by three ascending thresholds is monotone. *)
Lemma three_steps_mono (t1 t2 t3 v w : Q) :
  (t1 <= t2)%Q → (t2 <= t3)%Q → (v <= w)%Q →
  priority (if float_ge v t3 then EXTREME else if float_ge v t2 then CRITICAL
            else if float_ge v t1 then WARNING else INFO)
  <= priority (if float_ge w t3 then EXTREME else if float_ge w t2 then CRITICAL
               else if float_ge w t1 then WARNING else INFO).
Proof.
  intros H12 H23 Hvw. float_cases; cbn; first [lia|exfalso; lra].
Qed.

Lemma py_abs_spec x :
  ((0 <= x)%Q ∧ py_abs x = x) ∨ ((x < 0)%Q ∧ py_abs x = (- x)%Q).
Proof.
  unfold py_abs. destruct (Qle_bool 0 x) eqn:H.
  - left. by apply Qle_bool_iff in H.
  - right. split; [|done]. apply Qnot_le_lt. intros Hle%Qle_bool_iff. congruence.
Qed.

Lemma float_ge_abs_opp x t : float_ge (py_abs (- x)) t = float_ge (py_abs x) t.
Proof.
  destruct (py_abs_spec x) as [[H1 ->]|[H1 ->]],
           (py_abs_spec (- x)) as [[H2 ->]|[H2 ->]];
    float_cases; first [done|exfalso; lra].
Qed.

(** X30. Levels grow with magnitudes: a price change, a spread or a
    funding rate of greater absolute value, a greater volume ratio, and
    a greater order value against the same turnover never get a lower
    level; so an escalation, which needs a strictly higher level, needs
    a strictly greater magnitude.  The level of a change, a spread or a
    rate does not depend on its sign. *)
Theorem levels_grow_with_magnitude :
  (∀ x y, (py_abs x <= py_abs y)%Q →
          priority (_get_price_level x) <= priority (_get_price_level y))
  ∧ (∀ x y, (py_abs x <= py_abs y)%Q →
            priority (_get_spread_level x) <= priority (_get_spread_level y))
  ∧ (∀ x y, (py_abs x <= py_abs y)%Q →
            priority (_get_funding_level x) <= priority (_get_funding_level y))
  ∧ (∀ x y, (x <= y)%Q →
            priority (_get_volume_level x) <= priority (_get_volume_level y))
  ∧ (∀ (N N' V : Q) lvl lvl', (N <= N')%Q →
       _get_big_order_level N V = Ok lvl → _get_big_order_level N' V = Ok lvl' →
       priority lvl <= priority lvl')
  ∧ (∀ x, _get_price_level (- x) = _get_price_level x
          ∧ _get_spread_level (- x) = _get_spread_level x
          ∧ _get_funding_level (- x) = _get_funding_level x)
  ∧ (∀ x y, priority (_get_price_level x) < priority (_get_price_level y) →
            (py_abs x < py_abs y)%Q).
Proof.
  assert (Hprice : ∀ x y, (py_abs x <= py_abs y)%Q →
            priority (_get_price_level x) <= priority (_get_price_level y)).
  { intros x y H. unfold _get_price_level. apply three_steps_mono; [lra|lra|done]. }
  split_and!.
  - done.
  - intros x y H. unfold _get_spread_level. apply three_steps_mono; [lra|lra|done].
  - intros x y H. unfold _get_funding_level. apply three_steps_mono; [lra|lra|done].
  - intros x y H. unfold _get_volume_level. apply three_steps_mono; [lra|lra|done].
  - intros N N' V lvl lvl' HN.
    destruct (Qlt_le_dec 0 V) as [HV|HV].
    + rewrite !big_order_level_positive by done. intros [= <-] [= <-].
      assert (Hr : (N / V * 100 <= N' / V * 100)%Q).
      { apply Qmult_le_compat_r; [|lra]. unfold Qdiv.
        apply Qmult_le_compat_r; [done|]. apply Qlt_le_weak. by apply Qinv_lt_0_compat. }
      cbv zeta. revert Hr. generalize (N / V * 100)%Q (N' / V * 100)%Q. intros r r' Hr.
      float_cases; cbn; first [lia|exfalso; lra].
    + rewrite !big_order_level_no_turnover by done. intros [= <-] [= <-].
      unfold level_by_value. apply three_steps_mono; [lra|lra|done].
  - intros x. unfold _get_price_level, _get_spread_level, _get_funding_level.
    by rewrite !float_ge_abs_opp.
  - intros x y Hlt. apply Qnot_le_lt. intros Hle. specialize (Hprice y x Hle). lia.
Qed.

End LevelOrder.
